(* ===== verification/_CoqProject ===== *)
-Q . S2P
Prelude.v
Mem.v
Cstring.v
Alloc.v
KList.v
Heap.v
HeapSpec.v
Realloc.v
Bmap.v
Pmem.v
Reserve.v
Log.v
Sched.v
Intr.v
Tmr.v
RoundRobin.v
Start.v
Stka.v
Vmem.v
PmemPool.v
Cga.v
Gdt.v
Cpu.v
Rd.v
Mboot.v
Clock.v
Ksym.v
Path.v
Trap.v
Process.v
BootSeq.v
Life.v
TestThreads.v
Apic.v
CpuInit.v
Gates.v
Boot.v
VmemDump.v
Rme.v
RmeSpec.v
RmeAlu.v
RmeRun.v
Rm.v
