(* ===== verification/Prelude.v ===== *)
(** * tachyon: a verification library for the tachyon3 kernel

    tachyon3 is a small x86_64 kernel in C.  The boot loader hands it a memory
    map, modules and a command line; it sets up physical memory, a kernel heap,
    page tables, descriptor tables, interrupt controllers and clocks, and then
    runs threads of processes under a priority scheduler.  This library is a
    shallow embedding of that C code: each function is a Rocq function of the
    same name, and the theorems are about these functions.

    ** Conventions

    An integer of [w] bits is a [Z]; where the C type can overflow, the
    operation is followed by [u8], [u16], [u32], [u64], [s32] or [s64].  A
    function with effects is a [M St A], a state-passing function into
    [outcome]: it returns ([Ret]), stops the machine ([Fatal], the macro
    [fatal]), touches an address nothing answers at ([Fault]), waits for a lock
    that nobody gives back ([Deadlock]), or uses up its fuel ([NoFuel]).  [wp c
    Q s] says that [c] returns from [s], and with a result and state in [Q]:
    it is total correctness.  [wpf c Q s] also admits an end in [fatal], which
    the allocators have when physical pages run out or a bitmap search fails;
    it excludes faults, deadlocks and running out of fuel.  Log output (trace,
    debug, info, warn, error) has no effect on the models.

    Loops that the source bounds by a counter are structural.  A loop that
    runs until the data ends takes fuel: one step per character of a string,
    per node of a list, per block of a heap or per byte of the memory map.
    The theorems say that this much is enough (they conclude a result, never
    [NoFuel]); mmap_walk_ends says it for arbitrary contents.  The emulator
    takes one step per prefix of an instruction, and RME_Call one per
    instruction; its string loops run (CX - 1) mod 2^16 + 1 turns at most.

    ** Parts and files

    - Prelude: machine integers, outcomes, the monad and its [wp] rules, the
      tactics and shared lemmas; the alignment macros of tachyon.h.
    - Mem: byte-addressed memory and src/mem.c.  Cstring: string.c, char.c and
      trim.c on it.
    - Alloc: the interface [KHeap] of the kernel heap that its clients are
      proved against, with a bump allocator as instance.
    - KList: list.c in memory against [KHeap], and the abstract list [alist]
      it refines.  The components that keep lists (Sched, Intr, Tmr, Stka,
      Ksym) use [alist] and its operations.
    - Heap, HeapSpec: heap.c and kheap.c, with headers and footers in memory;
      pages come from the interface [HeapEnv] (pmem_alloc, vmem_map, the list
      of global mappings).  HeapSpec relates the operations to a list of
      blocks, and shows that a local heap implements [KHeap].  Realloc:
      heap_realloc on that list, in place, into the next block, or by a move.
    - Bmap, Pmem: bmap.c and pmem.c, physical pages in regions with bitmaps.
      Reserve: pmem_reserve and the allocations that follow it.
    - Vmem, VmemDump: vmem.c, vmem_mgmt.c and spc.c: page tables in physical
      memory, reached through the ten slots of the mapspace.  Frames come from
      the interface [PagePool]; PmemPool discharges its laws with pmem.c.
    - Sched: thread.c, context.c, sched.c, idle.c and the current process.
      Process: prc_new, prc_destroy and thr_delete.  Stka: stka.c.
    - RoundRobin: sched_schedule over time.  Start: sched_start and the ticks
      of tmr.c that call it, the composition of Tmr and Sched.  BootSeq: the
      processes and threads boot() and boot_next() of tachyon.c make, the
      composition of Process, Sched and Start.  Life: the trampoline of uapi.c
      and the steps threads take, as a relation.  TestThreads: the two test
      threads of tachyon.c, the one in user mode run through Trap and Log.
    - Intr: intr.c and syscall.c.  Trap: the handlers of sched.c, thread.c,
      log.c and pgflt.c run through the gates, on threads and stacks: the
      composition of Intr, Sched and Stka, with log_write a parameter.
    - Log: log.c.  Cga, Boot: its writers cga.c and serial.c.
    - Tmr: tmr.c and systime.c.  Clock: rtc.c, tsc.c, lapic_tmr.c, msr.c.
    - Mboot: mboot.c and cmd.c against the interface [BootEnv].  Rd: the tool
      tools/apps/rd/rd.c, which makes the RAM disk mboot.c looks for, on a
      model of a directory.
    - Gdt: dyngdt.c, tss.c and the segments of cpu.c.  Cpu: the rest of cpu.c.
      Apic: lapic.c and ioapic.c.  CpuInit: cpu_init and cpu_bsp_init as a
      whole, the composition of Gdt, Stka, Apic and Cpu.  Gates: the interrupt
      gates after boot.  Ksym: ksym.c and extp.c.  Path: path.c.
      Boot: serial.c, bss.c, uapi.c, vfs.c and rd.c.
    - Rme: contrib/rme2/rme.c, the emulator of real mode code: registers,
      window of low memory, flags, decoder and one definition per group of
      instructions.  RmeSpec: the invariant [rme_ok] and typed handlers.
      RmeAlu: values and flags against the manual.  RmeRun: instructions as
      steps, calls, string copies, interrupts.  Rm: rm.c on top of it.

    Each file ends with a module of concrete states (ListDemo, HeapDemo, ...)
    on which its theorems are applied.

    ** What the theorems show

    - Memory management.  heap_alloc is first fit on the list of blocks and
      heap_free merges with both neighbours, the invariant is established by
      heap_init and kept, and freeing undoes allocating; NULL comes back only
      when no block fits and the heap can not grow.  heap_realloc keeps the
      data and all other blocks; the theorem names the three cases in which
      the heap is not well-formed after it or the data goes to address 0.
      pmem_alloc hands out pages whose bits were clear; it and pmem_reserve set
      exactly the bits [marks] gives, and pmem_free clears the same ones.  These
      are the pages' own bits at positions below 31 of a 64-bit word, where the
      shift of bmap.c reaches them; on such runs ([good_run]) freeing undoes
      allocating, and pages that pmem_reserve took are never handed out.
      pmem_add clips.
      vmem_resolve gives the base of the page that the processor's walk finds,
      on tables the kernel makes ([plain]: no 1 GB pages, entries present or
      zero); vmem_map and vmem_unmap change one page's translation and no
      other, keep the tables a tree and return all mapspace slots; the dump
      lists what the walk reaches.  bmap_search finds the first bit of the
      wanted value from where it starts, or fails when there is none.
    - Data structures and strings.  The list operations refine [alist]; the
      string routines equal functions on lists of bytes; printing and parsing
      numbers are inverse; descriptors decode to what they were made of.
    - Control.  sched_schedule loses and duplicates no thread and takes the
      first runnable one of the highest priority; the runnable threads of that
      priority run in turn, one time slice each; a thread that has ended never
      runs again, whatever the others do; the test thread in user mode prints
      what it says and ends; dispatch stops at the first
      handler that accepts; the system call number reaches its service; every
      branch of the page fault handler; stacks lie apart with guard pages.
      cpu_bsp_init leaves a processor whose segments, task state, APIC and
      locals are what threads need; every interrupt reaches its handler.
    - Boot.  The boot sequence makes the core process with the initial
      thread, the idle thread and the kernel threads, and the user process with
      its thread; the kernel threads and the user thread all get the processor,
      in order, with the ticks after sched_start.  The walk over the memory map
      ends and registers exactly the available regions; the command line is cut
      into parts that tile it; the RAM disk is mapped inside its window or, by
      the size check, not at all; packing and unpacking files is the identity,
      unpacking never overwrites, and a bad image is rejected.  Calibration of
      the clock ends with the right frequency.
    - Real mode.  An instruction of the emulator keeps registers, flags and
      bytes within their widths, stays inside the window and ends with a
      documented code, string loops included; arithmetic and the unsigned
      jumps agree with the manual (the exceptions are stated); CALL and RET
      match, REP MOVSB copies; an interrupt whose handler comes to IRET makes
      rm_int return with the caller's stack pointer and flags.
    - Deviations.  Where the code does not do what it is meant to, a theorem
      says what it does instead; for example list_insert_head_drops,
      bmap_set_wraps, heap_realloc_then_alloc_aliases, uapi_skips_pages,
      path_string_overruns, pmem_reserve_skips_page, pmem_alloc_twice,
      bmap_search_short_run, heap_realloc_no_memory, log_string_overruns,
      vmem_resolve_drops_offset, vmem_unmap_unaligned, extract_reads_past_name,
      not_neg_word_spins, int3_again, out_swapped, cmp_signed_jumps,
      adc_carry_lost, div_ax_rereads.

    ** Bounds and assumptions

    Interrupts do not arrive inside a function, and there is one processor; a
    lock that is taken when spl_lock is called stays taken.  Physical memory
    answers at every address.  The mapspace has ten slots.  The theorems
    about heaps are for heaps that are local to one space; growth of a global
    one is covered by heap_grow_global_breaks_map.
    vmem_map_resolves and vmem_unmap_removes are for 4 KB pages.  A region of
    physical memory may have any size, with storage for all its bits and an
    end at most at 2^52 ([pm_wf]).  Only the laws of [PagePool] are proved for
    regions of at most 32 pages (PmemPool): beyond, a page can be handed out
    twice and the laws do not hold.

    ** Not modelled

    What the ports answer to the emulator (a parameter); the
    assembly files but for the spin lock; of boot() and boot_next() in
    tachyon.c the composition with the initialisations of memory, command line,
    user API, screen, emulator and file system (each is modelled with its
    component); abort.c;
    libs/libu and apps/hello; intr_dump_idt, which prints; the symbol
    table the build generates and the linker's section addresses, which are
    arguments. *)

From stdpp Require Export base tactics numbers list gmap strings.
From Stdlib Require Export ZArith Lia.

#[export] Set Default Goal Selector "!".

Declare Scope kernel_scope.
Delimit Scope kernel_scope with kernel.
#[global] Open Scope Z_scope.
#[global] Open Scope kernel_scope.

(** ** Machine integers

    A C integer of width [w] is a [Z]; every operation that can leave the
    range is followed by the wrap-around of its C type. *)

Definition u8 (x : Z) : Z := x mod 2 ^ 8.
Definition u16 (x : Z) : Z := x mod 2 ^ 16.
Definition u32 (x : Z) : Z := x mod 2 ^ 32.
Definition u64 (x : Z) : Z := x mod 2 ^ 64.

(** The signed reading of a 32-bit pattern and of a 64-bit pattern. *)
Definition s32 (x : Z) : Z := if decide (u32 x < 2 ^ 31) then u32 x else u32 x - 2 ^ 32.
Definition s64 (x : Z) : Z := if decide (u64 x < 2 ^ 63) then u64 x else u64 x - 2 ^ 64.

Definition in_u8 (x : Z) : Prop := 0 <= x < 2 ^ 8.
Definition in_u64 (x : Z) : Prop := 0 <= x < 2 ^ 64.

(** The alignment macros of tachyon.h, on 64-bit operands. *)
Definition ALIGN_DN (x a : Z) : Z := Z.land x (Z.lnot (a - 1)).
Definition ALIGN_UP (x a : Z) : Z := ALIGN_DN (u64 (x + (a - 1))) a.
Definition ALIGN_RST (x a : Z) : Z := Z.land x (a - 1).

(** ** Outcomes

    A kernel routine returns, stops the machine with [fatal], touches an
    address no memory answers at (a NULL or wild pointer), spins on a lock
    nobody will release, or exhausts the fuel of a loop. *)

Inductive outcome (A : Type) : Type :=
| Ret (a : A)
| Fatal (msg : string)
| Fault (addr : Z)
| Deadlock
| NoFuel.
Arguments Ret {A} a.
Arguments Fatal {A} msg.
Arguments Fault {A} addr.
Arguments Deadlock {A}.
Arguments NoFuel {A}.

Definition M (S A : Type) : Type := S -> outcome (A * S).

Definition mreturn {S A} (a : A) : M S A := fun s => Ret (a, s).
Definition mseq {S A B} (c : M S A) (k : A -> M S B) : M S B := fun s =>
  match c s with
  | Ret (a, s') => k a s'
  | Fatal m => Fatal m
  | Fault a => Fault a
  | Deadlock => Deadlock
  | NoFuel => NoFuel
  end.
Definition mget {S} : M S S := fun s => Ret (s, s).
Definition mput {S} (s : S) : M S unit := fun _ => Ret (tt, s).
Definition mgets {S A} (f : S -> A) : M S A := fun s => Ret (f s, s).
Definition mmodify {S} (f : S -> S) : M S unit := fun s => Ret (tt, f s).
Definition mfatal {S A} (msg : string) : M S A := fun _ => Fatal msg.
Definition mfault {S A} (a : Z) : M S A := fun _ => Fault a.
Definition mnofuel {S A} : M S A := fun _ => NoFuel.
Definition mdeadlock {S A} : M S A := fun _ => Deadlock.

Notation "x <- c ;; k" := (mseq c (fun x => k))
  (at level 100, c at next level, right associativity) : kernel_scope.
Notation "c ;;; k" := (mseq c (fun _ => k))
  (at level 100, right associativity) : kernel_scope.

(** An operation on a part of the state. *)
Definition mzoom {S T A} (get : S -> T) (put : T -> S -> S) (c : M T A) : M S A := fun s =>
  match c (get s) with
  | Ret (a, t) => Ret (a, put t s)
  | Fatal m => Fatal m
  | Fault a => Fault a
  | Deadlock => Deadlock
  | NoFuel => NoFuel
  end.

Lemma mzoom_run {S T A} (get : S -> T) put (c : M T A) s a t :
  c (get s) = Ret (a, t) -> mzoom get put c s = Ret (a, put t s).
Proof. unfold mzoom. by intros ->. Qed.

Lemma Ret_eq {S A} (a b : A) (s t : S) : a = b -> s = t -> Ret (a, s) = Ret (b, t).
Proof. by intros -> ->. Qed.

Lemma mseq_run {S A B} (c : M S A) (k : A -> M S B) s a s' :
  c s = Ret (a, s') -> mseq c k s = k a s'.
Proof. unfold mseq. by intros ->. Qed.

Lemma mseq_assoc {S A B C} (c : M S A) (k : A -> M S B) (j : B -> M S C) s :
  mseq (mseq c k) j s = mseq c (fun a => mseq (k a) j) s.
Proof. unfold mseq. by destruct (c s) as [[]| | | |]. Qed.

(** ** Total correctness

    [wp c Q s]: started in [s], [c] returns, and what it returns satisfies
    [Q].  A run that stops the machine, faults, spins or exhausts its fuel
    does not satisfy [wp].  [wpf] also accepts a run that ends in [fatal]. *)

Definition wp {S A} (c : M S A) (Q : A -> S -> Prop) (s : S) : Prop :=
  match c s with Ret (a, s') => Q a s' | _ => False end.

Definition wpf {S A} (c : M S A) (Q : A -> S -> Prop) (s : S) : Prop :=
  match c s with Ret (a, s') => Q a s' | Fatal _ => True | _ => False end.

Section wp_rules.
Context {S : Type}.

Lemma wp_mono {A} (c : M S A) (Q Q' : A -> S -> Prop) s :
  wp c Q s -> (forall a s', Q a s' -> Q' a s') -> wp c Q' s.
Proof. unfold wp. intros H HQ. destruct (c s) as [[]| | | |]; auto. Qed.

Lemma wpf_mono {A} (c : M S A) (Q Q' : A -> S -> Prop) s :
  wpf c Q s -> (forall a s', Q a s' -> Q' a s') -> wpf c Q' s.
Proof. unfold wpf. intros H HQ. destruct (c s) as [[]| | | |]; auto. Qed.

Lemma wp_wpf {A} (c : M S A) (Q : A -> S -> Prop) s : wp c Q s -> wpf c Q s.
Proof. unfold wp, wpf. destruct (c s) as [[]| | | |]; auto. Qed.

Lemma wp_ret {A} (a : A) (Q : A -> S -> Prop) s : Q a s -> wp (mreturn a) Q s.
Proof. auto. Qed.

Lemma wpf_ret {A} (a : A) (Q : A -> S -> Prop) s : Q a s -> wpf (mreturn a) Q s.
Proof. auto. Qed.

Lemma wp_bind {A B} (c : M S A) (k : A -> M S B) Q s :
  wp c (fun a => wp (k a) Q) s -> wp (mseq c k) Q s.
Proof. unfold wp, mseq. destruct (c s) as [[]| | | |]; auto. Qed.

Lemma wpf_bind {A B} (c : M S A) (k : A -> M S B) Q s :
  wpf c (fun a => wpf (k a) Q) s -> wpf (mseq c k) Q s.
Proof. unfold wpf, mseq. destruct (c s) as [[]| | | |]; auto. Qed.

Lemma wpf_seq {A B} (c : M S A) (k : A -> M S B) Q s a s' :
  c s = Ret (a, s') -> wpf (k a) Q s' -> wpf (mseq c k) Q s.
Proof. unfold wpf, mseq. by intros ->. Qed.

(** The run itself, besides what it satisfies. *)
Lemma wpf_run {A} (c : M S A) (Q : A -> S -> Prop) s :
  wpf c Q s -> wpf c (fun a s' => c s = Ret (a, s') /\ Q a s') s.
Proof. unfold wpf. destruct (c s) as [[]| | | |] eqn:E; auto. Qed.

Lemma wpf_assoc {A B C} (c : M S A) (k : A -> M S B) (j : B -> M S C) Q s :
  wpf (mseq (mseq c k) j) Q s -> wpf (mseq c (fun a => mseq (k a) j)) Q s.
Proof. unfold wpf. by rewrite mseq_assoc. Qed.

Lemma wpf_gets {A B} (f : S -> A) (k : A -> M S B) Q s :
  wpf (k (f s)) Q s -> wpf (mseq (mgets f) k) Q s.
Proof. done. Qed.

Lemma run_wpf {A} (c : M S A) (Q : A -> S -> Prop) s a s' :
  c s = Ret (a, s') -> Q a s' -> wpf c Q s.
Proof. unfold wpf. by intros ->. Qed.

Lemma wp_run {A} (c : M S A) (Q : A -> S -> Prop) s :
  wp c Q s -> exists a s', c s = Ret (a, s') /\ Q a s'.
Proof. unfold wp. destruct (c s) as [[a s']| | | |]; try done. eauto. Qed.

Lemma run_wp {A} (c : M S A) (Q : A -> S -> Prop) s a s' :
  c s = Ret (a, s') -> Q a s' -> wp c Q s.
Proof. unfold wp. by intros ->. Qed.
End wp_rules.

(** ** Arithmetic of the macros *)

Lemma u64_small x : 0 <= x < 2 ^ 64 -> u64 x = x.
Proof. intros. unfold u64. by rewrite Z.mod_small. Qed.

Lemma u32_small x : 0 <= x < 2 ^ 32 -> u32 x = x.
Proof. intros. by apply Z.mod_small. Qed.

Lemma s64_small x : - 2 ^ 63 <= x < 2 ^ 63 -> s64 x = x.
Proof.
  intros Hx. unfold s64, u64. destruct (decide (0 <= x)).
  - rewrite Z.mod_small by lia. by rewrite decide_True by lia.
  - replace (x mod 2 ^ 64) with (x + 2 ^ 64) by (apply (Z.mod_unique _ _ (-1)); lia). rewrite decide_False; lia.
Qed.
Lemma s32_small x : 0 <= x < 2 ^ 31 -> s32 x = x.
Proof. intros. unfold s32. rewrite u32_small by lia. by rewrite decide_True by lia. Qed.

Lemma u64_range x : 0 <= u64 x < 2 ^ 64.
Proof. apply Z.mod_pos_bound. lia. Qed.

Lemma u32_range x : 0 <= u32 x < 2 ^ 32.
Proof. apply Z.mod_pos_bound. lia. Qed.

Lemma u8_range x : 0 <= u8 x < 2 ^ 8.
Proof. apply Z.mod_pos_bound. lia. Qed.

Lemma u8_small x : 0 <= x < 2 ^ 8 -> u8 x = x.
Proof. intros. unfold u8. by rewrite Z.mod_small. Qed.

Lemma u64_u64 x : u64 (u64 x) = u64 x.
Proof. apply u64_small, u64_range. Qed.

Lemma ALIGN_DN_pow2 x k : 0 <= k -> ALIGN_DN x (2 ^ k) = x / 2 ^ k * 2 ^ k.
Proof.
  intros Hk. unfold ALIGN_DN.
  replace (2 ^ k - 1) with (Z.ones k) by (rewrite Z.ones_equiv; lia).
  rewrite <-Z.ldiff_land, Z.ldiff_ones_r, Z.shiftl_mul_pow2, Z.shiftr_div_pow2; lia.
Qed.

Lemma ALIGN_RST_pow2 x k : 0 <= k -> ALIGN_RST x (2 ^ k) = x mod 2 ^ k.
Proof.
  intros Hk. unfold ALIGN_RST.
  replace (2 ^ k - 1) with (Z.ones k) by (rewrite Z.ones_equiv; lia).
  by apply Z.land_ones.
Qed.

(** The two page-granular readings the kernel uses everywhere. *)
Lemma ALIGN_DN_4096 x : ALIGN_DN x 4096 = x / 4096 * 4096.
Proof. apply (ALIGN_DN_pow2 x 12). lia. Qed.

Lemma ALIGN_UP_4096 x : 0 <= x < 2 ^ 64 - 4095 -> ALIGN_UP x 4096 = (x + 4095) / 4096 * 4096.
Proof. intros. unfold ALIGN_UP. rewrite u64_small by lia. apply ALIGN_DN_4096. Qed.

Lemma ALIGN_UP_8 x : 0 <= x < 2 ^ 64 - 7 -> ALIGN_UP x 8 = (x + 7) / 8 * 8.
Proof. intros. unfold ALIGN_UP. rewrite u64_small by lia. apply (ALIGN_DN_pow2 _ 3). lia. Qed.

Lemma ALIGN_RST_4096 x : ALIGN_RST x 4096 = x mod 4096.
Proof. apply (ALIGN_RST_pow2 x 12). lia. Qed.

(** Flag bits below an aligned value: [lor] is addition. *)
Lemma land_mul_pow2 q c n : 0 <= n -> 0 <= c < 2 ^ n -> Z.land (q * 2 ^ n) c = 0.
Proof.
  intros Hn Hc. apply Z.bits_inj'. intros i Hi. rewrite Z.land_spec, Z.bits_0.
  destruct (Z.lt_ge_cases i n).
  - by rewrite Z.mul_pow2_bits_low.
  - assert (Z.testbit c i = false) as ->; [|by rewrite andb_false_r].
    destruct (decide (c = 0)) as [->|]; [apply Z.bits_0|]. apply Z.bits_above_log2; [lia|].
    assert (Z.log2 c < n) by (apply Z.log2_lt_pow2; lia). lia.
Qed.

Lemma lor_mul_pow2 q c n : 0 <= n -> 0 <= c < 2 ^ n -> Z.lor (q * 2 ^ n) c = q * 2 ^ n + c.
Proof. intros. symmetry. by apply Z.add_nocarry_lor, land_mul_pow2. Qed.

Lemma lor_bound a b n : 0 <= n -> 0 <= a < 2 ^ n -> 0 <= b < 2 ^ n -> 0 <= Z.lor a b < 2 ^ n.
Proof.
  intros Hn Ha Hb. replace (Z.lor a b) with (Z.land (Z.lor a b) (Z.ones n)).
  - rewrite Z.land_ones by lia. apply Z.mod_pos_bound. lia.
  - rewrite Z.land_lor_distr_l, !Z.land_ones, !Z.mod_small by lia. done.
Qed.

(** ** Automation *)

Create HintDb kernel.
#[export] Hint Resolve u64_range u32_range u8_range wp_ret wpf_ret : kernel.

(** Split conjunctions, run [lia] and the [kernel] hints. *)
Ltac kauto := repeat split; try done; try lia; eauto with kernel.

(** Case on the boolean comparison or decision the goal is stuck on. *)
Ltac kcase :=
  match goal with
  | |- context [if decide ?P then _ else _] => destruct (decide P)
  | |- context [?a =? ?b] => destruct (Z.eqb_spec a b)
  | |- context [?a <? ?b] => destruct (Z.ltb_spec a b)
  | |- context [?a <=? ?b] => destruct (Z.leb_spec a b)
  end; simpl.

(** [lia] with division and modulo by constants. *)
Ltac dlia := Z.to_euclidean_division_equations; lia.

(** Compare two results up to arithmetic. *)
Ltac ret_eq := apply Ret_eq; [try lia|try done].

(** Run the monadic plumbing of a goal [wp c Q s]. *)
Ltac wp_step :=
  match goal with
  | |- wp (mseq _ _) _ _ => apply wp_bind
  | |- wpf (mseq _ _) _ _ => apply wpf_bind
  | |- wp (mreturn _) _ _ => apply wp_ret
  | |- wpf (mreturn _) _ _ => apply wpf_ret
  end.

(** The state a computation ends in, for concrete runs. *)
Definition state_of {S A} (o : outcome (A * S)) (d : S) : S :=
  match o with Ret (_, s) => s | _ => d end.

(** The value a concrete run returns; evaluating it does not normalise the
    final state. *)
Definition ret_val {S A} (o : outcome (A * S)) : option A :=
  match o with Ret (a, _) => Some a | _ => None end.

Lemma ret_val_run {S A} (o : outcome (A * S)) (a : A) (d : S) :
  ret_val o = Some a -> o = Ret (a, state_of o d).
Proof. destruct o as [[b s]| | | |]; simpl; intros Hv; by simplify_eq. Qed.
