(* ===== verification/Mem.v ===== *)
(** * Byte memory and mem.c

    The memory the kernel's C code sees: a finite map from addresses to
    bytes.  An address with no entry is not mapped; touching it is a
    [Fault].  Multi-byte accesses are little-endian, as on x86_64.
    The routines of src/mem.c ([memset], [memcmp], [memcpy], [memmove]) are
    loops over this memory. *)

From S2P Require Import Prelude.

Abbreviation memory := (gmap Z Z).

(** ** Raw accesses of [n] bytes *)

Fixpoint mread (n : nat) (m : memory) (a : Z) : option Z :=
  match n with
  | O => Some 0
  | S n' =>
      match m !! a, mread n' m (a + 1) with
      | Some b, Some r => Some (u8 b + 256 * r)
      | _, _ => None
      end
  end.

Fixpoint mwrite (n : nat) (m : memory) (a v : Z) : memory :=
  match n with
  | O => m
  | S n' => <[a := u8 v]> (mwrite n' m (a + 1) (v / 256))
  end.

Fixpoint mappedb (n : nat) (m : memory) (a : Z) : bool :=
  match n with
  | O => true
  | S n' => match m !! a with Some _ => mappedb n' m (a + 1) | None => false end
  end.

(** [mapped m a n]: the [n] bytes at [a] answer. *)
Definition mapped (m : memory) (a n : Z) : Prop :=
  forall i, a <= i < a + n -> is_Some (m !! i).

(** [agree m m' a n]: the two memories hold the same [n] bytes at [a]. *)
Definition agree (m m' : memory) (a n : Z) : Prop :=
  forall i, a <= i < a + n -> m' !! i = m !! i.

(** ** Access from a component's state *)

Class HasMem (St : Type) := {
  get_mem : St -> memory;
  set_mem : memory -> St -> St;
  get_set_mem : forall m s, get_mem (set_mem m s) = m;
  set_get_mem : forall s, set_mem (get_mem s) s = s;
  set_set_mem : forall m m' s, set_mem m (set_mem m' s) = set_mem m s;
}.

#[export] Program Instance memory_has_mem : HasMem memory := {|
  get_mem := fun m => m; set_mem := fun m _ => m |}.
Solve All Obligations with done.

Section access.
Context {St : Type} `{HasMem St}.

Definition load (n : nat) (a : Z) : M St Z := fun s =>
  match mread n (get_mem s) a with
  | Some v => Ret (v, s)
  | None => Fault a
  end.

Definition store (n : nat) (a v : Z) : M St unit := fun s =>
  if mappedb n (get_mem s) a
  then Ret (tt, set_mem (mwrite n (get_mem s) a v) s)
  else Fault a.

Definition load8 := load 1.
Definition load64 := load 8.
Definition store8 := store 1.
Definition store64 := store 8.

(** *** mem.c *)

(** [while(n--) { *p++ = c; }] *)
Fixpoint memset_loop (n : nat) (p c : Z) : M St unit :=
  match n with
  | O => mreturn tt
  | S n' => store8 p c ;;; memset_loop n' (p + 1) c
  end.
Definition memset (dst c n : Z) : M St Z :=
  memset_loop (Z.to_nat n) dst c ;;; mreturn dst.

(** [for(i = 0; i < n; i++) if(v1[i] != v2[i]) return 1;] *)
Fixpoint memcmp_loop (n : nat) (v1 v2 : Z) : M St Z :=
  match n with
  | O => mreturn 0
  | S n' =>
      x <- load8 v1 ;; y <- load8 v2 ;;
      if negb (x =? y) then mreturn 1 else memcmp_loop n' (v1 + 1) (v2 + 1)
  end.
Definition memcmp (v1 v2 n : Z) : M St Z := memcmp_loop (Z.to_nat n) v1 v2.

(** The ascending copy: [for(i = 0; i < n; i++) d[i] = s[i];] *)
Fixpoint copy_up (n : nat) (d s : Z) : M St unit :=
  match n with
  | O => mreturn tt
  | S n' => b <- load8 s ;; store8 d b ;;; copy_up n' (d + 1) (s + 1)
  end.

(** The descending copy: [for(i = 0; i < n; i++) d[n - i - 1] = s[n - i - 1];] *)
Fixpoint copy_down (n : nat) (d s : Z) : M St unit :=
  match n with
  | O => mreturn tt
  | S n' =>
      b <- load8 (s + Z.of_nat n') ;; store8 (d + Z.of_nat n') b ;;; copy_down n' d s
  end.

Definition memcpy (dst src n : Z) : M St Z :=
  copy_up (Z.to_nat n) dst src ;;; mreturn dst.

Definition memmove (dst src n : Z) : M St Z :=
  if src =? dst then mreturn dst
  else if dst <? src then copy_up (Z.to_nat n) dst src ;;; mreturn dst
  else if src <? dst then copy_down (Z.to_nat n) dst src ;;; mreturn dst
  else mreturn dst.
End access.

(** ** Laws of raw accesses *)

Lemma mwrite_ne n m a v i :
  (i < a \/ a + Z.of_nat n <= i) -> mwrite n m a v !! i = m !! i.
Proof.
  revert m a v. induction n as [|n IH]; intros m a v Hi; [done|].
  simpl. rewrite lookup_insert_ne by lia. apply IH. lia.
Qed.

Lemma mread_ext k m m' b : agree m m' b (Z.of_nat k) -> mread k m' b = mread k m b.
Proof.
  revert b. induction k as [|k IH]; intros b Hag; [done|].
  simpl. rewrite (Hag b) by lia. rewrite IH; [done|].
  intros i Hi. apply Hag. lia.
Qed.

Lemma mwrite_agree n m a v b k :
  (a + Z.of_nat n <= b \/ b + k <= a) -> agree m (mwrite n m a v) b k.
Proof. intros Hd i Hi. apply mwrite_ne. lia. Qed.

Lemma mread_mwrite_ne n k m a v b :
  (a + Z.of_nat n <= b \/ b + Z.of_nat k <= a) -> mread k (mwrite n m a v) b = mread k m b.
Proof. intros. apply mread_ext, mwrite_agree. lia. Qed.

Lemma mread_mwrite_eq n m a v :
  0 <= v < 256 ^ Z.of_nat n -> mread n (mwrite n m a v) a = Some v.
Proof.
  revert m a v. induction n as [|n IH]; intros m a v Hv.
  { change (256 ^ Z.of_nat 0) with 1 in Hv. simpl. f_equal. lia. }
  rewrite Nat2Z.inj_succ, Z.pow_succ_r in Hv by lia.
  simpl. rewrite lookup_insert_eq.
  assert (mread n (<[a:=u8 v]> (mwrite n m (a + 1) (v / 256))) (a + 1)
          = mread n (mwrite n m (a + 1) (v / 256)) (a + 1)) as ->.
  { apply mread_ext. intros i Hi. by rewrite lookup_insert_ne by lia. }
  rewrite IH by (split; [apply Z.div_pos; lia|apply Z.div_lt_upper_bound; lia]).
  f_equal. unfold u8. change (2 ^ 8) with 256.
  rewrite Z.mod_mod by lia. pose proof (Z.div_mod v 256). lia.
Qed.

Lemma mwrite_mapped n m a v i : is_Some (m !! i) -> is_Some (mwrite n m a v !! i).
Proof.
  revert a v. induction n as [|n IH]; intros a v Hi; [done|].
  simpl. destruct (decide (a = i)) as [->|]; [rewrite lookup_insert_eq; eauto|].
  rewrite lookup_insert_ne by done. by apply IH.
Qed.

Lemma mapped_mwrite n m a v b k : mapped m b k -> mapped (mwrite n m a v) b k.
Proof. intros Hm i Hi. by apply mwrite_mapped, Hm. Qed.

Lemma mappedb_mapped n m a : mapped m a (Z.of_nat n) -> mappedb n m a = true.
Proof.
  revert a. induction n as [|n IH]; intros a Hm; [done|].
  simpl. destruct (Hm a) as [b ->]; [lia|]. apply IH. intros i Hi. apply Hm. lia.
Qed.

Lemma mread_mapped n m a :
  mapped m a (Z.of_nat n) -> exists v, mread n m a = Some v /\ 0 <= v < 256 ^ Z.of_nat n.
Proof.
  revert a. induction n as [|n IH]; intros a Hm.
  { exists 0. change (256 ^ Z.of_nat 0) with 1. split; [done|lia]. }
  destruct (Hm a) as [b Hb]; [lia|]. destruct (IH (a + 1)) as (r & Hr & Hb').
  { intros i Hi. apply Hm. lia. }
  exists (u8 b + 256 * r). simpl. rewrite Hb, Hr. split; [done|].
  rewrite Nat2Z.inj_succ, Z.pow_succ_r by lia. pose proof (u8_range b). lia.
Qed.

Lemma mread_range n m a v : mread n m a = Some v -> 0 <= v < 256 ^ Z.of_nat n.
Proof.
  revert a v. induction n as [|n IH]; intros a v Hv.
  { change (256 ^ Z.of_nat 0) with 1. simpl in Hv. simplify_eq. lia. }
  simpl in Hv.
  destruct (m !! a); [|done]. destruct (mread n m (a + 1)) as [r|] eqn:Hr; [|done].
  simplify_eq. rewrite Nat2Z.inj_succ, Z.pow_succ_r by lia.
  apply IH in Hr. pose proof (u8_range z). lia.
Qed.

Lemma mread_is_mapped n m a v : mread n m a = Some v -> mapped m a (Z.of_nat n).
Proof.
  revert a v. induction n as [|n IH]; intros a v Hv i Hi; simpl in *; [lia|].
  destruct (m !! a) eqn:Ha; [|done]. destruct (mread n m (a + 1)) as [r|] eqn:Hr; [|done].
  destruct (decide (i = a)) as [->|]; [eauto|]. eapply (IH (a + 1)); eauto. lia.
Qed.

Lemma mapped_weaken m a n b k : mapped m a n -> a <= b -> b + k <= a + n -> mapped m b k.
Proof. intros Hm ?? i Hi. apply Hm. lia. Qed.

Lemma agree_weaken m m' a n b k : agree m m' a n -> a <= b -> b + k <= a + n -> agree m m' b k.
Proof. intros Hm ?? i Hi. apply Hm. lia. Qed.

Lemma agree_refl m a n : agree m m a n.
Proof. by intros i Hi. Qed.

Lemma agree_trans m1 m2 m3 a n : agree m1 m2 a n -> agree m2 m3 a n -> agree m1 m3 a n.
Proof. intros H1 H2 i Hi. rewrite H2, H1; auto. Qed.

#[export] Hint Resolve agree_refl mapped_mwrite : kernel.

(** ** Rules for loads and stores *)

Section access_rules.
Context {St : Type} `{HasMem St}.

Lemma wp_load n a v Q s :
  mread n (get_mem s) a = Some v -> Q v s -> wp (load n a) Q s.
Proof. intros Hv HQ. unfold wp, load. by rewrite Hv. Qed.

Lemma wp_store n a v Q s :
  mapped (get_mem s) a (Z.of_nat n) ->
  Q tt (set_mem (mwrite n (get_mem s) a v) s) -> wp (store n a v) Q s.
Proof. intros Hm HQ. unfold wp, store. by rewrite mappedb_mapped. Qed.

Lemma load_run n a v s :
  mread n (get_mem s) a = Some v -> load n a s = Ret (v, s).
Proof. intros Hv. unfold load. by rewrite Hv. Qed.

Lemma store_run n a v s :
  mapped (get_mem s) a (Z.of_nat n) ->
  store n a v s = Ret (tt, set_mem (mwrite n (get_mem s) a v) s).
Proof. intros Hm. unfold store. by rewrite mappedb_mapped. Qed.
End access_rules.

(** ** What the block routines do *)

(** [is_copy m m' d s n]: [m'] is [m] with the [n] bytes at [s] placed at [d]. *)
Definition is_copy (m m' : memory) (d s n : Z) : Prop :=
  forall i, m' !! i = if decide (d <= i < d + n) then u8 <$> m !! (s + (i - d)) else m !! i.

(** [is_fill m m' d n c]: [m'] is [m] with [n] bytes [c] placed at [d]. *)
Definition is_fill (m m' : memory) (d n c : Z) : Prop :=
  forall i, m' !! i = if decide (d <= i < d + n) then Some (u8 c) else m !! i.

Lemma u8_u8 x : u8 (u8 x) = u8 x.
Proof. apply u8_small, u8_range. Qed.

Section block_rules.
Context {St : Type} `{HasMem St}.

Lemma load8_run a b (s : St) :
  get_mem s !! a = Some b -> load8 a s = Ret (u8 b, s).
Proof. intros Ha. unfold load8, load. simpl. rewrite Ha. by rewrite Z.add_0_r. Qed.

Lemma store8_run a v (s : St) :
  is_Some (get_mem s !! a) -> store8 a v s = Ret (tt, set_mem (<[a := u8 v]> (get_mem s)) s).
Proof. intros [b Ha]. unfold store8, store. simpl. by rewrite Ha. Qed.

Lemma memset_loop_fill n p c (s : St) :
  mapped (get_mem s) p (Z.of_nat n) ->
  exists m', memset_loop n p c s = Ret (tt, set_mem m' s) /\
             is_fill (get_mem s) m' p (Z.of_nat n) c.
Proof.
  revert p s. induction n as [|n IH]; intros p s Hm.
  { exists (get_mem s). rewrite set_get_mem. split; [done|].
    intros i. rewrite decide_False; [done|lia]. }
  cbn [memset_loop]. unfold mseq. rewrite store8_run by (apply Hm; lia).
  edestruct (IH (p + 1)) as (m' & -> & Hf).
  { rewrite get_set_mem. intros i Hi. destruct (decide (i = p)) as [->|].
    - rewrite lookup_insert_eq. eauto.
    - rewrite lookup_insert_ne by done. apply Hm. lia. }
  exists m'. rewrite set_set_mem. split; [done|]. intros i. rewrite Hf, get_set_mem.
  repeat case_decide; try lia; try done.
  - replace i with p by lia. apply lookup_insert_eq.
  - apply lookup_insert_ne. lia.
Qed.

Lemma memset_run dst c n (s : St) :
  0 <= n -> mapped (get_mem s) dst n ->
  exists m', memset dst c n s = Ret (dst, set_mem m' s) /\ is_fill (get_mem s) m' dst n c.
Proof.
  intros Hn Hm. unfold memset, mseq.
  destruct (memset_loop_fill (Z.to_nat n) dst c s) as (m' & -> & Hf).
  { by rewrite Z2Nat.id. }
  rewrite Z2Nat.id in Hf by done. eauto.
Qed.

Lemma copy_up_copy n d p (s : St) :
  mapped (get_mem s) d (Z.of_nat n) -> mapped (get_mem s) p (Z.of_nat n) ->
  d <= p \/ p + Z.of_nat n <= d ->
  exists m', copy_up n d p s = Ret (tt, set_mem m' s) /\
             is_copy (get_mem s) m' d p (Z.of_nat n).
Proof.
  revert d p s. induction n as [|n IH]; intros d p s Hd Hp Hov.
  { exists (get_mem s). rewrite set_get_mem. split; [done|].
    intros i. rewrite decide_False; [done|lia]. }
  destruct (Hp p) as [b Hb]; [lia|].
  cbn [copy_up]. unfold mseq. rewrite (load8_run _ _ _ Hb), store8_run by (apply Hd; lia).
  edestruct (IH (d + 1) (p + 1)) as (m' & -> & Hf); [| |lia|].
  1,2: rewrite get_set_mem; intros i Hi; destruct (decide (i = d)) as [->|];
    [rewrite lookup_insert_eq; eauto|rewrite lookup_insert_ne by done];
    [first [apply Hd; lia | apply Hp; lia]].
  exists m'. rewrite set_set_mem. split; [done|]. intros i. rewrite Hf, get_set_mem.
  repeat case_decide; try lia; try done.
  - rewrite lookup_insert_ne by lia. do 2 f_equal. lia.
  - replace i with d by lia. rewrite lookup_insert_eq.
    replace (p + (d - d)) with p by lia. by rewrite Hb, u8_u8.
  - apply lookup_insert_ne. lia.
Qed.

Lemma copy_down_copy n d p (s : St) :
  mapped (get_mem s) d (Z.of_nat n) -> mapped (get_mem s) p (Z.of_nat n) ->
  p <= d ->
  exists m', copy_down n d p s = Ret (tt, set_mem m' s) /\
             is_copy (get_mem s) m' d p (Z.of_nat n).
Proof.
  revert s. induction n as [|n IH]; intros s Hd Hp Hov.
  { exists (get_mem s). rewrite set_get_mem. split; [done|].
    intros i. rewrite decide_False; [done|lia]. }
  destruct (Hp (p + Z.of_nat n)) as [b Hb]; [lia|].
  cbn [copy_down]. unfold mseq. rewrite (load8_run _ _ _ Hb), store8_run by (apply Hd; lia).
  edestruct IH as (m' & -> & Hf); [| |lia|].
  1,2: rewrite get_set_mem; intros i Hi; destruct (decide (i = d + Z.of_nat n)) as [->|];
    [rewrite lookup_insert_eq; eauto|rewrite lookup_insert_ne by done];
    [first [apply Hd; lia | apply Hp; lia]].
  exists m'. rewrite set_set_mem. split; [done|]. intros i. rewrite Hf, get_set_mem.
  repeat case_decide; try lia; try done.
  - rewrite lookup_insert_ne by lia. do 2 f_equal.
  - replace i with (d + Z.of_nat n) by lia. rewrite lookup_insert_eq.
    replace (p + (d + Z.of_nat n - d)) with (p + Z.of_nat n) by lia. by rewrite Hb, u8_u8.
  - apply lookup_insert_ne. lia.
Qed.
End block_rules.

Section block_specs.
Context {St : Type} `{HasMem St}.

(** A memory whose cells hold bytes; a copy onto itself changes nothing. *)
Definition bytes_ok (m : memory) : Prop := forall i b, m !! i = Some b -> 0 <= b < 256.

Lemma is_copy_self m d n : bytes_ok m -> is_copy m m d d n.
Proof.
  intros Hb i. case_decide; [|done]. replace (d + (i - d)) with i by lia.
  destruct (m !! i) as [b|] eqn:Hi; [|done]. simpl. rewrite u8_small; [done|].
  by apply (Hb i).
Qed.

Lemma memmove_copy (dst src n : Z) (s : St) :
  0 <= n -> src <> dst \/ bytes_ok (get_mem s) ->
  mapped (get_mem s) dst n -> mapped (get_mem s) src n ->
  exists m', memmove dst src n s = Ret (dst, set_mem m' s) /\
             is_copy (get_mem s) m' dst src n.
Proof.
  intros Hn Hb Hdst Hsrc. rewrite <-(Z2Nat.id n) in * by done. unfold memmove.
  destruct (Z.eqb_spec src dst) as [->|].
  { exists (get_mem s). rewrite set_get_mem. split; [done|]. apply is_copy_self. naive_solver. }
  rewrite Nat2Z.id. destruct (Z.ltb_spec dst src).
  { destruct (copy_up_copy (Z.to_nat n) dst src s) as (m' & Hr & ?); [done|done|lia|].
    exists m'. split; [|done]. unfold mseq. by rewrite Hr. }
  destruct (Z.ltb_spec src dst); [|lia].
  destruct (copy_down_copy (Z.to_nat n) dst src s) as (m' & Hr & ?); [done|done|lia|].
  exists m'. split; [|done]. unfold mseq. by rewrite Hr.
Qed.
End block_specs.
