(* ===== verification/Cstring.v ===== *)
(** * C strings: string.c, char.c and trim.c

    The string routines of the kernel, as loops over the byte memory.  A
    routine that runs until it meets the terminating zero takes fuel; the
    theorems give a fuel that suffices for a given string.  Each routine is
    then related to a function on lists of bytes. *)

From S2P Require Import Prelude Mem.

(** [char] is signed on x86_64. *)
Definition s8 (c : Z) : Z := if u8 c <? 128 then u8 c else u8 c - 256.

(** char.c: [isspace] *)
Definition isspace (c : Z) : bool :=
  match c with
  | 32 | 10 | 9 | 11 | 12 | 13 => true
  | _ => false
  end.

Section string_c.
Context {St : Type} `{HasMem St}.

(** The body of the comparison loops: [None] stands for [continue]. *)
Definition cmp_body (a b : Z) : option Z :=
  if a =? b then (if a =? 0 then Some 0 else None)
  else if a =? 0 then Some (-1)
  else if b =? 0 then Some 1
  else if s8 a <? s8 b then Some (-1) else Some 1.

Fixpoint strncmp_loop (n : nat) (p q : Z) : M St Z :=
  match n with
  | O => mreturn 0
  | S n' =>
      a <- load8 p ;; b <- load8 q ;;
      match cmp_body a b with
      | Some r => mreturn r
      | None => strncmp_loop n' (p + 1) (q + 1)
      end
  end.
Definition strncmp (p q n : Z) : M St Z := strncmp_loop (Z.to_nat n) p q.

Fixpoint strcmp (fuel : nat) (p q : Z) : M St Z :=
  match fuel with
  | O => mnofuel
  | S f =>
      a <- load8 p ;; b <- load8 q ;;
      match cmp_body a b with
      | Some r => mreturn r
      | None => strcmp f (p + 1) (q + 1)
      end
  end.

(** [for(i = 0; t[i] != 0 && i < n; i++) s[i] = t[i];] then
    [for(; i < n; i++) s[i] = 0;]; [k] is [n - i]. *)
Fixpoint strncpy_loop (k : nat) (s t : Z) : M St unit :=
  c <- load8 t ;;
  match k with
  | O => mreturn tt
  | S k' =>
      if c =? 0 then memset_loop k s 0
      else store8 s c ;;; strncpy_loop k' (s + 1) (t + 1)
  end.
Definition strncpy (s t n : Z) : M St Z :=
  strncpy_loop (Z.to_nat n) s t ;;; mreturn s.

Fixpoint strlen_loop (fuel : nat) (s i : Z) : M St Z :=
  match fuel with
  | O => mnofuel
  | S f =>
      c <- load8 (s + i) ;;
      if c =? 0 then mreturn i else strlen_loop f s (i + 1)
  end.
Definition strlen (fuel : nat) (s : Z) : M St Z := strlen_loop fuel s 0.

(** The scan of [strstr]; the result is a pointer into [s], or 0 (NULL). *)
Fixpoint strstr_loop (fuel : nat) (s p plen : Z) : M St Z :=
  match fuel with
  | O => mnofuel
  | S f =>
      c <- load8 s ;;
      if c =? 0 then mreturn 0
      else
        p0 <- load8 p ;;
        if c =? p0 then
          r <- strncmp s p plen ;;
          if r =? 0 then mreturn s else strstr_loop f (s + 1) p plen
        else strstr_loop f (s + 1) p plen
  end.
Definition strstr (fuel : nat) (s p : Z) : M St Z :=
  plen <- strlen fuel p ;; strstr_loop fuel s p plen.

(** [strrstr] measures both strings, then runs [for(i = 0; i > 1; --i)]:
    the loop condition fails at once. *)
Fixpoint strrstr_loop (fuel : nat) (s p plen i : Z) : M St Z :=
  match fuel with
  | O => mnofuel
  | S f =>
      if 1 <? i then
        c <- load8 (s + i) ;; p0 <- load8 p ;;
        if c =? p0 then
          r <- strncmp (s + i) p plen ;;
          if r =? 0 then mreturn (s + i) else strrstr_loop f s p plen (i - 1)
        else strrstr_loop f s p plen (i - 1)
      else mreturn 0
  end.
Definition strrstr (fuel : nat) (s p : Z) : M St Z :=
  slen <- strlen fuel s ;; plen <- strlen fuel p ;;
  strrstr_loop fuel s p plen 0.

(** ** trim.c *)

(** [while( *cur && isspace( *cur)) { ++cur, --len; }] *)
Fixpoint ltrim_loop (fuel : nat) (cur len : Z) : M St (Z * Z) :=
  match fuel with
  | O => mnofuel
  | S f =>
      c <- load8 cur ;;
      if negb (c =? 0) && isspace c then ltrim_loop f (cur + 1) (len - 1)
      else mreturn (cur, len)
  end.
Definition ltrim (fuel : nat) (s : Z) : M St Z :=
  if s =? 0 then mreturn s
  else
    c <- load8 s ;;
    if c =? 0 then mreturn s
    else
      len <- strlen fuel s ;;
      r <- ltrim_loop fuel s len ;;
      let '(cur, len) := r in
      (if negb (s =? cur) then memmove s cur (len + 1) else mreturn s) ;;;
      mreturn s.

(** [while(cur != s && isspace( *cur)) { --cur, --len; }] *)
Fixpoint rtrim_loop (fuel : nat) (s cur : Z) : M St Z :=
  match fuel with
  | O => mnofuel
  | S f =>
      if cur =? s then mreturn cur
      else
        c <- load8 cur ;;
        if isspace c then rtrim_loop f s (cur - 1) else mreturn cur
  end.
Definition rtrim (fuel : nat) (s : Z) : M St Z :=
  if s =? 0 then mreturn s
  else
    c <- load8 s ;;
    if c =? 0 then mreturn s
    else
      len <- strlen fuel s ;;
      cur <- rtrim_loop fuel s (s + len - 1) ;;
      c <- load8 cur ;;
      store8 (if isspace c then cur else cur + 1) 0 ;;;
      mreturn s.

Definition trim (fuel : nat) (s : Z) : M St Z := p <- ltrim fuel s ;; rtrim fuel p.
End string_c.

(** ** Strings in memory *)

(** [cstr m p l]: the zero-terminated string [l] lies at [p]. *)
Fixpoint cstr (m : memory) (p : Z) (l : list Z) : Prop :=
  match l with
  | [] => m !! p = Some 0
  | c :: l' => m !! p = Some c /\ 0 < c < 256 /\ cstr m (p + 1) l'
  end.

(** ** The list functions the routines implement *)

Fixpoint lcmp (a b : list Z) : Z :=
  match a, b with
  | [], [] => 0
  | [], _ => -1
  | _, [] => 1
  | x :: a', y :: b' => if x =? y then lcmp a' b' else if s8 x <? s8 y then -1 else 1
  end.

Fixpoint lprefix (p l : list Z) : bool :=
  match p, l with
  | [], _ => true
  | x :: p', y :: l' => (x =? y) && lprefix p' l'
  | _, [] => false
  end.

(** The index of the first occurrence of [p] in [l]. *)
Fixpoint lfind (p l : list Z) : option nat :=
  match l with
  | [] => None
  | _ :: l' => if lprefix p l then Some O else S <$> lfind p l'
  end.

Fixpoint ldrop_space (l : list Z) : list Z :=
  match l with
  | c :: l' => if isspace c then ldrop_space l' else l
  | [] => []
  end.
Definition ltrim_both (l : list Z) : list Z := reverse (ldrop_space (reverse (ldrop_space l))).

Lemma cstr_agree m m' p l :
  agree m m' p (Z.of_nat (length l) + 1) -> cstr m p l -> cstr m' p l.
Proof.
  revert p. induction l as [|c l IH]; intros p Hag; simpl.
  { intros. rewrite Hag; [done|simpl; lia]. }
  intros (Hc & Hr & Hl). rewrite Hag by (simpl; lia). split; [done|split; [done|]].
  apply IH; [|done]. intros i Hi. apply Hag. simpl. lia.
Qed.

Lemma cstr_lookup m p l i c :
  cstr m p l -> l !! i = Some c -> m !! (p + Z.of_nat i) = Some c /\ 0 < c < 256.
Proof.
  revert p i. induction l as [|d l IH]; intros p i Hl Hi; [done|].
  destruct Hl as (Hd & Hr & Hl). destruct i as [|i]; simpl in Hi; simplify_eq.
  { by rewrite Z.add_0_r. }
  destruct (IH (p + 1) i) as [<- ?]; [done..|]. split; [f_equal; lia|done].
Qed.

Lemma cstr_end m p l : cstr m p l -> m !! (p + Z.of_nat (length l)) = Some 0.
Proof.
  revert p. induction l as [|c l IH]; intros p; simpl; [by rewrite Z.add_0_r|].
  intros (_ & _ & Hl). rewrite <-(IH _ Hl). f_equal. lia.
Qed.

Lemma cstr_mapped m p l : cstr m p l -> mapped m p (Z.of_nat (length l) + 1).
Proof.
  intros Hl i Hi. destruct (decide (i = p + Z.of_nat (length l))) as [->|].
  { erewrite cstr_end by done. eauto. }
  destruct (lookup_lt_is_Some_2 l (Z.to_nat (i - p))) as [c Hc]; [lia|].
  destruct (cstr_lookup _ _ _ _ _ Hl Hc) as [Hm _]. rewrite Z2Nat.id in Hm by lia.
  replace (p + (i - p)) with i in Hm by lia. eauto.
Qed.

(** A string is determined by its bytes and its terminator. *)
Lemma cstr_intro m p l :
  (forall i c, l !! i = Some c -> m !! (p + Z.of_nat i) = Some c /\ 0 < c < 256) ->
  m !! (p + Z.of_nat (length l)) = Some 0 -> cstr m p l.
Proof.
  revert p. induction l as [|c l IH]; intros p Hl He; simpl in *.
  { by rewrite Z.add_0_r in He. }
  destruct (Hl O c) as [Hc Hr]; [done|]. rewrite Z.add_0_r in Hc.
  split; [done|split; [done|]]. apply IH.
  - intros i d Hd. destruct (Hl (S i) d Hd) as [<- ?]. split; [f_equal; lia|done].
  - rewrite <-He. f_equal. lia.
Qed.

Lemma cstr_copy m m' d p l :
  is_copy m m' d p (Z.of_nat (length l) + 1) -> cstr m p l -> cstr m' d l.
Proof.
  intros Hcp Hl. apply cstr_intro.
  - intros i c Hi. destruct (cstr_lookup _ _ _ _ _ Hl Hi) as [Hm Hc].
    apply lookup_lt_Some in Hi. rewrite Hcp, decide_True by lia.
    replace (p + (d + Z.of_nat i - d)) with (p + Z.of_nat i) by lia.
    rewrite Hm. simpl. by rewrite u8_small by lia.
  - rewrite Hcp, decide_True by lia.
    replace (p + (d + Z.of_nat (length l) - d)) with (p + Z.of_nat (length l)) by lia.
    by rewrite (cstr_end _ _ _ Hl).
Qed.

Lemma lcmp_eq a b : lcmp a b = 0 <-> a = b.
Proof.
  revert b. induction a as [|x a IH]; intros [|y b]; simpl; try done.
  destruct (Z.eqb_spec x y) as [->|]; [rewrite IH; naive_solver|].
  destruct (_ <? _); naive_solver.
Qed.

Lemma lprefix_take p l : lprefix p l = true <-> take (length p) l = p.
Proof.
  revert l. induction p as [|x p IH]; intros [|y l]; simpl; try done.
  rewrite andb_true_iff, IH, Z.eqb_eq.
  split; [by intros [-> ->]|by intros [= -> ->]].
Qed.

Lemma isspace_nonzero c : isspace c = true -> c <> 0.
Proof. by intros H ->. Qed.

Section string_rules.
Context {St : Type} `{HasMem St}.

Lemma load_char c p (s : St) : get_mem s !! p = Some c -> 0 <= c < 256 -> load8 p s = Ret (c, s).
Proof. intros Hp Hc. rewrite (load8_run _ _ _ Hp). by rewrite u8_small by lia. Qed.

Lemma load_head p l (s : St) :
  cstr (get_mem s) p l -> load8 p s = Ret (default 0 (head l), s).
Proof.
  destruct l as [|c l]; simpl; [intros Hp|intros (Hp & Hc & _)]; (apply load_char; [done|lia]).
Qed.

Lemma strlen_loop_run fuel p i l (s : St) :
  cstr (get_mem s) (p + i) l -> (length l < fuel)%nat ->
  strlen_loop fuel p i s = Ret (i + Z.of_nat (length l), s).
Proof.
  revert i l. induction fuel as [|f IH]; intros i l Hl Hf; [lia|].
  simpl. unfold mseq. rewrite (load_head _ l) by done. destruct l as [|c l]; simpl.
  { ret_eq. }
  destruct Hl as (_ & Hc & Hl). destruct (Z.eqb_spec c 0); [lia|].
  rewrite (IH (i + 1) l) by (simpl in *; lia || by rewrite Z.add_assoc).
  ret_eq.
Qed.

Lemma strlen_run fuel p l (s : St) :
  cstr (get_mem s) p l -> (length l < fuel)%nat ->
  strlen fuel p s = Ret (Z.of_nat (length l), s).
Proof. intros. unfold strlen. by rewrite (strlen_loop_run _ _ _ l) by (by rewrite ?Z.add_0_r). Qed.

Lemma cmp_body_cons x y : x <> 0 -> y <> 0 ->
  cmp_body x y = if x =? y then None else Some (if s8 x <? s8 y then -1 else 1).
Proof.
  intros. unfold cmp_body. destruct (Z.eqb_spec x y) as [->|], (Z.eqb_spec y 0); try done.
  all: destruct (Z.eqb_spec x 0); try done. by destruct (_ <? _).
Qed.

Lemma strcmp_run fuel p q a b (s : St) :
  cstr (get_mem s) p a -> cstr (get_mem s) q b -> (length a < fuel)%nat ->
  strcmp fuel p q s = Ret (lcmp a b, s).
Proof.
  revert p q a b. induction fuel as [|f IH]; intros p q a b Ha Hb Hf; [lia|].
  simpl. unfold mseq. rewrite (load_head _ a), (load_head _ b) by done.
  destruct a as [|x a], b as [|y b]; simpl in *; [done| | |].
  - destruct Hb as (_ & Hy & _). unfold cmp_body. by destruct (Z.eqb_spec 0 y); [lia|].
  - destruct Ha as (_ & Hx & _). unfold cmp_body. by destruct (Z.eqb_spec x 0); [lia|].
  - destruct Ha as (_ & Hx & Ha), Hb as (_ & Hy & Hb).
    rewrite cmp_body_cons by lia. destruct (Z.eqb_spec x y); [|done].
    apply IH; [done|done|lia].
Qed.

Lemma strncmp_loop_run n p q a b (s : St) :
  cstr (get_mem s) p a -> cstr (get_mem s) q b ->
  strncmp_loop n p q s = Ret (lcmp (take n a) (take n b), s).
Proof.
  revert p q a b. induction n as [|n IH]; intros p q a b Ha Hb; [done|].
  simpl. unfold mseq. rewrite (load_head _ a), (load_head _ b) by done.
  destruct a as [|x a], b as [|y b]; simpl in *; [done| | |].
  - destruct Hb as (_ & Hy & _). unfold cmp_body. by destruct (Z.eqb_spec 0 y); [lia|].
  - destruct Ha as (_ & Hx & _). unfold cmp_body. by destruct (Z.eqb_spec x 0); [lia|].
  - destruct Ha as (_ & Hx & Ha), Hb as (_ & Hy & Hb).
    rewrite cmp_body_cons by lia. destruct (Z.eqb_spec x y); [|done]. by apply IH.
Qed.

Lemma strstr_loop_run fuel p q a b (s : St) :
  cstr (get_mem s) p a -> cstr (get_mem s) q b -> b <> [] -> (length a < fuel)%nat ->
  strstr_loop fuel p q (Z.of_nat (length b)) s =
  Ret (match lfind b a with Some i => p + Z.of_nat i | None => 0 end, s).
Proof.
  intros Ha Hb Hne. revert p a Ha. induction fuel as [|f IH]; intros p a Ha Hf; [lia|].
  simpl. unfold mseq. rewrite (load_head _ a) by done.
  destruct a as [|x a]; simpl; [done|].
  destruct Ha as (Hpx & Hx & Ha). destruct (Z.eqb_spec x 0); [lia|].
  rewrite (load_head _ b) by done. destruct b as [|y b]; [done|]. simpl.
  assert (Hrec : strstr_loop f (p + 1) q (Z.of_nat (length (y :: b))) s =
    Ret (match S <$> lfind (y :: b) a with Some i => p + Z.of_nat i | None => 0 end, s)).
  { rewrite (IH (p + 1) a) by (simpl in *; lia || done).
    destruct (lfind (y :: b) a); simpl; ret_eq. }
  destruct (Z.eqb_spec x y) as [<-|Hxy].
  - unfold strncmp. rewrite (strncmp_loop_run _ p q (x :: a) (x :: b)) by done.
    rewrite Nat2Z.id, Z.eqb_refl. change (S (length b)) with (length (x :: b)).
    rewrite (firstn_all (x :: b)). simpl.
    destruct (lprefix b a) eqn:Hpre; simpl.
    + apply lprefix_take in Hpre. rewrite Hpre, Z.eqb_refl.
      rewrite (proj2 (lcmp_eq b b)) by done. simpl. ret_eq.
    + rewrite Z.eqb_refl. destruct (Z.eqb_spec (lcmp (take (length b) a) b) 0) as [He|]; [|done].
      rewrite lcmp_eq in He. apply lprefix_take in He. congruence.
  - destruct (Z.eqb_spec y x); [congruence|]. simpl. done.
Qed.
End string_rules.

(** ** Trimming *)

Definition rstrip (l : list Z) : list Z := reverse (ldrop_space (reverse l)).

Lemma rstrip_snoc l c : rstrip (l ++ [c]) = if isspace c then rstrip l else l ++ [c].
Proof.
  unfold rstrip. rewrite reverse_snoc. simpl. destruct (isspace c); [done|].
  by rewrite reverse_cons, reverse_involutive.
Qed.

(** What [rstrip] keeps is a prefix, and the byte after it was a space. *)
Lemma rstrip_split l : exists sp, l = rstrip l ++ sp /\ Forall (fun c => isspace c = true) sp.
Proof.
  induction l as [|c l IH] using rev_ind; [by exists []|].
  rewrite rstrip_snoc. destruct (isspace c) eqn:Hc; [|by exists []; rewrite app_nil_r].
  destruct IH as (sp & Hl & Hsp). exists (sp ++ [c]). split.
  - rewrite app_assoc. by rewrite <-Hl.
  - apply Forall_app. auto.
Qed.

Lemma rstrip_last l : rstrip l = [] \/ exists r c, rstrip l = r ++ [c] /\ isspace c = false.
Proof.
  induction l as [|c l IH] using rev_ind; [by left|].
  rewrite rstrip_snoc. destruct (isspace c) eqn:Hc; [done|]. right. eauto.
Qed.

Lemma ldrop_split l :
  exists sp, l = sp ++ ldrop_space l /\ Forall (fun c => isspace c = true) sp.
Proof.
  induction l as [|c l IH]; [by exists []|]. simpl. destruct (isspace c) eqn:Hc.
  - destruct IH as (sp & Hl & Hsp). exists (c :: sp). split; [simpl; by rewrite <-Hl|auto].
  - by exists [].
Qed.

Lemma cstr_app m p a b :
  cstr m p (a ++ b) -> cstr m (p + Z.of_nat (length a)) b.
Proof.
  revert p. induction a as [|c a IH]; intros p; simpl; [by rewrite Z.add_0_r|].
  intros (_ & _ & Hl). apply IH in Hl. by replace (p + Z.of_nat (S (length a)))
    with (p + 1 + Z.of_nat (length a)) by lia.
Qed.

(** Writing a zero after the prefix [a] cuts the string there. *)
Lemma cstr_cut m p a b :
  cstr m p (a ++ b) -> cstr (<[p + Z.of_nat (length a) := 0]> m) p a.
Proof.
  intros Hl. apply cstr_intro; [|apply lookup_insert_eq].
  intros i c Hi. pose proof (lookup_lt_Some _ _ _ Hi). rewrite lookup_insert_ne by lia.
  apply (cstr_lookup _ _ _ _ _ Hl). by apply lookup_app_l_Some.
Qed.

Section trim_rules.
Context {St : Type} `{HasMem St}.

Lemma ltrim_loop_run fuel p len l (s : St) :
  cstr (get_mem s) p l -> (length l < fuel)%nat ->
  ltrim_loop fuel p len s =
    Ret ((p + Z.of_nat (length l - length (ldrop_space l)),
          len - Z.of_nat (length l - length (ldrop_space l))), s).
Proof.
  revert p len l. induction fuel as [|f IH]; intros p len l Hl Hf; [lia|].
  simpl. unfold mseq. rewrite (load_head _ l) by done. destruct l as [|c l]; simpl.
  { apply Ret_eq; [f_equal; lia|done]. }
  destruct Hl as (_ & Hc & Hl). destruct (Z.eqb_spec c 0); [lia|]. simpl.
  destruct (isspace c); simpl.
  - rewrite (IH (p + 1) (len - 1) l) by (simpl in *; lia || done).
    destruct (ldrop_split l) as (sp & Hsp & _).
    apply (f_equal length) in Hsp. rewrite length_app in Hsp.
    apply Ret_eq; [f_equal; lia|done].
  - apply Ret_eq; [f_equal; lia|done].
Qed.

Lemma ltrim_run fuel p l (s : St) :
  p <> 0 -> cstr (get_mem s) p l -> (length l < fuel)%nat ->
  exists m', ltrim fuel p s = Ret (p, set_mem m' s) /\ cstr m' p (ldrop_space l) /\
    forall i, (i < p \/ p + Z.of_nat (length l) < i) -> m' !! i = get_mem s !! i.
Proof.
  intros Hp Hl Hf. unfold ltrim, mseq. destruct (Z.eqb_spec p 0); [done|].
  rewrite (load_head _ l) by done. destruct (ldrop_split l) as (sp & Hsp & _).
  destruct (Z.eqb_spec (default 0 (head l)) 0) as [Hz|Hz].
  { exists (get_mem s). rewrite set_get_mem. destruct l as [|c l]; [done|].
    destruct Hl as (_ & Hc & _). simpl in Hz. lia. }
  rewrite (strlen_run _ _ l), (ltrim_loop_run _ _ _ l) by done.
  assert (Hlen : length l = (length sp + length (ldrop_space l))%nat)
    by (by rewrite Hsp at 1; rewrite length_app).
  destruct (Z.eqb_spec p (p + Z.of_nat (length l - length (ldrop_space l)))) as [He|He]; simpl.
  { exists (get_mem s). rewrite set_get_mem. destruct sp; [|simpl in *; lia].
    simpl in Hsp. by rewrite <-Hsp. }
  set (cur := p + _). assert (Hcur : cstr (get_mem s) cur (ldrop_space l)).
  { rewrite Hsp in Hl. apply cstr_app in Hl. subst cur. by replace
      (length l - length (ldrop_space l))%nat with (length sp) by lia. }
  destruct (memmove_copy p cur (Z.of_nat (length (ldrop_space l)) + 1) s) as (m' & Hm & Hcp).
  { lia. } { by left; subst cur; lia. }
  { eapply mapped_weaken; [apply (cstr_mapped _ _ _ Hl)|lia|lia]. }
  { by apply cstr_mapped. }
  replace (Z.of_nat (length l) - Z.of_nat (length l - length (ldrop_space l)) + 1)
    with (Z.of_nat (length (ldrop_space l)) + 1) by lia.
  rewrite Hm. exists m'. split; [done|]. split; [by eapply cstr_copy|].
  intros i Hi. rewrite Hcp, decide_False; [done|lia].
Qed.

Lemma rtrim_loop_run fuel p t r (s : St) :
  cstr (get_mem s) p (t ++ r) -> t <> [] -> (length t <= fuel)%nat ->
  rtrim_loop fuel p (p + Z.of_nat (length t) - 1) s =
    Ret (p + Z.of_nat (pred (length (rstrip t))), s).
Proof.
  revert fuel r. induction t as [|c t IH] using rev_ind; intros fuel r Hl Hne Hf; [done|].
  rewrite length_app in *. simpl in *. destruct fuel as [|f]; [lia|]. simpl.
  rewrite rstrip_snoc. destruct (Z.eqb_spec (p + Z.of_nat (length t + 1) - 1) p).
  { destruct t; [|simpl in *; lia]. simpl. destruct (isspace c); ret_eq; simpl; lia. }
  rewrite <-app_assoc in Hl. simpl in Hl.
  destruct (cstr_lookup _ _ _ (length t) c Hl) as [Hc Hr].
  { rewrite lookup_app_r, Nat.sub_diag by lia. done. }
  unfold mseq. replace (p + Z.of_nat (length t + 1) - 1) with (p + Z.of_nat (length t)) by lia.
  rewrite (load_char c) by (done || lia). destruct (isspace c).
  - replace (p + Z.of_nat (length t) - 1) with (p + Z.of_nat (length t) - 1) by lia.
    apply (IH f (c :: r)); [done| |lia]. by destruct t; [simpl in *; lia|].
  - rewrite length_app. simpl. ret_eq.
Qed.

Lemma rtrim_run fuel p l (s : St) :
  p <> 0 -> cstr (get_mem s) p l -> (length l < fuel)%nat ->
  exists m', rtrim fuel p s = Ret (p, set_mem m' s) /\ cstr m' p (rstrip l) /\
    forall i, (i < p \/ p + Z.of_nat (length l) < i) -> m' !! i = get_mem s !! i.
Proof.
  intros Hp Hl Hf. unfold rtrim, mseq. destruct (Z.eqb_spec p 0); [done|].
  rewrite (load_head _ l) by done.
  destruct (Z.eqb_spec (default 0 (head l)) 0) as [Hz|Hz].
  { exists (get_mem s). rewrite set_get_mem. destruct l as [|c l]; [done|].
    destruct Hl as (_ & Hc & _). simpl in Hz. lia. }
  assert (l <> []) by (by intros ->).
  rewrite (strlen_run _ _ l), (rtrim_loop_run _ _ l []) by (rewrite ?app_nil_r; done || lia).
  destruct (rstrip_split l) as (sp & Hsp & Hall).
  assert (Hst : exists b, get_mem s !! (p + Z.of_nat (pred (length (rstrip l)))) = Some b /\
    0 < b < 256 /\ (if isspace b then p + Z.of_nat (pred (length (rstrip l)))
                   else p + Z.of_nat (pred (length (rstrip l))) + 1)
                   = p + Z.of_nat (length (rstrip l))).
  { destruct (rstrip_last l) as [Hnil|(r & c & Hr & Hc)].
    - rewrite Hnil in *. simpl in Hsp. subst sp. destruct l as [|c l]; [done|].
      destruct Hl as (Hc & ? & _). inversion Hall as [|?? Hsp]; subst.
      exists c. simpl. rewrite Hsp. split_and!; try lia. by rewrite Z.add_0_r.
    - rewrite Hr. rewrite length_app. simpl. exists c.
      destruct (cstr_lookup _ _ _ (length r) c Hl) as [Hm ?].
      { rewrite Hsp, Hr, <-app_assoc, lookup_app_r, Nat.sub_diag by lia. done. }
      rewrite Hc. replace (pred (length r + 1)) with (length r) by lia. split_and!; done || lia. }
  destruct Hst as (b & Hb & Hbr & Haddr). rewrite (load_char b) by (done || lia).
  rewrite Haddr. rewrite store8_run.
  2: { apply (cstr_mapped _ _ _ Hl). apply (f_equal length) in Hsp.
       rewrite length_app in Hsp. lia. }
  eexists. split; [done|]. rewrite Hsp in Hl at 1. split; [by apply cstr_cut in Hl|].
  intros i Hi. apply lookup_insert_ne. apply (f_equal length) in Hsp.
  rewrite length_app in Hsp. lia.
Qed.
End trim_rules.

(** ** Bounded copies *)

(** [is_strncpy m m' d n l]: [m'] is [m] with the first [n] bytes of [l],
    padded with zeros, placed at [d]. *)
Definition is_strncpy (m m' : memory) (d n : Z) (l : list Z) : Prop :=
  forall i, m' !! i = if decide (d <= i < d + n)
                      then Some (default 0 (l !! Z.to_nat (i - d))) else m !! i.

Section strncpy_rules.
Context {St : Type} `{HasMem St}.

Lemma strncpy_loop_run k d t l (s : St) :
  cstr (get_mem s) t l -> mapped (get_mem s) d (Z.of_nat k) ->
  d + Z.of_nat k <= t \/ t + Z.of_nat (length l) < d ->
  exists m', strncpy_loop k d t s = Ret (tt, set_mem m' s) /\
             is_strncpy (get_mem s) m' d (Z.of_nat k) l.
Proof.
  revert d t l s. induction k as [|k IH]; intros d t l s Hl Hm Hd.
  { simpl. unfold mseq. rewrite (load_head _ l) by done. exists (get_mem s).
    rewrite set_get_mem. split; [done|]. intros i. rewrite decide_False; [done|lia]. }
  cbn [strncpy_loop]. unfold mseq. rewrite (load_head _ l) by done.
  destruct l as [|c l]; cbn [default].
  { destruct (memset_loop_fill (S k) d 0 s Hm) as (m' & Hr & Hf). exists m'.
    split; [done|]. intros i. rewrite Hf. case_decide; [by rewrite lookup_nil|done]. }
  change (default 0 (head (c :: l))) with c.
  destruct Hl as (_ & Hc & Hl). destruct (Z.eqb_spec c 0); [lia|].
  rewrite store8_run by (apply Hm; lia). simpl length in Hd.
  edestruct (IH (d + 1) (t + 1) l) as (m' & -> & Hf); rewrite ?get_set_mem; [| |lia|].
  { eapply cstr_agree; [|done]. intros i Hi. apply lookup_insert_ne. lia. }
  { intros i Hi. destruct (decide (i = d)) as [->|]; [rewrite lookup_insert_eq; eauto|].
    rewrite lookup_insert_ne by done. apply Hm. lia. }
  exists m'. rewrite set_set_mem. split; [done|]. intros i. rewrite Hf, get_set_mem.
  repeat case_decide; try lia; try done.
  - replace (Z.to_nat (i - d)) with (S (Z.to_nat (i - (d + 1)))) by lia. done.
  - replace i with d by lia. rewrite lookup_insert_eq, Z.sub_diag, u8_small by lia. done.
  - apply lookup_insert_ne. lia.
Qed.

Lemma strncpy_run n d t l (s : St) :
  0 <= n -> cstr (get_mem s) t l -> mapped (get_mem s) d n ->
  d + n <= t \/ t + Z.of_nat (length l) < d ->
  exists m', strncpy d t n s = Ret (d, set_mem m' s) /\ is_strncpy (get_mem s) m' d n l.
Proof.
  intros Hn Hl Hm Hd. unfold strncpy, mseq.
  destruct (strncpy_loop_run (Z.to_nat n) d t l s) as (m' & -> & Hf);
    rewrite ?Z2Nat.id in * by done; eauto.
Qed.
End strncpy_rules.

(** ** Concrete memories for the witnesses *)

Fixpoint place (p : Z) (l : list Z) (m : memory) : memory :=
  match l with [] => m | c :: l' => <[p := c]> (place (p + 1) l' m) end.

(** ** Properties *)

Section string_properties.
Context {St : Type} `{HasMem St}.

(** strcmp returns, changes nothing, and answers with the
    lexicographic order of the two strings (signed characters, a proper
    prefix being smaller); it answers 0 exactly for equal strings. *)
Theorem strcmp_correct (fuel : nat) (p q : Z) (a b : list Z) (s : St)
    (Ha : cstr (get_mem s) p a) (Hb : cstr (get_mem s) q b)
    (Hf : (length a < fuel)%nat) :
  strcmp fuel p q s = Ret (lcmp a b, s) /\ (lcmp a b = 0 <-> a = b).
Proof. split; [by apply strcmp_run|apply lcmp_eq]. Qed.

(** strstr returns a pointer to the first occurrence of a non-empty
    pattern, and NULL exactly when the pattern does not occur. *)
Theorem strstr_first (fuel : nat) (p q : Z) (a b : list Z) (s : St)
    (Ha : cstr (get_mem s) p a) (Hb : cstr (get_mem s) q b) (Hne : b <> [])
    (Hfa : (length a < fuel)%nat) (Hfb : (length b < fuel)%nat) :
  strstr fuel p q s =
    Ret (match lfind b a with Some i => p + Z.of_nat i | None => 0 end, s) /\
  match lfind b a with
  | Some i => take (length b) (drop i a) = b /\
              forall j, (j < i)%nat -> take (length b) (drop j a) <> b
  | None => forall j, take (length b) (drop j a) <> b
  end.
Proof.
  split.
  { unfold strstr, mseq. rewrite (strlen_run _ _ b) by done. by apply strstr_loop_run. }
  clear -Hne. induction a as [|x a IH]; simpl.
  { intros j. by rewrite drop_nil, take_nil. }
  destruct (lprefix b (x :: a)) eqn:Hp.
  { apply lprefix_take in Hp. split; [by rewrite drop_0|lia]. }
  assert (H0 : take (length b) (x :: a) <> b)
    by (intros Hx%lprefix_take; congruence).
  destruct (lfind b a) as [i|]; simpl.
  - destruct IH as [IH1 IH2]. split; [done|]. intros [|j] Hj; [by rewrite drop_0|].
    apply IH2. lia.
  - intros [|j]; [by rewrite drop_0|]. apply IH.
Qed.

(** strrstr never finds anything: for all strings it returns NULL,
    because its loop starts at index 0 and runs only while the index is
    greater than 1. *)
Theorem strrstr_null (fuel : nat) (p q : Z) (a b : list Z) (s : St)
    (Ha : cstr (get_mem s) p a) (Hb : cstr (get_mem s) q b)
    (Hfa : (length a < fuel)%nat) (Hfb : (length b < fuel)%nat) :
  strrstr fuel p q s = Ret (0, s).
Proof.
  unfold strrstr, mseq. rewrite (strlen_run _ _ a), (strlen_run _ _ b) by done.
  by destruct fuel; [lia|].
Qed.

(** trim works in place: it returns its argument, leaves there the
    string without the white space at both ends, and touches no byte
    outside the original string and its terminator. *)
Theorem trim_correct (fuel : nat) (p : Z) (l : list Z) (s : St)
    (Hp : p <> 0) (Hl : cstr (get_mem s) p l) (Hf : (length l < fuel)%nat) :
  exists m', trim fuel p s = Ret (p, set_mem m' s) /\ cstr m' p (ltrim_both l) /\
    forall i, (i < p \/ p + Z.of_nat (length l) < i) -> m' !! i = get_mem s !! i.
Proof.
  unfold trim, mseq. destruct (ltrim_run fuel p l s) as (m1 & -> & Hl1 & Ho1); [done..|].
  assert (Hle : (length (ldrop_space l) <= length l)%nat).
  { destruct (ldrop_split l) as (sp & Hsp & _). apply (f_equal length) in Hsp.
    rewrite length_app in Hsp. lia. }
  destruct (rtrim_run fuel p (ldrop_space l) (set_mem m1 s)) as (m2 & -> & Hl2 & Ho2);
    [done|by rewrite get_set_mem|lia|].
  exists m2. rewrite set_set_mem. split; [done|]. split; [done|].
  intros i Hi. rewrite Ho2, get_set_mem by lia. apply Ho1. lia.
Qed.

(** memmove copies correctly even when the two ranges overlap: the
    destination ends up with the bytes the source had before the call,
    and every byte outside the destination is unchanged. *)
Theorem memmove_correct (dst src n : Z) (s : St)
    (Hn : 0 <= n) (Hbytes : bytes_ok (get_mem s))
    (Hdst : mapped (get_mem s) dst n) (Hsrc : mapped (get_mem s) src n) :
  exists m', memmove dst src n s = Ret (dst, set_mem m' s) /\
             is_copy (get_mem s) m' dst src n.
Proof. apply memmove_copy; auto. Qed.
End string_properties.

(** "ab", "  x y " and "x" at 16, 32 and 64. *)
Definition demo_mem : memory :=
  place 16 [97; 98; 0] (place 32 [32; 32; 120; 32; 121; 32; 0] (place 64 [120; 0] ∅)).

Lemma strcmp_correct_witness :
  strcmp 8 16 64 demo_mem = Ret (-1, demo_mem).
Proof.
  apply (strcmp_correct (St := memory) 8 16 64 [97; 98] [120] demo_mem);
    vm_compute; repeat split; lia.
Defined.

Lemma strstr_first_witness :
  strstr 8 32 64 demo_mem = Ret (34, demo_mem).
Proof.
  apply (strstr_first (St := memory) 8 32 64 [32; 32; 120; 32; 121; 32] [120] demo_mem);
    [vm_compute; repeat split; lia|vm_compute; repeat split; lia|done|simpl; lia|simpl; lia].
Defined.

Lemma strrstr_null_witness : strrstr 8 32 64 demo_mem = Ret (0, demo_mem).
Proof.
  apply (strrstr_null (St := memory) 8 32 64 [32; 32; 120; 32; 121; 32] [120] demo_mem);
    [vm_compute; repeat split; lia|vm_compute; repeat split; lia|simpl; lia|simpl; lia].
Defined.

Lemma trim_correct_witness : exists m', trim 8 32 demo_mem = Ret (32, m') /\ cstr m' 32 [120; 32; 121].
Proof.
  destruct (trim_correct (St := memory) 8 32 [32; 32; 120; 32; 121; 32] demo_mem)
    as (m' & Hr & Hl & _); [done|vm_compute; repeat split; lia|simpl; lia|].
  exists m'. split; [exact Hr|exact Hl].
Defined.

Lemma memmove_correct_witness :
  exists m', memmove 33 32 5 demo_mem = Ret (33, m') /\ m' !! 35 = Some 120.
Proof.
  destruct (memmove_correct (St := memory) 33 32 5 demo_mem) as (m' & Hr & Hc).
  - lia.
  - intros i b Hi. apply elem_of_map_to_list in Hi. vm_compute in Hi.
    repeat (apply elem_of_cons in Hi as [Hi|Hi]; [injection Hi as -> ->; lia|]).
    by apply elem_of_nil in Hi.
  - intros i Hi. vm_compute. assert (i = 33 \/ i = 34 \/ i = 35 \/ i = 36 \/ i = 37) as Hc by lia.
    destruct Hc as [-> | [-> | [-> | [-> | -> ]]]]; eauto.
  - intros i Hi. vm_compute. assert (i = 32 \/ i = 33 \/ i = 34 \/ i = 35 \/ i = 36) as Hc by lia.
    destruct Hc as [-> | [-> | [-> | [-> | -> ]]]]; eauto.
  - exists m'. split; [exact Hr|]. rewrite (Hc 35). reflexivity.
Defined.
