(* ===== verification/Alloc.v ===== *)
(** * The allocator interface

    What the rest of the kernel relies on when it calls [kheap_alloc] and
    [kheap_free] (the macros of src/kheap.h around src/heap.c): a set of
    live blocks that are mapped, do not overlap, keep their contents while
    others are allocated and freed, and may be written freely.  Heap.v
    implements the interface; the components that allocate are verified
    against it. *)

From S2P Require Import Prelude Mem.

(** The two operations. *)
Class KHeapOps (St : Type) := {
  kheap_alloc : Z -> M St Z;
  kheap_free : Z -> M St unit;
}.

(** Block sizes are rounded up to the 8 bytes of a [heap_block_t]. *)
Definition round8 (n : Z) : Z := (n + 7) / 8 * 8.

(** The contract. [live s] maps the address of each live block to its size.
    A block is as large as the request rounded up to 8 bytes.  An allocation
    may fail by returning NULL (0), about which nothing is promised here. *)
Class KHeap (St : Type) `{HasMem St} `{KHeapOps St} := {
  kh_inv : St -> Prop;
  live : St -> gmap Z Z;
  kh_max : Z;
  live_mapped : forall s p n, kh_inv s -> live s !! p = Some n ->
    0 < p /\ p + n < 2 ^ 64 /\ mapped (get_mem s) p n;
  live_disjoint : forall s p n q k, kh_inv s ->
    live s !! p = Some n -> live s !! q = Some k -> p <> q -> p + n <= q \/ q + k <= p;
  kh_write : forall s p n a b, kh_inv s -> live s !! p = Some n -> p <= a < p + n ->
    kh_inv (set_mem (<[a := u8 b]> (get_mem s)) s) /\
    live (set_mem (<[a := u8 b]> (get_mem s)) s) = live s;
  alloc_law : forall s n p s', kh_inv s -> 0 < n <= kh_max ->
    kheap_alloc n s = Ret (p, s') -> p <> 0 ->
    kh_inv s' /\ live s !! p = None /\ live s' = <[p := round8 n]> (live s) /\
    forall q k, live s !! q = Some k -> agree (get_mem s) (get_mem s') q k;
  free_law : forall s p n, kh_inv s -> live s !! p = Some n ->
    exists s', kheap_free p s = Ret (tt, s') /\ kh_inv s' /\ live s' = delete p (live s) /\
    forall q k, live s !! q = Some k -> q <> p -> agree (get_mem s) (get_mem s') q k;
}.

(** [fld s b o v]: the 64-bit field at offset [o] of block [b] holds [v]. *)
Definition fld {St} `{HasMem St} (s : St) (b o v : Z) : Prop :=
  mread 8 (get_mem s) (b + o) = Some v.

(** [kept s s' F]: every live block outside [F] is still live, unchanged. *)
Definition kept {St} `{KHeap St} (s s' : St) (F : list Z) : Prop :=
  forall q k, live s !! q = Some k -> q ∉ F ->
    live s' !! q = Some k /\ agree (get_mem s) (get_mem s') q k.

Section laws.
Context {St : Type} `{KHeap St}.

Lemma kept_refl (s : St) F : kept s s F.
Proof. intros q k Hq _. split; [done|apply agree_refl]. Qed.

Lemma kept_trans (s1 s2 s3 : St) F : kept s1 s2 F -> kept s2 s3 F -> kept s1 s3 F.
Proof.
  intros H12 H23 q k Hq HF. destruct (H12 q k Hq HF) as [Hq2 Ha].
  destruct (H23 q k Hq2 HF) as [Hq3 Ha']. split; [done|by eapply agree_trans].
Qed.

Lemma kept_mono (s s' : St) F G : kept s s' F -> F ⊆ G -> kept s s' G.
Proof. intros Hk HFG q k Hq HG. apply Hk; [done|]. set_solver. Qed.

Lemma fld_agree (s s' : St) b n o v :
  agree (get_mem s) (get_mem s') b n -> 0 <= o -> o + 8 <= n ->
  fld s b o v -> fld s' b o v.
Proof.
  intros Ha ? ? Hf. unfold fld. erewrite mread_ext; [done|].
  eapply agree_weaken; [done|lia|lia].
Qed.

Lemma kh_mwrite n (s : St) p k a v :
  kh_inv s -> live s !! p = Some k -> p <= a -> a + Z.of_nat n <= p + k ->
  kh_inv (set_mem (mwrite n (get_mem s) a v) s) /\
  live (set_mem (mwrite n (get_mem s) a v) s) = live s.
Proof.
  revert a v. induction n as [|n IH]; intros a v Hi Hp Ha Hk.
  { simpl. by rewrite set_get_mem. }
  destruct (IH (a + 1) (v / 256)) as [Hi' Hl']; [done|done|lia|lia|].
  simpl. rewrite <-Hl' in Hp. destruct (kh_write _ p k a v Hi' Hp) as [Hi2 Hl2]; [lia|].
  rewrite get_set_mem, set_set_mem in *. by rewrite Hl2.
Qed.

(** A store into a field of a live block. *)
Lemma fld_store (s : St) b n o v :
  kh_inv s -> live s !! b = Some n -> 0 <= o -> o + 8 <= n -> 0 <= v < 2 ^ 64 ->
  exists s', store64 (b + o) v s = Ret (tt, s') /\ kh_inv s' /\ live s' = live s /\
    fld s' b o v /\
    (forall b' n' o' w, live s !! b' = Some n' -> 0 <= o' -> o' + 8 <= n' ->
       b' <> b \/ o' + 8 <= o \/ o + 8 <= o' -> fld s b' o' w -> fld s' b' o' w) /\
    kept s s' [b].
Proof.
  intros Hi Hb Ho Hn Hv. destruct (live_mapped s b n Hi Hb) as (Hb0 & Hb1 & Hm).
  destruct (kh_mwrite 8 s b n (b + o) v) as [Hi' Hl']; [done|done|lia|lia|].
  eexists. split.
  { unfold store64. apply store_run. eapply mapped_weaken; [done|lia|lia]. }
  split; [done|]. split; [done|]. split_and!.
  - unfold fld. rewrite get_set_mem. apply mread_mwrite_eq. done.
  - intros b' n' o' w Hb' ? ? Hd Hw. unfold fld. rewrite get_set_mem.
    rewrite mread_mwrite_ne; [done|]. destruct (decide (b' = b)) as [->|Hne]; [lia|].
    destruct (live_disjoint s b n b' n'); [done..|lia|lia].
  - intros q k Hq HF. rewrite Hl'. split; [done|]. rewrite get_set_mem. apply mwrite_agree.
    destruct (live_disjoint s b n q k); [done..|set_solver|lia|lia].
Qed.

Lemma round8_ge n : n <= round8 n.
Proof. unfold round8. dlia. Qed.
Lemma round8_id n : n mod 8 = 0 -> round8 n = n.
Proof. unfold round8. intros. dlia. Qed.

Lemma is_fill_zero_read k m m' d n a :
  is_fill m m' d n 0 -> d <= a -> a + Z.of_nat k <= d + n -> mread k m' a = Some 0.
Proof.
  intros Hf. revert a. induction k as [|k IH]; intros a ? ?; [done|].
  simpl. rewrite (Hf a), decide_True by lia. by rewrite IH by lia.
Qed.

Lemma kh_memset n (s : St) p k a c :
  kh_inv s -> live s !! p = Some k -> p <= a -> a + Z.of_nat n <= p + k ->
  exists s', memset_loop n a c s = Ret (tt, s') /\ kh_inv s' /\ live s' = live s.
Proof.
  revert a s. induction n as [|n IH]; intros a s Hi Hp Ha Hk.
  { exists s. by rewrite ?set_get_mem. }
  cbn [memset_loop]. unfold mseq.
  destruct (live_mapped s p k Hi Hp) as (_ & _ & Hm).
  rewrite store8_run by (apply Hm; lia).
  destruct (kh_write s p k a c Hi Hp) as [Hi' Hl']; [lia|]. rewrite <-Hl' in Hp.
  destruct (IH (a + 1) _ Hi' Hp) as (s' & -> & ? & ?); [lia|lia|].
  exists s'. split_and!; [done|done|congruence].
Qed.

(** [x = kheap_alloc(n); memset(x, 0, n)]: a fresh block of zeros. *)
Lemma alloc_zeroed (s s1 : St) n p :
  kh_inv s -> 0 < n <= kh_max -> n mod 8 = 0 ->
  kheap_alloc n s = Ret (p, s1) -> p <> 0 ->
  exists s', memset p 0 n s1 = Ret (p, s') /\ kh_inv s' /\ live s !! p = None /\
    live s' = <[p := n]> (live s) /\
    (forall o, 0 <= o -> o + 8 <= n -> fld s' p o 0) /\ kept s s' [].
Proof.
  intros Hi Hn Hn8 Ha Hp.
  destruct (alloc_law _ _ _ _ Hi Hn Ha Hp) as (Hi1 & Hf & Hl1 & Hag).
  rewrite round8_id in Hl1 by done.
  assert (Hlp : live s1 !! p = Some n) by (by rewrite Hl1, lookup_insert_eq).
  destruct (live_mapped _ _ _ Hi1 Hlp) as (_ & _ & Hm).
  destruct (memset_run p 0 n s1) as (m' & Hr & Hfill); [lia|done|].
  destruct (kh_memset (Z.to_nat n) s1 p n p 0) as (s' & Hr' & Hi' & Hl'); [done..|lia|].
  assert (s' = set_mem m' s1) as ->.
  { unfold memset, mseq in Hr. rewrite Hr' in Hr. by injection Hr. }
  exists (set_mem m' s1). split; [done|]. split; [done|]. split; [done|].
  split; [congruence|]. split.
  - intros o ? ?. unfold fld. rewrite get_set_mem. eapply is_fill_zero_read; [done|lia|lia].
  - intros q k Hq _. assert (q <> p) by congruence.
    rewrite Hl', Hl1, lookup_insert_ne by done. split; [done|].
    eapply agree_trans; [by apply Hag|]. rewrite get_set_mem. intros i Hi0.
    rewrite Hfill, decide_False; [done|].
    destruct (live_disjoint s1 q k p n); [done|by rewrite Hl1, lookup_insert_ne|done..|lia|lia].
Qed.
End laws.

(** ** A reference allocator

    The simplest state that meets the contract: blocks are cut one after the
    other from fresh zeroed memory and never reused.  It shows that the
    contract can be met, and is what the witnesses of the client theorems
    run on. *)

Module Bump.

Record bump := B { b_mem : memory; b_live : gmap Z Z; b_next : Z }.

#[export] Program Instance bump_has_mem : HasMem bump := {|
  get_mem := b_mem; set_mem := fun m s => B m (b_live s) (b_next s) |}.
Solve All Obligations with by intros; destruct s.

Fixpoint fresh (n : nat) (p : Z) (m : memory) : memory :=
  match n with O => m | S n' => <[p := 0]> (fresh n' (p + 1) m) end.

Definition balloc (n : Z) : M bump Z := fun s =>
  let k := round8 n in
  if (b_next s + k <? 2 ^ 64) && (0 <? k)
  then Ret (b_next s,
            B (fresh (Z.to_nat k) (b_next s) (b_mem s))
              (<[b_next s := k]> (b_live s)) (b_next s + k))
  else Ret (0, s).

Definition bfree (p : Z) : M bump unit := fun s =>
  Ret (tt, B (b_mem s) (delete p (b_live s)) (b_next s)).

#[export] Instance bump_ops : KHeapOps bump := {| kheap_alloc := balloc; kheap_free := bfree |}.

Record binv (s : bump) : Prop := {
  binv_next : 0 < b_next s < 2 ^ 64;
  binv_live : forall p n, b_live s !! p = Some n ->
    0 < n /\ 0 < p /\ p + n <= b_next s /\ mapped (b_mem s) p n;
  binv_disj : forall p n q k, b_live s !! p = Some n -> b_live s !! q = Some k ->
    p <> q -> p + n <= q \/ q + k <= p;
}.

Lemma fresh_lookup n p m i :
  fresh n p m !! i = if decide (p <= i < p + Z.of_nat n) then Some 0 else m !! i.
Proof.
  revert p. induction n as [|n IH]; intros p; simpl.
  { rewrite decide_False; [done|lia]. }
  destruct (decide (i = p)) as [->|Hne].
  - rewrite lookup_insert_eq, decide_True; [done|lia].
  - rewrite lookup_insert_ne, IH by done. repeat case_decide; done || lia.
Qed.

Lemma binv_alloc s n p s' :
  binv s -> 0 < n -> balloc n s = Ret (p, s') -> p <> 0 ->
  binv s' /\ b_live s !! p = None /\ b_live s' = <[p := round8 n]> (b_live s) /\
  forall q k, b_live s !! q = Some k -> agree (b_mem s) (b_mem s') q k.
Proof.
  intros [Hn Hl Hd] Hpos. unfold balloc.
  assert (0 < round8 n) as Hk by (unfold round8; dlia). revert Hk. generalize (round8 n). clear n Hpos.
  intros n Hpos. destruct (Z.ltb_spec (b_next s + n) (2 ^ 64));
    destruct (Z.ltb_spec 0 n); simpl; intros [= <- <-] Hp; try lia.
  assert (Hfree : b_live s !! b_next s = None).
  { destruct (b_live s !! b_next s) as [k|] eqn:Hk; [|done]. destruct (Hl _ _ Hk). lia. }
  split_and!; [|done|done|].
  - constructor; simpl; [lia|..].
    + intros q k [[<- <-]|[Hq Hk]]%lookup_insert_Some.
      * split_and!; [lia|lia|lia|]. intros i Hi. rewrite fresh_lookup, decide_True; [eauto|lia].
      * destruct (Hl _ _ Hk) as (? & ? & ? & Hm). split_and!; [lia|lia|lia|].
        intros i Hi. rewrite fresh_lookup, decide_False; [by apply Hm|lia].
    + intros q k r j [[<- <-]|[Hq Hk]]%lookup_insert_Some [[<- <-]|[Hr Hj]]%lookup_insert_Some Hne;
        [done|..].
      * destruct (Hl _ _ Hj). lia.
      * destruct (Hl _ _ Hk). lia.
      * by eapply Hd.
  - intros q k Hk i Hi. simpl. destruct (Hl _ _ Hk). rewrite fresh_lookup, decide_False; [done|lia].
Qed.

#[export] Program Instance bump_heap : KHeap bump := {|
  kh_inv := binv; live := b_live; kh_max := 2 ^ 62 |}.
Next Obligation. intros s p n [Hn Hl Hd] Hp. destruct (Hl _ _ Hp) as (? & ? & ? & ?).
  split_and!; [lia|lia|done]. Qed.
Next Obligation. intros s p n q k [Hn Hl Hd]. apply Hd. Qed.
Next Obligation.
  intros s p n a b [Hn Hl Hd] Hp Ha. split; [|done]. constructor; simpl; [done| |done].
  intros q k Hq. destruct (Hl _ _ Hq) as (? & ? & ? & Hm). split_and!; [done..|].
  intros i Hi. destruct (decide (i = a)) as [->|]; [rewrite lookup_insert_eq; eauto|].
  rewrite lookup_insert_ne by done. by apply Hm.
Qed.
Next Obligation. intros s n p s' Hi Hn Ha Hp. eapply binv_alloc; [done|lia|done|done]. Qed.
Next Obligation.
  intros s p n [Hn Hl Hd] Hp. eexists. split; [done|]. split_and!; [|done|by intros].
  constructor; simpl; [done|..].
  - intros q k [_ Hq]%lookup_delete_Some. by apply Hl.
  - intros q k r j [_ Hq]%lookup_delete_Some [_ Hr]%lookup_delete_Some. by apply Hd.
Qed.

(** Nothing allocated yet. *)
Definition bump0 : bump := B ∅ ∅ 4096.

Lemma bump0_inv : binv bump0.
Proof. constructor; simpl; [lia|..]; intros *; by rewrite lookup_empty. Qed.

End Bump.
