(* ===== verification/KList.v ===== *)
(** * Linked lists: list.c

    [list_t] and [list_node_t] live in allocated memory; every function of
    src/list.c is a program over it.  Logging is not modelled: a call of
    [error] or [warn] is a no-op.  The second half relates the code to an
    abstract list, [alist], on which each operation is one line: this is the
    specification the clients (scheduler, timers, interrupt gates, stack
    allocator) are verified against. *)

From S2P Require Import Prelude Mem Alloc.

(** Layout of [list_node_t] and [list_t]. *)
Definition node_data : Z := 0.
Definition node_next : Z := 8.
Definition sizeof_list_node_t : Z := 16.
Definition list_head : Z := 0.
Definition list_tail : Z := 8.
Definition list_sz : Z := 16.
Definition sizeof_list_t : Z := 24.

Section list_c.
Context {St : Type} `{HasMem St} `{KHeapOps St}.

Definition list_new : M St Z :=
  list <- kheap_alloc sizeof_list_t ;;
  memset list 0 sizeof_list_t ;;;
  mreturn list.

Fixpoint list_delete_loop (fuel : nat) (node : Z) : M St unit :=
  match fuel with
  | O => mnofuel
  | S f =>
      if node =? 0 then mreturn tt
      else
        next_node <- load64 (node + node_next) ;;
        kheap_free node ;;;
        list_delete_loop f next_node
  end.

Definition list_delete (fuel : nat) (list : Z) : M St Z :=
  if list =? 0 then mreturn 0
  else
    node <- load64 (list + list_head) ;;
    list_delete_loop fuel node ;;;
    kheap_free list ;;;
    mreturn 0.

(** The part of [list_insert] that hooks the new node in. *)
Definition list_link (list node new_node : Z) : M St unit :=
  if node =? 0 then
    store64 (list + list_head) new_node ;;;
    tail <- load64 (list + list_tail) ;;
    if tail =? 0 then store64 (list + list_tail) new_node else mreturn tt
  else
    tail <- load64 (list + list_tail) ;;
    (if tail =? node then store64 (list + list_tail) new_node
     else
       nn <- load64 (node + node_next) ;;
       store64 (new_node + node_next) nn) ;;;
    store64 (node + node_next) new_node.

Definition list_insert (list node data : Z) : M St unit :=
  if list =? 0 then mreturn tt
  else
    new_node <- kheap_alloc sizeof_list_node_t ;;
    memset new_node 0 sizeof_list_node_t ;;;
    store64 (new_node + node_data) data ;;;
    list_link list node new_node ;;;
    size <- load64 (list + list_sz) ;;
    store64 (list + list_sz) (u64 (size + 1)).

Definition list_add (list data : Z) : M St unit :=
  tail <- load64 (list + list_tail) ;;
  list_insert list tail data.

Fixpoint list_remove_loop (fuel : nat) (list prev node item : Z) : M St unit :=
  match fuel with
  | O => mnofuel
  | S f =>
      if node =? 0 then mreturn tt
      else
        d <- load64 (node + node_data) ;;
        if d =? item then
          nn <- load64 (node + node_next) ;;
          (if negb (prev =? 0) then store64 (prev + node_next) nn
           else store64 (list + list_head) nn) ;;;
          tail <- load64 (list + list_tail) ;;
          (if tail =? node then
             (if negb (prev =? 0) then store64 (list + list_tail) prev
              else hd <- load64 (list + list_head) ;; store64 (list + list_tail) hd)
           else mreturn tt) ;;;
          kheap_free node ;;;
          size <- load64 (list + list_sz) ;;
          store64 (list + list_sz) (u64 (size - 1))
        else
          nn <- load64 (node + node_next) ;;
          list_remove_loop f list node nn item
  end.

Definition list_remove (fuel : nat) (list item : Z) : M St unit :=
  if list =? 0 then mreturn tt
  else
    node <- load64 (list + list_head) ;;
    list_remove_loop fuel list 0 node item.

Definition list_begin (list : Z) : M St Z :=
  if list =? 0 then mreturn 0 else load64 (list + list_head).

Definition list_size (list : Z) : M St Z :=
  if list =? 0 then mreturn 0 else load64 (list + list_sz).

Fixpoint list_clear (fuel : nat) (list : Z) : M St unit :=
  match fuel with
  | O => mnofuel
  | S f =>
      if list =? 0 then mreturn tt
      else
        size <- load64 (list + list_sz) ;;
        if 0 <? size then
          hd <- load64 (list + list_head) ;;
          d <- load64 (hd + node_data) ;;
          list_remove fuel list d ;;;
          list_clear f list
        else mreturn tt
  end.

(** The loop every client writes:
    [node = list_begin(list); while(node) { ... node->data ...; node = node->next; }],
    collecting the data in order. *)
Fixpoint list_walk (fuel : nat) (node : Z) : M St (list Z) :=
  match fuel with
  | O => mnofuel
  | S f =>
      if node =? 0 then mreturn []
      else
        d <- load64 (node + node_data) ;;
        nn <- load64 (node + node_next) ;;
        rest <- list_walk f nn ;;
        mreturn (d :: rest)
  end.
End list_c.

(** ** The abstract list

    [items] is what a walk from the head sees.  [attached] says that the
    tail pointer is the last node of that walk (or NULL for an empty list).
    It is false after [list_insert] at the head of a non-empty list, which
    drops the old nodes from the walk but keeps the tail pointer to them. *)

Record alist := Alist { items : list Z; asize : Z; attached : bool }.

Definition al_new : alist := Alist [] 0 true.

Definition al_add (x : Z) (a : alist) : alist :=
  Alist (if attached a then items a ++ [x] else items a) (asize a + 1) (attached a).

(** [list_insert] with NULL for the preceding node. *)
Definition al_insert_head (x : Z) (a : alist) : alist :=
  Alist [x] (asize a + 1)
        (attached a && match items a with [] => true | _ => false end).

(** [list_insert] after the node at position [i]. *)
Definition al_insert_after (i : nat) (x : Z) (a : alist) : alist :=
  Alist (take (S i) (items a) ++ x :: drop (S i) (items a)) (asize a + 1) (attached a).

Fixpoint remove_first (x : Z) (l : list Z) : list Z :=
  match l with
  | [] => []
  | y :: l' => if y =? x then l' else y :: remove_first x l'
  end.

Definition al_remove (x : Z) (a : alist) : alist :=
  if decide (x ∈ items a)
  then Alist (remove_first x (items a)) (asize a - 1) (attached a) else a.

(** The element count never falls below what a walk sees, and is exact as
    long as the list is attached. *)
Definition al_wf (a : alist) : Prop :=
  Z.of_nat (length (items a)) <= asize a /\
  (attached a = true -> asize a = Z.of_nat (length (items a))).

Lemma al_wf_new : al_wf al_new.
Proof. by split. Qed.

Lemma al_wf_add x a : al_wf a -> al_wf (al_add x a).
Proof.
  intros [Hle Heq]. unfold al_wf, al_add. destruct (attached a); simpl; [|lia].
  rewrite length_app. simpl. split; [lia|]. intros _. specialize (Heq eq_refl). lia.
Qed.

Lemma al_wf_insert_head x a : al_wf a -> al_wf (al_insert_head x a).
Proof.
  intros [Hle Heq]. unfold al_wf, al_insert_head. destruct (attached a); simpl; [|lia].
  specialize (Heq eq_refl). destruct (items a); simpl in *; split; try done; lia.
Qed.

Lemma al_wf_insert_after i x a : (i < length (items a))%nat -> al_wf a -> al_wf (al_insert_after i x a).
Proof.
  intros Hi [Hle Heq]. unfold al_wf, al_insert_after. cbn [items asize attached].
  rewrite length_app, length_cons, length_take, length_drop.
  split; [lia|]. intros Ha. specialize (Heq Ha). lia.
Qed.

Lemma remove_first_length x l : x ∈ l -> S (length (remove_first x l)) = length l.
Proof.
  induction l as [|y l IH]; [by intros ?%elem_of_nil|]. simpl.
  destruct (Z.eqb_spec y x); [done|]. intros [?|Hx]%elem_of_cons; [congruence|].
  simpl. by rewrite IH.
Qed.

Lemma al_wf_remove x a : al_wf a -> al_wf (al_remove x a).
Proof.
  intros [Hle Heq]. unfold al_remove. case_decide as Hx; [|done].
  pose proof (remove_first_length x (items a) Hx). unfold al_wf. simpl. split; [lia|].
  intros Ha. specialize (Heq Ha). lia.
Qed.

Lemma splice_after (xs ys : list Z) (x d : Z) :
  take (S (length xs)) (xs ++ x :: ys) ++ d :: drop (S (length xs)) (xs ++ x :: ys)
  = xs ++ x :: d :: ys.
Proof. induction xs as [|y xs IH]; simpl; [done|]. f_equal. exact IH. Qed.

Lemma foldr_delete_comm (n : Z) (L : gmap Z Z) (l : list Z) :
  foldr delete (delete n L) l = delete n (foldr delete L l).
Proof. induction l as [|m l IH]; simpl; [done|]. by rewrite IH, delete_delete. Qed.

(** ** Representation *)

Section rep.
Context {St : Type} `{KHeap St}.

(** The nodes (address, data) met from [p] on, up to the link [q]. *)
Fixpoint lseg (s : St) (p : Z) (ns : list (Z * Z)) (q : Z) : Prop :=
  match ns with
  | [] => p = q
  | (a, d) :: ns' =>
      p = a /\ live s !! a = Some sizeof_list_node_t /\ fld s a node_data d /\
      exists nx, fld s a node_next nx /\ lseg s nx ns' q
  end.

Definition last_addr (ns : list (Z * Z)) : Z := default 0 (fst <$> last ns).

Record lrep (s : St) (l : Z) (ns : list (Z * Z)) (a : alist) : Prop := {
  lrep_inv : kh_inv s;
  lrep_live : live s !! l = Some sizeof_list_t;
  lrep_nodup : NoDup (l :: ns.*1);
  lrep_items : items a = ns.*2;
  lrep_wf : al_wf a;
  lrep_chain : exists h, fld s l list_head h /\ lseg s h ns 0;
  lrep_size : fld s l list_sz (asize a) /\ 0 <= asize a < 2 ^ 64;
  lrep_tail : exists t, fld s l list_tail t /\
    if attached a then t = last_addr ns
    else (t ∉ (l :: ns.*1)) /\ live s !! t = Some sizeof_list_node_t;
}.
End rep.

(** ** Refinement *)

Ltac layout := unfold node_data, node_next, list_head, list_tail, list_sz,
  sizeof_list_node_t, sizeof_list_t in *.

Section refinement.
Context {St : Type} `{KHeap St}.
Context (Hmax : sizeof_list_t <= kh_max (St := St)).
Implicit Types (s : St) (ns : list (Z * Z)).

Lemma lseg_kept s s' p ns q :
  (forall a, a ∈ ns.*1 -> live s' !! a = live s !! a /\
     agree (get_mem s) (get_mem s') a sizeof_list_node_t) ->
  lseg s p ns q -> lseg s' p ns q.
Proof.
  revert p. induction ns as [|[a d] ns IH]; intros p Hk; [done|].
  intros (-> & Hl & Hd & nx & Hnx & Hc).
  destruct (Hk a) as [Hl' Hag]; [left|].
  split; [done|]. split; [by rewrite Hl'|]. split.
  { eapply fld_agree; [done|layout; lia|layout; lia|done]. }
  exists nx. split; [eapply fld_agree; [done|layout; lia|layout; lia|done]|].
  apply IH; [|done]. intros b Hb. apply Hk. by right.
Qed.

Lemma lseg_live s p ns q a :
  lseg s p ns q -> a ∈ ns.*1 -> live s !! a = Some sizeof_list_node_t.
Proof.
  revert p. induction ns as [|[b d] ns IH]; intros p Hc Ha; [by apply elem_of_nil in Ha|].
  destruct Hc as (-> & Hl & _ & nx & _ & Hc).
  apply elem_of_cons in Ha as [->|Ha]; [done|by eapply IH].
Qed.

Lemma lseg_kept_of s s' p ns q F :
  kept s s' F -> (forall a, a ∈ ns.*1 -> a ∉ F) -> lseg s p ns q -> lseg s' p ns q.
Proof.
  intros Hk HF Hc. eapply lseg_kept; [|done]. intros a Ha.
  assert (Hl : live s !! a = Some sizeof_list_node_t) by (by eapply lseg_live).
  destruct (Hk a _ Hl) as [Hl' Hag]; [by apply HF|]. by rewrite Hl, Hl'.
Qed.

Lemma lseg_app s p xs ys q :
  lseg s p (xs ++ ys) q <-> exists m, lseg s p xs m /\ lseg s m ys q.
Proof.
  revert p. induction xs as [|[a d] xs IH]; intros p; simpl.
  { split; [by exists p|by intros (m & -> & ?)]. }
  split.
  - intros (-> & Hl & Hd & nx & Hnx & (m & Hx & Hy)%IH). exists m. split; [|done].
    split_and!; try done. by exists nx.
  - intros (m & (-> & Hl & Hd & nx & Hnx & Hx) & Hy). split_and!; try done.
    exists nx. split; [done|]. apply IH. by exists m.
Qed.

(** Re-pointing the last node of a segment. *)
Lemma lseg_relink s s' p xs a d q q' F :
  lseg s p (xs ++ [(a, d)]) q -> kept s s' F -> (forall b, b ∈ xs.*1 -> b ∉ F) ->
  live s' !! a = Some sizeof_list_node_t -> fld s' a node_data d -> fld s' a node_next q' ->
  lseg s' p (xs ++ [(a, d)]) q'.
Proof.
  intros (m & Hx & (-> & _))%lseg_app Hk HF Hl Hd Hn. apply lseg_app. exists a. split.
  - by eapply lseg_kept_of.
  - simpl. split_and!; try done. by exists q'.
Qed.

Lemma lseg_head s p ns : lseg s p ns 0 -> kh_inv s -> p = 0 <-> ns = [].
Proof.
  intros Hc Hi. destruct ns as [|[a d] ns]; [by simpl in Hc; subst|].
  destruct Hc as (-> & Hl & _). destruct (live_mapped s a _ Hi Hl) as (? & _ & _).
  split; [lia|done].
Qed.

Lemma last_addr_elem ns : ns <> [] -> last_addr ns ∈ ns.*1.
Proof.
  intros Hne. unfold last_addr. destruct (last ns) as [[a d]|] eqn:Hl; simpl.
  - apply last_Some_elem_of in Hl. apply list_elem_of_fmap. by exists (a, d).
  - by apply last_None in Hl.
Qed.

Lemma last_addr_snoc ns p d : last_addr (ns ++ [(p, d)]) = p.
Proof. unfold last_addr. by rewrite last_snoc. Qed.

(** The node [list_insert] creates: fresh, with its data and a NULL link. *)
Lemma new_node s s1 p d :
  kh_inv s -> 0 <= d < 2 ^ 64 -> kheap_alloc sizeof_list_node_t s = Ret (p, s1) -> p <> 0 ->
  exists s2 s3, memset p 0 sizeof_list_node_t s1 = Ret (p, s2) /\
    store64 (p + node_data) d s2 = Ret (tt, s3) /\
    kh_inv s3 /\ live s !! p = None /\ live s3 = <[p := sizeof_list_node_t]> (live s) /\
    fld s3 p node_data d /\ fld s3 p node_next 0 /\ kept s s3 [] /\ 0 < p < 2 ^ 64.
Proof.
  intros Hi Hd Ha Hp.
  destruct (alloc_zeroed s s1 sizeof_list_node_t p)
    as (s2 & Hms & Hi2 & Hf & Hl2 & Hz & Hk2); [done|layout; lia|done|done|done|].
  assert (Hlp : live s2 !! p = Some sizeof_list_node_t) by (by rewrite Hl2, lookup_insert_eq).
  destruct (fld_store s2 p sizeof_list_node_t node_data d)
    as (s3 & Hst & Hi3 & Hl3 & Hfd & Hkeep & Hk3); [done|done|layout; lia|layout; lia|done|].
  exists s2, s3. split; [done|]. split; [done|]. split; [done|]. split; [done|].
  split; [congruence|]. split; [done|]. split.
  { eapply Hkeep; [done|layout; lia|layout; lia|layout; lia|]. apply Hz; layout; lia. }
  split.
  - intros q k Hq _. destruct (Hk2 q k Hq) as [Hq2 Hag2]; [set_solver|].
    destruct (Hk3 q k Hq2) as [Hq3 Hag3]; [set_solver|]. split; [done|by eapply agree_trans].
  - destruct (live_mapped s2 p _ Hi2 Hlp) as (? & ? & _). layout. lia.
Qed.

(** [list->size++] keeps everything else. *)
Lemma bump_size s l z k :
  kh_inv s -> live s !! l = Some sizeof_list_t -> fld s l list_sz z ->
  0 <= z + k < 2 ^ 64 ->
  exists s', store64 (l + list_sz) (u64 (z + k)) s = Ret (tt, s') /\ kh_inv s' /\
    live s' = live s /\ fld s' l list_sz (z + k) /\ kept s s' [l] /\
    (forall o w, o = list_head \/ o = list_tail -> fld s l o w -> fld s' l o w).
Proof.
  intros Hi Hl Hz Hr. rewrite u64_small by done.
  destruct (fld_store s l sizeof_list_t list_sz (z + k))
    as (s' & Hst & Hi' & Hl' & Hf & Hkeep & Hk); [done|done|layout; lia|layout; lia|done|].
  exists s'. split_and!; try done. intros o w Ho Hw.
  eapply Hkeep; [done|destruct Ho; subst; layout; lia..|done].
Qed.

(** A field of block [b] survives what is [kept]. *)
Lemma fld_kept s s' F b n o v :
  kept s s' F -> live s !! b = Some n -> b ∉ F -> 0 <= o -> o + 8 <= n ->
  fld s b o v -> fld s' b o v.
Proof.
  intros Hk Hb HF ? ? Hv. destruct (Hk b n Hb HF) as [_ Hag].
  by eapply fld_agree.
Qed.


Lemma fld_load s b o v : fld s b o v -> load64 (b + o) s = Ret (v, s).
Proof. intros Hv. by apply load_run. Qed.

Lemma node_pos s a : kh_inv s -> live s !! a = Some sizeof_list_node_t -> 0 < a < 2 ^ 64.
Proof. intros Hi Ha. destruct (live_mapped s a _ Hi Ha) as (? & ? & _). layout. lia. Qed.

Lemma list_pos s l : kh_inv s -> live s !! l = Some sizeof_list_t -> 0 < l < 2 ^ 64.
Proof. intros Hi Ha. destruct (live_mapped s l _ Hi Ha) as (? & ? & _). layout. lia. Qed.

Lemma not_elem_single (a b : Z) : a <> b -> a ∉ [b].
Proof. by rewrite list_elem_of_singleton. Qed.

(** The tail pointer of a represented list. *)
Lemma lrep_tail_cases s l ns a t :
  lrep s l ns a -> fld s l list_tail t ->
  (t = 0 /\ attached a = true /\ ns = []) \/
  (t <> 0 /\ t <> l /\ live s !! t = Some sizeof_list_node_t /\
    (attached a = true /\ ns <> [] /\ t = last_addr ns \/ attached a = false /\ t ∉ ns.*1)).
Proof.
  intros [Hi Hl Hnd Hit Hwf (h & Hh & Hc) Hsz (t' & Ht' & Htl)] Ht.
  assert (t' = t) as -> by (unfold fld in *; congruence). clear Ht'.
  apply NoDup_cons in Hnd as [Hln Hnd]. destruct (attached a).
  - destruct (decide (ns = [])) as [->|Hne]; [by left|]. right.
    assert (Hin : t ∈ ns.*1) by (subst; by apply last_addr_elem).
    assert (Hlt : live s !! t = Some sizeof_list_node_t) by (by eapply lseg_live).
    pose proof (node_pos s t Hi Hlt). split_and!; [lia|by intros ->|done|by left].
  - right. destruct Htl as [Hn Hlt]. rewrite not_elem_of_cons in Hn.
    pose proof (node_pos s t Hi Hlt). destruct Hn. split_and!; [lia|done|done|by right].
Qed.

(** What holds after the node is allocated and filled, before it is hooked in. *)
Definition prepared s s3 p d : Prop :=
  kh_inv s3 /\ live s !! p = None /\ live s3 = <[p := sizeof_list_node_t]> (live s) /\
  fld s3 p node_data d /\ fld s3 p node_next 0 /\ kept s s3 [] /\ 0 < p < 2 ^ 64.

(** [list_insert] around its linking step. *)
Lemma list_insert_around s s1 l node ns a d p (P : St -> St -> Prop) :
  lrep s l ns a -> 0 <= d < 2 ^ 64 -> asize a + 1 < 2 ^ 64 ->
  kheap_alloc sizeof_list_node_t s = Ret (p, s1) -> p <> 0 ->
  (forall s3, prepared s s3 p d -> exists s5, list_link l node p s3 = Ret (tt, s5) /\
     kh_inv s5 /\ live s5 = live s3 /\ fld s5 l list_sz (asize a) /\ P s3 s5) ->
  exists s3 s5 s6, list_insert l node d s = Ret (tt, s6) /\ prepared s s3 p d /\ P s3 s5 /\
    kh_inv s6 /\ live s6 = <[p := sizeof_list_node_t]> (live s) /\
    live s6 !! l = Some sizeof_list_t /\
    fld s6 l list_sz (asize a + 1) /\ kept s5 s6 [l] /\
    (forall o w, o = list_head \/ o = list_tail -> fld s5 l o w -> fld s6 l o w).
Proof.
  intros [Hi Hl _ _ _ _ [_ Hsr] _] Hd Hsz Hal Hp Hlink.
  destruct (new_node s s1 p d) as (s2 & s3 & Hms & Hst & Hprep); [done..|].
  destruct (Hlink s3 Hprep) as (s5 & Hst5 & Hi5 & Hl5 & Hs5 & HP).
  pose proof Hprep as (Hi3 & Hfp & Hl3 & _).
  assert (Hll : live s5 !! l = Some sizeof_list_t).
  { rewrite Hl5, Hl3, lookup_insert_ne; congruence. }
  destruct (bump_size s5 l (asize a) 1)
    as (s6 & Hst6 & Hi6 & Hl6 & Hf6 & Hk6 & Hkeep6); [done..|lia|].
  exists s3, s5, s6. split; [|split_and!; try done; congruence].
  unfold list_insert. destruct (Z.eqb_spec l 0); [pose proof (list_pos s l Hi Hl); lia|].
  unfold mseq. by rewrite Hal, Hms, Hst, Hst5, (fld_load _ _ _ _ Hs5), Hst6.
Qed.

(** The fields of the list descriptor are still there when the node is prepared. *)
Lemma prepared_list s s3 l p d :
  prepared s s3 p d -> live s !! l = Some sizeof_list_t ->
  p <> l /\ live s3 !! l = Some sizeof_list_t /\ live s3 !! p = Some sizeof_list_node_t /\
  forall o w, o = list_head \/ o = list_tail \/ o = list_sz -> fld s l o w -> fld s3 l o w.
Proof.
  intros (Hi3 & Hfp & Hl3 & _ & _ & Hk & _) Hl. assert (p <> l) by congruence.
  split_and!; [done|by rewrite Hl3, lookup_insert_ne|by rewrite Hl3, lookup_insert_eq|].
  intros o w Ho Hw. destruct (Hk l _ Hl) as [_ Hag]; [set_solver|].
  eapply fld_agree; [done|destruct Ho as [-> | [-> | ->]]; layout; lia..|done].
Qed.

Lemma link_head s s3 l a t p d :
  prepared s s3 p d -> live s !! l = Some sizeof_list_t ->
  fld s l list_tail t -> fld s l list_sz (asize a) ->
  exists s5, list_link l 0 p s3 = Ret (tt, s5) /\ kh_inv s5 /\ live s5 = live s3 /\
    fld s5 l list_sz (asize a) /\ (fld s5 l list_head p /\
    fld s5 l list_tail (if t =? 0 then p else t) /\ kept s3 s5 [l]).
Proof.
  intros Hprep Hl Ht Hs. destruct (prepared_list s s3 l p d) as (Hpl & Hl3 & Hp3 & Hfl); [done..|].
  destruct Hprep as (Hi3 & _ & _ & _ & _ & _ & Hpr).
  destruct (fld_store s3 l sizeof_list_t list_head p)
    as (s4 & Hst4 & Hi4 & Hl4 & Hf4 & Hkeep4 & Hk4); [done|done|layout; lia..|].
  assert (Ht4 : fld s4 l list_tail t)
    by (eapply Hkeep4; [done|layout; lia..|apply Hfl; [tauto|done]]).
  assert (Hs4 : fld s4 l list_sz (asize a))
    by (eapply Hkeep4; [done|layout; lia..|apply Hfl; [tauto|done]]).
  unfold list_link, mseq. simpl. rewrite Hst4, (fld_load _ _ _ _ Ht4).
  destruct (Z.eqb_spec t 0); [|by exists s4].
  destruct (fld_store s4 l sizeof_list_t list_tail p)
    as (s5 & Hst5 & ? & Hl5 & ? & Hkeep5 & ?); [done|congruence|layout; lia..|].
  exists s5. split_and!; try done; [congruence|..|by eapply kept_trans];
    (eapply Hkeep5; [by rewrite Hl4|layout; lia..|done]).
Qed.

Lemma list_insert_head_ok s s1 l ns a d p :
  lrep s l ns a -> 0 <= d < 2 ^ 64 -> asize a + 1 < 2 ^ 64 ->
  kheap_alloc sizeof_list_node_t s = Ret (p, s1) -> p <> 0 ->
  exists s', list_insert l 0 d s = Ret (tt, s') /\
    lrep s' l [(p, d)] (al_insert_head d a) /\ kept s s' [l].
Proof.
  intros Hrep Hd Hsz Hal Hp. pose proof Hrep as [Hi Hl Hnd Hit Hwf _ [Hs Hsr] (t & Ht & _)].
  destruct (list_insert_around s s1 l 0 ns a d p (fun s3 s5 => fld s5 l list_head p /\
      fld s5 l list_tail (if t =? 0 then p else t) /\ kept s3 s5 [l]))
    as (s3 & s5 & s6 & Hrun & Hprep & (Hh5 & Ht5 & Hk5) & Hi6 & Hl6 & Hll6 & Hf6 & Hk6 & Hkeep6);
    [done..|intros s3 Hprep; by eapply link_head|].
  destruct (prepared_list s s3 l p d) as (Hpl & _ & Hp3 & _); [done..|].
  destruct Hprep as (_ & Hfp & _ & Hpd & Hpn & Hk3 & Hpr).
  assert (Hk36 : kept s3 s6 [l]) by (by eapply kept_trans).
  exists s6. split; [done|].
  split; [|by eapply kept_trans; [eapply kept_mono; [done|set_solver]|]].
  constructor; try done.
  - simpl. apply NoDup_cons. split; [by apply not_elem_single|apply NoDup_singleton].
  - by apply al_wf_insert_head.
  - exists p. split; [by apply Hkeep6; [left|]|]. simpl.
    split_and!; [done|by rewrite Hl6, lookup_insert_eq| |exists 0; split; [|done]].
    all: eapply (fld_kept s3 s6 [l]); [done|done|by apply not_elem_single|layout; lia..|done].
  - simpl. split; [done|lia].
  - eexists. split; [by apply Hkeep6; [right|]|]. simpl.
    destruct (lrep_tail_cases s l ns a t) as [(-> & -> & ->)|(Ht0 & Htl & Htlive & Hcase)];
      [done|done|by rewrite Hit|].
    destruct (Z.eqb_spec t 0); [done|]. assert (Htp : t <> p) by congruence.
    assert (live s6 !! t = Some sizeof_list_node_t) by (by rewrite Hl6, lookup_insert_ne).
    destruct Hcase as [(-> & Hne & _)|(-> & _)]; simpl; [|set_solver].
    rewrite Hit. destruct ns; [done|]. simpl. set_solver.
Qed.

Lemma prepared_node s s3 n p d :
  prepared s s3 p d -> live s !! n = Some sizeof_list_node_t ->
  p <> n /\ live s3 !! n = Some sizeof_list_node_t /\
  forall o w, o = node_data \/ o = node_next -> fld s n o w -> fld s3 n o w.
Proof.
  intros (Hi3 & Hfp & Hl3 & _ & _ & Hk & _) Hn. assert (p <> n) by congruence.
  split_and!; [done|by rewrite Hl3, lookup_insert_ne|].
  intros o w Ho Hw. destruct (Hk n _ Hn) as [_ Hag]; [set_solver|].
  eapply fld_agree; [done|destruct Ho as [-> | ->]; layout; lia..|done].
Qed.

(** The first store of the linking step after a node: the tail moves to
    the new node, or the new node takes over the link of its predecessor. *)
Lemma link_first s3 l t n nx p :
  kh_inv s3 -> live s3 !! l = Some sizeof_list_t -> live s3 !! n = Some sizeof_list_node_t ->
  live s3 !! p = Some sizeof_list_node_t -> p <> n -> fld s3 p node_next 0 ->
  fld s3 n node_next nx -> fld s3 l list_tail t ->
  exists s4, (if t =? n then store64 (l + list_tail) p
              else nn <- load64 (n + node_next) ;; store64 (p + node_next) nn) s3 = Ret (tt, s4) /\
    kh_inv s4 /\ live s4 = live s3 /\ fld s4 l list_tail (if t =? n then p else t) /\
    fld s4 p node_next (if t =? n then 0 else nx) /\ kept s3 s4 [l; p] /\
    (forall w, fld s3 p node_data w -> fld s4 p node_data w) /\
    (forall o w, o = list_head \/ o = list_sz -> fld s3 l o w -> fld s4 l o w).
Proof.
  intros Hi Hl Hn Hp Hpn Hp0 Hnx Ht.
  assert (Hpl : p <> l) by (intros ->; layout; congruence).
  destruct (Z.eqb_spec t n).
  - destruct (fld_store s3 l sizeof_list_t list_tail p)
      as (s4 & Hst & Hi4 & Hl4 & Hf4 & Hkeep & Hk); [done|done|layout; lia|layout; lia|pose proof (node_pos s3 p Hi Hp); lia|].
    exists s4. split_and!; try done; [|eapply kept_mono; [done|set_solver]|..].
    + eapply Hkeep; [done|layout; lia..|by left|done].
    + intros w Hw. eapply Hkeep; [done|layout; lia..|by left|done].
    + intros o w Ho Hw. eapply Hkeep; [done|destruct Ho; subst; layout; lia..|done].
  - destruct (fld_store s3 p sizeof_list_node_t node_next nx)
      as (s4 & Hst & Hi4 & Hl4 & Hf4 & Hkeep & Hk); [done|done|layout; lia|layout; lia|by apply mread_range in Hnx|].
    exists s4. unfold mseq. rewrite (fld_load _ _ _ _ Hnx).
    split_and!; try done; [|eapply kept_mono; [done|set_solver]|..].
    + eapply Hkeep; [done|layout; lia..|left; congruence|done].
    + intros w Hw. eapply Hkeep; [done|layout; lia..|done].
    + intros o w Ho Hw.
      eapply Hkeep; [done|destruct Ho; subst; layout; lia..|left; congruence|done].
Qed.

Lemma link_after s s3 l a h t n x nx p d :
  prepared s s3 p d -> live s !! l = Some sizeof_list_t ->
  live s !! n = Some sizeof_list_node_t ->
  fld s l list_head h -> fld s l list_tail t -> fld s l list_sz (asize a) ->
  fld s n node_data x -> fld s n node_next nx ->
  exists s5, list_link l n p s3 = Ret (tt, s5) /\ kh_inv s5 /\ live s5 = live s3 /\
    fld s5 l list_sz (asize a) /\
    (fld s5 l list_head h /\ fld s5 l list_tail (if t =? n then p else t) /\
     fld s5 n node_data x /\ fld s5 n node_next p /\
     fld s5 p node_data d /\ fld s5 p node_next (if t =? n then 0 else nx) /\
     kept s3 s5 [l; n; p]).
Proof.
  intros Hprep Hl Hn Hh Ht Hs Hx Hnx.
  destruct (prepared_list s s3 l p d) as (Hpl & Hl3 & Hp3 & Hfl); [done..|].
  destruct (prepared_node s s3 n p d) as (Hpn & Hn3 & Hfn); [done..|].
  destruct Hprep as (Hi3 & _ & _ & Hpd & Hp0 & _ & Hpr).
  assert (Hnl : n <> l) by (intros ->; layout; congruence).
  destruct (link_first s3 l t n nx p)
    as (s4 & Hst4 & Hi4 & Hl4 & Ht4 & Hp4 & Hk4 & Hpd4 & Hfl4); [done..|apply Hfn; tauto|apply Hfl; tauto|].
  destruct (fld_store s4 n sizeof_list_node_t node_next p)
    as (s5 & Hst5 & Hi5 & Hl5 & Hf5 & Hkeep5 & Hk5); [done|congruence|layout; lia..|].
  exists s5. split.
  { unfold list_link, mseq. pose proof (node_pos _ _ Hi3 Hn3). destruct (Z.eqb_spec n 0); [lia|].
    rewrite (fld_load _ _ _ t) by (apply Hfl; tauto). unfold mseq in Hst4. by rewrite Hst4, Hst5. }
  split; [done|]. split; [congruence|].
  assert (Hcl : forall o w, 0 <= o -> o + 8 <= sizeof_list_t -> fld s4 l o w -> fld s5 l o w)
    by (intros; eapply Hkeep5; [by rewrite Hl4|done|done|left; congruence|done]).
  assert (Hcp : forall o w, 0 <= o -> o + 8 <= sizeof_list_node_t -> fld s4 p o w -> fld s5 p o w)
    by (intros; eapply Hkeep5; [by rewrite Hl4|done|done|left; congruence|done]).
  split_and!.
  - apply Hcl; [layout; lia..|]. apply Hfl4; [tauto|]. apply Hfl; tauto.
  - apply Hcl; [layout; lia..|]. apply Hfl4; [tauto|]. apply Hfl; tauto.
  - apply Hcl; [layout; lia..|done].
  - eapply Hkeep5; [by rewrite Hl4|layout; lia..|].
    eapply (fld_kept s3 s4 [l; p]); [done|done|set_solver|layout; lia..|apply Hfn; tauto].
  - done.
  - apply Hcp; [layout; lia..|]. by apply Hpd4.
  - apply Hcp; [layout; lia..|done].
  - eapply kept_trans; (eapply kept_mono; [done|set_solver]).
Qed.

(** The memory after [list_insert] behind the node [n]. *)
Lemma list_insert_behind s s1 l ns a h t n x nx d p :
  lrep s l ns a -> 0 <= d < 2 ^ 64 -> asize a + 1 < 2 ^ 64 ->
  kheap_alloc sizeof_list_node_t s = Ret (p, s1) -> p <> 0 ->
  live s !! n = Some sizeof_list_node_t ->
  fld s l list_head h -> fld s l list_tail t -> fld s n node_data x -> fld s n node_next nx ->
  exists s6, list_insert l n d s = Ret (tt, s6) /\ kh_inv s6 /\ live s !! p = None /\
    live s6 = <[p := sizeof_list_node_t]> (live s) /\
    fld s6 l list_head h /\ fld s6 l list_tail (if t =? n then p else t) /\
    fld s6 l list_sz (asize a + 1) /\ fld s6 n node_data x /\ fld s6 n node_next p /\
    fld s6 p node_data d /\ fld s6 p node_next (if t =? n then 0 else nx) /\
    kept s s6 [l; n].
Proof.
  intros Hrep Hd Hsz Hal Hp Hn Hh Ht Hx Hnx. pose proof Hrep as [_ Hl _ _ _ _ [Hs _] _].
  destruct (list_insert_around s s1 l n ns a d p (fun s3 s5 =>
     fld s5 l list_head h /\ fld s5 l list_tail (if t =? n then p else t) /\
     fld s5 n node_data x /\ fld s5 n node_next p /\
     fld s5 p node_data d /\ fld s5 p node_next (if t =? n then 0 else nx) /\
     live s5 = live s3 /\ kept s3 s5 [l; n; p]))
    as (s3 & s5 & s6 & Hrun & Hprep & (G1 & G2 & G3 & G4 & G5 & G6 & Hl5 & Hk5)
        & Hi6 & Hl6 & Hll6 & Hf6 & Hk6 & Hkeep6); [done..| |].
  { intros s3 Hprep. destruct (link_after s s3 l a h t n x nx p d)
      as (s5 & ? & ? & ? & ? & ? & ? & ? & ? & ? & ? & ?); [done..|].
    exists s5. by split_and!. }
  destruct (prepared_list s s3 l p d) as (Hpl & _ & Hp3 & _); [done..|].
  destruct (prepared_node s s3 n p d) as (Hpn & Hn3 & _); [done..|].
  destruct Hprep as (_ & Hfp & _ & _ & _ & Hk3 & _).
  assert (Hnl : n <> l) by (intros ->; layout; congruence).
  assert (Hnode : forall b o w, live s3 !! b = Some sizeof_list_node_t -> b <> l ->
    o = node_data \/ o = node_next -> fld s5 b o w -> fld s6 b o w).
  { intros b o w Hb Hbl Ho Hw. eapply (fld_kept s5 s6 [l]);
      [done|by rewrite Hl5|by apply not_elem_single|destruct Ho; subst; layout; lia..|done]. }
  exists s6. split_and!; try done.
  1,2: apply Hkeep6; [tauto|done].
  1,2,3,4: by apply Hnode; try tauto; congruence.
  intros q k Hq HF. assert (q <> p) by congruence.
  destruct (Hk3 q k Hq) as [Hq3 Ha3]; [set_solver|].
  destruct (Hk5 q k Hq3) as [Hq5 Ha5]; [set_solver|].
  destruct (Hk6 q k Hq5) as [Hq6 Ha6]; [set_solver|].
  split; [done|]. by eapply agree_trans; [|eapply agree_trans].
Qed.

(** Opening the chain at the node [(n, x)]. *)
Lemma lseg_open s h xs n x ys :
  lseg s h (xs ++ (n, x) :: ys) 0 -> exists nx,
  live s !! n = Some sizeof_list_node_t /\ fld s n node_data x /\ fld s n node_next nx /\
  lseg s h (xs ++ [(n, x)]) nx /\ lseg s nx ys 0.
Proof.
  intros (m & Hxs & (-> & Hl & Hx & nx & Hnx & Hys))%lseg_app. exists nx.
  split_and!; try done. apply lseg_app. exists n. split; [done|]. simpl. by split_and!; eauto.
Qed.

(** What is in a list without duplicates is not in either side of a split. *)
Lemma nodup_split (xs ys : list (Z * Z)) n x :
  NoDup (xs ++ (n, x) :: ys).*1 ->
  NoDup (xs ++ [(n, x)]).*1 /\ (n ∉ xs.*1) /\ (n ∉ ys.*1).
Proof.
  rewrite !fmap_app. simpl. rewrite !NoDup_app, NoDup_cons.
  intros (Hx & Hd & Hn & Hy). split_and!; try done.
  - intros z Hz Hz'. apply (Hd z Hz). apply list_elem_of_singleton in Hz'. subst. left.
  - apply NoDup_singleton.
  - intros Hin. apply (Hd n Hin). left.
Qed.

Lemma in_two (b l n : Z) : b ∈ [l; n] -> b = l \/ b = n.
Proof. rewrite !elem_of_cons, elem_of_nil. tauto. Qed.

Lemma nodup_insert (xs ys : list (Z * Z)) n x p d l :
  NoDup (l :: (xs ++ (n, x) :: ys).*1) -> p <> l -> p ∉ (xs ++ (n, x) :: ys).*1 ->
  NoDup (l :: (xs ++ (n, x) :: (p, d) :: ys).*1).
Proof.
  assert (Hperm : (xs ++ (n, x) :: (p, d) :: ys).*1 ≡ₚ p :: (xs ++ (n, x) :: ys).*1).
  { rewrite !fmap_app, !fmap_cons. simpl. rewrite (cons_middle n), (cons_middle n _ (ys.*1)).
    rewrite !app_assoc. symmetry. apply Permutation_middle. }
  rewrite Hperm, !NoDup_cons, elem_of_cons. naive_solver.
Qed.

(** Inserting behind [n] keeps the tail pointer right. *)
Lemma tail_insert s l xs n x ys a t p d :
  lrep s l (xs ++ (n, x) :: ys) a -> fld s l list_tail t -> live s !! p = None ->
  (t = n -> ys = []) /\
  if attached a then (if t =? n then p else t) = last_addr (xs ++ (n, x) :: (p, d) :: ys)
  else t <> n /\ t <> l /\ t <> p /\ (t ∉ (xs ++ (n, x) :: ys).*1) /\
       live s !! t = Some sizeof_list_node_t.
Proof.
  intros Hrep Ht Hfp. pose proof Hrep as [_ _ [Hln Hnd]%NoDup_cons _ _ _ _ _].
  destruct (nodup_split _ _ _ _ Hnd) as (_ & _ & Hny).
  assert (Hn : n ∈ (xs ++ (n, x) :: ys).*1)
    by (rewrite fmap_app, elem_of_app; right; simpl; left).
  destruct (lrep_tail_cases s l _ a t Hrep Ht) as [(_ & _ & ?)|(Ht0 & Htl & Htlive & Hcase)];
    [by destruct xs|].
  destruct Hcase as [(-> & _ & ->)|(-> & Hno)].
  - destruct ys as [|[y dy] ys _] using rev_ind.
    { rewrite last_addr_snoc, Z.eqb_refl, cons_middle, app_assoc. by rewrite last_addr_snoc. }
    rewrite !app_comm_cons, !app_assoc, !last_addr_snoc.
    assert (y <> n). { intros ->. apply Hny. rewrite fmap_app, elem_of_app. right. simpl. left. }
    by destruct (Z.eqb_spec y n).
  - split; [by intros ->|]. split_and!; [by intros ->|done|congruence|done|done].
Qed.

Lemma list_insert_after_ok s s1 l xs n x ys a d p :
  lrep s l (xs ++ (n, x) :: ys) a -> 0 <= d < 2 ^ 64 -> asize a + 1 < 2 ^ 64 ->
  kheap_alloc sizeof_list_node_t s = Ret (p, s1) -> p <> 0 ->
  exists s', list_insert l n d s = Ret (tt, s') /\
    lrep s' l (xs ++ (n, x) :: (p, d) :: ys) (al_insert_after (length xs) d a) /\
    kept s s' [l; n].
Proof.
  intros Hrep Hd Hsz Hal Hp.
  pose proof Hrep as [Hi Hl Hnd Hit Hwf (h & Hh & Hc) [Hs Hsr] (t & Ht & _)].
  destruct (lseg_open _ _ _ _ _ _ Hc) as (nx & Hn & Hx & Hnx & Hpre & Hpost).
  pose proof Hnd as [Hln (_ & Hnx1 & Hny)%nodup_split]%NoDup_cons.
  destruct (list_insert_behind s s1 l (xs ++ (n, x) :: ys) a h t n x nx d p)
    as (s6 & Hrun & Hi6 & Hfp & Hl6 & Hh6 & Ht6 & Hs6 & Hx6 & Hn6 & Hpd6 & Hpn6 & Hk); [done..|].
  destruct (tail_insert s l xs n x ys a t p d) as [Htn Htail]; [done..|].
  rewrite fmap_app, elem_of_app, fmap_cons in Hln. simpl in Hln. rewrite elem_of_cons in Hln.
  assert (Hpl : p <> l) by congruence.
  exists s6. split; [done|]. split; [|done]. constructor.
  - done.
  - by rewrite Hl6, lookup_insert_ne.
  - apply nodup_insert; [done|done|]. intros Hb. rewrite (lseg_live _ _ _ _ _ Hc Hb) in Hfp. done.
  - simpl. rewrite Hit, !fmap_app, !fmap_cons. simpl.
    rewrite <-(length_fmap snd xs). by rewrite splice_after.
  - apply al_wf_insert_after; [|done]. rewrite Hit, length_fmap, length_app. simpl. lia.
  - exists h. split; [done|]. rewrite cons_middle, app_assoc. apply lseg_app. exists p. split.
    + eapply lseg_relink; [exact Hpre|done| |rewrite Hl6, lookup_insert_ne; congruence|done|done].
      intros b Hb [-> | ->]%in_two; tauto.
    + simpl. split_and!; [done|by rewrite Hl6, lookup_insert_eq|done|].
      exists nx. split.
      * destruct (Z.eqb_spec t n) as [He|]; [|done]. rewrite (Htn He) in Hpost. by rewrite Hpost.
      * eapply lseg_kept_of; [done| |done]. intros b Hb [-> | ->]%in_two; tauto.
  - simpl. split; [done|lia].
  - eexists. split; [done|]. simpl. destruct (attached a); [done|].
    destruct Htail as (Htn' & Htl & Htp & Hno & Htlive).
    destruct (Z.eqb_spec t n); [done|]. rewrite Hl6, lookup_insert_ne by done. split; [|done].
    rewrite fmap_app, elem_of_app, fmap_cons, elem_of_cons in Hno.
    rewrite elem_of_cons, fmap_app, elem_of_app, !fmap_cons, !elem_of_cons. tauto.
Qed.

(** Adding to a detached list: the element is linked behind the tail
    pointer, where no walk from the head comes by. *)
Lemma list_add_detached s s1 l ns a d p t :
  lrep s l ns a -> 0 <= d < 2 ^ 64 -> asize a + 1 < 2 ^ 64 ->
  kheap_alloc sizeof_list_node_t s = Ret (p, s1) -> p <> 0 ->
  fld s l list_tail t -> attached a = false ->
  live s !! t = Some sizeof_list_node_t -> t ∉ ns.*1 ->
  exists s', list_insert l t d s = Ret (tt, s') /\ lrep s' l ns (al_add d a) /\ kept s s' [l; t].
Proof.
  intros Hrep Hd Hsz Hal Hp Ht Hat Htlive Hno.
  pose proof Hrep as [Hi Hl Hnd Hit Hwf (h & Hh & Hc) [Hs Hsr] _].
  destruct (live_mapped s t _ Hi Htlive) as (_ & _ & Hm).
  destruct (mread_mapped 8 (get_mem s) (t + node_data)) as (x & Hx & _).
  { eapply mapped_weaken; [done|layout; lia..]. }
  destruct (mread_mapped 8 (get_mem s) (t + node_next)) as (nx & Hnx & _).
  { eapply mapped_weaken; [done|layout; lia..]. }
  destruct (list_insert_behind s s1 l ns a h t t x nx d p)
    as (s6 & Hrun & Hi6 & Hfp & Hl6 & Hh6 & Ht6 & Hs6 & _ & _ & _ & _ & Hk); [done..|].
  exists s6. split; [done|]. split; [|done].
  assert (Hpl : p <> l) by congruence.
  pose proof (al_wf_add d a Hwf) as Hwf'. pose proof Hnd as [Hln _]%NoDup_cons.
  revert Hwf'. unfold al_add. rewrite Hat. intros Hwf'. constructor; try done.
  - by rewrite Hl6, lookup_insert_ne.
  - exists h. split; [done|]. eapply lseg_kept_of; [done| |done].
    intros b Hb [-> | ->]%in_two; tauto.
  - simpl. split; [done|lia].
  - exists p. rewrite Z.eqb_refl in Ht6. split; [done|]. simpl.
    rewrite Hl6, lookup_insert_eq. split; [|done]. rewrite elem_of_cons.
    intros [?|Hb]; [done|]. rewrite (lseg_live _ _ _ _ _ Hc Hb) in Hfp. done.
Qed.

Lemma list_add_ok s s1 l ns a d p :
  lrep s l ns a -> 0 <= d < 2 ^ 64 -> asize a + 1 < 2 ^ 64 ->
  kheap_alloc sizeof_list_node_t s = Ret (p, s1) -> p <> 0 ->
  exists s' ns' t, list_add l d s = Ret (tt, s') /\ lrep s' l ns' (al_add d a) /\
    kept s s' [l; t] /\ fld s l list_tail t.
Proof.
  intros Hrep Hd Hsz Hal Hp.
  pose proof Hrep as [Hi Hl Hnd Hit Hwf (h & Hh & Hc) [Hs Hsr] (t & Ht & _)].
  unfold list_add, mseq. rewrite (fld_load _ _ _ _ Ht).
  destruct (lrep_tail_cases s l ns a t Hrep Ht)
    as [(-> & Hat & ->)|(Ht0 & Htl & Htlive & [(Hat & Hne & ->)|(Hat & Hno)])].
  - destruct (list_insert_head_ok s s1 l [] a d p) as (s' & -> & Hrep' & Hk); [done..|].
    exists s', [(p, d)], 0. split_and!; [done| |eapply kept_mono; [done|set_solver]|done].
    destruct a as [it sz at']. simpl in *. subst at' it. exact Hrep'.
  - destruct ns as [|[n x] xs _] using rev_ind; [done|]. rewrite last_addr_snoc in *.
    destruct (list_insert_after_ok s s1 l xs n x [] a d p) as (s' & -> & Hrep' & Hk); [done..|].
    exists s', (xs ++ [(n, x); (p, d)]), n. split_and!; [done| |done|done].
    assert (al_insert_after (length xs) d a = al_add d a) as <-; [|done].
    unfold al_insert_after, al_add. rewrite Hat, Hit. f_equal.
    rewrite take_ge, drop_ge; [done|..]; rewrite length_fmap, length_app; simpl; lia.
  - destruct (list_add_detached s s1 l ns a d p t) as (s' & -> & Hrep' & Hk); [done..|].
    exists s', ns, t. by split_and!.
Qed.

Definition first_addr ns : Z := default 0 (fst <$> head ns).

Lemma lseg_first s p ns : lseg s p ns 0 -> p = first_addr ns.
Proof. destruct ns as [|[a d] ns]; simpl; [done|]. by intros (-> & _). Qed.

Lemma last_addr_app_cons xs n x : last_addr (xs ++ [(n, x)]) = n.
Proof. apply last_addr_snoc. Qed.

(** Unhooking [n]: its predecessor (or the list head) takes over its link. *)
Lemma unlink_prev s l xs n x ys a t nx :
  lrep s l (xs ++ (n, x) :: ys) a -> fld s l list_tail t -> fld s n node_next nx ->
  exists s2 h', (if negb (last_addr xs =? 0) then store64 (last_addr xs + node_next) nx
                 else store64 (l + list_head) nx) s = Ret (tt, s2) /\
    kh_inv s2 /\ live s2 = live s /\ fld s2 l list_head h' /\ lseg s2 h' (xs ++ ys) 0 /\
    fld s2 l list_tail t /\ fld s2 l list_sz (asize a) /\ kept s s2 [l; last_addr xs].
Proof.
  intros [Hi Hl Hnd Hit Hwf (h & Hh & Hc) [Hs Hsr] _] Ht Hnx.
  destruct (lseg_open _ _ _ _ _ _ Hc) as (nx' & Hn & Hx & Hnx' & Hpre & Hpost).
  assert (nx' = nx) as -> by (unfold fld in *; congruence).
  pose proof Hnd as [Hln Hnd']%NoDup_cons. rewrite fmap_app, elem_of_app in Hln.
  apply lseg_app in Hpre as (m & Hxs & _). pose proof (mread_range _ _ _ _ Hnx) as Hnxr.
  destruct xs as [|[pv dv] xs _] using rev_ind; simpl.
  - destruct (fld_store s l sizeof_list_t list_head nx)
      as (s2 & Hst & Hi2 & Hl2 & Hf2 & Hkeep & Hk); [done|done|layout; lia..|].
    exists s2, nx. split_and!; try done.
    + eapply lseg_kept_of; [done| |done]. intros b Hb ->%list_elem_of_singleton.
      apply Hln. right. by right.
    + eapply Hkeep; [done|layout; lia..|done].
    + eapply Hkeep; [done|layout; lia..|done].
    + eapply kept_mono; [done|set_solver].
  - rewrite last_addr_snoc.
    assert (Hpv : live s !! pv = Some sizeof_list_node_t).
    { eapply lseg_live; [exact Hxs|]. rewrite fmap_app, elem_of_app. right. simpl. left. }
    pose proof (node_pos s pv Hi Hpv). destruct (Z.eqb_spec pv 0); [lia|]. simpl.
    assert (Hpvl : pv <> l) by (intros ->; layout; congruence).
    destruct (fld_store s pv sizeof_list_node_t node_next nx)
      as (s2 & Hst & Hi2 & Hl2 & Hf2 & Hkeep & Hk); [done|done|layout; lia..|].
    rewrite <-app_assoc in Hnd'. destruct (nodup_split _ _ _ _ Hnd') as (_ & Hp1 & Hp2).
    simpl in Hp2. rewrite elem_of_cons in Hp2.
    pose proof (proj1 (lseg_app _ _ _ _ _) Hxs) as (m' & _ & (-> & _ & Hdv & _)).
    exists s2, h. split_and!; try done.
    + eapply Hkeep; [done|layout; lia..|left; congruence|done].
    + apply lseg_app. exists nx. split.
      * eapply lseg_relink; [exact Hxs|done| |congruence| |done].
        { intros b Hb ->%list_elem_of_singleton. tauto. }
        eapply Hkeep; [done|layout; lia..|done].
      * eapply lseg_kept_of; [done| |done]. intros b Hb ->%list_elem_of_singleton. tauto.
    + eapply Hkeep; [done|layout; lia..|left; congruence|done].
    + eapply Hkeep; [done|layout; lia..|left; congruence|done].
    + eapply kept_mono; [done|set_solver].
Qed.

(** Moving the tail pointer off the node that goes away. *)
Lemma unlink_tail s2 l t n prev h' z :
  kh_inv s2 -> live s2 !! l = Some sizeof_list_t -> fld s2 l list_head h' ->
  fld s2 l list_tail t -> fld s2 l list_sz z -> 0 <= prev < 2 ^ 64 ->
  exists s3, (if t =? n then
                (if negb (prev =? 0) then store64 (l + list_tail) prev
                 else hd <- load64 (l + list_head) ;; store64 (l + list_tail) hd)
              else mreturn tt) s2 = Ret (tt, s3) /\
    kh_inv s3 /\ live s3 = live s2 /\ fld s3 l list_head h' /\ fld s3 l list_sz z /\
    fld s3 l list_tail (if t =? n then (if prev =? 0 then h' else prev) else t) /\
    kept s2 s3 [l].
Proof.
  intros Hi Hl Hh Ht Hz Hp. destruct (Z.eqb_spec t n).
  2: { exists s2. by split_and!. }
  pose proof (mread_range _ _ _ _ Hh) as Hhr.
  destruct (fld_store s2 l sizeof_list_t list_tail (if prev =? 0 then h' else prev))
    as (s3 & Hst & Hi3 & Hl3 & Hf3 & Hkeep & Hk);
    [done|done|layout; lia|layout; lia|by destruct (prev =? 0)|].
  exists s3. split_and!; try done; [|eapply Hkeep; [done|layout; lia..|done]..].
  destruct (prev =? 0); simpl; [|exact Hst]. unfold mseq. by rewrite (fld_load _ _ _ _ Hh).
Qed.

(** Removing an element does not disturb which node is last. *)
Lemma tail_remove s l xs n x ys a t :
  lrep s l (xs ++ (n, x) :: ys) a -> fld s l list_tail t ->
  if attached a
  then (if t =? n then (if last_addr xs =? 0 then first_addr (xs ++ ys) else last_addr xs) else t)
       = last_addr (xs ++ ys)
  else t <> n /\ t <> l /\ (t ∉ (xs ++ (n, x) :: ys).*1) /\
       live s !! t = Some sizeof_list_node_t.
Proof.
  intros Hrep Ht. pose proof Hrep as [Hi _ [Hln Hnd]%NoDup_cons _ _ (h & _ & Hc) _ _].
  destruct (nodup_split _ _ _ _ Hnd) as (_ & _ & Hny).
  assert (Hn : n ∈ (xs ++ (n, x) :: ys).*1)
    by (rewrite fmap_app, elem_of_app; right; simpl; left).
  destruct (lrep_tail_cases s l _ a t Hrep Ht) as [(_ & _ & ?)|(Ht0 & Htl & Htlive & Hcase)];
    [by destruct xs|].
  destruct Hcase as [(-> & _ & ->)|(-> & Hno)]; [|split_and!; try done; by intros ->].
  destruct ys as [|[y dy] ys _] using rev_ind.
  - rewrite last_addr_snoc, Z.eqb_refl, app_nil_r.
    destruct xs as [|[pv dv] xs _] using rev_ind; [done|]. rewrite last_addr_snoc.
    assert (Hpv : live s !! pv = Some sizeof_list_node_t).
    { eapply lseg_live; [exact Hc|]. rewrite !fmap_app, !elem_of_app. left. right. simpl. left. }
    pose proof (node_pos s pv Hi Hpv). by destruct (Z.eqb_spec pv 0); [lia|].
  - rewrite app_comm_cons, !app_assoc, !last_addr_snoc.
    assert (y <> n). { intros ->. apply Hny. rewrite fmap_app, elem_of_app. right. simpl. left. }
    by destruct (Z.eqb_spec y n).
Qed.

Lemma last_addr_range s p xs q : kh_inv s -> lseg s p xs q -> 0 <= last_addr xs < 2 ^ 64.
Proof.
  intros Hi Hc. destruct xs as [|[pv dv] xs _] using rev_ind; [done|]. rewrite last_addr_snoc.
  enough (0 < pv < 2 ^ 64) by lia. apply (node_pos s pv Hi). eapply lseg_live; [exact Hc|].
  rewrite fmap_app, elem_of_app. right. simpl. left.
Qed.

(** The last two statements of [list_remove]: free the node, count down. *)
Lemma drop_node s3 l n z h t ns :
  kh_inv s3 -> live s3 !! l = Some sizeof_list_t -> live s3 !! n = Some sizeof_list_node_t ->
  fld s3 l list_head h -> fld s3 l list_tail t -> fld s3 l list_sz z -> 0 < z < 2 ^ 64 ->
  lseg s3 h ns 0 -> n ∉ ns.*1 -> l ∉ ns.*1 ->
  exists s5, (kheap_free n ;;; size <- load64 (l + list_sz) ;;
              store64 (l + list_sz) (u64 (size - 1))) s3 = Ret (tt, s5) /\
    kh_inv s5 /\ live s5 = delete n (live s3) /\ fld s5 l list_head h /\
    fld s5 l list_tail t /\ fld s5 l list_sz (z - 1) /\ lseg s5 h ns 0 /\ kept s3 s5 [l; n].
Proof.
  intros Hi Hl Hn Hh Ht Hz Hzr Hc Hnn Hln.
  destruct (free_law s3 n sizeof_list_node_t) as (s4 & Hfr & Hi4 & Hl4 & Hag4); [done..|].
  assert (Hnl : n <> l) by (intros ->; layout; congruence).
  assert (Hk4 : kept s3 s4 [n]).
  { intros q k Hq HF. assert (q <> n) by set_solver.
    rewrite Hl4, lookup_delete_ne by done. split; [done|by apply Hag4]. }
  assert (Hfl4 : forall o w, 0 <= o -> o + 8 <= sizeof_list_t -> fld s3 l o w -> fld s4 l o w).
  { intros o w ? ? Hw. eapply fld_kept; [exact Hk4|done|set_solver|done..]. }
  assert (Hz4 : fld s4 l list_sz z) by (apply Hfl4; [layout; lia..|done]).
  destruct (bump_size s4 l z (-1))
    as (s5 & Hst5 & Hi5 & Hl5 & Hs5 & Hk5 & Hkeep5);
    [done|by rewrite Hl4, lookup_delete_ne|done|lia|].
  assert (Hk35 : kept s3 s5 [l; n]).
  { eapply kept_trans; (eapply kept_mono; [done|set_solver]). }
  exists s5. split_and!; try done.
  - rewrite (mseq_run _ _ _ _ _ Hfr), (mseq_run _ _ _ _ _ (fld_load _ _ _ _ Hz4)). exact Hst5.
  - congruence.
  - apply Hkeep5; [tauto|]. apply Hfl4; [layout; lia..|done].
  - apply Hkeep5; [tauto|]. apply Hfl4; [layout; lia..|done].
  - eapply lseg_kept_of; [done| |done]. intros b Hb [-> | ->]%in_two; tauto.
Qed.

Lemma remove_run f s l xs n x ys a :
  lrep s l (xs ++ (n, x) :: ys) a ->
  exists s' h t t', list_remove_loop (S f) l (last_addr xs) n x s = Ret (tt, s') /\
    kh_inv s' /\ live s' = delete n (live s) /\ fld s' l list_head h /\
    lseg s' h (xs ++ ys) 0 /\ fld s' l list_sz (asize a - 1) /\
    fld s l list_tail t /\ fld s' l list_tail t' /\
    t' = (if t =? n then (if last_addr xs =? 0 then first_addr (xs ++ ys) else last_addr xs) else t) /\
    kept s s' [l; last_addr xs; n].
Proof.
  intros Hrep. pose proof Hrep as [Hi Hl [Hln Hnd]%NoDup_cons Hit [Hwf _] (h & Hh & Hc) [Hs Hsr] (t & Ht & _)].
  destruct (lseg_open _ _ _ _ _ _ Hc) as (nx & Hn & Hx & Hnx & Hpre & _).
  destruct (unlink_prev s l xs n x ys a t nx)
    as (s2 & h' & Hst2 & Hi2 & Hl2 & Hh2 & Hc2 & Ht2 & Hs2 & Hk2); [done..|].
  apply lseg_app in Hpre as (m & Hxs & _).
  destruct (unlink_tail s2 l t n (last_addr xs) h' (asize a))
    as (s3 & Hst3 & Hi3 & Hl3 & Hh3 & Hs3 & Ht3 & Hk3);
    [done|by rewrite Hl2|done..|exact (last_addr_range _ _ _ _ Hi Hxs)|].
  rewrite (lseg_first _ _ _ Hc2) in Ht3.
  match type of Ht3 with fld _ _ _ ?v => remember v as t' eqn:Ht' end.
  destruct (nodup_split _ _ _ _ Hnd) as (_ & Hn1 & Hn2).
  rewrite fmap_app, elem_of_app, fmap_cons, elem_of_cons in Hln. simpl in Hln.
  assert (Hlseg3 : lseg s3 h' (xs ++ ys) 0).
  { eapply lseg_kept_of; [exact Hk3| |done]. intros b Hb ->%list_elem_of_singleton.
    rewrite fmap_app, elem_of_app in Hb. tauto. }
  rewrite Hit, length_fmap, length_app in Hwf. simpl in Hwf.
  destruct (drop_node s3 l n (asize a) h' t' (xs ++ ys) Hi3)
    as (s5 & Hst5 & Hi5 & Hl5 & Hh5 & Ht5 & Hs5 & Hc5 & Hk5);
    [by rewrite Hl3, Hl2|by rewrite Hl3, Hl2|exact Hh3|exact Ht3|exact Hs3|lia|done
    |rewrite fmap_app, elem_of_app; tauto..|].
  exists s5, h', t, t'. split_and!; try done; [|congruence|].
  - cbn [list_remove_loop]. pose proof (node_pos s n Hi Hn). destruct (Z.eqb_spec n 0); [lia|].
    rewrite (mseq_run _ _ _ _ _ (fld_load _ _ _ _ Hx)), Z.eqb_refl.
    rewrite (mseq_run _ _ _ _ _ (fld_load _ _ _ _ Hnx)), (mseq_run _ _ _ _ _ Hst2).
    rewrite (mseq_run _ _ _ _ _ (fld_load _ _ _ _ Ht2)), (mseq_run _ _ _ _ _ Hst3). exact Hst5.
  - eapply kept_trans; [eapply kept_mono; [exact Hk2|set_solver]|].
    eapply kept_trans; (eapply kept_mono; [done|set_solver]).
Qed.

Lemma remove_hit f s l xs n x ys a :
  lrep s l (xs ++ (n, x) :: ys) a ->
  exists s', list_remove_loop (S f) l (last_addr xs) n x s = Ret (tt, s') /\
    lrep s' l (xs ++ ys) (Alist (xs ++ ys).*2 (asize a - 1) (attached a)) /\
    live s' = delete n (live s) /\ kept s s' [l; last_addr xs; n].
Proof.
  intros Hrep. destruct (remove_run f s l xs n x ys a Hrep)
    as (s' & h & t & t' & Hrun & Hi' & Hl' & Hh' & Hc' & Hs' & Ht & Ht' & -> & Hk).
  pose proof (tail_remove s l xs n x ys a t Hrep Ht) as Htail.
  pose proof Hrep as [Hi Hl Hnd Hit [Hwf1 Hwf2] (h0 & _ & Hc) [_ Hsr] _].
  destruct (lseg_open _ _ _ _ _ _ Hc) as (_ & Hn & _).
  assert (Hnl : n <> l) by (intros ->; layout; congruence).
  rewrite Hit, length_fmap, length_app in *. simpl in *.
  exists s'. split; [done|]. split; [|done]. constructor; simpl; try done.
  - by rewrite Hl', lookup_delete_ne.
  - rewrite fmap_app, fmap_cons in Hnd. rewrite fmap_app. simpl in Hnd.
    rewrite <-Permutation_middle in Hnd. apply NoDup_cons in Hnd as [Hln [Hnn Hnd]%NoDup_cons].
    apply NoDup_cons. rewrite elem_of_cons in Hln. tauto.
  - unfold al_wf. simpl. rewrite length_fmap, length_app. split; [lia|].
    intros Ha. specialize (Hwf2 Ha). lia.
  - by exists h.
  - split; [done|lia].
  - eexists. split; [done|]. destruct (attached a); [done|].
    destruct Htail as (Htn & Htl & Hno & Htlive). destruct (Z.eqb_spec t n); [done|].
    rewrite Hl', lookup_delete_ne by done. split; [|done].
    rewrite fmap_app, elem_of_app, fmap_cons, elem_of_cons in Hno.
    rewrite elem_of_cons, fmap_app, elem_of_app. tauto.
Qed.

Lemma remove_first_app x xs ys : x ∉ xs -> remove_first x (xs ++ x :: ys) = xs ++ ys.
Proof.
  induction xs as [|y xs IH]; simpl; [by rewrite Z.eqb_refl|].
  rewrite not_elem_of_cons. intros [Hy Hx]. destruct (Z.eqb_spec y x); [congruence|].
  by rewrite IH.
Qed.

Lemma null_dead s : kh_inv s -> live s !! 0 = None.
Proof.
  intros Hi. destruct (live s !! 0) as [n|] eqn:H0'; [|done].
  destruct (live_mapped s 0 n Hi H0') as (? & _). lia.
Qed.

Lemma kept_prev s s' l xs n (ns : list (Z * Z)) :
  kh_inv s -> kept s s' [l; last_addr xs; n] -> xs.*1 ⊆ ns.*1 -> n ∈ ns.*1 ->
  kept s s' (l :: ns.*1).
Proof.
  intros Hi Hk Hsub Hn q k Hq HF. rewrite not_elem_of_cons in HF. destruct HF as [Hql Hqn].
  apply Hk; [done|]. rewrite !elem_of_cons, elem_of_nil.
  intros [?|[Hl|[?|?]]]; [done| |by subst|done].
  destruct xs as [|[pv dv] xs _] using rev_ind.
  - change (last_addr []) with 0 in Hl. subst q. rewrite (null_dead s Hi) in Hq. done.
  - rewrite last_addr_snoc in Hl. subst q. apply Hqn, Hsub. rewrite fmap_app, elem_of_app.
    right. simpl. left.
Qed.

(** The nodes and the live blocks after a removal: the first node holding [x]
    is out of the list and its block is free; nothing has happened when there
    is none. *)
Definition removed (x : Z) (ns ns' : list (Z * Z)) s s' : Prop :=
  (x ∉ ns.*2 /\ ns' = ns /\ s' = s) \/
  exists xs n ys, ns = xs ++ (n, x) :: ys /\ x ∉ xs.*2 /\ ns' = xs ++ ys /\ live s' = delete n (live s).

Lemma list_remove_scan fuel s l pre rest a x :
  lrep s l (pre ++ rest) a -> x ∉ pre.*2 -> (length rest < fuel)%nat ->
  exists s' ns', list_remove_loop fuel l (last_addr pre) (first_addr rest) x s = Ret (tt, s') /\
    lrep s' l ns' (al_remove x a) /\ removed x (pre ++ rest) ns' s s' /\ kept s s' (l :: (pre ++ rest).*1).
Proof.
  revert pre rest. induction fuel as [|f IH]; intros pre rest Hrep Hx Hf; [lia|].
  pose proof Hrep as [Hi _ _ Hit _ (h & _ & Hc) _ _].
  destruct rest as [|[n y] rest].
  { exists s, (pre ++ []). split; [done|]. split; [|split; [left; by rewrite app_nil_r|apply kept_refl]].
    unfold al_remove. rewrite decide_False; [done|]. by rewrite Hit, app_nil_r. }
  change (first_addr ((n, y) :: rest)) with n.
  destruct (lseg_open _ _ _ _ _ _ Hc) as (nx & Hn & Hy & Hnx & _ & Hpost).
  destruct (decide (y = x)) as [->|Hyx].
  - destruct (remove_hit f s l pre n x rest a Hrep) as (s' & Hrun & Hrep' & Hlv & Hk).
    exists s', (pre ++ rest). split; [done|]. split; [|split; [right; by exists pre, n, rest|]].
    + unfold al_remove. rewrite decide_True.
      2: { rewrite Hit, fmap_app, elem_of_app. right. simpl. left. }
      rewrite Hit, !fmap_app, fmap_cons. simpl. rewrite remove_first_app by done.
      by rewrite <-fmap_app.
    + eapply kept_prev; [done|done|rewrite fmap_app; set_solver|].
      rewrite fmap_app, elem_of_app. right. simpl. left.
  - pose proof (node_pos s n Hi Hn). cbn [list_remove_loop]. destruct (Z.eqb_spec n 0); [lia|].
    rewrite (mseq_run _ _ _ _ _ (fld_load _ _ _ _ Hy)). destruct (Z.eqb_spec y x); [done|].
    rewrite (mseq_run _ _ _ _ _ (fld_load _ _ _ _ Hnx)), (lseg_first _ _ _ Hpost).
    rewrite cons_middle, app_assoc in Hrep |- *.
    pose proof (IH (pre ++ [(n, y)]) rest Hrep) as IH'. rewrite last_addr_snoc in IH'.
    apply IH'; [|simpl in *; lia].
    rewrite fmap_app, elem_of_app. simpl. rewrite list_elem_of_singleton. naive_solver.
Qed.

Lemma list_remove_ok fuel s l ns a x :
  lrep s l ns a -> (length ns < fuel)%nat ->
  exists s' ns', list_remove fuel l x s = Ret (tt, s') /\
    lrep s' l ns' (al_remove x a) /\ removed x ns ns' s s' /\ kept s s' (l :: ns.*1).
Proof.
  intros Hrep Hf. pose proof Hrep as [Hi Hl _ _ _ (h & Hh & Hc) _ _].
  unfold list_remove. pose proof (list_pos s l Hi Hl). destruct (Z.eqb_spec l 0); [lia|].
  rewrite (mseq_run _ _ _ _ _ (fld_load _ _ _ _ Hh)), (lseg_first _ _ _ Hc).
  apply (list_remove_scan fuel s l [] ns); [done|apply not_elem_of_nil|done].
Qed.

Lemma list_new_ok s s1 p :
  kh_inv s -> kheap_alloc sizeof_list_t s = Ret (p, s1) -> p <> 0 ->
  exists s', list_new s = Ret (p, s') /\ lrep s' p [] al_new /\ kept s s' [].
Proof.
  intros Hi Hal Hp. destruct (alloc_zeroed s s1 sizeof_list_t p)
    as (s2 & Hms & Hi2 & Hf & Hl2 & Hz & Hk2); [done|layout; lia|done|done|done|].
  exists s2. split.
  { unfold list_new. by rewrite (mseq_run _ _ _ _ _ Hal), (mseq_run _ _ _ _ _ Hms). }
  split; [|done]. constructor; simpl; try done.
  - by rewrite Hl2, lookup_insert_eq.
  - apply NoDup_singleton.
  - exists 0. split; [apply Hz; layout; lia|done].
  - split; [apply Hz; layout; lia|lia].
  - exists 0. split; [apply Hz; layout; lia|done].
Qed.

Lemma list_walk_ok fuel s p ns :
  kh_inv s -> lseg s p ns 0 -> (length ns < fuel)%nat ->
  list_walk fuel p s = Ret (ns.*2, s).
Proof.
  intros Hi. revert p ns. induction fuel as [|f IH]; intros p ns Hc Hf; [lia|].
  destruct ns as [|[n x] ns]; simpl in Hc; [by subst|].
  destruct Hc as (-> & Hn & Hx & nx & Hnx & Hc). pose proof (node_pos s n Hi Hn).
  cbn [list_walk]. destruct (Z.eqb_spec n 0); [lia|].
  rewrite (mseq_run _ _ _ _ _ (fld_load _ _ _ _ Hx)), (mseq_run _ _ _ _ _ (fld_load _ _ _ _ Hnx)).
  rewrite (mseq_run _ _ _ (ns.*2) s); [done|]. apply IH; [done|simpl in *; lia].
Qed.
End refinement.

(** ** Properties *)

Section list_properties.
Context {St : Type} `{KHeap St}.
Context (Hmax : sizeof_list_t <= kh_max (St := St)).

(** A walk from the head sees exactly [items]; the size is [asize]. *)
Lemma lrep_walk (s : St) l ns a fuel :
  lrep s l ns a -> (length (items a) < fuel)%nat ->
  exists h, list_begin l s = Ret (h, s) /\ list_walk fuel h s = Ret (items a, s) /\
            list_size l s = Ret (asize a, s).
Proof.
  intros [Hi Hl Hnd Hit Hwf (h & Hh & Hc) [Hs _] _] Hf. exists h.
  unfold list_begin, list_size. pose proof (list_pos s l Hi Hl). destruct (Z.eqb_spec l 0); [lia|].
  rewrite (fld_load _ _ _ _ Hh), (fld_load _ _ _ _ Hs), Hit. rewrite Hit, length_fmap in Hf.
  split_and!; [done| |done]. by apply list_walk_ok.
Qed.

(** list_add implements "append": when the node can be allocated, the
    call returns, a walk of the new list sees the old elements followed by
    the new one, the size grows by one, and no other live block of the
    heap than the list descriptor and its last node is changed. *)
Theorem list_add_refines (s s1 : St) (l d p : Z) (ns : list (Z * Z)) (a : alist) (fuel : nat)
    (Hrep : lrep s l ns a) (Hd : 0 <= d < 2 ^ 64) (Hsz : asize a + 1 < 2 ^ 64)
    (Hal : kheap_alloc sizeof_list_node_t s = Ret (p, s1)) (Hp : p <> 0)
    (Hat : attached a = true) (Hf : (S (length (items a)) < fuel)%nat) :
  exists s' ns' h t, list_add l d s = Ret (tt, s') /\ lrep s' l ns' (al_add d a) /\
    list_begin l s' = Ret (h, s') /\ list_walk fuel h s' = Ret (items a ++ [d], s') /\
    list_size l s' = Ret (asize a + 1, s') /\
    fld s l list_tail t /\ kept s s' [l; t].
Proof.
  destruct (list_add_ok Hmax s s1 l ns a d p) as (s' & ns' & t & Hrun & Hrep' & Hk & Ht); [done..|].
  destruct (lrep_walk s' l ns' (al_add d a) fuel Hrep') as (h & Hb & Hw & Hz).
  { unfold al_add. rewrite Hat. simpl. rewrite length_app. simpl. lia. }
  exists s', ns', h, t. unfold al_add in *. rewrite Hat in *. simpl in *. by split_and!.
Qed.

(** list_insert behind an existing node puts the new element right
    after it in the order of a walk, for every position, the last included. *)
Theorem list_insert_after_refines (s s1 : St) (l n x d p : Z) (xs ys : list (Z * Z)) (a : alist)
    (fuel : nat) (Hrep : lrep s l (xs ++ (n, x) :: ys) a) (Hd : 0 <= d < 2 ^ 64)
    (Hsz : asize a + 1 < 2 ^ 64)
    (Hal : kheap_alloc sizeof_list_node_t s = Ret (p, s1)) (Hp : p <> 0)
    (Hf : (S (length xs + S (length ys)) < fuel)%nat) :
  exists s' h, list_insert l n d s = Ret (tt, s') /\
    lrep s' l (xs ++ (n, x) :: (p, d) :: ys) (al_insert_after (length xs) d a) /\
    list_begin l s' = Ret (h, s') /\
    list_walk fuel h s' = Ret (xs.*2 ++ x :: d :: ys.*2, s') /\ kept s s' [l; n].
Proof.
  destruct (list_insert_after_ok Hmax s s1 l xs n x ys a d p) as (s' & Hrun & Hrep' & Hk); [done..|].
  pose proof Hrep' as [_ _ _ Hit' _ _ _ _].
  destruct (lrep_walk s' l _ _ fuel Hrep') as (h & Hb & Hw & _).
  { rewrite Hit', length_fmap, length_app. simpl. lia. }
  exists s', h. rewrite Hit', fmap_app, !fmap_cons in Hw. by split_and!.
Qed.

(** list_insert with no preceding node, on a list that already has
    elements, drops them: a walk of the result sees the new element only,
    although the size still counts all of them. *)
Theorem list_insert_head_drops (s s1 : St) (l d p : Z) (ns : list (Z * Z)) (a : alist)
    (Hrep : lrep s l ns a) (Hne : ns <> []) (Hd : 0 <= d < 2 ^ 64) (Hsz : asize a + 1 < 2 ^ 64)
    (Hal : kheap_alloc sizeof_list_node_t s = Ret (p, s1)) (Hp : p <> 0) :
  exists s' h, list_insert l 0 d s = Ret (tt, s') /\
    list_begin l s' = Ret (h, s') /\ list_walk 2 h s' = Ret ([d], s') /\
    list_size l s' = Ret (asize a + 1, s') /\ 2 <= asize a + 1.
Proof.
  destruct (list_insert_head_ok Hmax s s1 l ns a d p) as (s' & Hrun & Hrep' & _); [done..|].
  destruct (lrep_walk s' l _ _ 2 Hrep') as (h & Hb & Hw & Hz); [simpl; lia|].
  exists s', h. split_and!; try done. destruct Hrep as [_ _ _ Hit [Hwf _] _ _ _].
  rewrite Hit, length_fmap in Hwf. destruct ns; [done|]. simpl in Hwf. lia.
Qed.

(** C5: list_remove takes out the first node holding the item and counts down;
    the live blocks afterwards are those before without that node's block.
    When no node holds the item nothing changes.  No live block outside the
    list is changed. *)
Theorem list_remove_refines (s : St) (l x : Z) (ns : list (Z * Z)) (a : alist) (fuel : nat)
    (Hrep : lrep s l ns a) (Hf : (length ns < fuel)%nat) :
  exists s' ns' h, list_remove fuel l x s = Ret (tt, s') /\ lrep s' l ns' (al_remove x a) /\
    list_begin l s' = Ret (h, s') /\
    list_walk fuel h s' = Ret (remove_first x (items a), s') /\
    removed x ns ns' s s' /\ kept s s' (l :: ns.*1).
Proof.
  destruct (list_remove_ok Hmax fuel s l ns a x) as (s' & ns' & Hrun & Hrep' & Hrm & Hk); [done..|].
  pose proof Hrep as [_ _ _ Hit _ _ _ _].
  assert (Hitems : items (al_remove x a) = remove_first x (items a)).
  { unfold al_remove. case_decide as Hx; [done|]. clear -Hx. induction (items a) as [|y l IH]; [done|].
    simpl. rewrite not_elem_of_cons in Hx. destruct (Z.eqb_spec y x); [naive_solver|].
    f_equal. apply IH. tauto. }
  destruct (lrep_walk s' l ns' _ fuel Hrep') as (h & Hb & Hw & _).
  { rewrite Hitems. destruct (decide (x ∈ items a)) as [Hx|Hx].
    - pose proof (remove_first_length x (items a) Hx). rewrite Hit, length_fmap in *. lia.
    - rewrite <-Hitems. unfold al_remove. rewrite decide_False by done.
      by rewrite Hit, length_fmap. }
  rewrite Hitems in Hw. by exists s', ns', h.
Qed.

Lemma list_delete_loop_ok fuel (s : St) p ns :
  kh_inv s -> lseg s p ns 0 -> NoDup ns.*1 -> (length ns < fuel)%nat ->
  exists s', list_delete_loop fuel p s = Ret (tt, s') /\ kh_inv s' /\
    live s' = foldr delete (live s) (ns.*1) /\ kept s s' ns.*1.
Proof.
  revert s p ns. induction fuel as [|f IH]; intros s p ns Hi Hc Hnd Hf; [lia|].
  destruct ns as [|[n x] ns]; simpl in Hc; [subst; exists s; split_and!; done|].
  destruct Hc as (-> & Hn & Hx & nx & Hnx & Hc). simpl in Hnd. apply NoDup_cons in Hnd as [Hnn Hnd].
  pose proof (node_pos s n Hi Hn). cbn [list_delete_loop]. destruct (Z.eqb_spec n 0); [lia|].
  rewrite (mseq_run _ _ _ _ _ (fld_load _ _ _ _ Hnx)).
  destruct (free_law s n _ Hi Hn) as (s2 & Hfr & Hi2 & Hl2 & Hag).
  assert (Hk2 : kept s s2 [n]).
  { intros q k Hq Hqn. rewrite list_elem_of_singleton in Hqn.
    rewrite Hl2, lookup_delete_ne by done. split; [done|by apply Hag]. }
  rewrite (mseq_run _ _ _ _ _ Hfr).
  destruct (IH s2 nx ns) as (s' & Hrun & Hi' & Hl' & Hk'); [done| |done|simpl in *; lia|].
  { eapply lseg_kept_of; [exact Hk2| |done]. by intros b Hb ->%list_elem_of_singleton. }
  exists s'. split_and!; [done|done| |].
  - rewrite Hl', Hl2. apply foldr_delete_comm.
  - eapply kept_trans; (eapply kept_mono; [done|simpl; set_solver]).
Qed.

(** list_delete frees the descriptor and every node of the list, and
    nothing else. *)
Theorem list_delete_frees (s : St) (l : Z) (ns : list (Z * Z)) (a : alist) (fuel : nat)
    (Hrep : lrep s l ns a) (Hf : (length ns < fuel)%nat) :
  exists s', list_delete fuel l s = Ret (0, s') /\ kh_inv s' /\
    live s' = foldr delete (live s) (l :: ns.*1) /\ kept s s' (l :: ns.*1).
Proof.
  destruct Hrep as [Hi Hl [Hln Hnd]%NoDup_cons _ _ (h & Hh & Hc) _ _].
  unfold list_delete. pose proof (list_pos s l Hi Hl). destruct (Z.eqb_spec l 0); [lia|].
  rewrite (mseq_run _ _ _ _ _ (fld_load _ _ _ _ Hh)).
  destruct (list_delete_loop_ok fuel s h ns) as (s2 & Hrun & Hi2 & Hl2 & Hk2); [done..|].
  rewrite (mseq_run _ _ _ _ _ Hrun). destruct (Hk2 l _ Hl Hln) as [Hll2 _].
  destruct (free_law s2 l _ Hi2 Hll2) as (s3 & Hfr & Hi3 & Hl3 & Hag).
  exists s3. rewrite (mseq_run _ _ _ _ _ Hfr). split_and!; [done|done|by rewrite Hl3, Hl2|].
  eapply kept_trans; [eapply kept_mono; [done|set_solver]|].
  intros q k Hq HF. rewrite not_elem_of_cons in HF. destruct HF.
  rewrite Hl3, lookup_delete_ne by done. split; [done|by apply Hag].
Qed.

(** list_clear terminates on an attached list and leaves it empty. *)
Theorem list_clear_empties (s : St) (l : Z) (ns : list (Z * Z)) (a : alist) (fuel : nat)
    (Hrep : lrep s l ns a) (Hat : attached a = true) (Hf : (length ns < fuel)%nat) :
  exists s', list_clear fuel l s = Ret (tt, s') /\ lrep s' l [] al_new.
Proof.
  revert s ns a Hrep Hat Hf. induction fuel as [|f IH]; intros s ns a Hrep Hat Hf; [lia|].
  pose proof Hrep as [Hi Hl Hnd Hit [_ Hwf] (h & Hh & Hc) [Hs _] _]. specialize (Hwf Hat).
  cbn [list_clear]. pose proof (list_pos s l Hi Hl). destruct (Z.eqb_spec l 0); [lia|].
  rewrite (mseq_run _ _ _ _ _ (fld_load _ _ _ _ Hs)). rewrite Hit, length_fmap in Hwf.
  destruct ns as [|[k x] ns]; simpl in Hwf.
  { rewrite Hwf. simpl. exists s. split; [done|].
    destruct a as [it sz at']. simpl in *. by subst. }
  destruct (Z.ltb_spec 0 (asize a)); [|lia]. destruct Hc as (-> & Hn & Hx & _).
  rewrite (mseq_run _ _ _ _ _ (fld_load _ _ _ _ Hh)), (mseq_run _ _ _ _ _ (fld_load _ _ _ _ Hx)).
  destruct (list_remove_ok Hmax (S f) s l ((k, x) :: ns) a x) as (s2 & ns2 & Hrun & Hrep2 & _ & _); [done..|].
  rewrite (mseq_run _ _ _ _ _ Hrun). pose proof Hrep2 as [_ _ _ Hit2 _ _ _ _].
  unfold al_remove in *. rewrite Hit in *. rewrite decide_True in * by (simpl; left).
  simpl in Hit2. rewrite Z.eqb_refl in Hit2.
  eapply IH; [exact Hrep2|done|]. apply (f_equal length) in Hit2.
  rewrite !length_fmap in Hit2. simpl in *. lia.
Qed.
End list_properties.

(** ** Witnesses: the list [3; 5] on the reference allocator *)

Module ListDemo.
Import Bump.

Lemma list_fits : sizeof_list_t <= kh_max (St := bump).
Proof. done. Qed.

Definition s0 : bump := state_of (list_new bump0) bump0.
Definition s1 : bump := state_of (list_add 4096 3 s0) s0.
Definition s2 : bump := state_of (list_add 4096 5 s1) s1.

Lemma rep0 : lrep s0 4096 [] al_new.
Proof.
  destruct (list_new_ok (St := bump)) with (s := bump0) (p := 4096)
    (s1 := state_of (kheap_alloc sizeof_list_t bump0) bump0) as (s' & Hrun & Hrep & _).
  - done.
  - apply bump0_inv.
  - vm_compute. reflexivity.
  - done.
  - unfold s0. by rewrite Hrun.
Qed.

Lemma rep1 : exists ns, lrep s1 4096 ns (Alist [3] 1 true).
Proof.
  destruct (list_add_ok (St := bump)) with (s := s0) (p := 4120) (l := 4096) (d := 3)
    (ns := @nil (Z * Z)) (a := al_new)
    (s1 := state_of (kheap_alloc sizeof_list_node_t s0) s0) as (s' & ns' & t & Hrun & Hrep & _).
  - done.
  - apply rep0.
  - lia.
  - simpl. lia.
  - vm_compute. reflexivity.
  - done.
  - exists ns'. unfold s1. by rewrite Hrun.
Qed.

Lemma rep2 : exists ns, lrep s2 4096 ns (Alist [3; 5] 2 true).
Proof.
  destruct rep1 as [ns Hr].
  destruct (list_add_ok (St := bump)) with (s := s1) (p := 4136) (l := 4096) (d := 5)
    (ns := ns) (a := Alist [3] 1 true)
    (s1 := state_of (kheap_alloc sizeof_list_node_t s1) s1) as (s' & ns' & t & Hrun & Hrep & _).
  - done.
  - done.
  - lia.
  - simpl. lia.
  - vm_compute. reflexivity.
  - done.
  - exists ns'. unfold s2. by rewrite Hrun.
Qed.

Lemma alloc2 : kheap_alloc sizeof_list_node_t s2 =
  Ret (4152, state_of (kheap_alloc sizeof_list_node_t s2) s2).
Proof. vm_compute. reflexivity. Qed.

Lemma list_add_refines_witness :
  exists s' h, list_add 4096 9 s2 = Ret (tt, s') /\ list_walk 9 h s' = Ret ([3; 5; 9], s').
Proof.
  destruct rep2 as [ns Hr].
  destruct (list_add_refines (St := bump) list_fits s2
    (state_of (kheap_alloc sizeof_list_node_t s2) s2) 4096 9 4152 ns (Alist [3; 5] 2 true) 9 Hr
    ltac:(lia) ltac:(simpl; lia) alloc2 ltac:(lia) eq_refl ltac:(simpl; lia))
    as (s' & ns' & h & t & Hrun & _ & _ & Hw & _).
  exists s', h. split; [exact Hrun|exact Hw].
Defined.

Lemma list_insert_head_drops_witness :
  exists s' h, list_insert 4096 0 9 s2 = Ret (tt, s') /\ list_walk 2 h s' = Ret ([9], s') /\
    list_size 4096 s' = Ret (3, s').
Proof.
  destruct rep2 as [ns Hr].
  assert (Hne : ns <> []) by (intros ->; destruct Hr as [_ _ _ Hit _ _ _ _]; discriminate Hit).
  destruct (list_insert_head_drops (St := bump) list_fits s2
    (state_of (kheap_alloc sizeof_list_node_t s2) s2) 4096 9 4152 ns (Alist [3; 5] 2 true) Hr Hne
    ltac:(lia) ltac:(simpl; lia) alloc2 ltac:(lia))
    as (s' & h & Hrun & _ & Hw & Hz & _).
  exists s', h. split; [exact Hrun|split; [exact Hw|exact Hz]].
Defined.

Lemma list_insert_after_refines_witness :
  exists s' n h, list_insert 4096 n 9 s2 = Ret (tt, s') /\ list_walk 9 h s' = Ret ([3; 9; 5], s').
Proof.
  destruct rep2 as [ns Hr]. pose proof Hr as [_ _ _ Hit _ _ _ _].
  destruct ns as [|[n1 x1] [|[n2 x2] [|? ?]]]; try discriminate Hit. simpl in Hit.
  injection Hit as <- <-.
  destruct (list_insert_after_refines (St := bump) list_fits s2
    (state_of (kheap_alloc sizeof_list_node_t s2) s2) 4096 n1 3 9 4152 [] [(n2, 5)]
    (Alist [3; 5] 2 true) 9 Hr ltac:(lia) ltac:(simpl; lia) alloc2 ltac:(lia) ltac:(simpl; lia))
    as (s' & h & Hrun & _ & _ & Hw & _).
  exists s', n1, h. split; [exact Hrun|exact Hw].
Defined.

Lemma list_remove_refines_witness :
  exists s' h, list_remove 9 4096 3 s2 = Ret (tt, s') /\ list_walk 9 h s' = Ret ([5], s').
Proof.
  destruct rep2 as [ns Hr]. pose proof Hr as [_ _ _ Hit _ _ _ _].
  destruct (list_remove_refines (St := bump) list_fits s2 4096 3 ns (Alist [3; 5] 2 true) 9 Hr)
    as (s' & ns' & h & Hrun & _ & _ & Hw & _).
  - apply (f_equal length) in Hit. rewrite length_fmap in Hit. simpl in Hit. lia.
  - exists s', h. split; [exact Hrun|exact Hw].
Defined.

Lemma list_delete_frees_witness : exists s', list_delete 9 4096 s2 = Ret (0, s') /\ binv s'.
Proof.
  destruct rep2 as [ns Hr]. pose proof Hr as [_ _ _ Hit _ _ _ _].
  destruct (list_delete_frees (St := bump) list_fits s2 4096 ns (Alist [3; 5] 2 true) 9 Hr)
    as (s' & Hrun & Hi & _).
  - apply (f_equal length) in Hit. rewrite length_fmap in Hit. simpl in Hit. lia.
  - exists s'. split; [exact Hrun|exact Hi].
Defined.

Lemma list_clear_empties_witness : exists s', list_clear 9 4096 s2 = Ret (tt, s') /\ lrep s' 4096 [] al_new.
Proof.
  destruct rep2 as [ns Hr]. pose proof Hr as [_ _ _ Hit _ _ _ _].
  destruct (list_clear_empties (St := bump) list_fits s2 4096 ns (Alist [3; 5] 2 true) 9 Hr)
    as (s' & Hrun & Hrep).
  - done.
  - apply (f_equal length) in Hit. rewrite length_fmap in Hit. simpl in Hit. lia.
  - exists s'. split; [exact Hrun|exact Hrep].
Defined.
End ListDemo.
