(* ===== verification/Heap.v ===== *)
(** * The heap: heap.c, kheap.c

    A heap is a run of blocks in virtual memory, each with a header and a
    footer word holding the block's size and two flag bits.  The [heap_t]
    records live outside that memory and are reached by their address; the
    blocks are bytes of the memory of Mem.v.  Physical pages and mappings
    come from the pager below ([HeapEnv]), whose operations are pmem.c's
    [pmem_alloc] and vmem.c's [vmem_map].

    The second half interprets the memory as a list of blocks
    ([heap_wf]) and shows what each operation does to that list. *)

From S2P Require Import Prelude Mem Alloc KList.

Definition PAGE_SIZE_4K : Z := 4096.
Definition PG_WRITABLE : Z := 2.
Definition PG_USER : Z := 4.
Definition PG_GLOBAL : Z := 256.

(** [heap_state_t] and [heap_t]. *)
Record heap_state_t := HeapState {
  valid : bool; vmem_mark : Z; used_bytes : Z; block_count : Z }.
Record heap_t := Heap {
  start : Z; end_ : Z; pg_fl : Z; space : Z; state : heap_state_t }.

Definition heap_zero : heap_t := Heap 0 0 0 0 (HeapState false 0 0 0).

Definition with_state (f : heap_state_t -> heap_state_t) (h : heap_t) : heap_t :=
  Heap (start h) (end_ h) (pg_fl h) (space h) (f (state h)).
Definition set_valid v (st : heap_state_t) := HeapState v (vmem_mark st) (used_bytes st) (block_count st).
Definition set_mark v (st : heap_state_t) := HeapState (valid st) v (used_bytes st) (block_count st).
Definition set_used v (st : heap_state_t) := HeapState (valid st) (vmem_mark st) v (block_count st).
Definition set_count v (st : heap_state_t) := HeapState (valid st) (vmem_mark st) (used_bytes st) v.

(** The [heap_t] objects of the kernel, by address. *)
Class HasHeaps (St : Type) `{HasMem St} := {
  get_heap : Z -> St -> heap_t;
  set_heap : Z -> heap_t -> St -> St;
  kheap : Z;
  get_set_heap : forall p h s, get_heap p (set_heap p h s) = h;
  get_set_heap_ne : forall p q h s, p <> q -> get_heap q (set_heap p h s) = get_heap q s;
  get_mem_set_heap : forall p h s, get_mem (set_heap p h s) = get_mem s;
  get_heap_set_mem : forall p m s, get_heap p (set_mem m s) = get_heap p s;
}.

(** The list head [vmem_glob_map] of vmem_mgmt.c. *)
Class HasGlobMap (St : Type) := {
  get_glob_map : St -> Z;
  set_glob_map : Z -> St -> St;
}.

(** The pager. [spc_current] reads CR3. *)
Class HeapEnv (St : Type) := {
  spc_current : St -> Z;
  pmem_alloc : Z -> Z -> M St Z;
  vmem_map : Z -> Z -> Z -> Z -> M St bool;
}.

(** ** Global mappings (vmem_mgmt.c) *)

Definition map_from : Z := 0.
Definition map_to : Z := 8.
Definition map_flags : Z := 16.
Definition sizeof_vmem_glob_mapping_t : Z := 24.

Section glob_map.
Context {St : Type} `{HasMem St} `{HasGlobMap St}.

Definition vmem_mgmt_add_global_mapping (ops : KHeapOps St) (phys virt flags : Z) : M St unit :=
  gm <- mgets get_glob_map ;;
  (if gm =? 0 then l <- list_new ;; mmodify (set_glob_map l) else mreturn tt) ;;;
  map <- kheap_alloc sizeof_vmem_glob_mapping_t ;;
  store64 (map + map_from) phys ;;;
  store64 (map + map_to) virt ;;;
  store 4 (map + map_flags) (u32 flags) ;;;
  gm <- mgets get_glob_map ;;
  list_add gm map.
End glob_map.

(** ** The operations of heap.c *)

Definition HEAP_PRESENT : Z := 1.
Definition HEAP_FOOTER : Z := 2.
Definition HEAP_FLMASK : Z := 3.
Definition sizeof_heap_block_t : Z := 8.

Definition HEAP_BL_B2DATASZ (b : Z) : Z := Z.land b (Z.lnot HEAP_FLMASK).
Definition HEAP_BL_SZ2DATASZ (b : Z) : Z := u64 (b - sizeof_heap_block_t * 2).
Definition HEAP_BL_DATASZ2SZ (b : Z) : Z := u64 (b + sizeof_heap_block_t * 2).
Definition HEAP_BL_M2H (m : Z) : Z := u64 (m - sizeof_heap_block_t).
Definition HEAP_BL_H2M (h : Z) : Z := u64 (h + sizeof_heap_block_t).

Definition is_present (b : Z) : bool := negb (Z.land b HEAP_PRESENT =? 0).
Definition is_footer (b : Z) : bool := negb (Z.land b HEAP_FOOTER =? 0).
Definition is_global (fl : Z) : bool := negb (Z.land fl PG_GLOBAL =? 0).

Section heap_c.
Context {St : Type} `{HasHeaps St} `{HasGlobMap St} `{HeapEnv St}.

Definition HEAP_BL_H2F (h : Z) : M St Z :=
  b <- load64 h ;; mreturn (u64 (h + sizeof_heap_block_t + HEAP_BL_B2DATASZ b)).

Definition HEAP_BL_F2H (f : Z) : M St Z :=
  b <- load64 f ;; mreturn (u64 (f - sizeof_heap_block_t - HEAP_BL_B2DATASZ b)).

Definition HEAP_BL_NEXT (h : Z) : M St Z :=
  f <- HEAP_BL_H2F h ;; mreturn (u64 (f + sizeof_heap_block_t)).

Definition HEAP_BL_PREV (h : Z) : M St Z := HEAP_BL_F2H (u64 (h - sizeof_heap_block_t)).

Definition HEAP_BL_HAS_NEXT (heap h : Z) : M St bool :=
  n <- HEAP_BL_NEXT h ;;
  hp <- mgets (get_heap heap) ;;
  mreturn (negb (vmem_mark (state hp) <=? n)).

Definition HEAP_BL_HAS_PREV (heap h : Z) : M St bool :=
  hp <- mgets (get_heap heap) ;; mreturn (start hp <? h).

Definition HEAP_BL_SET (h s f : Z) : M St unit :=
  store64 h (Z.lor s f) ;;;
  ft <- HEAP_BL_H2F h ;;
  store64 ft (Z.lor (Z.lor s f) HEAP_FOOTER).

Definition HEAP_CHECK (heap : Z) : M St unit := fun s =>
  let h := get_heap heap s in
  if negb (space h =? spc_current s) && negb (is_global (pg_fl h))
  then Fatal "the heap can only operate if the heaps address space is active!"
  else Ret (tt, s).

Definition upd_state (heap : Z) (f : heap_state_t -> heap_state_t) : M St unit :=
  mmodify (fun s => set_heap heap (with_state f (get_heap heap s)) s).

Definition heap_validate (heap m : Z) : M St bool :=
  hp <- mgets (get_heap heap) ;;
  if negb (m mod sizeof_heap_block_t =? 0) then mreturn false
  else
    let hdr := HEAP_BL_M2H m in
    if negb ((start hp <=? hdr) && (hdr <? end_ hp)) then mreturn false
    else
      b <- load64 hdr ;;
      if is_footer b then mreturn false
      else
        ftr <- HEAP_BL_H2F hdr ;;
        if negb ((start hp <? ftr) && (ftr <=? end_ hp)) then mreturn false
        else
          f <- load64 ftr ;;
          if negb (is_footer f) then mreturn false
          else mreturn (HEAP_BL_B2DATASZ b =? HEAP_BL_B2DATASZ f).

(** The page loop of [heap_alloc]: [n] pages are left to add, the next is
    number [i]; [addg] is [vmem_mgmt_add_global_mapping].  The result is
    false when a page cannot be mapped. *)
Fixpoint heap_grow (addg : Z -> Z -> Z -> M St unit) (n : nat) (heap block sz i : Z) : M St bool :=
  match n with
  | O => mreturn true
  | S n' =>
      phys <- pmem_alloc PAGE_SIZE_4K PAGE_SIZE_4K ;;
      hp <- mgets (get_heap heap) ;;
      let target := vmem_mark (state hp) in
      ok <- vmem_map (space hp) phys target (pg_fl hp) ;;
      if negb ok then mreturn false
      else
        upd_state heap (fun st => set_mark (u64 (vmem_mark st + PAGE_SIZE_4K)) st) ;;;
        HEAP_BL_SET block (u64 (sz + PAGE_SIZE_4K * (i + 1))) 0 ;;;
        (if is_global (pg_fl hp) then addg phys target (pg_fl hp) else mreturn tt) ;;;
        heap_grow addg n' heap block sz (i + 1)
  end.

Definition heap_free (heap mem : Z) : M St unit :=
  HEAP_CHECK heap ;;;
  v <- heap_validate heap mem ;;
  if negb v then mreturn tt
  else
    let block := HEAP_BL_M2H mem in
    b <- load64 block ;;
    let sz0 := HEAP_BL_B2DATASZ b in
    upd_state heap (fun st => set_used (u64 (used_bytes st - sz0)) st) ;;;
    upd_state heap (fun st => set_count (u64 (block_count st - 1)) st) ;;;
    hn <- HEAP_BL_HAS_NEXT heap block ;;
    sz1 <- (if (hn : bool) then
              next <- HEAP_BL_NEXT block ;;
              nb <- load64 next ;;
              mreturn (if is_present nb then sz0
                       else u64 (sz0 + HEAP_BL_DATASZ2SZ (HEAP_BL_B2DATASZ nb)))
            else mreturn sz0) ;;
    hpv <- HEAP_BL_HAS_PREV heap block ;;
    r <- (if (hpv : bool) then
            prev <- HEAP_BL_PREV block ;;
            pb <- load64 prev ;;
            mreturn (if is_present pb then (block, sz1)
                     else (prev, u64 (sz1 + HEAP_BL_DATASZ2SZ (HEAP_BL_B2DATASZ pb))))
          else mreturn (block, sz1)) ;;
    HEAP_BL_SET (fst r) (snd r) 0.

(** The block is free and large enough: cut it in two. *)
Definition heap_split (heap block bytes b : Z) : M St Z :=
  let freesz := u64 (HEAP_BL_B2DATASZ b - HEAP_BL_DATASZ2SZ bytes) in
  HEAP_BL_SET block bytes HEAP_PRESENT ;;;
  next <- HEAP_BL_NEXT block ;;
  HEAP_BL_SET next freesz 0 ;;;
  upd_state heap (fun st => set_used (u64 (used_bytes st + bytes)) st) ;;;
  upd_state heap (fun st => set_count (u64 (block_count st + 1)) st) ;;;
  mreturn (HEAP_BL_H2M block).

(** The search of [heap_alloc] from [block] on.  One unit of fuel per
    iteration of the [while] loop; a global heap registers each new page,
    which allocates from the kernel heap again. *)
Fixpoint heap_alloc_loop (fuel : nat) (heap bytes block : Z) : M St Z :=
  match fuel with
  | O => mnofuel
  | S f =>
      hp <- mgets (get_heap heap) ;;
      if negb ((start hp <=? block) && (block <? vmem_mark (state hp))) then mreturn 0
      else
        b <- load64 block ;;
        if negb (is_present b) && (HEAP_BL_DATASZ2SZ bytes <=? HEAP_BL_B2DATASZ b) then
          heap_split heap block bytes b
        else
          hn <- HEAP_BL_HAS_NEXT heap block ;;
          if negb hn then
            let sz := HEAP_BL_B2DATASZ b in
            let pcnt := ALIGN_UP bytes PAGE_SIZE_4K / PAGE_SIZE_4K in
            let kalloc := fun n =>
              HEAP_CHECK kheap ;;;
              k <- mgets (get_heap kheap) ;;
              heap_alloc_loop f kheap (ALIGN_UP n sizeof_heap_block_t) (start k) in
            let ops := {| kheap_alloc := kalloc; kheap_free := heap_free kheap |} in
            ok <- heap_grow (vmem_mgmt_add_global_mapping ops) (Z.to_nat pcnt) heap block sz 0 ;;
            if negb ok then mreturn 0 else heap_alloc_loop f heap bytes block
          else
            next <- HEAP_BL_NEXT block ;;
            heap_alloc_loop f heap bytes next
  end.

Definition heap_alloc (fuel : nat) (heap bytes : Z) : M St Z :=
  HEAP_CHECK heap ;;;
  hp <- mgets (get_heap heap) ;;
  heap_alloc_loop fuel heap (ALIGN_UP bytes sizeof_heap_block_t) (start hp).

(** [kheap_alloc] and [kheap_free], the macros of kheap.h. *)
Definition kheap_ops (fuel : nat) : KHeapOps St :=
  {| kheap_alloc := heap_alloc fuel kheap; kheap_free := heap_free kheap |}.

Definition heap_init (fuel : nat) (heap : Z) : M St bool :=
  hp <- mgets (get_heap heap) ;;
  if (heap =? 0) || (start hp =? 0) || (end_ hp =? 0) || (space hp =? 0) then mreturn false
  else
    HEAP_CHECK heap ;;;
    upd_state heap (set_mark (u64 (start hp + PAGE_SIZE_4K))) ;;;
    upd_state heap (set_used 0) ;;;
    upd_state heap (set_count 0) ;;;
    phys <- pmem_alloc PAGE_SIZE_4K PAGE_SIZE_4K ;;
    if phys =? 0 then mreturn false
    else
      ok <- vmem_map (space hp) phys (start hp) (pg_fl hp) ;;
      if negb ok then mreturn false
      else
        HEAP_BL_SET (start hp) (HEAP_BL_SZ2DATASZ PAGE_SIZE_4K) 0 ;;;
        upd_state heap (set_valid true) ;;;
        (if is_global (pg_fl hp)
         then vmem_mgmt_add_global_mapping (kheap_ops fuel) phys (start hp) (pg_fl hp)
         else mreturn tt) ;;;
        mreturn true.

Definition heap_delete (heap : Z) : M St Z :=
  upd_state heap (set_valid false) ;;; mreturn 0.

Definition heap_realloc (fuel : nat) (heap mem bytes : Z) : M St Z :=
  if mem =? 0 then heap_alloc fuel heap bytes
  else
    HEAP_CHECK heap ;;;
    v <- heap_validate heap mem ;;
    if negb v then mreturn 0
    else
      let block := HEAP_BL_M2H mem in
      b <- load64 block ;;
      let orig_sz := HEAP_BL_B2DATASZ b in
      if bytes <=? orig_sz then mreturn mem
      else
        let move :=
          new <- heap_alloc fuel heap bytes ;;
          b' <- load64 block ;;
          memmove new mem (HEAP_BL_B2DATASZ b') ;;;
          heap_free heap mem ;;;
          mreturn new in
        hn <- HEAP_BL_HAS_NEXT heap block ;;
        if negb hn then move
        else
          next <- HEAP_BL_NEXT block ;;
          nb <- load64 next ;;
          let nsz0 := HEAP_BL_B2DATASZ nb in
          if negb (is_present nb) && (bytes <=? u64 (HEAP_BL_DATASZ2SZ nsz0 + orig_sz)) then
            (if s64 (s64 nsz0 - s64 (s64 bytes - s64 orig_sz)) <=? 0 then
               let nsz := u64 (orig_sz + HEAP_BL_DATASZ2SZ nsz0) in
               HEAP_BL_SET block nsz HEAP_PRESENT ;;;
               upd_state heap (fun st => set_used (u64 (used_bytes st + u64 (nsz - orig_sz))) st)
             else
               let nsz := u64 (nsz0 - u64 (bytes - orig_sz)) in
               HEAP_BL_SET block bytes HEAP_PRESENT ;;;
               next' <- HEAP_BL_NEXT block ;;
               HEAP_BL_SET next' nsz 0 ;;;
               upd_state heap (fun st => set_used (u64 (used_bytes st + u64 (bytes - orig_sz))) st)) ;;;
            mreturn mem
          else move.

Definition KHEAP_START : Z := 0xFFFFFF0000000000.
Definition KHEAP_END : Z := 0xFFFFFFFF70000000.

Definition kheap_init (fuel : nat) : M St unit :=
  cur <- mgets spc_current ;;
  mmodify (set_heap kheap heap_zero) ;;;
  mmodify (set_heap kheap
    (Heap KHEAP_START KHEAP_END (Z.lor PG_GLOBAL PG_WRITABLE) cur (state heap_zero))) ;;;
  ok <- heap_init fuel kheap ;;
  if negb ok then mfatal "cannot initialize kernel heap!" else mreturn tt.
End heap_c.

(** ** Words of a block *)

Definition flag (p : bool) : Z := if p then 1 else 0.

Lemma lor_small x c n : 0 <= n -> x mod 2 ^ n = 0 -> 0 <= c < 2 ^ n -> Z.lor x c = x + c.
Proof.
  intros Hn Hx Hc. apply Z.mod_divide in Hx as [q ->]; [|apply Z.pow_nonzero; lia]. by apply lor_mul_pow2.
Qed.

Lemma hdr_word sz p : sz mod 8 = 0 -> Z.lor sz (flag p) = sz + flag p.
Proof. intros. apply (lor_small _ _ 3); [lia|done|destruct p; simpl; lia]. Qed.

Lemma ftr_word sz p : sz mod 8 = 0 -> Z.lor (Z.lor sz (flag p)) HEAP_FOOTER = sz + flag p + 2.
Proof.
  intros. unfold HEAP_FOOTER. rewrite <-Z.lor_assoc, (lor_small _ _ 3); [|lia|done|by destruct p].
  assert (Z.lor (flag p) 2 = flag p + 2) as -> by (by destruct p). lia.
Qed.

Lemma datasz_word sz c : sz mod 8 = 0 -> 0 <= c < 4 -> HEAP_BL_B2DATASZ (sz + c) = sz.
Proof.
  intros. change (HEAP_BL_B2DATASZ (sz + c)) with (ALIGN_DN (sz + c) (2 ^ 2)).
  rewrite ALIGN_DN_pow2 by lia. change (2 ^ 2) with 4. dlia.
Qed.

Lemma land_low sz c k : sz mod 8 = 0 -> 0 <= c < 4 -> 0 <= k < 4 ->
  Z.land (sz + c) k = Z.land c k.
Proof.
  intros Hs Hc Hk. rewrite <-(lor_small sz c 3) by (lia || done). rewrite Z.land_lor_distr_l.
  assert (sz = sz / 8 * 2 ^ 3) as -> by (change (2 ^ 3) with 8; dlia).
  rewrite land_mul_pow2 by lia. done.
Qed.

Lemma present_hdr sz p : sz mod 8 = 0 -> is_present (sz + flag p) = p.
Proof.
  intros. unfold is_present, HEAP_PRESENT. rewrite land_low by (destruct p; simpl; lia || done).
  by destruct p.
Qed.

Lemma footer_hdr sz p : sz mod 8 = 0 -> is_footer (sz + flag p) = false.
Proof.
  intros. unfold is_footer, HEAP_FOOTER. rewrite land_low by (destruct p; simpl; lia || done).
  by destruct p.
Qed.

Lemma footer_ftr sz p : sz mod 8 = 0 -> is_footer (sz + flag p + 2) = true.
Proof.
  intros. unfold is_footer, HEAP_FOOTER. rewrite <-Z.add_assoc.
  rewrite land_low by (destruct p; simpl; lia || done). by destruct p.
Qed.

(** ** The heap as a list of blocks *)

Abbreviation blk := (Z * bool)%type (only parsing).

#[local] Arguments mread : simpl never.
#[local] Arguments mwrite : simpl never.

Definition span (bs : list blk) : Z := foldr (fun b t => b.1 + 16 + t) 0 bs.

(** [blocks m a bs e]: the memory from [a] to [e] is exactly the blocks
    [bs], each with a header and a footer that carry its size and flags. *)
Fixpoint blocks (m : memory) (a : Z) (bs : list blk) (e : Z) : Prop :=
  match bs with
  | [] => a = e
  | (sz, p) :: bs' =>
      0 <= sz /\ sz mod 8 = 0 /\
      mread 8 m a = Some (sz + flag p) /\
      mread 8 m (a + 8 + sz) = Some (sz + flag p + 2) /\
      mapped m a (sz + 16) /\ blocks m (a + 16 + sz) bs' e
  end.

(** Reading the list back from memory. *)
Fixpoint parse (fuel : nat) (m : memory) (a e : Z) : list blk :=
  match fuel with
  | O => []
  | S f =>
      if e <=? a then []
      else match mread 8 m a with
           | Some b => (HEAP_BL_B2DATASZ b, is_present b) ::
                       parse f m (a + 16 + HEAP_BL_B2DATASZ b) e
           | None => []
           end
  end.

(** The allocated blocks: user address to size. *)
Fixpoint live_of (a : Z) (bs : list blk) : gmap Z Z :=
  match bs with
  | [] => ∅
  | (sz, p) :: bs' =>
      let r := live_of (a + 16 + sz) bs' in if (p : bool) then <[a + 8 := sz]> r else r
  end.

Definition used (bs : list blk) : Z := foldr (fun b t => (if (b.2 : bool) then b.1 else 0) + t) 0 bs.
Definition nused (bs : list blk) : Z := foldr (fun b t => flag b.2 + t) 0 bs.

(** No free block follows a free block ([prev] is the flag to the left). *)
Fixpoint coalesced (prev : bool) (bs : list blk) : Prop :=
  match bs with
  | [] => True
  | (_, p) :: bs' => (prev = false -> p = true) /\ coalesced p bs'
  end.

Definition lastflag (d : bool) (bs : list blk) : bool := default d (snd <$> last bs).

(** First fit on the abstract list: the offset of the user data and the new
    list. *)
Definition fits (n : Z) (b : blk) : bool := negb b.2 && (n + 16 <=? b.1).

Fixpoint alloc_fit (n : Z) (bs : list blk) : option (Z * list blk) :=
  match bs with
  | [] => None
  | (z, p) :: bs' =>
      if fits n (z, p) then Some (8, (n, true) :: (z - n - 16, false) :: bs')
      else match alloc_fit n bs' with
           | Some (o, r) => Some (z + 16 + o, (z, p) :: r)
           | None => None
           end
  end.

(** [k] pages more at the end of the heap. *)
Definition grow_last (k : Z) (bs : list blk) : list blk :=
  match last bs with
  | Some (z, p) => removelast bs ++ [(z + PAGE_SIZE_4K * k, p)]
  | None => bs
  end.

(** [heap_free] of the block of size [k] between [pre] and [post]: it merges
    with a free right and a free left neighbour. *)
Definition free_right (k : Z) (post : list blk) : Z * list blk :=
  match post with (z, false) :: post' => (k + (z + 16), post') | _ => (k, post) end.
Definition free_left (pre : list blk) (k : Z) : list blk * Z :=
  match last pre with Some (z, false) => (removelast pre, k + (z + 16)) | _ => (pre, k) end.
Definition free_merge (pre : list blk) (k : Z) (post : list blk) : list blk :=
  let r := free_right k post in
  let l := free_left pre (fst r) in
  fst l ++ (snd l, false) :: snd r.

(** Pages added per round of [heap_alloc]. *)
Definition pages (bytes : Z) : Z := (bytes + 4095) / 4096.

Section block_lemmas.
Implicit Types (bs : list blk) (m : memory).

Lemma span_cons z p bs : span ((z, p) :: bs) = z + 16 + span bs.
Proof. done. Qed.
Lemma used_cons z p bs : used ((z, p) :: bs) = (if (p : bool) then z else 0) + used bs.
Proof. done. Qed.
Lemma nused_cons z p bs : nused ((z, p) :: bs) = flag p + nused bs.
Proof. done. Qed.

Lemma span_app b1 b2 : span (b1 ++ b2) = span b1 + span b2.
Proof. induction b1 as [|[sz p] b1 IH]; simpl; [lia|]. unfold span in *. lia. Qed.

Lemma span_nonneg m a bs e : blocks m a bs e -> 0 <= span bs /\ e = a + span bs.
Proof.
  revert a. induction bs as [|[sz p] bs IH]; intros a; simpl; [lia|].
  intros (? & ? & ? & ? & ? & Hb). destruct (IH _ Hb). unfold span in *. simpl. lia.
Qed.

Lemma blocks_app m a b1 b2 e :
  blocks m a (b1 ++ b2) e <-> blocks m a b1 (a + span b1) /\ blocks m (a + span b1) b2 e.
Proof.
  revert a. induction b1 as [|[sz p] b1 IH]; intros a; simpl.
  { rewrite Z.add_0_r. tauto. }
  rewrite IH. unfold span. simpl. fold (span b1).
  replace (a + 16 + sz + span b1) with (a + (sz + 16 + span b1)) by lia. tauto.
Qed.

Lemma blocks_mapped m a bs e : blocks m a bs e -> mapped m a (e - a).
Proof.
  revert a. induction bs as [|[sz p] bs IH]; intros a; simpl.
  { intros -> i Hi. lia. }
  intros (? & ? & ? & ? & Hm & Hb) i Hi.
  destruct (decide (i < a + (sz + 16))); [apply Hm; lia|]. apply (IH _ Hb). lia.
Qed.

Lemma blocks_agree m m' a bs e :
  blocks m a bs e -> agree m m' a (e - a) -> blocks m' a bs e.
Proof.
  revert a. induction bs as [|[sz p] bs IH]; intros a; simpl; [done|].
  intros (? & ? & Hh & Hf & Hm & Hb) Hag. destruct (span_nonneg _ _ _ _ Hb).
  rewrite !(mread_ext 8 m m') by (eapply agree_weaken; [done|lia|lia]).
  split_and!; [done..| |].
  - intros i Hi. rewrite Hag by lia. apply Hm. lia.
  - apply IH; [done|]. eapply agree_weaken; [done|lia|lia].
Qed.

Lemma blocks_mono m m' a bs e :
  blocks m a bs e -> (forall i b, m !! i = Some b -> m' !! i = Some b) -> blocks m' a bs e.
Proof.
  intros Hb Hm. eapply blocks_agree; [done|]. intros i Hi.
  destruct (blocks_mapped _ _ _ _ Hb i Hi) as [b Hib]. rewrite Hib. by apply Hm.
Qed.

Lemma parse_blocks fuel m a bs e :
  blocks m a bs e -> (length bs <= fuel)%nat -> parse fuel m a e = bs.
Proof.
  revert fuel a. induction bs as [|[sz p] bs IH]; intros fuel a; simpl.
  { intros -> _. destruct fuel; [done|]. simpl. by rewrite Z.leb_refl. }
  intros (? & ? & Hh & ? & ? & Hb) Hf. destruct fuel as [|fuel]; [lia|]. cbn [parse].
  destruct (span_nonneg _ _ _ _ Hb). destruct (Z.leb_spec e a); [lia|]. rewrite Hh.
  rewrite datasz_word by (destruct p; simpl; lia || done). rewrite present_hdr by done.
  f_equal. apply IH; [done|lia].
Qed.

Lemma blocks_length m a bs e : blocks m a bs e -> 16 * Z.of_nat (length bs) <= e - a.
Proof.
  revert a. induction bs as [|[sz p] bs IH]; intros a; simpl; [lia|].
  intros (? & ? & ? & ? & ? & Hb). specialize (IH _ Hb). lia.
Qed.

Lemma live_of_app a b1 b2 :
  live_of a (b1 ++ b2) = live_of a b1 ∪ live_of (a + span b1) b2.
Proof.
  revert a. induction b1 as [|[sz p] b1 IH]; intros a; simpl.
  { by rewrite Z.add_0_r, (left_id_L ∅ (∪)). }
  rewrite IH. unfold span. simpl. fold (span b1).
  replace (a + 16 + sz + span b1) with (a + (sz + 16 + span b1)) by lia.
  destruct p; [|done]. by rewrite insert_union_l.
Qed.

(** Where a live block sits in the list. *)
Lemma live_of_split m a bs e p k :
  blocks m a bs e -> live_of a bs !! p = Some k ->
  exists pre post, bs = pre ++ (k, true) :: post /\ p = a + span pre + 8.
Proof.
  revert a. induction bs as [|[sz f] bs IH]; intros a; simpl.
  { by rewrite lookup_empty. }
  intros (? & ? & ? & ? & ? & Hb) Hl.
  assert (p = a + 8 /\ f = true /\ k = sz \/ live_of (a + 16 + sz) bs !! p = Some k)
    as [(-> & -> & ->)|Hl'].
  { destruct f; [|by right]. apply lookup_insert_Some in Hl. naive_solver. }
  - exists [], bs. split; [done|]. simpl. lia.
  - destruct (IH _ Hb Hl') as (pre & post & -> & ->). exists ((sz, f) :: pre), post.
    split; [done|]. unfold span. simpl. lia.
Qed.

Lemma live_of_low a bs m e p k :
  blocks m a bs e -> live_of a bs !! p = Some k -> a + 8 <= p /\ p + k + 8 <= e /\ 0 <= k.
Proof.
  intros Hb Hl. destruct (live_of_split _ _ _ _ _ _ Hb Hl) as (pre & post & -> & ->).
  apply blocks_app in Hb as [H1 H2]. destruct (span_nonneg _ _ _ _ H1).
  destruct H2 as (? & ? & ? & ? & ? & H2). destruct (span_nonneg _ _ _ _ H2). lia.
Qed.

Lemma live_of_mid m a pre sz p post e :
  blocks m a (pre ++ (sz, p) :: post) e ->
  live_of a pre !! (a + span pre + 8) = None /\
  live_of (a + span pre + 16 + sz) post !! (a + span pre + 8) = None.
Proof.
  intros [H1 (? & ? & ? & ? & ? & H2)]%blocks_app. split.
  - destruct (live_of a pre !! _) eqn:Hl; [|done].
    destruct (live_of_low _ _ _ _ _ _ H1 Hl). lia.
  - destruct (live_of _ post !! _) eqn:Hl; [|done].
    destruct (live_of_low _ _ _ _ _ _ H2 Hl). lia.
Qed.

(** A live block lies apart from any other block of the list. *)
Lemma live_of_apart m a pre sz p post e q k :
  blocks m a (pre ++ (sz, p) :: post) e ->
  live_of a (pre ++ (sz, p) :: post) !! q = Some k ->
  (p = true /\ q = a + span pre + 8 /\ k = sz) \/
  q + k + 8 <= a + span pre \/ a + span pre + 16 + sz <= q - 8.
Proof.
  intros Hb Hl. pose proof (live_of_mid _ _ _ _ _ _ _ Hb) as [? ?].
  apply blocks_app in Hb as [H1 (? & ? & ? & ? & ? & H2)].
  rewrite live_of_app in Hl. apply lookup_union_Some_raw in Hl as [Hl|[_ Hl]].
  { destruct (live_of_low _ _ _ _ _ _ H1 Hl). lia. }
  simpl in Hl. assert (p = true /\ q = a + span pre + 8 /\ k = sz \/
    live_of (a + span pre + 16 + sz) post !! q = Some k) as [?|Hl'].
  { destruct p; [|by right]. apply lookup_insert_Some in Hl. naive_solver. }
  - tauto.
  - destruct (live_of_low _ _ _ _ _ _ H2 Hl'). lia.
Qed.

Lemma coalesced_app d b1 b2 :
  coalesced d (b1 ++ b2) <-> coalesced d b1 /\ coalesced (lastflag d b1) b2.
Proof.
  revert d. induction b1 as [|[sz p] b1 IH]; intros d; simpl; [unfold lastflag; simpl; tauto|].
  rewrite IH. assert (lastflag d ((sz, p) :: b1) = lastflag p b1) as ->; [|tauto].
  unfold lastflag. destruct b1 as [|x b1]; [done|]. rewrite last_cons_cons.
  destruct (last (x :: b1)) eqn:Hl; [done|]. by apply last_None in Hl.
Qed.

Lemma grow_last_snoc k bs z p : grow_last k (bs ++ [(z, p)]) = bs ++ [(z + PAGE_SIZE_4K * k, p)].
Proof. unfold grow_last. by rewrite last_snoc, removelast_last. Qed.

Lemma grow_last_0 bs : grow_last 0 bs = bs.
Proof.
  destruct bs as [|[z p] bs] using rev_ind; [done|]. rewrite grow_last_snoc.
  unfold PAGE_SIZE_4K. by rewrite Z.mul_0_r, Z.add_0_r.
Qed.

Lemma alloc_fit_skip n pre bs :
  Forall (fun b => fits n b = false) pre ->
  alloc_fit n (pre ++ bs) =
    match alloc_fit n bs with Some (o, r) => Some (span pre + o, pre ++ r) | None => None end.
Proof.
  induction 1 as [|[z p] pre Hf _ IH]; cbn [alloc_fit app]; [by destruct (alloc_fit n bs) as [[]|]|].
  rewrite Hf, IH. destruct (alloc_fit n bs) as [[o r]|]; [|done].
  rewrite span_cons. do 2 f_equal. lia.
Qed.

Lemma span_mod8 m a bs e : blocks m a bs e -> span bs mod 8 = 0.
Proof.
  revert a. induction bs as [|[z p] bs IH]; intros a; [done|].
  intros (? & ? & _ & _ & _ & Hb). rewrite span_cons. specialize (IH _ Hb). dlia.
Qed.

Lemma span_ge16 m a bs e : blocks m a bs e -> bs <> [] -> 16 <= span bs.
Proof.
  destruct bs as [|[z p] bs]; intros Hb Hne; [done|]. destruct Hb as (? & _ & _ & _ & _ & Hb).
  destruct (span_nonneg _ _ _ _ Hb). rewrite span_cons. lia.
Qed.

Lemma used_app b1 b2 : used (b1 ++ b2) = used b1 + used b2.
Proof. induction b1 as [|[sz p] b1 IH]; simpl; [lia|]. unfold used in *. lia. Qed.

Lemma nused_app b1 b2 : nused (b1 ++ b2) = nused b1 + nused b2.
Proof. induction b1 as [|[sz p] b1 IH]; simpl; [lia|]. unfold nused in *. lia. Qed.

Lemma used_bound m a bs e : blocks m a bs e -> 0 <= used bs <= span bs /\ 0 <= nused bs <= span bs.
Proof.
  revert a. induction bs as [|[sz p] bs IH]; intros a; simpl; [lia|].
  intros (? & ? & ? & ? & ? & Hb). specialize (IH _ Hb). unfold used, nused, span in *.
  simpl. destruct p; simpl; lia.
Qed.
End block_lemmas.

(** ** The pager's promises

    [pmem_alloc] does not touch kernel data; [vmem_map] into the current
    space keeps what is mapped, and on success the page is mapped, was not
    mapped before and ends below [env_top].  Either may stop the machine. *)

Definition same_heaps {St} `{HasHeaps St} `{HeapEnv St} (s s' : St) : Prop :=
  (forall p, get_heap p s' = get_heap p s) /\ spc_current s' = spc_current s.

Class HeapEnvLaws (St : Type) `{HasHeaps St} `{HeapEnv St} := {
  env_top : Z;
  env_top_bound : env_top < 2 ^ 64;
  spc_current_set_mem : forall m s, spc_current (set_mem m s) = spc_current s;
  spc_current_set_heap : forall p h s, spc_current (set_heap p h s) = spc_current s;
  pmem_alloc_law : forall l a s,
    wpf (pmem_alloc l a) (fun _ s' => same_heaps s s' /\ get_mem s' = get_mem s) s;
  vmem_map_law : forall phys virt fl s, 0 < virt -> virt mod PAGE_SIZE_4K = 0 ->
    wpf (vmem_map (spc_current s) phys virt fl) (fun ok s' =>
      same_heaps s s' /\
      (forall i b, get_mem s !! i = Some b -> get_mem s' !! i = Some b) /\
      (ok = true -> virt + PAGE_SIZE_4K <= env_top /\ mapped (get_mem s') virt PAGE_SIZE_4K /\
        forall i, virt <= i < virt + PAGE_SIZE_4K -> get_mem s !! i = None)) s;
}.

(** ** The invariant of a local heap *)

Record heap_wf {St} `{HasHeaps St} `{HeapEnv St} (s : St) (heap : Z) (bs : list blk) : Prop := {
  wf_start : 0 < start (get_heap heap s) /\ start (get_heap heap s) mod PAGE_SIZE_4K = 0;
  wf_mark : vmem_mark (state (get_heap heap s)) mod PAGE_SIZE_4K = 0 /\
            vmem_mark (state (get_heap heap s)) < 2 ^ 64;
  wf_blocks : blocks (get_mem s) (start (get_heap heap s)) bs (vmem_mark (state (get_heap heap s)));
  wf_last : exists sz, last bs = Some (sz, false);
  wf_coalesced : coalesced true bs;
  wf_used : used_bytes (state (get_heap heap s)) = used bs;
  wf_count : block_count (state (get_heap heap s)) = nused bs;
  wf_space : space (get_heap heap s) = spc_current s;
  wf_local : is_global (pg_fl (get_heap heap s)) = false;
}.

(** What an operation on [heap] leaves alone: the other heaps, the heap's
    configuration, the contents of the live blocks [L], and every byte
    outside the heap. *)
Record heap_frame {St} `{HasHeaps St} `{HeapEnv St} `{!HeapEnvLaws St} (s s' : St) (heap : Z) (L : gmap Z Z) : Prop := {
  fr_other : forall q, q <> heap -> get_heap q s' = get_heap q s;
  fr_cur : spc_current s' = spc_current s;
  fr_start : start (get_heap heap s') = start (get_heap heap s);
  fr_end : end_ (get_heap heap s') = end_ (get_heap heap s);
  fr_fl : pg_fl (get_heap heap s') = pg_fl (get_heap heap s);
  fr_space : space (get_heap heap s') = space (get_heap heap s);
  fr_mark : vmem_mark (state (get_heap heap s)) <= vmem_mark (state (get_heap heap s'));
  fr_top : vmem_mark (state (get_heap heap s')) = vmem_mark (state (get_heap heap s)) \/
           vmem_mark (state (get_heap heap s')) <= env_top;
  fr_live : forall q k, L !! q = Some k -> agree (get_mem s) (get_mem s') q k;
  fr_out : forall i b, get_mem s !! i = Some b ->
    get_mem s' !! i = Some b \/
    start (get_heap heap s) <= i < vmem_mark (state (get_heap heap s));
  fr_new : forall i, vmem_mark (state (get_heap heap s)) <= i < vmem_mark (state (get_heap heap s')) ->
    get_mem s !! i = None;
}.

(** The writes of [HEAP_BL_SET]. *)
Definition set_block (m : memory) (h sz : Z) (p : bool) : memory :=
  mwrite 8 (mwrite 8 m h (sz + flag p)) (h + 8 + sz) (sz + flag p + 2).

Lemma set_block_agree m h sz p b k :
  0 <= sz -> b + k <= h \/ h + 16 + sz <= b \/ (h + 8 <= b /\ b + k <= h + 8 + sz) ->
  agree m (set_block m h sz p) b k.
Proof.
  intros Hs Hd. eapply agree_trans; apply mwrite_agree; change (Z.of_nat 8) with 8; lia.
Qed.

Lemma set_block_mapped m h sz p b k : mapped m b k -> mapped (set_block m h sz p) b k.
Proof. intros. by do 2 apply mapped_mwrite. Qed.

Lemma set_block_block m h sz p :
  0 <= sz -> sz mod 8 = 0 -> mapped m h (sz + 16) -> h + 16 + sz < 2 ^ 64 -> 0 <= h ->
  blocks (set_block m h sz p) h [(sz, p)] (h + 16 + sz).
Proof.
  intros Hs H8 Hm Hb Hh. simpl. assert (0 <= flag p <= 1) by (destruct p; simpl; lia).
  split_and!; [done|done|..|by apply set_block_mapped|done].
  - unfold set_block. rewrite mread_mwrite_ne by (change (Z.of_nat 8) with 8; lia).
    apply mread_mwrite_eq. change (256 ^ Z.of_nat 8) with (2 ^ 64). lia.
  - apply mread_mwrite_eq. change (256 ^ Z.of_nat 8) with (2 ^ 64). lia.
Qed.

Section heap_proofs.
Context {St : Type} `{HasHeaps St} `{HasGlobMap St} `{HeapEnv St} `{!HeapEnvLaws St}.
Implicit Types (s : St) (bs : list blk).

(** *** Symbolic execution of the macros *)

Lemma load_hdr s a sz p bs e :
  blocks (get_mem s) a ((sz, p) :: bs) e -> load64 a s = Ret (sz + flag p, s).
Proof. intros (_ & _ & Hh & _). by apply load_run. Qed.

Lemma H2F_run s a sz p bs e :
  blocks (get_mem s) a ((sz, p) :: bs) e -> 0 <= a -> a + 16 + sz < 2 ^ 64 ->
  HEAP_BL_H2F a s = Ret (a + 8 + sz, s).
Proof.
  intros Hb ? ?. unfold HEAP_BL_H2F. rewrite (mseq_run _ _ _ _ _ (load_hdr _ _ _ _ _ _ Hb)).
  destruct Hb as (? & ? & _). rewrite datasz_word by (destruct p; simpl; lia || done).
  unfold mreturn, sizeof_heap_block_t. by rewrite u64_small by lia.
Qed.

Lemma NEXT_run s a sz p bs e :
  blocks (get_mem s) a ((sz, p) :: bs) e -> 0 <= a -> a + 16 + sz < 2 ^ 64 ->
  HEAP_BL_NEXT a s = Ret (a + 16 + sz, s).
Proof.
  intros Hb ? ?. unfold HEAP_BL_NEXT. rewrite (mseq_run _ _ _ _ _ (H2F_run _ _ _ _ _ _ Hb ltac:(lia) ltac:(lia))).
  destruct Hb as (? & ? & _). unfold mreturn, sizeof_heap_block_t. ret_eq. rewrite u64_small; lia.
Qed.

Lemma HAS_NEXT_run s heap a sz p bs e :
  blocks (get_mem s) a ((sz, p) :: bs) e -> 0 <= a -> a + 16 + sz < 2 ^ 64 ->
  HEAP_BL_HAS_NEXT heap a s =
    Ret (a + 16 + sz <? vmem_mark (state (get_heap heap s)), s).
Proof.
  intros Hb ? ?. unfold HEAP_BL_HAS_NEXT.
  rewrite (mseq_run _ _ _ _ _ (NEXT_run _ _ _ _ _ _ Hb ltac:(lia) ltac:(lia))).
  unfold mseq, mgets, mreturn. by rewrite Z.leb_antisym, negb_involutive.
Qed.

Lemma HAS_NEXT_cons s heap a sz p bs e :
  blocks (get_mem s) a ((sz, p) :: bs) e -> 0 <= a -> e < 2 ^ 64 ->
  e = vmem_mark (state (get_heap heap s)) ->
  HEAP_BL_HAS_NEXT heap a s = Ret (match bs with [] => false | _ => true end, s).
Proof.
  intros Hb Ha He Hm. pose proof Hb as (? & ? & ? & ? & ? & Hb').
  destruct (span_nonneg _ _ _ _ Hb') as [Hs ->]. rewrite (HAS_NEXT_run _ _ _ _ _ _ _ Hb) by lia.
  rewrite <-Hm. apply Ret_eq; [|done]. destruct bs as [|[sz' p'] bs]; simpl.
  - apply Z.ltb_ge. lia.
  - destruct Hb' as (? & ? & ? & ? & ? & Hb'). destruct (span_nonneg _ _ _ _ Hb').
    apply Z.ltb_lt. unfold span in *. simpl in *. lia.
Qed.

Lemma SET_run s a sz p :
  0 <= sz -> sz mod 8 = 0 -> mapped (get_mem s) a (sz + 16) -> 0 <= a -> a + 16 + sz < 2 ^ 64 ->
  HEAP_BL_SET a sz (flag p) s = Ret (tt, set_mem (set_block (get_mem s) a sz p) s).
Proof.
  intros Hs H8 Hm Ha Hb. unfold HEAP_BL_SET. rewrite ftr_word, hdr_word by done.
  assert (0 <= flag p <= 1) by (destruct p; simpl; lia).
  unfold store64. rewrite (mseq_run _ _ _ _ _ (store_run 8 a _ s ltac:(eapply mapped_weaken; [done|lia|change (Z.of_nat 8) with 8; lia]))).
  unfold HEAP_BL_H2F, load64.
  erewrite mseq_run; [|erewrite mseq_run; [done|apply load_run; rewrite get_set_mem; apply mread_mwrite_eq; change (256 ^ Z.of_nat 8) with (2 ^ 64); lia]].
  rewrite datasz_word, u64_small by (unfold sizeof_heap_block_t; lia || done).
  change (a + sizeof_heap_block_t + sz) with (a + 8 + sz).
  rewrite store_run.
  - by rewrite get_set_mem, set_set_mem.
  - rewrite get_set_mem. apply mapped_mwrite. eapply mapped_weaken; [done|lia|].
    change (Z.of_nat 8) with 8. lia.
Qed.

Lemma CHECK_run s heap : space (get_heap heap s) = spc_current s -> HEAP_CHECK heap s = Ret (tt, s).
Proof. intros Hs. unfold HEAP_CHECK. by rewrite Hs, Z.eqb_refl. Qed.

Lemma heap_frame_refl s heap L : heap_frame s s heap L.
Proof. constructor; try done; try lia; try (by left); intros; by (apply agree_refl || left). Qed.

Lemma heap_frame_trans s1 s2 s3 heap L L' :
  heap_frame s1 s2 heap L -> heap_frame s2 s3 heap L' -> L ⊆ L' -> heap_frame s1 s3 heap L.
Proof.
  intros [A1 A2 A3 A4 A5 A6 A7 AT A8 A9 A10] [B1 B2 B3 B4 B5 B6 B7 BT B8 B9 B10] HL.
  constructor; try congruence; try lia.
  - intros q Hq. by rewrite B1, A1.
  - intros q k Hk. eapply agree_trans; [by apply A8|]. apply B8. by eapply lookup_weaken.
  - intros i b Hi. destruct (A9 i b Hi) as [Hi2|]; [|by right].
    destruct (B9 i b Hi2) as [|Hr]; [by left|]. right.
    destruct (decide (i < vmem_mark (state (get_heap heap s1)))); [lia|].
    rewrite A10 in Hi; [done|lia].
  - intros i Hi. destruct (decide (i < vmem_mark (state (get_heap heap s2)))).
    + apply A10. lia.
    + destruct (get_mem s1 !! i) as [b|] eqn:Hb; [|done].
      destruct (A9 i b Hb) as [Hi2|]; [|lia]. rewrite B10 in Hi2; [done|lia].
Qed.

Lemma live_of_snoc a bs sz : live_of a (bs ++ [(sz, false)]) = live_of a bs.
Proof. rewrite live_of_app. simpl. by rewrite (right_id_L ∅ (∪)). Qed.

(** One page more: the mark moves up and the last block takes the page. *)
Lemma grow_step s s2 heap bs z :
  heap_wf s heap (bs ++ [(z, false)]) -> same_heaps s s2 ->
  (forall i b, get_mem s !! i = Some b -> get_mem s2 !! i = Some b) ->
  let a := start (get_heap heap s) + span bs in
  let mark := vmem_mark (state (get_heap heap s)) in
  mark + PAGE_SIZE_4K <= env_top -> mapped (get_mem s2) mark PAGE_SIZE_4K ->
  (forall i, mark <= i < mark + PAGE_SIZE_4K -> get_mem s !! i = None) ->
  exists s', (upd_state heap (fun st => set_mark (u64 (vmem_mark st + PAGE_SIZE_4K)) st) ;;;
              HEAP_BL_SET a (z + PAGE_SIZE_4K) 0) s2 = Ret (tt, s') /\
    heap_wf s' heap (bs ++ [(z + PAGE_SIZE_4K, false)]) /\
    heap_frame s s' heap (live_of (start (get_heap heap s)) bs).
Proof.
  intros [[W1 W1'] [W2 W2'] W3 W4 W5 W6 W7 W8 W9] [Hh Hc] Hmono a mark Htop Hmap Hnew.
  pose proof env_top_bound. unfold PAGE_SIZE_4K in *.
  pose proof W3 as [W3a (Hz & Hz8 & _ & _ & Hzm & Hend)]%blocks_app. simpl in Hend.
  destruct (span_nonneg _ _ _ _ W3a). fold a in Hend, Hzm, W3a. fold mark in Hend, W2, W2', W3.
  assert (Hm2 : mapped (get_mem s2) a (z + 4096 + 16)).
  { intros i Hi. destruct (decide (i < mark)).
    - destruct (Hzm i) as [b Hb]; [lia|]. exists b. by apply Hmono.
    - apply Hmap. lia. }
  set (h' := with_state (fun st => set_mark (u64 (vmem_mark st + 4096)) st) (get_heap heap s)).
  assert (Hmk : vmem_mark (state h') = mark + 4096).
  { unfold h'. simpl. rewrite u64_small by lia. done. }
  eexists. split; [|split].
  - unfold upd_state, mseq, mmodify. rewrite Hh. fold h'.
    change 0 with (flag false) at 1.
    rewrite SET_run; rewrite ?get_mem_set_heap; [done|lia|dlia|done|lia|lia].
  - rewrite ?get_mem_set_heap. constructor; rewrite ?get_heap_set_mem, ?get_set_heap, ?Hmk;
      rewrite ?get_set_mem, ?spc_current_set_mem, ?spc_current_set_heap.
    + done.
    + split; [|lia]. unfold PAGE_SIZE_4K. dlia.
    + change (start h') with (start (get_heap heap s)). apply blocks_app. fold a. split.
      * eapply blocks_agree; [exact (blocks_mono _ _ _ _ _ W3a Hmono)|]. apply set_block_agree; lia.
      * replace (mark + 4096) with (a + 16 + (z + 4096)) by lia. apply set_block_block; [lia|dlia|done|lia|lia].
    + exists (z + 4096). by rewrite last_snoc.
    + apply coalesced_app in W5. apply coalesced_app. done.
    + simpl. rewrite W6, !used_app. done.
    + simpl. rewrite W7, !nused_app. done.
    + simpl. rewrite W8. done.
    + done.
  - rewrite ?get_mem_set_heap. constructor; rewrite ?get_heap_set_mem, ?get_set_heap, ?Hmk;
      rewrite ?get_set_mem, ?spc_current_set_mem, ?spc_current_set_heap; try done.
    + intros q Hq. by rewrite get_heap_set_mem, get_set_heap_ne, Hh.
    + lia.
    + by right.
    + intros q k Hq. destruct (live_of_low _ _ _ _ _ _ W3a Hq).
      eapply agree_trans; [|apply set_block_agree; lia].
      intros i Hi. destruct (blocks_mapped _ _ _ _ W3a i) as [b Hb]; [lia|]. rewrite Hb. by apply Hmono.
    + intros i b Hi. fold mark. destruct (decide (mark <= i < mark + 4096)).
      { rewrite Hnew in Hi; [done|lia]. }
      destruct (decide (start (get_heap heap s) <= i < mark)); [by right|left].
      rewrite (set_block_agree _ _ _ _ i 1) by lia. by apply Hmono.
Qed.

Lemma last_size s heap bs z p :
  heap_wf s heap (bs ++ [(z, p)]) -> 0 <= z < 2 ^ 64.
Proof.
  intros [[? _] [_ Hlt] [Hb (? & _ & _ & _ & _ & Hend)]%blocks_app _ _ _ _ _ _].
  simpl in Hend. destruct (span_nonneg _ _ _ _ Hb). lia.
Qed.

(** The last thing done before [s] was to ask the pager for a page at the end
    of the heap, and it refused. *)
Definition refused heap s : Prop := exists s0 s1 phys,
  get_heap heap s0 = get_heap heap s /\ get_heap heap s1 = get_heap heap s /\
  pmem_alloc PAGE_SIZE_4K PAGE_SIZE_4K s0 = Ret (phys, s1) /\
  vmem_map (space (get_heap heap s)) phys (vmem_mark (state (get_heap heap s))) (pg_fl (get_heap heap s)) s1 = Ret (false, s).

Lemma heap_grow_ok addg n heap bs sz i s :
  heap_wf s heap (bs ++ [(sz + PAGE_SIZE_4K * i, false)]) -> 0 <= sz -> 0 <= i ->
  wpf (heap_grow addg n heap (start (get_heap heap s) + span bs) sz i) (fun ok s' =>
    exists j, 0 <= j <= Z.of_nat n /\ (ok = true -> j = Z.of_nat n) /\ (ok = false -> refused heap s') /\
      heap_wf s' heap (bs ++ [(sz + PAGE_SIZE_4K * (i + j), false)]) /\
      heap_frame s s' heap (live_of (start (get_heap heap s)) bs)) s.
Proof.
  revert i s. induction n as [|n IH]; intros i s Hwf Hsz Hi; cbn [heap_grow].
  { apply wpf_ret. exists 0. rewrite Z.add_0_r. split_and!; [lia..|done|done|done|apply heap_frame_refl]. }
  apply wpf_bind. eapply wpf_mono; [apply wpf_run, pmem_alloc_law|].
  intros phys s1 [Hr1 [[Hh1 Hc1] Hm1]]. apply wpf_gets.
  apply wpf_bind. rewrite Hh1. pose proof (wf_start _ _ _ Hwf) as [? ?].
  pose proof (wf_mark _ _ _ Hwf) as [? ?]. pose proof (wf_blocks _ _ _ Hwf) as Hbl.
  destruct (span_nonneg _ _ _ _ Hbl). rewrite (wf_space _ _ _ Hwf), <-Hc1.
  eapply wpf_mono; [apply wpf_run, vmem_map_law; [lia|done]|].
  intros ok s2 [Hr2 ([Hh2 Hc2] & Hmono & Hok)]. rewrite Hm1 in *. destruct ok; simpl.
  2:{ apply wpf_ret. exists 0. rewrite Z.add_0_r. split_and!; [lia..|done| | |].
      - intros _. exists s, s1, phys. rewrite Hh2, Hh1. split_and!; [done|done|done|].
        by rewrite (wf_space _ _ _ Hwf), <-Hc1.
      - destruct Hwf as [W1 W2 W3 W4 W5 W6 W7 W8 W9].
        constructor; rewrite ?Hh2, ?Hh1, ?Hc2, ?Hc1; try done. by eapply blocks_mono.
      - constructor; rewrite ?Hh2, ?Hh1, ?Hc2, ?Hc1; try done; try lia; try (by left).
        + intros q Hq. by rewrite Hh2, Hh1.
        + intros q k Hq j Hj. rewrite live_of_snoc in * || idtac.
          apply blocks_app in Hbl as [Hbl _]. destruct (live_of_low _ _ _ _ _ _ Hbl Hq).
          destruct (blocks_mapped _ _ _ _ Hbl j) as [b Hb]; [lia|]. rewrite Hb. by apply Hmono.
        + intros j b Hj. left. by apply Hmono. }
  destruct (Hok eq_refl) as (Htop & Hmap & Hnew).
  destruct (grow_step s s2 heap bs _ Hwf) as (s' & Hrun & Hwf' & Hfr); [|done..|].
  { split; [|congruence]. intros p. by rewrite Hh2, Hh1. }
  rewrite (wf_local _ _ _ Hwf). simpl. apply wpf_assoc. unfold PAGE_SIZE_4K in *.
  assert (u64 (sz + 4096 * (i + 1)) = sz + 4096 * i + 4096) as ->.
  { destruct (last_size _ _ _ _ _ Hwf'). rewrite u64_small by lia. lia. }
  eapply wpf_seq; [exact Hrun|].
  apply wpf_bind, wpf_ret. rewrite <-(fr_start _ _ _ _ Hfr).
  replace (sz + 4096 * i + 4096) with (sz + 4096 * (i + 1)) in Hwf' by lia.
  eapply wpf_mono; [apply IH; try done; lia|]. intros ok s3 (j & Hj & Hjn & Href & Hwf3 & Hfr3).
  exists (j + 1). split_and!; [lia|lia|intros Ho; specialize (Hjn Ho); lia|done| |].
  - by replace (i + (j + 1)) with (i + 1 + j) by lia.
  - rewrite (fr_start _ _ _ _ Hfr) in *. by eapply heap_frame_trans.
Qed.

(** *** Allocation *)

(** A write of header and footer words keeps the data of the live blocks
    apart from it. *)
Lemma live_kept_apart m0 m m' a pre sz post e (L : gmap Z Z) :
  blocks m0 a (pre ++ (sz, false) :: post) e -> L = live_of a (pre ++ (sz, false) :: post) ->
  (forall b k, b + k <= a + span pre \/ a + span pre + 16 + sz <= b -> agree m m' b k) ->
  forall q k, L !! q = Some k -> agree m m' q k.
Proof.
  intros Hb -> Hag q k Hq. destruct (live_of_apart _ _ _ _ _ _ _ _ _ Hb Hq) as [[? _]|[?|?]];
    [done|apply Hag; lia..].
Qed.

Lemma split_ok s heap pre fsz post bytes :
  heap_wf s heap (pre ++ (fsz, false) :: post) ->
  0 <= bytes -> bytes mod 8 = 0 -> bytes + 16 <= fsz ->
  let a := start (get_heap heap s) + span pre in
  exists s', heap_split heap a bytes fsz s = Ret (a + 8, s') /\
    heap_wf s' heap (pre ++ (bytes, true) :: (fsz - bytes - 16, false) :: post) /\
    heap_frame s s' heap (live_of (start (get_heap heap s)) (pre ++ (fsz, false) :: post)).
Proof.
  intros [[W1 W1'] [W2 W2'] W3 W4 W5 W6 W7 W8 W9] Hb0 Hb8 Hfit a.
  pose proof W3 as [W3a (Hz & Hz8 & _ & _ & Hzm & Hpost)]%blocks_app.
  destruct (span_nonneg _ _ _ _ W3a) as [Hsp _]. destruct (span_nonneg _ _ _ _ Hpost) as [Hsq Hend].
  destruct (used_bound _ _ _ _ W3a) as [Hu1 Hu2]. destruct (used_bound _ _ _ _ Hpost) as [Hu3 Hu4].
  fold a in Hpost, Hzm, W3a, Hend. set (m := get_mem s) in *.
  set (m1 := set_block m a bytes true).
  set (m2 := set_block m1 (a + 16 + bytes) (fsz - bytes - 16) false).
  assert (Hm1 : blocks m1 a [(bytes, true)] (a + 16 + bytes)).
  { apply set_block_block; [done|done| |lia|lia]. eapply mapped_weaken; [done|lia|lia]. }
  assert (Hm2 : blocks m2 (a + 16 + bytes) [(fsz - bytes - 16, false)] (a + 16 + fsz)).
  { replace (a + 16 + fsz) with (a + 16 + bytes + 16 + (fsz - bytes - 16)) by lia.
    apply set_block_block; [lia|dlia| |lia|lia].
    apply set_block_mapped. eapply mapped_weaken; [done|lia|lia]. }
  assert (Hag : forall b k, b + k <= a \/ a + 16 + fsz <= b -> agree m m2 b k).
  { intros b k Hd. eapply agree_trans; apply set_block_agree; lia. }
  assert (Hbl : blocks m2 (start (get_heap heap s))
    (pre ++ (bytes, true) :: (fsz - bytes - 16, false) :: post) (vmem_mark (state (get_heap heap s)))).
  { apply blocks_app. fold a. split; [eapply blocks_agree; [done|]; apply Hag; lia|].
    apply (blocks_app _ _ [(bytes, true)]). unfold span at 1 2. simpl fold_right.
    replace (a + (bytes + 16 + 0)) with (a + 16 + bytes) by lia. split.
    { eapply blocks_agree; [done|]. apply set_block_agree; lia. }
    apply (blocks_app _ _ [(fsz - bytes - 16, false)]). unfold span at 1 2. simpl fold_right.
    replace (a + 16 + bytes + (fsz - bytes - 16 + 16 + 0)) with (a + 16 + fsz) by lia.
    split; [done|]. eapply blocks_agree; [done|]. apply Hag. lia. }
  eexists. split.
  { unfold heap_split, HEAP_BL_DATASZ2SZ, HEAP_PRESENT. change 1 with (flag true) at 1.
    rewrite (mseq_run _ _ _ _ _ (SET_run s a bytes true ltac:(lia) ltac:(done)
      ltac:(eapply mapped_weaken; [done|lia|lia]) ltac:(lia) ltac:(lia))).
    fold m m1. erewrite mseq_run; [|eapply (NEXT_run _ _ bytes true []); [rewrite get_set_mem; exact Hm1|lia|lia]].
    rewrite <-(Z.add_0_r fsz) at 1. rewrite datasz_word by (done || lia).
    unfold sizeof_heap_block_t. rewrite (u64_small (bytes + 8 * 2)) by lia. rewrite u64_small by lia.
    replace (fsz - (bytes + 8 * 2)) with (fsz - bytes - 16) by lia. change 0 with (flag false) at 1.
    erewrite mseq_run; [|apply SET_run; [lia|dlia| |lia|lia]].
    - rewrite get_set_mem, set_set_mem. fold m2. unfold upd_state, mmodify, mseq, mreturn.
      unfold HEAP_BL_H2M, sizeof_heap_block_t. rewrite u64_small by lia. done.
    - rewrite get_set_mem. apply set_block_mapped. eapply mapped_weaken; [done|lia|lia]. }
  rewrite !get_set_heap, !get_heap_set_mem. split.
  - constructor; rewrite ?get_set_heap, ?get_mem_set_heap, ?get_set_mem, ?spc_current_set_heap,
      ?spc_current_set_mem; simpl; try done.
    + destruct W4 as [z Hz4]. rewrite last_app_cons in Hz4.
      destruct post as [|b post]; [exists (fsz - bytes - 16)|exists z]; by rewrite last_app_cons.
    + apply coalesced_app in W5 as [? [? Hc]]. apply coalesced_app. simpl. naive_solver.
    + rewrite W6, !used_app, !used_cons. rewrite u64_small; lia.
    + rewrite W7, !nused_app, !nused_cons. simpl. rewrite u64_small; lia.
  - constructor; rewrite ?get_set_heap, ?get_mem_set_heap, ?get_set_mem, ?spc_current_set_heap,
      ?spc_current_set_mem; simpl; try done; try lia; try (by left).
    + intros q Hq. by rewrite !get_set_heap_ne, get_heap_set_mem.
    + by eapply live_kept_apart.
    + intros i b Hi. destruct (decide (a <= i < a + 16 + fsz)); [right; lia|left].
      rewrite (Hag i 1) by lia. done.
Qed.

(** What [heap_alloc] may do to the list [bs]: at most [K] pages are added,
    none when a block fits at once; then the first block that fits is
    cut, or NULL is returned because the pager refused a page at the end of
    the heap. *)
Definition alloc_post (K : Z) s heap bytes bs (p : Z) s' : Prop :=
  exists k, 0 <= k <= K /\ (is_Some (alloc_fit bytes bs) -> k = 0) /\
    heap_frame s s' heap (live_of (start (get_heap heap s)) bs) /\
    ((p = 0 /\ heap_wf s' heap (grow_last k bs) /\ alloc_fit bytes bs = None /\ refused heap s') \/
     exists o bs', alloc_fit bytes (grow_last k bs) = Some (o, bs') /\
       p = start (get_heap heap s) + o /\ heap_wf s' heap bs').

(** One round of the loop on the block between [pre] and [post]. *)
Lemma loop_fit fuel s heap pre z post bytes K :
  heap_wf s heap (pre ++ (z, false) :: post) -> Forall (fun b => fits bytes b = false) pre ->
  0 < bytes < 2 ^ 62 -> bytes mod 8 = 0 -> 0 <= K -> bytes + 16 <= z ->
  wpf (heap_alloc_loop (S fuel) heap bytes (start (get_heap heap s) + span pre))
      (alloc_post K s heap bytes (pre ++ (z, false) :: post)) s.
Proof.
  intros Hwf Hpre Hb Hb8 HK Hfit. destruct (wf_start _ _ _ Hwf) as [Hst _].
  destruct (wf_mark _ _ _ Hwf) as [_ Hmk].
  pose proof (wf_blocks _ _ _ Hwf) as [H1' H2']%blocks_app. destruct (span_nonneg _ _ _ _ H1').
  pose proof H2' as (? & ? & _ & _ & _ & H3'). destruct (span_nonneg _ _ _ _ H3').
  destruct (split_ok s heap pre z post bytes) as (s' & Hrun & Hwf' & Hfr); [done|lia|done|done|].
  cbn [heap_alloc_loop]. apply wpf_gets.
  assert ((start (get_heap heap s) <=? start (get_heap heap s) + span pre) &&
    (start (get_heap heap s) + span pre <? vmem_mark (state (get_heap heap s))) = true) as ->.
  { apply andb_true_iff. split; [apply Z.leb_le|apply Z.ltb_lt]; lia. }
  eapply wpf_seq; [by eapply load_hdr|]. rewrite present_hdr by done.
  rewrite datasz_word by (done || (simpl; lia)). unfold HEAP_BL_DATASZ2SZ, sizeof_heap_block_t.
  rewrite u64_small by lia. destruct (Z.leb_spec (bytes + 8 * 2) z); [|lia]. simpl negb. cbn [andb].
  simpl flag. rewrite Z.add_0_r. eapply run_wpf; [exact Hrun|].
  assert (Ha : alloc_fit bytes (pre ++ (z, false) :: post) =
    Some (span pre + 8, pre ++ (bytes, true) :: (z - bytes - 16, false) :: post)).
  { rewrite alloc_fit_skip by done. cbn [alloc_fit]. unfold fits. cbn [fst snd].
    destruct (Z.leb_spec (bytes + 16) z); [done|lia]. }
  exists 0. rewrite grow_last_0. split_and!; [lia..|done|done|]. right.
  eexists _, _. split; [exact Ha|]. split; [lia|done].
Qed.

Lemma loop_skip fuel s heap pre z p post bytes :
  heap_wf s heap (pre ++ (z, p) :: post) -> fits bytes (z, p) = false -> 0 < bytes < 2 ^ 62 ->
  exists f', heap_alloc_loop (S fuel) heap bytes (start (get_heap heap s) + span pre) s =
    (match post with
     | [] => (ok <- heap_grow f' (Z.to_nat (pages bytes)) heap (start (get_heap heap s) + span pre) z 0 ;;
              if negb ok then mreturn 0
              else heap_alloc_loop fuel heap bytes (start (get_heap heap s) + span pre)) s
     | _ => heap_alloc_loop fuel heap bytes (start (get_heap heap s) + span (pre ++ [(z, p)])) s
     end).
Proof.
  intros Hwf Hfit Hb. destruct (wf_start _ _ _ Hwf) as [Hst _].
  destruct (wf_mark _ _ _ Hwf) as [_ Hmk].
  pose proof (wf_blocks _ _ _ Hwf) as [H1' H2']%blocks_app. destruct (span_nonneg _ _ _ _ H1').
  pose proof H2' as (? & ? & _ & _ & _ & H3'). destruct (span_nonneg _ _ _ _ H3').
  exists (vmem_mgmt_add_global_mapping {|
    kheap_alloc := fun n => HEAP_CHECK kheap ;;; k <- mgets (get_heap kheap) ;;
      heap_alloc_loop fuel kheap (ALIGN_UP n sizeof_heap_block_t) (start k);
    kheap_free := heap_free kheap |}).
  cbn [heap_alloc_loop]. unfold mgets at 1. unfold mseq at 1.
  assert ((start (get_heap heap s) <=? start (get_heap heap s) + span pre) &&
    (start (get_heap heap s) + span pre <? vmem_mark (state (get_heap heap s))) = true) as ->.
  { apply andb_true_iff. split; [apply Z.leb_le|apply Z.ltb_lt]; lia. }
  cbn [negb]. rewrite (mseq_run _ _ _ _ _ (load_hdr _ _ _ _ _ _ H2')). rewrite present_hdr by done.
  rewrite datasz_word by (done || (destruct p; simpl; lia)).
  unfold HEAP_BL_DATASZ2SZ, sizeof_heap_block_t. rewrite u64_small by lia.
  replace (bytes + 8 * 2) with (bytes + 16) by lia. unfold fits in Hfit. cbn [fst snd] in Hfit.
  rewrite Hfit. rewrite (mseq_run _ _ _ _ _ (HAS_NEXT_cons _ heap _ _ _ _ _ H2' ltac:(lia) ltac:(lia) eq_refl)).
  destruct post as [|b post]; cbn [negb].
  - rewrite ALIGN_UP_4096 by lia. unfold PAGE_SIZE_4K, pages. rewrite Z.div_mul by lia. reflexivity.
  - rewrite (mseq_run _ _ _ _ _ (NEXT_run _ _ _ _ _ _ H2' ltac:(lia) ltac:(lia))).
    rewrite span_app, span_cons. change (span []) with 0.
    by replace (start (get_heap heap s) + (span pre + (z + 16 + 0)))
      with (start (get_heap heap s) + span pre + 16 + z) by lia.
Qed.

Lemma fit_last_none bytes pre z :
  Forall (fun b => fits bytes b = false) pre -> fits bytes (z, false) = false ->
  alloc_fit bytes (pre ++ [(z, false)]) = None.
Proof. intros Hp Hf. rewrite alloc_fit_skip by done. cbn [alloc_fit]. by rewrite Hf. Qed.

(** The last block: after at most [d] rounds of growth it fits. *)
Lemma loop_last d fuel s heap pre z bytes :
  heap_wf s heap (pre ++ [(z, false)]) -> Forall (fun b => fits bytes b = false) pre ->
  0 < bytes < 2 ^ 62 -> bytes mod 8 = 0 ->
  bytes + 16 <= z + PAGE_SIZE_4K * (pages bytes * Z.of_nat d) -> (d < fuel)%nat ->
  wpf (heap_alloc_loop fuel heap bytes (start (get_heap heap s) + span pre))
      (alloc_post (pages bytes * Z.of_nat d) s heap bytes (pre ++ [(z, false)])) s.
Proof.
  assert (Hpg : forall x, 0 < x -> 0 < pages x) by (intros; unfold pages; dlia).
  revert fuel s z. induction d as [|d IH]; intros fuel s z Hwf Hpre Hb Hb8 Hd Hf;
    specialize (Hpg bytes ltac:(lia)); (destruct fuel as [|fuel]; [lia|]).
  { apply loop_fit; try done; lia. }
  destruct (fits bytes (z, false)) eqn:Hfit.
  { apply loop_fit; try done; [nia|]. unfold fits in Hfit. simpl in Hfit. lia. }
  destruct (loop_skip fuel s heap pre z false [] bytes Hwf Hfit Hb) as (f' & Hstep).
  unfold wpf at 1. rewrite Hstep. apply wpf_bind.
  destruct (last_size _ _ _ _ _ Hwf) as [Hz _]. unfold PAGE_SIZE_4K in *.
  eapply wpf_mono; [apply (heap_grow_ok f' _ heap pre z 0 s); unfold PAGE_SIZE_4K; [|lia|lia]|].
  { by rewrite Z.mul_0_r, Z.add_0_r. }
  unfold PAGE_SIZE_4K. rewrite Z2Nat.id by lia.
  intros ok s1 (j & Hj & Hjn & Href & Hwf1 & Hfr1). rewrite Z.add_0_l in Hwf1.
  pose proof (fit_last_none _ _ _ Hpre Hfit) as Hnone. destruct ok; cbn [negb].
  2:{ apply wpf_ret. exists j. split; [nia|]. split; [rewrite Hnone; by intros [? ?]|].
      split; [by rewrite live_of_snoc|]. left. rewrite grow_last_snoc. by split_and!; [..|apply Href]. }
  rewrite (Hjn eq_refl) in Hwf1. rewrite <-(fr_start _ _ _ _ Hfr1).
  eapply wpf_mono; [apply IH; try done; [nia|lia]|].
  intros p s2 (k & Hk & _ & Hfr2 & Hres). exists (pages bytes + k). split; [nia|].
  split; [rewrite Hnone; by intros [? ?]|]. split.
  { rewrite live_of_snoc in *. rewrite (fr_start _ _ _ _ Hfr1) in Hfr2. by eapply heap_frame_trans. }
  rewrite !grow_last_snoc in Hres. rewrite grow_last_snoc. unfold PAGE_SIZE_4K in *.
  replace (z + 4096 * (pages bytes + k)) with (z + 4096 * pages bytes + 4096 * k) by lia.
  rewrite (fr_start _ _ _ _ Hfr1) in Hres. destruct Hres as [(? & ? & _ & ?)|Hres]; [by left|by right].
Qed.

Lemma loop_ok fuel s heap pre rest bytes :
  heap_wf s heap (pre ++ rest) -> rest <> [] -> Forall (fun b => fits bytes b = false) pre ->
  0 < bytes < 2 ^ 62 -> bytes mod 8 = 0 -> (length rest + 2 <= fuel)%nat ->
  wpf (heap_alloc_loop fuel heap bytes (start (get_heap heap s) + span pre))
      (alloc_post (pages bytes * 2) s heap bytes (pre ++ rest)) s.
Proof.
  assert (Hpg : forall x, 0 < x -> 0 < pages x /\ x <= 4096 * pages x)
    by (intros; unfold pages; dlia).
  revert fuel pre. induction rest as [|[z p] rest IH]; intros fuel pre Hwf Hne Hpre Hb Hb8 Hf; [done|].
  specialize (Hpg bytes ltac:(lia)). simpl in Hf. destruct fuel as [|fuel]; [lia|].
  destruct (fits bytes (z, p)) eqn:Hfit.
  { unfold fits in Hfit. simpl in Hfit. destruct p; [done|]. apply loop_fit; try done; lia. }
  destruct rest as [|b rest].
  - destruct (wf_last _ _ _ Hwf) as [z' Hl]. rewrite last_snoc in Hl. simplify_eq.
    destruct (last_size _ _ _ _ _ Hwf) as [Hz _].
    simpl in Hf. apply (loop_last 2); try done; unfold PAGE_SIZE_4K; lia.
  - destruct (loop_skip fuel s heap pre z p (b :: rest) bytes Hwf Hfit Hb) as (f' & Hstep).
    unfold wpf at 1. rewrite Hstep. replace (pre ++ (z, p) :: b :: rest) with ((pre ++ [(z, p)]) ++ b :: rest)
      in * by (by rewrite <-app_assoc).
    apply IH; try done; [|lia]. apply Forall_app. split; [done|]. by constructor.
Qed.

Definition heap_fuel (bs : list blk) : nat := length bs + 2.

Lemma heap_alloc_ok fuel s heap n bs :
  heap_wf s heap bs -> 0 < n -> n + 7 < 2 ^ 62 -> (heap_fuel bs <= fuel)%nat ->
  wpf (heap_alloc fuel heap n) (alloc_post (pages (round8 n) * 2) s heap (round8 n) bs) s.
Proof.
  intros Hwf Hn Hmax Hf. unfold heap_alloc.
  eapply wpf_seq; [apply CHECK_run, (wf_space _ _ _ Hwf)|]. apply wpf_gets.
  unfold sizeof_heap_block_t. rewrite ALIGN_UP_8 by lia. fold (round8 n).
  rewrite <-(Z.add_0_r (start (get_heap heap s))).
  apply (loop_ok fuel s heap [] bs); [done| |by constructor|unfold round8; dlia|unfold round8; dlia|done].
  destruct (wf_last _ _ _ Hwf) as [z Hl]. by intros ->.
Qed.

(** *** Freeing *)

Lemma heap_validate_ok s heap pre k p post :
  heap_wf s heap (pre ++ (k, p) :: post) ->
  vmem_mark (state (get_heap heap s)) <= end_ (get_heap heap s) ->
  heap_validate heap (start (get_heap heap s) + span pre + 8) s = Ret (true, s).
Proof.
  intros Hwf Hend. destruct (wf_start _ _ _ Hwf) as [Hst Hst'].
  destruct (wf_mark _ _ _ Hwf) as [_ Hmk].
  pose proof (wf_blocks _ _ _ Hwf) as [H1' H2']%blocks_app. destruct (span_nonneg _ _ _ _ H1').
  pose proof H2' as (? & Hk8 & _ & Hft & _ & H3'). destruct (span_nonneg _ _ _ _ H3').
  assert (H8 : span pre mod 8 = 0) by (by eapply span_mod8). unfold PAGE_SIZE_4K in Hst'.
  unfold heap_validate, mgets. unfold mseq at 1. unfold sizeof_heap_block_t, HEAP_BL_M2H.
  destruct (Z.eqb_spec ((start (get_heap heap s) + span pre + 8) mod 8) 0); [|dlia]. cbn [negb].
  rewrite u64_small by (unfold sizeof_heap_block_t; lia). unfold sizeof_heap_block_t.
  replace (start (get_heap heap s) + span pre + 8 - 8) with (start (get_heap heap s) + span pre) by lia.
  destruct (Z.leb_spec (start (get_heap heap s)) (start (get_heap heap s) + span pre)); [|lia].
  destruct (Z.ltb_spec (start (get_heap heap s) + span pre) (end_ (get_heap heap s))); [|lia]. cbn [andb negb].
  rewrite (mseq_run _ _ _ _ _ (load_hdr _ _ _ _ _ _ H2')). rewrite footer_hdr by done.
  rewrite (mseq_run _ _ _ _ _ (H2F_run _ _ _ _ _ _ H2' ltac:(lia) ltac:(lia))).
  destruct (Z.ltb_spec (start (get_heap heap s)) (start (get_heap heap s) + span pre + 8 + k)); [|lia].
  destruct (Z.leb_spec (start (get_heap heap s) + span pre + 8 + k) (end_ (get_heap heap s))); [|lia].
  cbn [andb negb]. rewrite (mseq_run _ _ _ _ _ (load_run _ _ _ _ Hft)). rewrite footer_ftr by done. cbn [negb].
  rewrite <-(Z.add_assoc k), !datasz_word by (done || (destruct p; simpl; lia)). by rewrite Z.eqb_refl.
Qed.

(** The neighbour to the left is found through its footer. *)
Lemma PREV_run s a bs z p e :
  blocks (get_mem s) a (bs ++ [(z, p)]) e -> 0 <= a -> e < 2 ^ 64 ->
  HEAP_BL_PREV e s = Ret (a + span bs, s).
Proof.
  intros [Hb (? & ? & _ & Hf & _ & <-)]%blocks_app ? ?. destruct (span_nonneg _ _ _ _ Hb).
  unfold HEAP_BL_PREV, HEAP_BL_F2H, sizeof_heap_block_t. rewrite (u64_small (_ - 8)) by lia.
  replace (a + span bs + 16 + z - 8) with (a + span bs + 8 + z) by lia.
  rewrite (mseq_run _ _ _ _ _ (load_run _ _ _ _ Hf)).
  rewrite <-(Z.add_assoc z), datasz_word by (done || (destruct p; simpl; lia)).
  unfold mreturn. rewrite u64_small by lia. ret_eq.
Qed.

Lemma free_shape pre k post :
  coalesced true (pre ++ (k, true) :: post) ->
  let r := free_right k post in
  let l := free_left pre (fst r) in
  exists mid, pre ++ (k, true) :: post = fst l ++ mid ++ snd r /\
    span mid = snd l + 16 /\ used mid = k /\ nused mid = 1 /\
    lastflag true (fst l) = true /\ coalesced true (fst l) /\ coalesced false (snd r) /\
    forall a, live_of a (pre ++ (k, false) :: post) = live_of a (free_merge pre k post).
Proof.
  intros [Hc1 [_ Hc2]]%coalesced_app r l. unfold free_merge. fold r l.
  assert (exists rr, post = rr ++ snd r /\ k + span rr = fst r /\ used rr = 0 /\ nused rr = 0 /\
    coalesced false (snd r) /\ forall a, live_of (a + 16 + k) post = live_of (a + 16 + fst r) (snd r))
    as (rr & Hrr & Hr1 & Hr2 & Hr3 & Hr4 & Hr5).
  { subst r. destruct post as [|[z []] post]; simpl in *; unfold span, used, nused; simpl.
    - exists []. simpl. split_and!; try done; lia.
    - exists []. simpl. split_and!; try done; [lia|naive_solver].
    - exists [(z, false)]. simpl. split_and!; try done; [lia|naive_solver|].
      intros a. f_equal. lia. }
  clearbody r. subst l. unfold free_left. destruct (last pre) as [[z []]|] eqn:Hl; cbn [fst snd].
  - exists ((k, true) :: rr). rewrite span_cons, used_cons, nused_cons, Hr2, Hr3. simpl.
    split_and!; try done; [by rewrite Hrr at 1|lia|lia|unfold lastflag; by rewrite Hl|].
    intros a. rewrite !live_of_app. simpl. by rewrite Hr5.
  - apply last_Some in Hl as [pre' ->]. rewrite removelast_last.
    apply coalesced_app in Hc1 as [Hc1 [Hlf _]].
    exists ((z, false) :: (k, true) :: rr).
    rewrite !span_cons, !used_cons, !nused_cons, Hr2, Hr3. simpl.
    split_and!; try done; [rewrite <-app_assoc; simpl; by rewrite Hrr at 1|lia|lia| |].
    + destruct (lastflag true pre'); [done|naive_solver].
    + intros a. rewrite <-app_assoc, !live_of_app. simpl. rewrite Hr5, (left_id_L ∅ (∪)).
      f_equal. apply (f_equal (fun x => live_of x (snd r))). lia.
  - apply last_None in Hl as ->. exists ((k, true) :: rr).
    rewrite span_cons, used_cons, nused_cons, Hr2, Hr3. simpl.
    split_and!; try done; try lia; by rewrite Hrr at 1.
Qed.

Lemma live_of_delete m a pre k post e :
  blocks m a (pre ++ (k, true) :: post) e ->
  live_of a (pre ++ (k, false) :: post) =
    delete (a + span pre + 8) (live_of a (pre ++ (k, true) :: post)).
Proof.
  intros Hb. destruct (live_of_mid _ _ _ _ _ _ _ Hb) as [H1' H2'].
  rewrite !live_of_app, delete_union. simpl. rewrite delete_insert_eq.
  by rewrite !delete_id.
Qed.

Lemma free_right_bound m a k p post e :
  blocks m a ((k, p) :: post) e ->
  0 <= fst (free_right k post) /\ a + 16 + fst (free_right k post) <= e.
Proof.
  intros (? & _ & _ & _ & _ & Hb). destruct (span_nonneg _ _ _ _ Hb).
  destruct post as [|[z []] post]; simpl; [lia|lia|].
  destruct Hb as (? & _ & _ & _ & _ & Hb). destruct (span_nonneg _ _ _ _ Hb).
  rewrite span_cons in *. lia.
Qed.

(** The words [heap_free] reads decide where the merged block starts and
    how large it is. *)
Lemma heap_free_run s heap pre k post :
  heap_wf s heap (pre ++ (k, true) :: post) ->
  vmem_mark (state (get_heap heap s)) <= end_ (get_heap heap s) ->
  let r := free_right k post in
  let l := free_left pre (fst r) in
  let h := with_state (fun st => set_count (u64 (block_count st - 1))
             (set_used (u64 (used_bytes st - k)) st)) (get_heap heap s) in
  exists s1, get_heap heap s1 = h /\ (forall q, q <> heap -> get_heap q s1 = get_heap q s) /\
    get_mem s1 = get_mem s /\ spc_current s1 = spc_current s /\
    heap_free heap (start (get_heap heap s) + span pre + 8) s =
      HEAP_BL_SET (start (get_heap heap s) + span (fst l)) (snd l) 0 s1.
Proof.
  intros Hwf Hend r l h. pose proof (heap_validate_ok _ _ _ _ _ _ Hwf Hend) as Hval.
  destruct (wf_start _ _ _ Hwf) as [Hst _]. destruct (wf_mark _ _ _ Hwf) as [_ Hmk].
  pose proof (wf_blocks _ _ _ Hwf) as [H1' H2']%blocks_app. destruct (span_nonneg _ _ _ _ H1').
  pose proof H2' as (? & Hk8 & _ & Hft & _ & H3'). destruct (span_nonneg _ _ _ _ H3').
  set (a := start (get_heap heap s) + span pre) in *.
  set (s0 := set_heap heap (with_state (fun st => set_used (u64 (used_bytes st - k)) st) (get_heap heap s)) s).
  set (s1 := set_heap heap (with_state (fun st => set_count (u64 (block_count st - 1)) st) (get_heap heap s0)) s0).
  assert (Hg : get_heap heap s1 = h) by (unfold s1, s0; rewrite !get_set_heap; done).
  assert (Hm : get_mem s1 = get_mem s) by (unfold s1, s0; by rewrite !get_mem_set_heap).
  exists s1. split; [done|]. split; [intros q Hq; unfold s1, s0; by rewrite !get_set_heap_ne|].
  split; [done|]. split; [unfold s1, s0; by rewrite !spc_current_set_heap|].
  unfold heap_free. rewrite (mseq_run _ _ _ _ _ (CHECK_run _ _ (wf_space _ _ _ Hwf))).
  rewrite (mseq_run _ _ _ _ _ Hval). cbn [negb]. unfold HEAP_BL_M2H, sizeof_heap_block_t.
  rewrite u64_small by lia. replace (a + 8 - 8) with a by lia.
  rewrite (mseq_run _ _ _ _ _ (load_hdr _ _ _ _ _ _ H2')).
  rewrite datasz_word by (done || (simpl; lia)).
  unfold upd_state at 1. unfold mmodify at 1. unfold mseq at 1. fold s0.
  unfold upd_state at 1. unfold mmodify at 1. unfold mseq at 1. fold s1.
  rewrite <-Hm in H2', H3', H1'.
  erewrite mseq_run; [|eapply HAS_NEXT_cons; [exact H2'|lia|lia|by rewrite Hg]].
  erewrite (mseq_run _ _ s1 (fst r) s1).
  2:{ unfold r. destruct post as [|[z p] post]; [done|].
      rewrite (mseq_run _ _ _ _ _ (NEXT_run _ _ _ _ _ _ H2' ltac:(lia) ltac:(lia))).
      rewrite (mseq_run _ _ _ _ _ (load_hdr _ _ _ _ _ _ H3')).
      destruct H3' as (? & ? & _ & _ & _ & H4'). destruct (span_nonneg _ _ _ _ H4').
      rewrite present_hdr, datasz_word by (done || (destruct p; simpl; lia)).
      unfold HEAP_BL_DATASZ2SZ, sizeof_heap_block_t, mreturn.
      destruct p; [done|]. rewrite (u64_small (z + 8 * 2)), u64_small by lia. ret_eq. simpl. lia. }
  unfold HEAP_BL_HAS_PREV. rewrite mseq_assoc. unfold mgets at 1. unfold mseq at 1.
  rewrite Hg. change (start h) with (start (get_heap heap s)).
  destruct (free_right_bound _ _ _ _ _ _ H2') as [Hr0 Hr1]. fold r in Hr0, Hr1.
  erewrite mseq_run; [|reflexivity].
  erewrite (mseq_run _ _ s1 (start (get_heap heap s) + span (fst l), snd l) s1); [done|].
  unfold l, mreturn. clearbody r. clear H2' H3' Hft Hval l. destruct pre as [|[z p] pre _] using rev_ind.
  { subst a. change (span _) with 0. change (fst (free_left [] _)) with ([] : list blk).
    change (span []) with 0. by rewrite Z.add_0_r, Z.ltb_irrefl. }
  assert (Ha : a = start (get_heap heap s) + span pre + 16 + z).
  { subst a. rewrite span_app, span_cons. change (span []) with 0. lia. }
  pose proof H1' as [H5' H6']%blocks_app. pose proof H6' as (? & ? & _). destruct (span_nonneg _ _ _ _ H5').
  destruct (Z.ltb_spec (start (get_heap heap s)) a); [|lia].
  rewrite (mseq_run _ _ _ _ _ (PREV_run _ _ _ _ _ _ H1' ltac:(lia) ltac:(lia))).
  rewrite (mseq_run _ _ _ _ _ (load_hdr _ _ _ _ _ _ H6')).
  rewrite present_hdr, datasz_word by (done || (destruct p; simpl; lia)).
  unfold free_left. rewrite last_snoc, removelast_last. destruct p; cbn [fst snd]; [done|].
  unfold HEAP_BL_DATASZ2SZ, sizeof_heap_block_t. rewrite (u64_small (z + 8 * 2)), u64_small by lia. do 3 f_equal.
Qed.

Lemma heap_free_ok s heap pre k post :
  heap_wf s heap (pre ++ (k, true) :: post) ->
  vmem_mark (state (get_heap heap s)) <= end_ (get_heap heap s) ->
  exists s', heap_free heap (start (get_heap heap s) + span pre + 8) s = Ret (tt, s') /\
    heap_wf s' heap (free_merge pre k post) /\
    heap_frame s s' heap (live_of (start (get_heap heap s)) (pre ++ (k, false) :: post)).
Proof.
  intros Hwf Hend. destruct (heap_free_run _ _ _ _ _ Hwf Hend) as (s1 & Hg & Ho & Hm & Hc & ->).
  destruct Hwf as [[W1 W1'] [W2 W2'] W3 W4 W5 W6 W7 W8 W9].
  destruct (free_shape _ _ _ W5) as (mid & Hbs & Hsp & Hu & Hn & Hl1 & Hl2 & Hl3 & Hlive).
  destruct (used_bound _ _ _ _ W3) as [Hu1 Hu2]. destruct (span_nonneg _ _ _ _ W3) as [_ Hmark].
  rewrite Hbs in W3, W4, W6, W7, Hu1, Hu2, Hmark. rewrite !span_app in Hu1, Hu2, Hmark.
  rewrite !used_app, Hu in W6, Hu1. rewrite !nused_app, Hn in W7, Hu2.
  unfold free_merge in *. set (r := free_right k post) in *. set (l := free_left pre (fst r)) in *.
  pose proof W3 as [Bl [Bm Br]%blocks_app]%blocks_app. rewrite Hsp in Br.
  destruct (span_nonneg _ _ _ _ Bl), (span_nonneg _ _ _ _ Bm), (span_nonneg _ _ _ _ Br).
  destruct (used_bound _ _ _ _ Bl), (used_bound _ _ _ _ Br).
  pose proof (span_mod8 _ _ _ _ Bm). pose proof (span_ge16 _ _ _ _ Bm ltac:(by intros ->)).
  set (a := start (get_heap heap s) + span (fst l)) in *.
  set (m2 := set_block (get_mem s) a (snd l) false).
  assert (Hm2 : blocks m2 a [(snd l, false)] (a + 16 + snd l)).
  { apply set_block_block; [lia|dlia| |lia|lia].
    eapply mapped_weaken; [exact (blocks_mapped _ _ _ _ Bm)|lia|lia]. }
  assert (Hag : forall b j, b + j <= a \/ a + 16 + snd l <= b -> agree (get_mem s) m2 b j)
    by (intros; apply set_block_agree; lia).
  assert (Hbl : blocks m2 (start (get_heap heap s)) (fst l ++ (snd l, false) :: snd r)
                  (vmem_mark (state (get_heap heap s)))).
  { apply blocks_app. fold a. split; [eapply blocks_agree; [done|]; apply Hag; lia|].
    apply (blocks_app _ _ [(snd l, false)]). rewrite span_cons. change (span []) with 0.
    replace (a + (snd l + 16 + 0)) with (a + 16 + snd l) by lia. split; [done|].
    replace (a + (snd l + 16)) with (a + 16 + snd l) in Br by lia.
    eapply blocks_agree; [done|]. apply Hag. lia. }
  eexists. split.
  { change 0 with (flag false). rewrite SET_run, Hm; [done|lia|dlia| |lia|lia].
    rewrite Hm. eapply mapped_weaken; [exact (blocks_mapped _ _ _ _ Bm)|lia|lia]. }
  fold m2. split.
  - constructor; rewrite ?get_heap_set_mem, ?Hg, ?get_set_mem, ?spc_current_set_mem, ?Hc; simpl; try done.
    + destruct W4 as [z Hz]. rewrite last_app_cons. destruct (snd r) as [|b r'] eqn:Hr; [eauto|].
      exists z. rewrite last_cons_cons. rewrite app_assoc, last_app_cons in Hz. done.
    + apply coalesced_app. simpl. by rewrite Hl1.
    + rewrite W6, !used_app, used_cons. rewrite u64_small; lia.
    + rewrite W7, !nused_app, nused_cons. simpl. rewrite u64_small; lia.
  - constructor; rewrite ?get_heap_set_mem, ?Hg, ?get_set_mem, ?spc_current_set_mem, ?Hc; simpl; try done; try lia; try (by left).
    + intros q Hq. rewrite get_heap_set_mem. by apply Ho.
    + rewrite Hlive. by eapply live_kept_apart.
    + intros i b Hi. destruct (decide (a <= i < a + 16 + snd l)); [right; lia|left].
      by rewrite (Hag i 1) by lia.
Qed.

(** *** Initialisation *)

Lemma heap_init_ok fuel s heap :
  let h := get_heap heap s in
  heap <> 0 -> 0 < start h -> start h mod PAGE_SIZE_4K = 0 -> end_ h <> 0 ->
  space h <> 0 -> space h = spc_current s -> is_global (pg_fl h) = false ->
  wpf (heap_init fuel heap) (fun ok s' =>
    ok = true -> heap_wf s' heap [(4080, false)] /\ valid (state (get_heap heap s')) = true) s.
Proof.
  intros h H0' Hst Ha He Hsp Hcur Hloc. unfold heap_init. apply wpf_gets. fold h.
  destruct (Z.eqb_spec heap 0); [lia|]. destruct (Z.eqb_spec (start h) 0); [lia|].
  destruct (Z.eqb_spec (end_ h) 0); [lia|]. destruct (Z.eqb_spec (space h) 0); [lia|]. cbn [orb].
  eapply wpf_seq; [by apply CHECK_run|]. do 3 (eapply wpf_seq; [reflexivity|]).
  rewrite !get_set_heap. fold h.
  set (h1 := with_state (set_count 0) (with_state (set_used 0)
               (with_state (set_mark (u64 (start h + PAGE_SIZE_4K))) h))).
  match goal with |- wpf _ _ ?x => set (s1 := x) end.
  assert (Hg1 : get_heap heap s1 = h1) by (unfold s1; by rewrite get_set_heap).
  assert (Hc1 : spc_current s1 = spc_current s) by (unfold s1; by rewrite !spc_current_set_heap).
  clearbody s1. apply wpf_bind. eapply wpf_mono; [apply pmem_alloc_law|].
  intros phys s2 [[Hh2 Hc2] _]. destruct (Z.eqb_spec phys 0); [by apply wpf_ret|].
  apply wpf_bind. rewrite Hcur, <-Hc1, <-Hc2.
  eapply wpf_mono; [apply vmem_map_law; done|]. intros ok s3 ([Hh3 Hc3] & _ & Hok).
  destruct ok; cbn [negb]; [|by apply wpf_ret]. destruct (Hok eq_refl) as (Htop & Hmap & _).
  pose proof env_top_bound. unfold PAGE_SIZE_4K in *.
  change (HEAP_BL_SZ2DATASZ 4096) with 4080. change 0 with (flag false) at 1.
  eapply wpf_seq; [apply SET_run; [lia|done|done|lia|lia]|].
  eapply wpf_seq; [reflexivity|]. rewrite Hloc. eapply wpf_seq; [reflexivity|]. apply wpf_ret. intros _.
  rewrite get_heap_set_mem, Hh3, Hh2, Hg1. rewrite get_set_heap. split; [|done].
  assert (u64 (start h + 4096) = start h + 4096) as Hmk by (apply u64_small; lia).
  constructor; rewrite ?get_set_heap, ?get_mem_set_heap, ?get_set_mem, ?spc_current_set_heap,
    ?spc_current_set_mem, ?Hmk; cbn [start state with_state set_valid set_mark set_used set_count vmem_mark
    used_bytes block_count space pg_fl h1]; rewrite ?Hmk; try done.
  - unfold PAGE_SIZE_4K. split; [dlia|lia].
  - replace (start h + 4096) with (start h + 16 + 4080) by lia.
    apply set_block_block; [lia|done|done|lia|lia].
  - by exists 4080.
  - congruence.
Qed.

(** *** A request of no bytes

    [heap_alloc(heap, 0)] rounds to a request of zero pages: when no block
    fits, the last block is grown by nothing and searched again, forever. *)
Lemma loop_zero fuel s heap pre rest :
  heap_wf s heap (pre ++ rest) -> rest <> [] -> Forall (fun b => fits 0 b = false) rest ->
  heap_alloc_loop fuel heap 0 (start (get_heap heap s) + span pre) s = NoFuel.
Proof.
  revert pre rest. induction fuel as [|fuel IH]; intros pre rest Hwf Hne Hf; [done|].
  destruct rest as [|[z p] rest]; [done|]. inversion Hf as [|? ? Hz Hrest]; subst.
  destruct (wf_start _ _ _ Hwf) as [Hst _]. destruct (wf_mark _ _ _ Hwf) as [_ Hmk].
  pose proof (wf_blocks _ _ _ Hwf) as [H1' H2']%blocks_app. destruct (span_nonneg _ _ _ _ H1').
  pose proof H2' as (? & ? & _ & _ & _ & H3'). destruct (span_nonneg _ _ _ _ H3').
  cbn [heap_alloc_loop]. unfold mgets at 1. unfold mseq at 1.
  assert ((start (get_heap heap s) <=? start (get_heap heap s) + span pre) &&
    (start (get_heap heap s) + span pre <? vmem_mark (state (get_heap heap s))) = true) as ->.
  { apply andb_true_iff. split; [apply Z.leb_le|apply Z.ltb_lt]; lia. }
  cbn [negb]. rewrite (mseq_run _ _ _ _ _ (load_hdr _ _ _ _ _ _ H2')). rewrite present_hdr by done.
  rewrite datasz_word by (done || (destruct p; simpl; lia)).
  change (HEAP_BL_DATASZ2SZ 0) with (0 + 16). unfold fits in Hz. cbn [fst snd] in Hz. rewrite Hz.
  rewrite (mseq_run _ _ _ _ _ (HAS_NEXT_cons _ heap _ _ _ _ _ H2' ltac:(lia) ltac:(lia) eq_refl)).
  destruct rest as [|b rest]; cbn [negb].
  - change (Z.to_nat (ALIGN_UP 0 PAGE_SIZE_4K / PAGE_SIZE_4K)) with 0%nat. cbn [heap_grow].
    unfold mseq, mreturn. cbn [negb]. by eapply IH.
  - rewrite (mseq_run _ _ _ _ _ (NEXT_run _ _ _ _ _ _ H2' ltac:(lia) ltac:(lia))).
    replace (start (get_heap heap s) + span pre + 16 + z) with
      (start (get_heap heap s) + span (pre ++ [(z, p)]))
      by (rewrite span_app, span_cons; change (span []) with 0; lia).
    apply (IH _ (b :: rest)); [by rewrite <-app_assoc|done|done].
Qed.
End heap_proofs.
