(* ===== verification/HeapSpec.v ===== *)
(** * Heap correctness: the theorems about heap.c

    The operations of Heap.v against the list of blocks they maintain, the
    allocator interface of Alloc.v implemented by a local heap, and concrete
    heaps on which the theorems apply. *)

From S2P Require Import Prelude Mem Alloc KList Heap.

(** The block list of a heap, read from memory. *)
Definition heap_blocks {St} `{HasHeaps St} (heap : Z) (s : St) : list (Z * bool) :=
  let h := get_heap heap s in
  parse (Z.to_nat ((vmem_mark (state h) - start h) / 16)) (get_mem s) (start h) (vmem_mark (state h)).

(** The live blocks of a heap: user address to usable size. *)
Definition heap_live {St} `{HasHeaps St} (heap : Z) (s : St) : gmap Z Z :=
  live_of (start (get_heap heap s)) (heap_blocks heap s).

Section heap_spec.
Context {St : Type} `{HasHeaps St} `{HasGlobMap St} `{HeapEnv St} `{!HeapEnvLaws St}.
Implicit Types s : St.

Lemma heap_blocks_read s heap bs :
  blocks (get_mem s) (start (get_heap heap s)) bs (vmem_mark (state (get_heap heap s))) -> heap_blocks heap s = bs.
Proof. intros Hb. apply parse_blocks; [done|]. pose proof (blocks_length _ _ _ _ Hb). dlia. Qed.

Lemma heap_blocks_wf s heap bs : heap_wf s heap bs -> heap_blocks heap s = bs.
Proof. intros Hwf. apply heap_blocks_read, Hwf. Qed.

Lemma heap_live_wf s heap bs :
  heap_wf s heap bs -> heap_live heap s = live_of (start (get_heap heap s)) bs.
Proof. intros Hwf. unfold heap_live. by rewrite (heap_blocks_wf _ _ _ Hwf). Qed.

(** C1: [heap_alloc] terminates on every well-formed local heap and every
    request above zero (fuel: one step per block and two for growing), does
    not touch anything but the heap, and is first fit on the block list:
    either a block is cut from the first free block that is large enough,
    after adding at most twice the pages of the request when no block was;
    or NULL is returned, and then no block was large enough and the last step
    was vmem_map refusing the page pmem_alloc gave for the end of the heap.
    A run that does not return ended in [fatal]. *)
Theorem heap_alloc_first_fit fuel s heap n bs :
  heap_wf s heap bs -> 0 < n -> n + 7 < 2 ^ 62 -> (heap_fuel bs <= fuel)%nat ->
  wpf (heap_alloc fuel heap n) (alloc_post (pages (round8 n) * 2) s heap (round8 n) bs) s.
Proof. apply heap_alloc_ok. Qed.

(** C2: [heap_free] of a live block returns, merges the block with its free
    neighbours on both sides, and keeps the invariant (no two free blocks
    side by side, counters exact), the other live blocks and everything
    outside the heap. *)
Theorem heap_free_merges s heap pre k post :
  heap_wf s heap (pre ++ (k, true) :: post) ->
  vmem_mark (state (get_heap heap s)) <= end_ (get_heap heap s) ->
  exists s', heap_free heap (start (get_heap heap s) + span pre + 8) s = Ret (tt, s') /\
    heap_wf s' heap (free_merge pre k post) /\
    heap_frame s s' heap (live_of (start (get_heap heap s)) (pre ++ (k, false) :: post)).
Proof. apply heap_free_ok. Qed.

(** C28: [heap_init] of a configured local heap in the active address space,
    when it reports success, leaves a valid heap of one free block that
    fills the first page. *)
Theorem heap_init_establishes fuel s heap :
  let h := get_heap heap s in
  heap <> 0 -> 0 < start h -> start h mod PAGE_SIZE_4K = 0 -> end_ h <> 0 ->
  space h <> 0 -> space h = spc_current s -> is_global (pg_fl h) = false ->
  wpf (heap_init fuel heap) (fun ok s' =>
    ok = true -> heap_wf s' heap [(4080, false)] /\ valid (state (get_heap heap s')) = true) s.
Proof. apply heap_init_ok. Qed.

(** A request of zero bytes never returns when no block has room for the
    two management words: zero pages are added and the search repeats. *)
Theorem heap_alloc_zero_spins fuel s heap bs :
  heap_wf s heap bs -> Forall (fun b => fits 0 b = false) bs ->
  heap_alloc fuel heap 0 s = NoFuel.
Proof.
  intros Hwf Hf. unfold heap_alloc.
  rewrite (mseq_run _ _ _ _ _ (CHECK_run _ _ (wf_space _ _ _ Hwf))).
  unfold mgets, mseq. change (ALIGN_UP 0 sizeof_heap_block_t) with 0.
  rewrite <-(Z.add_0_r (start (get_heap heap s))).
  apply (loop_zero fuel s heap [] bs); [done| |done].
  destruct (wf_last _ _ _ Hwf) as [z Hl]. by intros ->.
Qed.

(** ** The allocator interface on a local heap *)

Variable heap : Z.

Definition lheap_ops : KHeapOps St := {|
  kheap_alloc := fun n s => heap_alloc (heap_fuel (heap_blocks heap s)) heap n s;
  kheap_free := heap_free heap |}.

Definition lheap_inv s : Prop :=
  (exists bs, heap_wf s heap bs) /\ env_top <= end_ (get_heap heap s) /\
  vmem_mark (state (get_heap heap s)) <= env_top.

Lemma alloc_fit_live n bs o bs' a m e :
  alloc_fit n bs = Some (o, bs') -> blocks m a bs' e ->
  live_of a bs' = <[a + o := n]> (live_of a bs) /\ live_of a bs !! (a + o) = None /\ 8 <= o.
Proof.
  revert o bs' a. induction bs as [|[z p] bs IH]; intros o bs' a; [done|]. cbn [alloc_fit].
  destruct (fits n (z, p)) eqn:Hf; intros Heq Hb.
  - simplify_eq. unfold fits in Hf. simpl in Hf. destruct p; [done|].
    destruct (live_of_mid m a [] n true ((z - n - 16, false) :: bs) e Hb) as [_ Hn].
    change (span []) with 0 in Hn. rewrite Z.add_0_r in Hn.
    simpl in *. replace (a + 16 + n + 16 + (z - n - 16)) with (a + 16 + z) in * by lia. done.
  - destruct (alloc_fit n bs) as [[o' r]|] eqn:Ha; [|done]. simplify_eq.
    destruct Hb as (? & _ & _ & _ & _ & Hb). destruct (IH _ _ _ eq_refl Hb) as (Hl & Hn & ?).
    replace (a + (z + 16 + o')) with (a + 16 + z + o') by lia. simpl.
    destruct p; [|split_and!; [done|done|lia]]. rewrite Hl. split_and!; [|by rewrite lookup_insert_ne by lia|lia].
    by rewrite insert_insert_ne by lia.
Qed.

Lemma live_of_grow k a bs : (exists z, last bs = Some (z, false)) -> live_of a (grow_last k bs) = live_of a bs.
Proof.
  intros [z [bs' ->]%last_Some]. rewrite grow_last_snoc. by rewrite !live_of_snoc.
Qed.

(** A successful allocation, seen through the live blocks. *)
Lemma alloc_post_live K s n bs p s' :
  heap_wf s heap bs -> alloc_post K s heap n bs p s' -> p <> 0 ->
  (exists bs', heap_wf s' heap bs') /\
  heap_live heap s !! p = None /\ heap_live heap s' = <[p := n]> (heap_live heap s) /\
  forall q k, heap_live heap s !! q = Some k -> agree (get_mem s) (get_mem s') q k.
Proof.
  intros Hwf (k & _ & _ & Hfr & [(? & _)|(o & bs' & Hfit & -> & Hwf')]) Hp; [done|].
  rewrite (heap_live_wf _ _ _ Hwf), (heap_live_wf _ _ _ Hwf').
  rewrite (fr_start _ _ _ _ Hfr).
  pose proof (wf_blocks _ _ _ Hwf') as Hb. rewrite (fr_start _ _ _ _ Hfr) in Hb.
  destruct (alloc_fit_live _ _ _ _ _ _ _ Hfit Hb) as (Hl & Hn & _).
  rewrite live_of_grow in Hl, Hn by apply Hwf.
  split_and!; [by eexists|done|done|apply Hfr].
Qed.

Lemma live_at_data s bs p k :
  heap_wf s heap bs -> heap_live heap s !! p = Some k ->
  exists pre post, bs = pre ++ (k, true) :: post /\
    p = start (get_heap heap s) + span pre + 8 /\
    start (get_heap heap s) + 8 <= p /\ p + k + 8 <= vmem_mark (state (get_heap heap s)).
Proof.
  intros Hwf. rewrite (heap_live_wf _ _ _ Hwf). intros Hl.
  destruct (live_of_split _ _ _ _ _ _ (wf_blocks _ _ _ Hwf) Hl) as (pre & post & -> & ->).
  destruct (live_of_low _ _ _ _ _ _ (wf_blocks _ _ _ Hwf) Hl). eexists _, _. split_and!; [done..|lia|lia].
Qed.

(** Whatever heap_alloc returned, the blocks that were live still are. *)
Lemma alloc_post_kept K s n bs p s' q j :
  heap_wf s heap bs -> alloc_post K s heap n bs p s' -> heap_live heap s !! q = Some j ->
  (exists bs', heap_wf s' heap bs') /\ heap_live heap s' !! q = Some j.
Proof.
  intros Hwf Hok Hq. destruct (decide (p = 0)) as [->|Hp].
  - destruct (wf_start _ _ _ Hwf) as [Hst _].
    destruct Hok as (k & _ & _ & Hfr & [(_ & Hwf' & _)|(o & bs' & Hfit & Hp0 & Hwf')]).
    + split; [by eexists|]. rewrite (heap_live_wf _ _ _ Hwf'), (fr_start _ _ _ _ Hfr), live_of_grow by apply Hwf.
      by rewrite <- (heap_live_wf _ _ _ Hwf).
    + pose proof (wf_blocks _ _ _ Hwf') as Hb. rewrite (fr_start _ _ _ _ Hfr) in Hb.
      destruct (alloc_fit_live _ _ _ _ _ _ _ Hfit Hb) as (_ & _ & ?). lia.
  - destruct (alloc_post_live _ _ _ _ _ _ Hwf Hok Hp) as (Hwf' & Hnone & Hl & _). split; [done|].
    rewrite Hl, lookup_insert_ne; [done|congruence].
Qed.

(** A write into the data of a live block leaves every header and footer. *)
Lemma heap_wf_write s bs p k a b :
  heap_wf s heap bs -> heap_live heap s !! p = Some k -> p <= a < p + k ->
  heap_wf (set_mem (<[a := u8 b]> (get_mem s)) s) heap bs.
Proof.
  intros Hwf Hl Ha. destruct (live_at_data _ _ _ _ Hwf Hl) as (pre & post & -> & -> & _ & _).
  destruct Hwf as [W1 W2 W3 W4 W5 W6 W7 W8 W9].
  constructor; rewrite ?get_heap_set_mem, ?get_set_mem, ?spc_current_set_mem; try done.
  apply blocks_app in W3 as [B1 (? & ? & Bh & Bf & Bm & B2)]. destruct (span_nonneg _ _ _ _ B1).
  assert (Hag : forall c j, c + j <= a \/ a < c -> agree (get_mem s) (<[a := u8 b]> (get_mem s)) c j).
  { intros c j Hd i Hi. rewrite lookup_insert_ne by lia. done. }
  apply blocks_app. split; [eapply blocks_agree; [done|apply Hag; lia]|]. cbn [blocks].
  split_and!; [done|done| | | |].
  - rewrite (mread_ext 8 (get_mem s)); [done|apply Hag; lia].
  - rewrite (mread_ext 8 (get_mem s)); [done|apply Hag; lia].
  - intros i Hi. destruct (decide (i = a)) as [->|]; [rewrite lookup_insert_eq; eauto|].
    rewrite lookup_insert_ne by done. by apply Bm.
  - eapply blocks_agree; [done|]. apply Hag. lia.
Qed.

(** A local heap is an allocator in the sense of Alloc.v. *)
#[program] Definition lheap : @KHeap St _ lheap_ops := {|
  kh_inv := lheap_inv; live := heap_live heap; kh_max := 2 ^ 61 |}.
Next Obligation.
  intros s p n ([bs Hwf] & _ & _) Hl. destruct (live_at_data _ _ _ _ Hwf Hl) as (pre & post & -> & -> & ? & ?).
  destruct (wf_start _ _ _ Hwf), (wf_mark _ _ _ Hwf). split_and!; [lia|lia|].
  eapply mapped_weaken; [exact (blocks_mapped _ _ _ _ (wf_blocks _ _ _ Hwf))|lia|lia].
Qed.
Next Obligation.
  intros s p n q k ([bs Hwf] & _ & _) Hp Hq Hne.
  destruct (live_at_data _ _ _ _ Hwf Hp) as (pre & post & -> & -> & ? & ?).
  rewrite (heap_live_wf _ _ _ Hwf) in Hq.
  destruct (live_of_apart _ _ _ _ _ _ _ _ _ (wf_blocks _ _ _ Hwf) Hq) as [(_ & -> & _)|?]; [done|lia].
Qed.
Next Obligation.
  intros s p n a b ([bs Hwf] & He & Hm) Hp Ha. pose proof (heap_wf_write _ _ _ _ _ b Hwf Hp Ha) as Hwf'.
  split.
  - split_and!; [by eexists|by rewrite get_heap_set_mem..].
  - rewrite (heap_live_wf _ _ _ Hwf), (heap_live_wf _ _ _ Hwf'). by rewrite get_heap_set_mem.
Qed.
Next Obligation.
  intros s n p s' ([bs Hwf] & He & Hm) Hn Hrun Hp. simpl in Hrun.
  rewrite (heap_blocks_wf _ _ _ Hwf) in Hrun.
  pose proof (heap_alloc_ok (heap_fuel bs) s heap n bs Hwf) as Hok.
  unfold wpf in Hok. rewrite Hrun in Hok. specialize (Hok ltac:(lia) ltac:(lia) ltac:(lia)).
  destruct (alloc_post_live _ _ _ _ _ _ Hwf Hok Hp) as (Hwf' & Hn0 & Hl & Hag).
  split_and!; try done. destruct Hok as (_ & _ & _ & Hfr & _).
  split_and!; [done|by rewrite (fr_end _ _ _ _ Hfr)|].
  destruct (fr_top _ _ _ _ Hfr); [lia|done].
Qed.
Next Obligation.
  intros s p n ([bs Hwf] & He & Hm) Hp.
  destruct (live_at_data _ _ _ _ Hwf Hp) as (pre & post & -> & -> & ? & ?).
  destruct (heap_free_ok _ _ _ _ _ Hwf) as (s' & Hrun & Hwf' & Hfr); [lia|].
  pose proof (free_shape _ _ _ (wf_coalesced _ _ _ Hwf)) as (_ & _ & _ & _ & _ & _ & _ & _ & Hlive).
  pose proof (live_of_delete _ _ _ _ _ _ (wf_blocks _ _ _ Hwf)) as Hdel.
  exists s'. split; [done|]. rewrite (heap_live_wf _ _ _ Hwf), (heap_live_wf _ _ _ Hwf').
  rewrite (fr_start _ _ _ _ Hfr). split; [split_and!|split].
  - by eexists.
  - by rewrite (fr_end _ _ _ _ Hfr).
  - destruct (fr_top _ _ _ _ Hfr); [lia|done].
  - by rewrite <-Hlive, Hdel.
  - intros q k Hq Hne. apply (fr_live _ _ _ _ Hfr). rewrite Hdel. by rewrite lookup_delete_ne.
Qed.

End heap_spec.

(** ** Concrete heaps *)

Module HeapDemo.
Import Bump.

(** Memory, the [heap_t] objects, [vmem_glob_map], CR3, and a physical
    allocator that hands out page after page.  The pager maps a page unless
    it is mapped already or lies above the top. *)
Record hst := Hst {
  h_mem : memory; h_heaps : gmap Z heap_t; h_glob : Z; h_cr3 : Z; h_phys : Z }.

#[export] Program Instance hst_mem : HasMem hst := {|
  get_mem := h_mem; set_mem := fun m s => Hst m (h_heaps s) (h_glob s) (h_cr3 s) (h_phys s) |}.
Solve All Obligations with by intros; destruct s.

#[export] Program Instance hst_heaps : HasHeaps hst := {|
  get_heap := fun p s => default heap_zero (h_heaps s !! p);
  set_heap := fun p h s => Hst (h_mem s) (<[p := h]> (h_heaps s)) (h_glob s) (h_cr3 s) (h_phys s);
  kheap := 64 |}.
Next Obligation. intros. simpl. by rewrite lookup_insert_eq. Qed.
Next Obligation. intros. simpl. by rewrite lookup_insert_ne. Qed.
Next Obligation. done. Qed.
Next Obligation. done. Qed.

#[export] Instance hst_glob : HasGlobMap hst := {|
  get_glob_map := h_glob;
  set_glob_map := fun g s => Hst (h_mem s) (h_heaps s) g (h_cr3 s) (h_phys s) |}.

Definition top : Z := 2 ^ 24.

Definition is_unmapped (v : Z) (m : memory) : bool :=
  forallb (fun i => match m !! (v + Z.of_nat i) with Some _ => false | None => true end) (seq 0 4096).

#[export] Instance hst_env : HeapEnv hst := {|
  spc_current := h_cr3;
  pmem_alloc := fun l a s =>
    Ret (h_phys s, Hst (h_mem s) (h_heaps s) (h_glob s) (h_cr3 s) (h_phys s + l));
  vmem_map := fun sp ph v fl s =>
    if (v + 4096 <=? top) && is_unmapped v (h_mem s)
    then Ret (true, Hst (fresh 4096 v (h_mem s)) (h_heaps s) (h_glob s) (h_cr3 s) (h_phys s))
    else Ret (false, s) |}.

Lemma is_unmapped_spec v m i : is_unmapped v m = true -> v <= i < v + 4096 -> m !! i = None.
Proof.
  intros Hu Hi. unfold is_unmapped in Hu. rewrite forallb_forall in Hu.
  specialize (Hu (Z.to_nat (i - v))). rewrite in_seq in Hu. specialize (Hu ltac:(lia)).
  replace (v + Z.of_nat (Z.to_nat (i - v))) with i in Hu by lia. by destruct (m !! i).
Qed.

#[export] Program Instance hst_laws : HeapEnvLaws hst := {| env_top := top |}.
Next Obligation. done. Qed.
Next Obligation. done. Qed.
Next Obligation. done. Qed.
Next Obligation. intros. unfold wpf. simpl. by split. Qed.
Next Obligation.
  intros phys virt fl s Hv Ha. unfold wpf. cbn [vmem_map hst_env].
  destruct (Z.leb_spec (virt + 4096) top); [|by split].
  destruct (is_unmapped virt (h_mem s)) eqn:Hu; [|by split]. cbn [andb get_mem hst_mem h_mem].
  split; [done|]. split.
  - intros i b Hi. rewrite fresh_lookup. rewrite decide_False; [done|].
    intros Hr. rewrite (is_unmapped_spec _ _ i Hu) in Hi; [done|lia].
  - intros _. split; [done|]. unfold PAGE_SIZE_4K. split.
    + intros i Hi. rewrite fresh_lookup, decide_True; [eauto|lia].
    + intros i Hi. by eapply is_unmapped_spec.
Qed.

(** A process heap at 4 MiB, configured and not yet initialised. *)
Definition pheap_cfg : heap_t := Heap 4194304 top (Z.lor PG_WRITABLE PG_USER) 7 (HeapState false 0 0 0).
Definition c0 : hst := Hst ∅ {[ 128 := pheap_cfg ]} 0 7 8192.
Definition c1 : hst := state_of (heap_init 0 128 c0) c0.
Definition c2 : hst := state_of (heap_alloc 9 128 100 c1) c1.
Definition c3 : hst := state_of (heap_alloc 9 128 3936 c2) c2.

Lemma run1 : heap_init 0 128 c0 = Ret (true, c1).
Proof. apply ret_val_run. by vm_compute. Qed.

Lemma heap_init_establishes_witness :
  exists s', heap_init 0 128 c0 = Ret (true, s') /\ heap_wf s' 128 [(4080, false)].
Proof.
  pose proof (heap_init_establishes 0 c0 128 ltac:(done) ltac:(done) ltac:(done) ltac:(done)
    ltac:(done) ltac:(done) ltac:(done)) as Hok.
  unfold wpf in Hok. rewrite run1 in Hok. exists c1. split; [exact run1|apply Hok; reflexivity].
Defined.

Lemma wf1 : heap_wf c1 128 [(4080, false)].
Proof.
  pose proof (heap_init_ok 0 c0 128 ltac:(done) ltac:(done) ltac:(done) ltac:(done)
    ltac:(done) ltac:(done) ltac:(done)) as Hok.
  unfold wpf in Hok. rewrite run1 in Hok. by apply Hok.
Qed.

Lemma run2 : heap_alloc 9 128 100 c1 = Ret (4194312, c2).
Proof. apply ret_val_run. by vm_compute. Qed.

(** The list of a run that returned a block without growing. *)
Lemma wf_alloc s n bs p s' o bs' fuel :
  heap_wf s 128 bs -> 0 < n -> n + 7 < 2 ^ 62 -> (heap_fuel bs <= fuel)%nat ->
  heap_alloc fuel 128 n s = Ret (p, s') -> alloc_fit (round8 n) bs = Some (o, bs') -> p <> 0 ->
  heap_wf s' 128 bs'.
Proof.
  intros Hwf Hn Hn' Hf Hrun Hfit Hp. pose proof (heap_alloc_ok fuel s 128 n bs Hwf Hn Hn' Hf) as Hok.
  unfold wpf in Hok. rewrite Hrun in Hok. destruct Hok as (k & _ & Hk & _ & [(? & _)|(o' & r & Hr & _ & Hwf')]); [done|].
  rewrite Hfit in Hk. rewrite (Hk ltac:(eauto)), grow_last_0, Hfit in Hr. by simplify_eq.
Qed.

Lemma wf2 : heap_wf c2 128 [(104, true); (3960, false)].
Proof. eapply (wf_alloc c1 100 _ _ _ _ _ 9); [apply wf1|lia|lia|unfold heap_fuel; simpl; lia|apply run2|reflexivity|done]. Qed.

Lemma run3 : heap_alloc 9 128 3936 c2 = Ret (4194432, c3).
Proof. apply ret_val_run. by vm_compute. Qed.

Lemma wf3 : heap_wf c3 128 [(104, true); (3936, true); (8, false)].
Proof. eapply (wf_alloc c2 3936 _ _ _ _ _ 9); [apply wf2|lia|lia|unfold heap_fuel; simpl; lia|apply run3|reflexivity|done]. Qed.

Lemma heap_alloc_first_fit_witness :
  exists (p : Z) (s' : hst), heap_alloc 9 128 100 c1 = Ret (p, s') /\
    alloc_post 2 c1 128 104 [(4080, false)] p s'.
Proof.
  pose proof (heap_alloc_first_fit 9 c1 128 100 [(4080, false)] wf1 ltac:(lia) ltac:(lia)
    ltac:(unfold heap_fuel; simpl; lia)) as Hok.
  unfold wpf in Hok. rewrite run2 in Hok. exists 4194312, c2. split; [exact run2|exact Hok].
Defined.

Lemma heap_free_merges_witness :
  exists s', heap_free 128 4194312 c2 = Ret (tt, s') /\ heap_wf s' 128 [(4080, false)].
Proof.
  destruct (heap_free_merges c2 128 [] 104 [(3960, false)] wf2 ltac:(vm_compute; discriminate))
    as (s' & Hrun & Hwf & _).
  exists s'. split; [exact Hrun|exact Hwf].
Defined.

Lemma heap_alloc_zero_spins_witness : forall fuel, heap_alloc fuel 128 0 c3 = NoFuel.
Proof.
  intros fuel. apply (heap_alloc_zero_spins fuel c3 128 [(104, true); (3936, true); (8, false)] wf3).
  repeat constructor.
Defined.

Lemma inv1 : lheap_inv 128 c1.
Proof. split; [exists [(4080, false)]; apply wf1|]. by vm_compute. Qed.

Lemma run2' : heap_alloc (heap_fuel (heap_blocks 128 c1)) 128 100 c1 =
  Ret (4194312, state_of (heap_alloc (heap_fuel (heap_blocks 128 c1)) 128 100 c1) c1).
Proof. apply ret_val_run. by vm_compute. Qed.



(** ** What goes wrong *)

(** The kernel heap, with PG_GLOBAL, after its initialisation, and after an
    allocation that needs two pages at once. *)
Definition gcfg : heap_t := Heap 65536 top (Z.lor PG_GLOBAL PG_WRITABLE) 7 (HeapState false 0 0 0).
Definition g0 : hst := Hst ∅ {[ 64 := gcfg ]} 0 7 8192.
Definition g1 : hst := state_of (heap_init 20 64 g0) g0.
Definition g2 : hst := state_of (heap_alloc 20 64 8000 g1) g1.

(** A walk over a node that is its own successor does not end. *)
Lemma walk_self_loop {St} `{HasMem St} (s : St) n d fuel :
  n <> 0 -> fld s n node_next n -> fld s n node_data d -> list_walk fuel n s = NoFuel.
Proof.
  intros Hn Hx Hd. induction fuel as [|fuel IH]; [done|]. cbn [list_walk].
  destruct (Z.eqb_spec n 0); [done|].
  rewrite (mseq_run _ _ _ _ _ (load_run _ _ _ _ Hd)), (mseq_run _ _ _ _ _ (load_run _ _ _ _ Hx)).
  unfold mseq at 1. by rewrite IH.
Qed.

Lemma walk_into_loop {St} `{HasMem St} (s : St) l h n d d' fuel :
  l <> 0 -> h <> 0 -> n <> 0 -> fld s l list_head h -> fld s h node_data d -> fld s h node_next n ->
  fld s n node_next n -> fld s n node_data d' ->
  (b <- list_begin l ;; list_walk (S fuel) b) s = NoFuel.
Proof.
  intros Hl Hh Hn Hb Hd Hx Hx' Hd'. unfold list_begin. destruct (Z.eqb_spec l 0); [done|].
  rewrite (mseq_run _ _ _ _ _ (load_run _ _ _ _ Hb)). cbn [list_walk].
  destruct (Z.eqb_spec h 0); [done|].
  rewrite (mseq_run _ _ _ _ _ (load_run _ _ _ _ Hd)), (mseq_run _ _ _ _ _ (load_run _ _ _ _ Hx)).
  unfold mseq at 1. by rewrite (walk_self_loop s n d').
Qed.

(** The result of that allocation and the words of the list afterwards. *)
Lemma g2_contents :
  (fun r => (ret_val r, (fun s => (h_glob s, (fun a => mread 8 (h_mem s) a) <$>
     [65544 + list_head; 65624 + node_data; 65624 + node_next; 65696 + node_next; 65696 + node_data]))
     (state_of r g1))) (heap_alloc 20 64 8000 g1)
  = (Some 65728, (65544, [Some 65624; Some 65584; Some 65696; Some 65696; Some 65656])).
Proof. vm_compute. reflexivity. Qed.

(** When a global heap grows by two pages in one allocation, the header
    written for the second page covers the block that registered the first:
    the two registrations share their memory, the node of the list of global
    mappings becomes its own successor, and a walk of that list (as
    [vmem_mgmt_make_glob_spc] does for every new address space) never ends. *)
Theorem heap_grow_global_breaks_map fuel :
  heap_alloc 20 64 8000 g1 = Ret (65728, g2) /\
  (h <- list_begin (h_glob g2) ;; list_walk (S fuel) h) g2 = NoFuel.
Proof.
  pose proof g2_contents as Hc. cbv beta in Hc. fold g2 in Hc. apply pair_eq in Hc as [Hv Hc].
  split; [by apply ret_val_run|]. clear Hv. generalize dependent g2. intros s Hc.
  injection Hc as Hg Hb Hd Hx Hx' Hd'. rewrite Hg.
  by apply (walk_into_loop s 65544 65624 65696 65584 65656).
Qed.

(** [heap_realloc] that takes the last free block whole leaves a heap whose
    last block is in use; the next allocation that grows the heap marks that
    block free and hands the same address out again. *)
Theorem heap_realloc_then_alloc_aliases :
  let r := heap_realloc 9 128 4194312 4072 c2 in
  ret_val r = Some 4194312 /\
  ret_val (heap_alloc 9 128 8 (state_of r c2)) = Some 4194312.
Proof. cbv zeta. split; vm_compute; reflexivity. Qed.

(** [heap_realloc] does not round the size: growing in place to a size that
    is no multiple of 8 writes size bits into the flag bits of the header,
    and [heap_free] then rejects the block and keeps it allocated. *)
Theorem heap_realloc_unaligned_leaks :
  let s := state_of (heap_realloc 9 128 4194312 106 c2) c2 in
  ret_val (heap_validate 128 4194312 c2) = Some true /\
  ret_val (heap_validate 128 4194312 s) = Some false /\
  block_count (Heap.state (get_heap 128 (state_of (heap_free 128 4194312 s) s))) = 1.
Proof. vm_compute. split; [|split]; reflexivity. Qed.

End HeapDemo.
