(* ===== verification/Realloc.v ===== *)
(** * Resizing a block: heap_realloc

    What heap_realloc of heap.c does to a live block of a local heap: it stays
    where it is, takes room from its right neighbour, or moves.  The move is
    proved against the allocator interface. *)

From S2P Require Import Prelude Mem Alloc KList Heap HeapSpec.

(** ** Moving a block, against the interface *)

Section move.
Context {St : Type} `{KHeap St}.

(** Bytes of a live block may be overwritten. *)
Lemma kh_overwrite n : forall (s : St) p k a m',
  kh_inv s -> live s !! p = Some k -> p <= a -> a + Z.of_nat n <= p + k ->
  (forall i, a <= i < a + Z.of_nat n -> exists b, m' !! i = Some (u8 b)) ->
  (forall i, ~ a <= i < a + Z.of_nat n -> m' !! i = get_mem s !! i) ->
  kh_inv (set_mem m' s) /\ live (set_mem m' s) = live s.
Proof.
  induction n as [|n IH]; intros s p k a m' Hi Hp Ha Hk Hin Hout.
  { replace m' with (get_mem s); [by rewrite set_get_mem|]. apply map_eq. intros i. by rewrite Hout by lia. }
  destruct (Hin a) as [b Hb]; [lia|]. destruct (kh_write s p k a b Hi Hp) as [Hi1 Hl1]; [lia|].
  set (s1 := set_mem (<[a := u8 b]> (get_mem s)) s) in *.
  destruct (IH s1 p k (a + 1) m') as [Hi2 Hl2]; [done|by rewrite Hl1|lia|lia| | |].
  - intros i Hi'. apply Hin. lia.
  - intros i Hi'. unfold s1. rewrite get_set_mem. destruct (decide (i = a)) as [->|]; [by rewrite lookup_insert_eq|].
    rewrite lookup_insert_ne by done. apply Hout. lia.
  - unfold s1 in Hi2, Hl2. rewrite set_set_mem in Hi2, Hl2. split; [done|]. by rewrite Hl2.
Qed.

(** The [k] bytes at [q] in [s'] are those at [p] in [s]. *)
Definition same_bytes (s s' : St) (p q k : Z) : Prop :=
  forall i, 0 <= i < k -> u8 <$> get_mem s' !! (q + i) = u8 <$> get_mem s !! (p + i).

(** [s'] is [s] with the live block [p] now at [q], at least [n] bytes large,
    with the data it had, and the other blocks as they were. *)
Definition holds_data (s s' : St) (p k n q : Z) : Prop :=
  (exists k', n <= k' /\ k <= k' /\ live s' = <[q := k']> (delete p (live s))) /\
  same_bytes s s' p q k /\ kept s s' [p].
(** The same, and the invariant of the allocator holds. *)
Definition resized (s s' : St) (p k n q : Z) : Prop := kh_inv s' /\ holds_data s s' p k n q.

(** [memmove(new, mem, size); free(mem)] behind an allocation. *)
Lemma move_block (s s1 : St) p k n q :
  kh_inv s -> live s !! p = Some k -> 0 <= k <= n -> 0 < n <= kh_max ->
  kheap_alloc n s = Ret (q, s1) -> q <> 0 ->
  live s1 !! p = Some k /\
  exists s2 s3, memmove q p k s1 = Ret (q, s2) /\ kheap_free p s2 = Ret (tt, s3) /\ resized s s3 p k n q.
Proof.
  intros Hi Hp Hk Hn Ha Hq. destruct (alloc_law _ _ _ _ Hi Hn Ha Hq) as (Hi1 & Hfr & Hl1 & Hag).
  pose proof (round8_ge n).
  assert (Hqp : p <> q) by congruence.
  assert (Hp1 : live s1 !! p = Some k) by (by rewrite Hl1, lookup_insert_ne).
  assert (Hq1 : live s1 !! q = Some (round8 n)) by (by rewrite Hl1, lookup_insert_eq).
  destruct (live_mapped _ _ _ Hi1 Hp1) as (_ & _ & Hmp). destruct (live_mapped _ _ _ Hi1 Hq1) as (_ & _ & Hmq).
  destruct (memmove_copy q p k s1) as (m2 & Hr2 & Hc); [lia|by left|eapply mapped_weaken; [done|lia|lia]|done|].
  split; [done|]. destruct (kh_overwrite (Z.to_nat k) s1 q (round8 n) q m2) as [Hi2 Hl2]; [done|done|lia|lia| | |].
  - intros i Hir. rewrite Hc, decide_True by lia. destruct (Hmp (p + (i - q))) as [b ->]; [lia|]. by exists b.
  - intros i Hir. by rewrite Hc, decide_False by lia.
  - set (s2 := set_mem m2 s1) in *. assert (Hp2 : live s2 !! p = Some k) by (by rewrite Hl2).
    destruct (free_law s2 p k Hi2 Hp2) as (s3 & Hr3 & Hi3 & Hl3 & Hag3). exists s2, s3. split_and!; [done|done|].
    assert (Hm2 : get_mem s2 = m2) by (unfold s2; by rewrite get_set_mem). split; [done|split_and!].
    + exists (round8 n). split_and!; [lia|lia|]. by rewrite Hl3, Hl2, Hl1, delete_insert_ne.
    + intros i Hir. rewrite (Hag3 q (round8 n)) by (rewrite ?Hl2; done || lia). rewrite Hm2, Hc, decide_True by lia.
      replace (p + (q + i - q)) with (p + i) by lia. rewrite (Hag p k) by (done || lia).
      destruct (get_mem s !! (p + i)) as [b|]; [|done]. simpl. by rewrite u8_u8.
    + intros r j Hr HF. assert (r <> p) by set_solver. assert (r <> q) by congruence.
      assert (Hr1 : live s1 !! r = Some j) by (by rewrite Hl1, lookup_insert_ne).
      split; [by rewrite Hl3, lookup_delete_ne, Hl2|]. eapply agree_trans; [by apply Hag|].
      eapply agree_trans; [|apply Hag3; [by rewrite Hl2|done]]. rewrite Hm2. intros i Hir. rewrite Hc, decide_False; [done|].
      destruct (live_disjoint s1 q (round8 n) r j); [done..|lia|lia].
Qed.
End move.

(** ** Resizing in place *)

Section inplace.
Context {St : Type} `{HasHeaps St} `{HasGlobMap St} `{HeapEnv St} `{!HeapEnvLaws St}.
Variable heap : Z.
Implicit Types (s : St) (bs : list blk).

(** [holds_data] and [resized] for the interface the local heap implements. *)
Definition heap_holds : St -> St -> Z -> Z -> Z -> Z -> Prop := @holds_data St _ (lheap_ops heap) (lheap heap).
Definition heap_resized : St -> St -> Z -> Z -> Z -> Z -> Prop := @resized St _ (lheap_ops heap) (lheap heap).

(** A block of a list is found by its distance from the start. *)
Lemma split_inj m pre : forall pre' b b' post post' a e,
  blocks m a (pre ++ b :: post) e -> pre ++ b :: post = pre' ++ b' :: post' -> span pre = span pre' ->
  pre = pre' /\ b = b' /\ post = post'.
Proof.
  assert (forall z a xs e, 0 <= z -> blocks m a xs e -> z + 16 + span xs <> 0) as Hne
    by (intros z a xs e Hz B; destruct (span_nonneg _ _ _ _ B); lia).
  induction pre as [|[z f] pre IH]; intros [|[z' f'] pre'] b b' post post' a e Hb Heq Hsp; cbn [app] in Heq.
  - by injection Heq as -> ->.
  - injection Heq as -> ->. destruct Hb as (? & _ & _ & _ & _ & [B _]%blocks_app). rewrite span_cons in Hsp.
    by destruct (Hne z' _ _ _ ltac:(done) B).
  - injection Heq as <- <-. destruct Hb as (? & _ & _ & _ & _ & [B _]%blocks_app). rewrite span_cons in Hsp.
    by destruct (Hne z _ _ _ ltac:(done) B).
  - injection Heq as <- <- Heq. rewrite !span_cons in Hsp. destruct Hb as (_ & _ & _ & _ & _ & B).
    destruct (IH _ _ _ _ _ _ _ B Heq) as (-> & -> & ->); [lia|done].
Qed.

Definition free_only bs : Prop := Forall (fun b => b.2 = false) bs.

Lemma free_only_live bs : free_only bs -> forall a, live_of a bs = ∅.
Proof. induction 1 as [|[z p] bs Hp _ IH]; intros a; [done|]. simpl in *. subst p. apply IH. Qed.
Lemma free_only_used bs : free_only bs -> used bs = 0 /\ nused bs = 0.
Proof. induction 1 as [|[z p] bs Hp _ [IH1 IH2]]; [done|]. simpl in Hp. subst p. rewrite used_cons, nused_cons, IH1, IH2. done. Qed.

(** The live blocks when the block at [a + span pre] has a new size, and what
    follows up to [post] is free. *)
Lemma live_of_resize m e a pre k rest k' rest' post :
  blocks m a (pre ++ (k, true) :: rest ++ post) e -> free_only rest -> free_only rest' ->
  k + span rest = k' + span rest' ->
  live_of a (pre ++ (k', true) :: rest' ++ post) = <[a + span pre + 8 := k']> (delete (a + span pre + 8) (live_of a (pre ++ (k, true) :: rest ++ post))).
Proof.
  intros Hb Hr Hr' Hsp. destruct (live_of_mid _ _ _ _ _ _ _ Hb) as [Hm1 Hm2].
  rewrite <- (live_of_delete _ _ _ _ _ _ Hb), !live_of_app. cbn [live_of].
  rewrite (live_of_app _ rest), (live_of_app _ rest'), (free_only_live rest Hr), (free_only_live rest' Hr'), !(left_id_L ∅ (∪)).
  replace (a + span pre + 16 + k' + span rest') with (a + span pre + 16 + k + span rest) by lia.
  by rewrite insert_union_r.
Qed.

(** The block between [pre] and [post] and the free blocks behind it were
    written anew in [m2], in the same room. *)
Record rewritten s pre k rest k' rest' post (m2 : gmap Z Z) : Prop := {
  rw_wf : heap_wf s heap (pre ++ (k, true) :: rest ++ post);
  rw_free : free_only rest;
  rw_free' : free_only rest';
  rw_span : k + span rest = k' + span rest';
  rw_le : k <= k';
  rw_new : blocks m2 (start (get_heap heap s) + span pre) ((k', true) :: rest') (start (get_heap heap s) + span pre + 16 + k + span rest);
  rw_agree : forall b j, b + j <= start (get_heap heap s) + span pre \/ start (get_heap heap s) + span pre + 16 + k + span rest <= b \/
    start (get_heap heap s) + span pre + 8 <= b /\ b + j <= start (get_heap heap s) + span pre + 8 + k -> agree (get_mem s) m2 b j;
}.

(** The state after that, with the count of used bytes as in heap_realloc. *)
Definition rewrite_state s pre k' rest' post (m2 : gmap Z Z) : St :=
  set_heap heap (with_state (set_used (used (pre ++ (k', true) :: rest' ++ post))) (get_heap heap s)) (set_mem m2 s).

Lemma rewritten_blocks s pre k rest k' rest' post m2 :
  rewritten s pre k rest k' rest' post m2 ->
  blocks m2 (start (get_heap heap s)) (pre ++ (k', true) :: rest' ++ post) (vmem_mark (state (get_heap heap s))).
Proof.
  intros [Hwf Hr Hr' Hsp Hk Hb2 Hag]. pose proof (wf_blocks _ _ _ Hwf) as W3. set (a := start (get_heap heap s) + span pre) in *.
  apply blocks_app in W3 as [B1 B2]. apply (blocks_app _ _ [(k, true)]) in B2 as [B2 B3]. apply blocks_app in B3 as [B3 B4].
  rewrite (span_cons k) in B3, B4. change (span []) with 0 in B3, B4. fold a in B1, B2, B3, B4.
  apply blocks_app. split; [eapply blocks_agree; [exact B1|]; apply Hag; lia|]. fold a.
  change ((k', true) :: rest' ++ post) with (((k', true) :: rest') ++ post). apply blocks_app. rewrite span_cons.
  replace (a + (k' + 16 + span rest')) with (a + 16 + k + span rest) by lia. split; [done|].
  replace (a + (k + 16 + 0) + span rest) with (a + 16 + k + span rest) in B4 by lia.
  eapply blocks_agree; [exact B4|]. apply Hag. lia.
Qed.

(** Seen through the interface: the block has grown where it is. *)
Lemma rewritten_holds s pre k rest k' rest' post m2 n :
  rewritten s pre k rest k' rest' post m2 -> n <= k' ->
  heap_holds s (rewrite_state s pre k' rest' post m2) (start (get_heap heap s) + span pre + 8) k n (start (get_heap heap s) + span pre + 8).
Proof.
  intros Hrw Hn. pose proof (rewritten_blocks _ _ _ _ _ _ _ _ Hrw) as Hb'. destruct Hrw as [Hwf Hr Hr' Hsp Hk Hb2 Hag].
  set (a := start (get_heap heap s) + span pre) in *. set (s' := rewrite_state s pre k' rest' post m2).
  assert (get_mem s' = m2) as Hm2 by (unfold s', rewrite_state; by rewrite get_mem_set_heap, get_set_mem).
  assert (heap_live heap s' = <[a + 8 := k']> (delete (a + 8) (heap_live heap s))) as Hl.
  { unfold heap_live at 1. rewrite (heap_blocks_read s' heap (pre ++ (k', true) :: rest' ++ post)) by (rewrite Hm2; unfold s', rewrite_state; by rewrite get_set_heap).
    rewrite (heap_live_wf _ _ _ Hwf). unfold s', rewrite_state. rewrite get_set_heap.
    apply (live_of_resize _ _ _ pre k rest k' rest' post (wf_blocks _ _ _ Hwf)); done. }
  split_and!.
  - exists k'. split_and!; [done|done|exact Hl].
  - intros i Hi. change (u8 <$> get_mem s' !! (a + 8 + i) = u8 <$> get_mem s !! (a + 8 + i)). rewrite Hm2, (Hag (a + 8) k) by lia. done.
  - intros q j Hq HF. change (heap_live heap s !! q = Some j) in Hq. assert (q <> a + 8) as Hne by set_solver. split.
    { change (heap_live heap s' !! q = Some j). by rewrite Hl, lookup_insert_ne, lookup_delete_ne. }
    change (agree (get_mem s) (get_mem s') q j). rewrite Hm2. apply Hag. rewrite (heap_live_wf _ _ _ Hwf) in Hq. pose proof (wf_blocks _ _ _ Hwf) as B.
    rewrite live_of_app in Hq. apply blocks_app in B as [B1 (_ & _ & _ & _ & _ & [B2 B3]%blocks_app)].
    apply lookup_union_Some_raw in Hq as [Hq|[_ Hq]]; [destruct (live_of_low _ _ _ _ _ _ B1 Hq); lia|].
    cbn [live_of] in Hq. rewrite lookup_insert_ne, live_of_app, (free_only_live rest Hr), (left_id_L ∅ (∪)) in Hq by done.
    destruct (live_of_low _ _ _ _ _ _ B3 Hq). lia.
Qed.

(** The heap is well-formed after that when it still ends in a free block and
    no two free blocks are side by side. *)
Lemma rewritten_resized s pre k rest k' rest' post m2 n :
  lheap_inv heap s -> rewritten s pre k rest k' rest' post m2 -> n <= k' ->
  (exists z, last (pre ++ (k', true) :: rest' ++ post) = Some (z, false)) -> coalesced true (pre ++ (k', true) :: rest' ++ post) ->
  heap_resized s (rewrite_state s pre k' rest' post m2) (start (get_heap heap s) + span pre + 8) k n (start (get_heap heap s) + span pre + 8).
Proof.
  intros (_ & He & Hm) Hrw Hn Hlast Hco. split; [|by apply (rewritten_holds _ _ _ rest)].
  pose proof (rewritten_blocks _ _ _ _ _ _ _ _ Hrw) as Hb'. destruct Hrw as [[W1 W2 W3 W4 W5 W6 W7 W8 W9] Hr Hr' _ _ _ _].
  destruct (free_only_used _ Hr) as [_ Hn0], (free_only_used _ Hr') as [_ Hn'].
  unfold rewrite_state. split_and!; [|by rewrite get_set_heap|by rewrite get_set_heap]. exists (pre ++ (k', true) :: rest' ++ post).
  constructor; rewrite ?get_set_heap, ?get_mem_set_heap, ?get_set_mem, ?spc_current_set_heap, ?spc_current_set_mem; try done.
  change (block_count (state (get_heap heap s)) = nused (pre ++ (k', true) :: rest' ++ post)). rewrite W7.
  rewrite !nused_app, !nused_cons, !nused_app, Hn0, Hn'. done.
Qed.

(** When the last free block was taken as a whole, the heap is not well-formed:
    it must end in a free block. *)
Lemma rewritten_to_end s pre k rest k' m2 :
  rewritten s pre k rest k' [] [] m2 -> ~ lheap_inv heap (rewrite_state s pre k' [] [] m2).
Proof.
  intros Hrw ([bs Hwf] & _). pose proof (heap_blocks_wf _ _ _ Hwf) as Hb. destruct (wf_last _ _ _ Hwf) as [z Hz].
  rewrite (heap_blocks_read _ heap (pre ++ (k', true) :: [] ++ [])) in Hb.
  - subst bs. cbn [app] in Hz. by rewrite last_snoc in Hz.
  - pose proof (rewritten_blocks _ _ _ _ _ _ _ _ Hrw) as Hb'. unfold rewrite_state. by rewrite get_mem_set_heap, get_set_mem, get_set_heap.
Qed.

(** ** heap_realloc *)

(** The part of heap_realloc that moves the block. *)
Definition realloc_move (fuel : nat) (block mem n : Z) : M St Z :=
  new <- heap_alloc fuel heap n ;;
  b' <- load64 block ;;
  memmove new mem (HEAP_BL_B2DATASZ b') ;;;
  heap_free heap mem ;;;
  mreturn new.
(** The two ways to grow in place. *)
Definition realloc_merge (block mem k z : Z) : M St Z :=
  HEAP_BL_SET block (k + z + 16) HEAP_PRESENT ;;;
  upd_state heap (fun st => set_used (u64 (used_bytes st + (z + 16))) st) ;;;
  mreturn mem.
Definition realloc_split (block mem k z n : Z) : M St Z :=
  HEAP_BL_SET block n HEAP_PRESENT ;;;
  next' <- HEAP_BL_NEXT block ;;
  HEAP_BL_SET next' (z - (n - k)) 0 ;;;
  upd_state heap (fun st => set_used (u64 (used_bytes st + (n - k))) st) ;;;
  mreturn mem.

(** The branch heap_realloc takes, by the sizes of the block and of its right
    neighbour. *)
Lemma realloc_branch fuel s pre k z f post n :
  let a := start (get_heap heap s) + span pre in
  heap_wf s heap (pre ++ (k, true) :: (z, f) :: post) ->
  vmem_mark (state (get_heap heap s)) <= end_ (get_heap heap s) ->
  vmem_mark (state (get_heap heap s)) - start (get_heap heap s) < 2 ^ 62 -> 0 < n < 2 ^ 62 ->
  heap_realloc fuel heap (a + 8) n s =
    (if n <=? k then mreturn (a + 8)
     else if negb f && (n <=? k + z + 16) then
       if k + z <=? n then realloc_merge a (a + 8) k z else realloc_split a (a + 8) k z n
     else realloc_move fuel a (a + 8) n) s.
Proof.
  intros a Hwf Hend Hsz Hn. pose proof (heap_validate_ok _ _ _ _ _ _ Hwf Hend) as Hval. fold a in Hval.
  destruct (wf_start _ _ _ Hwf) as [Hst _]. destruct (wf_mark _ _ _ Hwf) as [_ Hmk].
  pose proof (wf_blocks _ _ _ Hwf) as [B1 B2]%blocks_app. fold a in B1, B2. destruct (span_nonneg _ _ _ _ B1) as [Hs1 _].
  pose proof B2 as (Hk & Hk8 & _ & _ & _ & B3). pose proof B3 as (Hz & Hz8 & _ & _ & _ & B4). destruct (span_nonneg _ _ _ _ B4) as [Hs4 He4].
  unfold heap_realloc. rewrite (proj2 (Z.eqb_neq (a + 8) 0)) by lia.
  rewrite (mseq_run _ _ _ _ _ (CHECK_run _ _ (wf_space _ _ _ Hwf))), (mseq_run _ _ _ _ _ Hval). cbn [negb]. cbv zeta.
  unfold HEAP_BL_M2H, sizeof_heap_block_t. rewrite u64_small by lia. replace (a + 8 - 8) with a by lia.
  rewrite (mseq_run _ _ _ _ _ (load_hdr _ _ _ _ _ _ B2)), datasz_word by (done || (simpl; lia)).
  destruct (n <=? k) eqn:Enk; [done|]. apply Z.leb_gt in Enk.
  erewrite mseq_run; [|eapply HAS_NEXT_cons; [exact B2|lia|lia|done]]. cbn [negb].
  rewrite (mseq_run _ _ _ _ _ (NEXT_run _ _ _ _ _ _ B2 ltac:(lia) ltac:(lia))), (mseq_run _ _ _ _ _ (load_hdr _ _ _ _ _ _ B3)).
  rewrite present_hdr, datasz_word by (done || (destruct f; simpl; lia)). unfold HEAP_BL_DATASZ2SZ, sizeof_heap_block_t.
  rewrite (u64_small (z + 8 * 2)), (u64_small (z + 8 * 2 + k)), (u64_small (k + (z + 8 * 2))), (u64_small (n - k)) by lia.
  replace (z + 8 * 2 + k) with (k + z + 16) by lia. destruct (negb f && (n <=? k + z + 16)) eqn:Ef; [|done].
  apply andb_true_iff in Ef as [_ Ef%Z.leb_le].
  rewrite (s64_small z), (s64_small n), (s64_small k), (s64_small (n - k)), (s64_small (z - (n - k))) by lia. replace (z - (n - k) <=? 0) with (k + z <=? n)
    by (destruct (Z.leb_spec (k + z) n), (Z.leb_spec (z - (n - k)) 0); lia).
  destruct (Z.leb_spec (k + z) n); rewrite !mseq_assoc.
  - replace (u64 (k + (z + 8 * 2) - k)) with (z + 16) by (rewrite u64_small; lia). by replace (k + (z + 8 * 2)) with (k + z + 16) by lia.
  - unfold realloc_split. rewrite (u64_small (z - (n - k))) by lia. unfold mseq.
    destruct (HEAP_BL_SET a n HEAP_PRESENT s) as [[[] s1]| | | |]; try done. destruct (HEAP_BL_NEXT a s1) as [[y s2]| | | |]; try done.
    by destruct (HEAP_BL_SET y (z - (n - k)) 0 s2) as [[[] s3]| | | |].
Qed.

Lemma upd_used s heap0 f : upd_state heap0 (fun st => set_used (f (used_bytes st)) st) s =
  Ret (tt, set_heap heap0 (with_state (set_used (f (used_bytes (state (get_heap heap0 s))))) (get_heap heap0 s)) s).
Proof. done. Qed.

(** Growing into the whole right neighbour. *)
Lemma realloc_merge_run s pre k z post :
  let a := start (get_heap heap s) + span pre in
  heap_wf s heap (pre ++ (k, true) :: (z, false) :: post) ->
  exists m2, rewritten s pre k [(z, false)] (k + z + 16) [] post m2 /\
    realloc_merge a (a + 8) k z s = Ret (a + 8, rewrite_state s pre (k + z + 16) [] post m2).
Proof.
  intros a Hwf. set (m2 := set_block (get_mem s) a (k + z + 16) true). exists m2.
  destruct (wf_start _ _ _ Hwf) as [Hst _]. destruct (wf_mark _ _ _ Hwf) as [_ Hmk].
  pose proof (wf_blocks _ _ _ Hwf) as B. destruct (span_nonneg _ _ _ _ B) as [_ Hend].
  apply blocks_app in B as [B1 B2]. fold a in B1, B2. destruct (span_nonneg _ _ _ _ B1) as [Hs1 _].
  pose proof (blocks_mapped _ _ _ _ B2) as Hmap. pose proof B2 as (Hk & Hk8 & _ & _ & _ & (Hz & Hz8 & _ & _ & _ & B4)).
  destruct (span_nonneg _ _ _ _ B4) as [Hs4 He4].
  destruct (used_bound _ _ _ _ B1) as [Hu1 _], (used_bound _ _ _ _ B4) as [Hu4 _]. pose proof (wf_used _ _ _ Hwf) as Hu. rewrite used_app, !used_cons in Hu.
  assert (used (pre ++ (k + z + 16, true) :: [] ++ post) = used_bytes (state (get_heap heap s)) + (z + 16)) as Hub
    by (cbn [app]; rewrite used_app, used_cons; lia).
  split.
  - constructor; [exact Hwf|by repeat constructor|constructor| |lia| |].
    + rewrite span_cons. change (span []) with 0. lia.
    + fold a. rewrite span_cons. change (span []) with 0. replace (a + 16 + k + (z + 16 + 0)) with (a + 16 + (k + z + 16)) by lia.
      apply set_block_block; [lia|dlia|eapply mapped_weaken; [done|lia|lia]|lia|lia].
    + intros b j. fold a. rewrite span_cons. change (span []) with 0. intros Hd. apply set_block_agree; lia.
  - unfold realloc_merge. change HEAP_PRESENT with (flag true).
    rewrite (mseq_run _ _ _ _ _ (SET_run s a (k + z + 16) true ltac:(lia) ltac:(dlia) ltac:(eapply mapped_weaken; [done|lia|lia]) ltac:(lia) ltac:(lia))).
    fold m2. rewrite (mseq_run _ _ _ _ _ (upd_used (set_mem m2 s) heap (fun u => u64 (u + (z + 16))))). rewrite get_heap_set_mem, u64_small, <- Hub by lia. done.
Qed.

(** Growing into a part of the right neighbour. *)
Lemma realloc_split_run s pre k z post n :
  let a := start (get_heap heap s) + span pre in
  heap_wf s heap (pre ++ (k, true) :: (z, false) :: post) -> n mod 8 = 0 -> k < n < k + z ->
  exists m2, rewritten s pre k [(z, false)] n [(z - (n - k), false)] post m2 /\
    realloc_split a (a + 8) k z n s = Ret (a + 8, rewrite_state s pre n [(z - (n - k), false)] post m2).
Proof.
  intros a Hwf Hn8 Hn. set (m1 := set_block (get_mem s) a n true). set (m2 := set_block m1 (a + 16 + n) (z - (n - k)) false). exists m2.
  destruct (wf_start _ _ _ Hwf) as [Hst _]. destruct (wf_mark _ _ _ Hwf) as [_ Hmk].
  pose proof (wf_blocks _ _ _ Hwf) as [B1 B2]%blocks_app. fold a in B1, B2. destruct (span_nonneg _ _ _ _ B1) as [Hs1 _].
  pose proof (blocks_mapped _ _ _ _ B2) as Hmap. pose proof B2 as (Hk & Hk8 & _ & _ & _ & (Hz & Hz8 & _ & _ & _ & B4)).
  destruct (span_nonneg _ _ _ _ B4) as [Hs4 He4].
  destruct (used_bound _ _ _ _ B1) as [Hu1 _], (used_bound _ _ _ _ B4) as [Hu4 _]. pose proof (wf_used _ _ _ Hwf) as Hu. rewrite used_app, !used_cons in Hu.
  assert (used (pre ++ (n, true) :: [(z - (n - k), false)] ++ post) = used_bytes (state (get_heap heap s)) + (n - k)) as Hub
    by (cbn [app]; rewrite used_app, !used_cons; lia).
  assert (Hm1 : blocks m1 a [(n, true)] (a + 16 + n)) by (apply set_block_block; [lia|done|eapply mapped_weaken; [done|lia|lia]|lia|lia]).
  assert (Hmm : mapped m1 (a + 16 + n) (z - (n - k) + 16)) by (apply set_block_mapped; eapply mapped_weaken; [done|lia|lia]).
  split.
  - constructor; [exact Hwf|by repeat constructor|by repeat constructor| |lia| |].
    + rewrite !span_cons. change (span []) with 0. lia.
    + fold a. apply (blocks_app _ _ [(n, true)]). rewrite !span_cons. change (span []) with 0. replace (a + (n + 16 + 0)) with (a + 16 + n) by lia. split.
      * eapply blocks_agree; [exact Hm1|]. apply set_block_agree; lia.
      * replace (a + 16 + k + (z + 16 + 0)) with (a + 16 + n + 16 + (z - (n - k))) by lia. apply set_block_block; [lia|dlia|done|lia|lia].
    + intros b j. fold a. rewrite span_cons. change (span []) with 0. intros Hd. eapply agree_trans; apply set_block_agree; lia.
  - unfold realloc_split. change HEAP_PRESENT with (flag true).
    rewrite (mseq_run _ _ _ _ _ (SET_run s a n true ltac:(lia) ltac:(done) ltac:(eapply mapped_weaken; [done|lia|lia]) ltac:(lia) ltac:(lia))). fold m1.
    erewrite mseq_run; [|eapply (NEXT_run _ _ n true []); [rewrite get_set_mem; exact Hm1|lia|lia]]. change 0 with (flag false) at 1.
    erewrite mseq_run; [|apply SET_run; [lia|dlia|by rewrite get_set_mem|lia|lia]]. rewrite get_set_mem, set_set_mem. fold m2.
    rewrite (mseq_run _ _ _ _ _ (upd_used (set_mem m2 s) heap (fun u => u64 (u + (n - k))))). rewrite get_heap_set_mem, u64_small, <- Hub by lia. done.
Qed.

(** The management words of a size that is no multiple of 8. *)
Lemma ragged_word n p : 0 <= n -> Z.lor n (flag p) = (if p then n / 2 * 2 + 1 else n).
Proof.
  intros Hn. destruct p; cbn [flag]; [|apply Z.lor_0_r].
  assert (E : n = Z.lor (n / 2 * 2) (n mod 2)).
  { rewrite (lor_small _ _ 1) by (change (2 ^ 1) with 2; dlia). dlia. }
  rewrite E at 1. rewrite <- Z.lor_assoc. assert (Z.lor (n mod 2) 1 = 1) as ->.
  { destruct (Z.mod_pos_bound n 2) as [? ?]; [lia|]. by assert (n mod 2 = 0 \/ n mod 2 = 1) as [-> | ->] by lia. }
  apply (lor_small _ _ 1); [lia|change (2 ^ 1) with 2; dlia|lia].
Qed.
Lemma ragged_datasz n p : 0 <= n -> HEAP_BL_B2DATASZ (Z.lor n (flag p)) = n / 4 * 4.
Proof.
  intros Hn. rewrite ragged_word by done. set (x := if p then _ else _).
  change (HEAP_BL_B2DATASZ x) with (ALIGN_DN x (2 ^ 2)). rewrite ALIGN_DN_pow2 by lia. unfold x. change (2 ^ 2) with 4. destruct p; dlia.
Qed.
Lemma lor_sum x c : 0 <= x -> 0 <= c -> 0 <= Z.lor x c <= x + c.
Proof.
  intros Hx Hc. pose proof (Z.add_lor_land x c). pose proof (proj2 (Z.land_nonneg x c) (or_introl Hx)).
  split; [by apply Z.lor_nonneg|lia].
Qed.

Definition ragged_mem (m : memory) (a w : Z) (p : bool) : memory :=
  mwrite 8 (mwrite 8 m a (Z.lor w (flag p))) (a + 8 + w / 4 * 4) (Z.lor (Z.lor w (flag p)) HEAP_FOOTER).

Lemma SET_ragged s a w p :
  0 <= w < 2 ^ 62 -> mapped (get_mem s) a (w / 4 * 4 + 16) -> 0 <= a -> a + 16 + w < 2 ^ 64 ->
  HEAP_BL_SET a w (flag p) s = Ret (tt, set_mem (ragged_mem (get_mem s) a w p) s).
Proof.
  intros Hw Hm Ha Hb. unfold HEAP_BL_SET. assert (0 <= flag p <= 1) by (destruct p; simpl; lia).
  pose proof (lor_sum w (flag p) ltac:(lia) ltac:(lia)).
  unfold store64. rewrite (mseq_run _ _ _ _ _ (store_run 8 a _ s ltac:(eapply mapped_weaken; [done|lia|change (Z.of_nat 8) with 8; dlia]))).
  unfold HEAP_BL_H2F, load64.
  erewrite mseq_run; [|erewrite mseq_run; [done|apply load_run; rewrite get_set_mem; apply mread_mwrite_eq; change (256 ^ Z.of_nat 8) with (2 ^ 64); lia]].
  rewrite ragged_datasz, u64_small by (unfold sizeof_heap_block_t; dlia).
  change (a + sizeof_heap_block_t + w / 4 * 4) with (a + 8 + w / 4 * 4).
  rewrite store_run; [by rewrite get_set_mem, set_set_mem|].
  rewrite get_set_mem. apply mapped_mwrite. eapply mapped_weaken; [done|dlia|change (Z.of_nat 8) with 8; dlia].
Qed.

Lemma ragged_agree m a w p b j : 0 <= w -> b + j <= a \/ a + 8 <= b /\ b + j <= a + 8 + w / 4 * 4 \/ a + 16 + w / 4 * 4 <= b ->
  agree m (ragged_mem m a w p) b j.
Proof. intros Hw Hd. eapply agree_trans; apply mwrite_agree; change (Z.of_nat 8) with 8; dlia. Qed.

Lemma ragged_read m a w p : 0 <= w < 2 ^ 62 -> mread 8 (ragged_mem m a w p) a = Some (Z.lor w (flag p)).
Proof.
  intros Hw. assert (0 <= flag p <= 1) by (destruct p; simpl; lia). pose proof (lor_sum w (flag p) ltac:(lia) ltac:(lia)).
  unfold ragged_mem. rewrite mread_mwrite_ne by (change (Z.of_nat 8) with 8; dlia).
  apply mread_mwrite_eq. change (256 ^ Z.of_nat 8) with (2 ^ 64). lia.
Qed.

(** The blocks from [a] on are what the words say: with a given beginning. *)
Lemma blocks_prefix m pre : forall a b bs e, blocks m a pre b -> blocks m a bs e -> b < e ->
  exists rest, bs = pre ++ rest /\ blocks m b rest e.
Proof.
  induction pre as [|[z p] pre IH]; intros a b bs e Hp Hb Hlt; [exists bs; by rewrite (Hp : a = b) in Hb|].
  pose proof (span_nonneg _ _ _ _ Hp) as [_ Hsp]. destruct Hp as (Hz & Hz8 & Hr & _ & _ & Hp). destruct (span_nonneg _ _ _ _ Hp) as [? _].
  destruct bs as [|[z' p'] bs]; [simpl in Hb; rewrite span_cons in Hsp; lia|].
  destruct Hb as (Hz' & Hz8' & Hr' & _ & _ & Hb). rewrite Hr in Hr'. injection Hr' as Hw.
  assert (z = z' /\ p = p') as [<- <-] by (destruct p, p'; cbn [flag] in Hw; split; (done || dlia)).
  destruct (IH _ _ _ _ Hp Hb Hlt) as (rest & -> & Hrest). by exists rest.
Qed.

(** A block whose words hold a size that is no multiple of 8. *)
Record ragged s s' (p k n : Z) : Prop := {
  rg_word : mread 8 (get_mem s') (p - 8) = Some (Z.lor n HEAP_PRESENT);
  rg_footer : mread 8 (get_mem s') (p + n / 4 * 4) = Some (Z.lor (Z.lor n HEAP_PRESENT) HEAP_FOOTER);
  rg_data : agree (get_mem s) (get_mem s') p k;
  rg_others : forall q j, heap_live heap s !! q = Some j -> q <> p -> agree (get_mem s) (get_mem s') q j;
  rg_broken : ~ lheap_inv heap s';
}.

Definition ragged_state s (a k z n : Z) : St :=
  let m := ragged_mem (ragged_mem (get_mem s) a n true) (a + 16 + n / 4 * 4) (z - (n - k)) false in
  let u := used_bytes (state (get_heap heap s)) + (n - k) in
  set_heap heap (with_state (set_used u) (get_heap heap s)) (set_mem m s).

(** A heap with such words is not well-formed: the words of the block or those
    of the one behind it are not the words of any block. *)
Lemma ragged_broken m a b pre k z n bs e : let d := n / 4 * 4 in
  0 <= k -> k mod 8 = 0 -> z mod 8 = 0 -> k < n < k + z -> n < 2 ^ 62 -> n mod 8 <> 0 -> a + 16 + d < e ->
  mread 8 m a = Some (Z.lor n (flag true)) -> mread 8 m (a + 16 + d) = Some (Z.lor (z - (n - k)) (flag false)) ->
  blocks m b pre a -> ~ blocks m b bs e.
Proof.
  intros d Hk Hk8 Hz8 Hn Hb Hn8 He R1 R2 Hp Hbs. unfold d in *; clear d.
  destruct (blocks_prefix _ _ _ _ _ _ Hp Hbs) as (rest & -> & Hr); [dlia|].
  rewrite ragged_word in R1, R2 by lia. destruct rest as [|[z1 p1] rest]; [simpl in Hr; dlia|].
  destruct Hr as (Hz1 & Hz18 & Rd1 & _ & _ & Hr). rewrite R1 in Rd1. injection Rd1 as Hw1.
  assert (p1 = true /\ z1 = n / 4 * 4) as [-> ->] by (destruct p1; cbn [flag] in Hw1; split; (done || dlia)).
  destruct rest as [|[z2 p2] rest]; [simpl in Hr; lia|]. destruct Hr as (Hz2 & Hz28 & Rd2 & _).
  replace (a + 16 + n / 4 * 4) with (a + 16 + n / 4 * 4) in R2 by lia. rewrite R2 in Rd2. injection Rd2 as Hw2.
  cbn [flag] in Hw1. destruct p2; cbn [flag] in Hw2; dlia.
Qed.

Lemma ragged_sizes k z n : 0 <= k -> k mod 8 = 0 -> k < n < k + z -> z < 2 ^ 62 ->
  k <= n / 4 * 4 <= n /\ n / 4 * 4 + (z - (n - k)) / 4 * 4 <= k + z /\
  0 <= (z - (n - k)) / 4 * 4 <= z - (n - k) /\ 0 <= z - (n - k) < 2 ^ 62.
Proof. intros. split_and!; dlia. Qed.

Lemma realloc_ragged_run s pre k z post n :
  let a := start (get_heap heap s) + span pre in
  heap_wf s heap (pre ++ (k, true) :: (z, false) :: post) ->
  vmem_mark (state (get_heap heap s)) - start (get_heap heap s) < 2 ^ 62 -> n mod 8 <> 0 -> k < n < k + z ->
  realloc_split a (a + 8) k z n s = Ret (a + 8, ragged_state s a k z n) /\ ragged s (ragged_state s a k z n) (a + 8) k n.
Proof.
  intros a Hwf Hb Hn8 Hn. set (d := n / 4 * 4). set (y := z - (n - k)).
  destruct (wf_start _ _ _ Hwf) as [Hst _]. destruct (wf_mark _ _ _ Hwf) as [_ Hmk].
  pose proof (wf_blocks _ _ _ Hwf) as B. destruct (span_nonneg _ _ _ _ B) as [_ Hend]. pose proof B as [B1 B2]%blocks_app. fold a in B1, B2.
  destruct (span_nonneg _ _ _ _ B1) as [Hs1 _].
  pose proof (blocks_mapped _ _ _ _ B2) as Hmap. pose proof B2 as (Hk & Hk8 & _ & _ & _ & (Hz & Hz8 & _ & _ & _ & B4)).
  destruct (span_nonneg _ _ _ _ B4) as [Hs4 He4].
  destruct (used_bound _ _ _ _ B1) as [Hu1 _], (used_bound _ _ _ _ B4) as [Hu4 _]. pose proof (wf_used _ _ _ Hwf) as Hu. rewrite used_app, !used_cons in Hu.
  destruct (ragged_sizes k z n Hk Hk8 Hn ltac:(lia)) as (D1 & D2 & D3 & D4). fold d in D1, D2. fold y in D2, D3, D4.
  set (m1 := ragged_mem (get_mem s) a n true). set (m2 := ragged_mem m1 (a + 16 + d) y false).
  assert (R1 : mread 8 m1 a = Some (Z.lor n (flag true))) by (apply ragged_read; lia).
  assert (Hag : forall b j, b + j <= a \/ a + 8 <= b /\ b + j <= a + 8 + d \/ a + 32 + k + z <= b -> agree (get_mem s) m2 b j)
    by (intros b j Hbj; eapply agree_trans; apply ragged_agree; fold d; lia).
  assert (Hm2 : get_mem (ragged_state s a k z n) = m2) by (unfold ragged_state; by rewrite get_mem_set_heap, get_set_mem).
  split.
  - unfold realloc_split. change HEAP_PRESENT with (flag true).
    rewrite (mseq_run _ _ _ _ _ (SET_ragged s a n true ltac:(lia) ltac:(fold d; eapply mapped_weaken; [done|lia|lia]) ltac:(lia) ltac:(lia))). fold m1.
    assert (HEAP_BL_NEXT a (set_mem m1 s) = Ret (a + 16 + d, set_mem m1 s)) as Hnx.
    { unfold HEAP_BL_NEXT, HEAP_BL_H2F, load64. erewrite mseq_run; [|erewrite mseq_run; [done|apply load_run; rewrite get_set_mem; exact R1]].
      rewrite ragged_datasz by lia. fold d. unfold mreturn, sizeof_heap_block_t. ret_eq.
      rewrite (u64_small (a + 8 + d)), u64_small by lia. lia. }
    rewrite (mseq_run _ _ _ _ _ Hnx). change 0 with (flag false) at 1. fold y.
    erewrite mseq_run; [|apply SET_ragged; [lia|rewrite get_set_mem; do 2 apply mapped_mwrite; eapply mapped_weaken; [done|lia|lia]|lia|lia]].
    rewrite get_set_mem, set_set_mem. fold m2.
    rewrite (mseq_run _ _ _ _ _ (upd_used (set_mem m2 s) heap (fun u => u64 (u + (n - k))))). rewrite get_heap_set_mem, u64_small by lia. done.
  - constructor; rewrite ?Hm2.
    + replace (a + 8 - 8) with a by lia. rewrite (mread_ext 8 m1 m2); [exact R1|]. apply ragged_agree; lia.
    + fold d. rewrite (mread_ext 8 m1 m2) by (apply ragged_agree; lia). unfold m1, ragged_mem. fold d.
      apply mread_mwrite_eq. change (256 ^ Z.of_nat 8) with (2 ^ 64). pose proof (lor_sum n 1 ltac:(lia) ltac:(lia)).
      pose proof (lor_sum (Z.lor n 1) 2 ltac:(lia) ltac:(lia)). change HEAP_FOOTER with 2. change HEAP_PRESENT with 1. change (flag true) with 1. lia.
    + apply Hag. lia.
    + intros q j Hq Hne. apply Hag. rewrite (heap_live_wf _ _ _ Hwf), live_of_app in Hq.
      apply lookup_union_Some_raw in Hq as [Hq|[_ Hq]]; [destruct (live_of_low _ _ _ _ _ _ B1 Hq); lia|].
      cbn [live_of] in Hq. fold a in Hq. rewrite lookup_insert_ne in Hq by done. destruct (live_of_low _ _ _ _ _ _ B4 Hq). lia.
    + intros ([bs Hbs] & _). pose proof (wf_blocks _ _ _ Hbs) as Hb'. rewrite Hm2 in Hb'.
      unfold ragged_state in Hb'. rewrite get_set_heap in Hb'.
      revert Hb'. apply (ragged_broken m2 a _ pre k z n); fold d; try done; [lia| |rewrite (mread_ext 8 m1 m2); [exact R1|apply ragged_agree; lia]|apply ragged_read; lia|].
      * change (a + 16 + d < vmem_mark (state (get_heap heap s))). lia.
      * eapply blocks_agree; [exact B1|]. apply Hag. lia.
Qed.

(** Moving.  The code does not look at the address heap_alloc gave: after
    NULL it copies to address 0. *)
Lemma realloc_move_ok s pre k post n fuel :
  let a := start (get_heap heap s) + span pre in
  lheap_inv heap s -> heap_wf s heap (pre ++ (k, true) :: post) -> k < n <= 2 ^ 61 ->
  fuel = heap_fuel (pre ++ (k, true) :: post) ->
  match heap_alloc fuel heap n s with
  | Ret (0, s1) => realloc_move fuel a (a + 8) n s = (memmove 0 (a + 8) k ;;; heap_free heap (a + 8) ;;; mreturn 0) s1
  | Ret (q, s1) => exists s', realloc_move fuel a (a + 8) n s = Ret (q, s') /\ heap_resized s s' (a + 8) k n q
  | Fatal msg => realloc_move fuel a (a + 8) n s = Fatal msg
  | _ => False
  end.
Proof.
  intros a Hi Hwf Hn ->. pose proof (wf_blocks _ _ _ Hwf) as [_ (Hk & Hk8 & _)]%blocks_app.
  assert (heap_live heap s !! (a + 8) = Some k) as Hp.
  { rewrite (heap_live_wf _ _ _ Hwf). rewrite live_of_app. destruct (live_of_mid _ _ _ _ _ _ _ (wf_blocks _ _ _ Hwf)) as [Hl _].
    fold a in Hl. rewrite lookup_union_r by done. simpl. by rewrite lookup_insert_eq. }
  pose proof (heap_alloc_ok (heap_fuel (pre ++ (k, true) :: post)) s heap n _ Hwf ltac:(lia) ltac:(lia) ltac:(lia)) as Hok.
  unfold wpf in Hok. unfold realloc_move. destruct (heap_alloc _ heap n s) as [[q s1]|msg| | |] eqn:Ha; [|unfold mseq; by rewrite Ha|done..].
  destruct (alloc_post_kept _ _ _ _ _ _ _ _ _ Hwf Hok Hp) as [[bs1 Hwf1] Hp1].
  assert (load64 a s1 = Ret (k + 1, s1)) as Hld.
  { destruct (live_at_data _ _ _ _ _ Hwf1 Hp1) as (pre1 & post1 & -> & He & _). pose proof (wf_blocks _ _ _ Hwf1) as [_ B]%blocks_app.
    replace a with (start (get_heap heap s1) + span pre1) by lia. exact (load_hdr _ _ _ _ _ _ B). }
  rewrite (mseq_run _ _ _ _ _ Ha), (mseq_run _ _ _ _ _ Hld). change (k + 1) with (k + flag true). rewrite datasz_word by (done || (simpl; lia)).
  destruct (Z.eq_dec q 0) as [->|Hq]; [done|].
  destruct (@move_block St _ (lheap_ops heap) (lheap heap) s s1 (a + 8) k n q) as (_ & s2 & s3 & Hr2 & Hr3 & R); [done|done|lia|simpl; lia| |done|].
  { simpl. by rewrite (heap_blocks_wf _ _ _ Hwf). }
  assert (exists s', (memmove q (a + 8) k ;;; heap_free heap (a + 8) ;;; mreturn q) s1 = Ret (q, s') /\ heap_resized s s' (a + 8) k n q) as Hex.
  { exists s3. split; [|done]. rewrite (mseq_run _ _ _ _ _ Hr2). change (heap_free heap (a + 8) s2 = Ret (tt, s3)) in Hr3. by rewrite (mseq_run _ _ _ _ _ Hr3). }
  by destruct q.
Qed.

(** The next block is free, and the request is for a part of it, or for all of
    it and nothing is behind it. *)
Definition cuts s (p n : Z) : Prop := exists pre k z post, heap_blocks heap s = pre ++ (k, true) :: (z, false) :: post /\
  p = start (get_heap heap s) + span pre + 8 /\ k < n < k + z.
Definition takes_last s (p n : Z) : Prop := exists pre k z, heap_blocks heap s = pre ++ [(k, true); (z, false)] /\
  p = start (get_heap heap s) + span pre + 8 /\ k < n /\ k + z <= n <= k + z + 16.

(** The two cases at the block between [pre] and its right neighbour. *)
Lemma takes_last_at s pre k z f post n :
  heap_wf s heap (pre ++ (k, true) :: (z, f) :: post) ->
  takes_last s (start (get_heap heap s) + span pre + 8) n <-> f = false /\ post = [] /\ k < n /\ k + z <= n <= k + z + 16.
Proof.
  intros Hwf. pose proof (heap_blocks_wf _ _ _ Hwf) as Hb. split.
  - intros (pre' & k' & z' & Hb' & Hpp & Hkn & Hz). rewrite Hb in Hb'.
    destruct (split_inj _ _ _ _ _ _ _ _ _ (wf_blocks _ _ _ Hwf) Hb') as (-> & Hkk & Hpost); [lia|]. by simplify_eq.
  - intros (-> & -> & Hk & Hz). by exists pre, k, z.
Qed.
Lemma cuts_at s pre k z f post n :
  heap_wf s heap (pre ++ (k, true) :: (z, f) :: post) ->
  cuts s (start (get_heap heap s) + span pre + 8) n <-> f = false /\ k < n < k + z.
Proof.
  intros Hwf. pose proof (heap_blocks_wf _ _ _ Hwf) as Hb. split.
  - intros (pre' & k' & z' & post' & Hb' & Hpp & Hkn). rewrite Hb in Hb'.
    destruct (split_inj _ _ _ _ _ _ _ _ _ (wf_blocks _ _ _ Hwf) Hb') as (-> & Hkk & Hpost); [lia|]. by simplify_eq.
  - intros (-> & Hk). by exists pre, k, z, post.
Qed.

(** What heap_realloc of the block [p] of [k] bytes does. *)
Inductive realloc_outcome (fuel : nat) s (p k n : Z) : outcome (Z * St) -> Prop :=
| ro_resized q s' :                (* in place or moved *)
    ~ takes_last s p n -> (cuts s p n -> n mod 8 = 0) -> (k < n -> q <> p -> exists s1, heap_alloc fuel heap n s = Ret (q, s1)) ->
    heap_resized s s' p k n q -> realloc_outcome fuel s p k n (Ret (q, s'))
| ro_to_end s' :                   (* in place, up to the end of the heap *)
    takes_last s p n -> heap_holds s s' p k n p -> ~ lheap_inv heap s' -> realloc_outcome fuel s p k n (Ret (p, s'))
| ro_ragged s' :                   (* in place, by a cut at a size that is no multiple of 8 *)
    cuts s p n -> n mod 8 <> 0 -> ragged s s' p k n -> realloc_outcome fuel s p k n (Ret (p, s'))
| ro_null s1 :                     (* no memory: a copy to address 0 *)
    k < n -> heap_alloc fuel heap n s = Ret (0, s1) ->
    realloc_outcome fuel s p k n ((memmove 0 p k ;;; heap_free heap p ;;; mreturn 0) s1)
| ro_fatal msg :                   (* the allocation stopped the machine *)
    k < n -> heap_alloc fuel heap n s = Fatal msg -> realloc_outcome fuel s p k n (Fatal msg).

Lemma realloc_move_outcome s pre k post n fuel :
  let p := start (get_heap heap s) + span pre + 8 in
  lheap_inv heap s -> heap_wf s heap (pre ++ (k, true) :: post) -> k < n <= 2 ^ 61 ->
  fuel = heap_fuel (pre ++ (k, true) :: post) -> ~ takes_last s p n -> ~ cuts s p n ->
  realloc_outcome fuel s p k n (realloc_move fuel (start (get_heap heap s) + span pre) p n s).
Proof.
  intros p Hi Hwf Hn Hf Hl Hnc. pose proof (realloc_move_ok s pre k post n fuel Hi Hwf Hn Hf) as Hm. cbv zeta in Hm. fold p in Hm.
  assert (forall q s1 s', heap_alloc fuel heap n s = Ret (q, s1) -> heap_resized s s' p k n q -> realloc_outcome fuel s p k n (Ret (q, s'))) as Hres
    by (intros q s1 s' Ha R; apply ro_resized; [done|by intros ?|intros _ _; by exists s1|done]).
  destruct (heap_alloc fuel heap n s) as [[[|q|q] s1]|msg| | |] eqn:Ha; try done.
  - rewrite Hm. apply ro_null; [lia|done].
  - destruct Hm as (s' & -> & R). by eapply Hres.
  - destruct Hm as (s' & -> & R). by eapply Hres.
  - rewrite Hm. apply ro_fatal; [lia|done].
Qed.
End inplace.

Module ReallocDemo.
Import HeapDemo.

Lemma inv3 : lheap_inv 128 c3.
Proof. split_and!; [exists [(104, true); (3936, true); (8, false)]; apply wf3|by vm_compute|by vm_compute]. Qed.

(** A block of 104 bytes with a used neighbour moves. *)
Definition c4 : hst := state_of (heap_realloc (heap_fuel (heap_blocks 128 c3)) 128 4194312 200 c3) c3.
Lemma run4 : heap_realloc (heap_fuel (heap_blocks 128 c3)) 128 4194312 200 c3 = Ret (4198384, c4).
Proof. apply ret_val_run. by vm_compute. Qed.


(** A heap of one page at the end of what can be mapped. *)
Definition d0 : hst := Hst ∅ {[ 128 := Heap (top - 4096) top (Z.lor PG_WRITABLE PG_USER) 7 (HeapState false 0 0 0) ]} 0 7 8192.
Definition d1 : hst := state_of (heap_init 0 128 d0) d0.
Definition d2 : hst := state_of (heap_alloc 9 128 100 d1) d1.

(** When no memory is left for the larger block, heap_realloc does not return
    NULL: it copies the data to address 0. *)
Theorem heap_realloc_no_memory :
  ret_val (heap_alloc 9 128 8000 d2) = Some 0 /\ heap_realloc 9 128 (top - 4096 + 8) 8000 d2 = Fault 0.
Proof. split; by vm_compute. Qed.
End ReallocDemo.
