(* ===== verification/Bmap.v ===== *)
(** * Bitmaps: bmap.c

    A bitmap is its header with the 64-bit words of its storage; a word
    outside the storage faults.  [1 << off] in the source is an [int]
    shift: on x86 the count is taken modulo 32 and the result is
    sign-extended to 64 bits, which [bit_mask] writes out.  The macros'
    arithmetic is unsigned 64-bit and wraps. *)

From S2P Require Import Prelude Mem Alloc.

Record bitmap_t := Bitmap {
  storage : list Z; bits : Z; hint : Z; allocated : bool; set_cnt : Z }.

Definition BMAP_SRCH_BACKWARD : Z := 1.
Definition BMAP_SRCH_HINTED : Z := 2.

Definition BMAP_BITLOC (bit : Z) : Z * Z := (bit / 64, bit mod 64).
Definition BMAP_NEXT_MUL (x m : Z) : Z := u64 (u64 (x + (m - 1)) / m * m).
Definition BMAP_PREV_MUL (x m : Z) : Z := u64 (BMAP_NEXT_MUL x m - m).

(** [1 << off], converted to [uintptr_t]. *)
Definition bit_mask (off : Z) : Z := u64 (s32 (Z.shiftl 1 (off mod 32))).

Definition with_storage f (b : bitmap_t) :=
  Bitmap (f (storage b)) (bits b) (hint b) (allocated b) (set_cnt b).
Definition with_cnt c (b : bitmap_t) :=
  Bitmap (storage b) (bits b) (hint b) (allocated b) c.
Definition with_hint h (b : bitmap_t) :=
  Bitmap (storage b) (bits b) h (allocated b) (set_cnt b).

Definition bmap_get (bit : Z) : M bitmap_t Z := fun b =>
  if bits b <? bit then Ret (0, b)
  else
    let (idx, off) := BMAP_BITLOC bit in
    match storage b !! Z.to_nat idx with
    | Some w => Ret (Z.land (Z.shiftr w off) 1, b)
    | None => Fault (8 * idx)
    end.

Definition bmap_set (bit value : Z) : M bitmap_t unit := fun b =>
  if bits b <? bit then Ret (tt, b)
  else
    let (idx, off) := BMAP_BITLOC bit in
    match storage b !! Z.to_nat idx with
    | Some w =>
        if negb (value =? 0)
        then Ret (tt, with_cnt (u64 (set_cnt b + 1))
               (with_storage (<[Z.to_nat idx := Z.lor w (bit_mask off)]>) b))
        else Ret (tt, with_cnt (u64 (set_cnt b - 1))
               (with_storage (<[Z.to_nat idx := Z.ldiff w (bit_mask off)]>) b))
    | None => Fault (8 * idx)
    end.

(** [while(start < end) bmap_set(bmap, start++, value);] *)
Fixpoint bmap_fill_loop (n : nat) (value start : Z) : M bitmap_t unit :=
  match n with
  | O => mreturn tt
  | S n' => bmap_set start value ;;; bmap_fill_loop n' value (start + 1)
  end.

Definition bmap_fill (value start end_ : Z) : M bitmap_t bool :=
  b <- mget ;;
  if (bits b <=? start) || (bits b <=? end_) then mreturn false
  else bmap_fill_loop (Z.to_nat (end_ - start)) value start ;;; mreturn true.

Definition bmap_clear (value : Z) : M bitmap_t unit :=
  b <- mget ;;
  bmap_fill value 0 (u64 (bits b - 1)) ;;;
  mmodify (with_cnt 0).

(** [bmap_init] of a header over [st], whose words are whatever the memory
    held.  The field [set_cnt] of the header is not written before
    [bmap_clear] sets it. *)
Definition bmap_init (st : list Z) (bitcnt cnt0 : Z) : outcome (bool * bitmap_t) :=
  (bmap_clear 0 ;;; mreturn true) (Bitmap st bitcnt 0 false cnt0).

(** [bmap_new]: [hdr] and [st] are the results of the two allocations, [None]
    for NULL; the storage holds [bitcnt / 8] bytes, rounded up to words by
    the heap. *)
Definition bmap_storage_words (bitcnt : Z) : Z := (bitcnt / 8 + 7) / 8.

Definition bmap_new (bitcnt : Z) (hdr : option Z) (st : option (list Z)) : outcome (option bitmap_t) :=
  match hdr with
  | None => Ret None
  | Some cnt0 =>
      match st with
      | None => Ret None
      | Some w =>
          match bmap_init w bitcnt cnt0 with
          | Ret (_, b) => Ret (Some b)
          | Fatal m => Fatal m
          | Fault a => Fault a
          | Deadlock => Deadlock
          | NoFuel => NoFuel
          end
      end
  end.

(** [bmap_destroy]: the blocks it gives back, of a header at [hdr] with its
    storage at [st]. *)
Definition bmap_destroy (bmap : option bitmap_t) (hdr st : Z) : list Z :=
  match bmap with
  | Some b => if allocated b then [st; hdr] else []
  | None => []
  end.

(** The forward loop; the result is the final [start] and [con]. *)
Fixpoint srch_forward (fuel : nat) (value cnt mul start con : Z) : M bitmap_t (Z * Z) :=
  match fuel with
  | O => mnofuel
  | S f =>
      b <- mget ;;
      if (start <? bits b) && (con <? cnt) then
        v <- bmap_get start ;;
        if v =? value then
          if con + 1 =? cnt then mreturn (start, con + 1)
          else srch_forward f value cnt mul (start + 1) (con + 1)
        else srch_forward f value cnt mul (BMAP_NEXT_MUL (start + 1) mul) 0
      else mreturn (start, con)
  end.

Fixpoint srch_backward (fuel : nat) (value cnt mul start con : Z) : M bitmap_t (Z * Z) :=
  match fuel with
  | O => mnofuel
  | S f =>
      b <- mget ;;
      if start <=? bits b then
        v <- bmap_get start ;;
        if v =? value then
          if con + 1 =? cnt then mreturn (start, con + 1)
          else srch_backward f value cnt mul (u64 (start - 1)) (con + 1)
        else srch_backward f value cnt mul
               (u64 (BMAP_PREV_MUL (u64 (u64 (start - 1) - cnt)) mul + cnt)) 0
      else mreturn (start, con)
  end.

(** One search; [hinted] is the flag BMAP_SRCH_HINTED.  The result is the
    index found, if any. *)
Definition srch_once (fuel : nat) (value cnt mul : Z) (backward hinted : bool) : M bitmap_t (option Z) :=
  b <- mget ;;
  start <- (if backward then
              r <- srch_backward fuel value cnt mul
                     (u64 (BMAP_PREV_MUL (u64 ((if hinted then hint b else u64 (bits b - 1)) - cnt)) mul + cnt)) 0 ;;
              mreturn (fst r)
            else
              r <- srch_forward fuel value cnt mul (BMAP_NEXT_MUL (if hinted then hint b else 0) mul) 0 ;;
              mreturn (u64 (fst r - (snd r - 1)))) ;;
  if negb (start mod mul =? 0) then mfatal "internal implementation error!"
  else if bits b <=? start then mreturn None
  else mreturn (Some start).

Definition bmap_search (fuel : nat) (value cnt mul flags : Z) : M bitmap_t (option Z) :=
  if cnt =? 0 then mreturn None
  else
    let value := if negb (value =? 0) then 1 else 0 in
    let mul := if mul =? 0 then 1 else mul in
    let backward := negb (Z.land flags BMAP_SRCH_BACKWARD =? 0) in
    let hinted := negb (Z.land flags BMAP_SRCH_HINTED =? 0) in
    r <- srch_once fuel value cnt mul backward hinted ;;
    match r with
    | Some i => mmodify (with_hint (u64 (i + cnt))) ;;; mreturn (Some i)
    | None =>
        if negb hinted then mreturn None
        else
          r' <- srch_once fuel value cnt mul backward false ;;
          match r' with
          | Some i => mmodify (with_hint (u64 (i + cnt))) ;;; mreturn (Some i)
          | None => mreturn None
          end
    end.

Definition bmap_fdeg (b : bitmap_t) : Z := u64 (set_cnt b * 100) / bits b.

(** ** The bits of a bitmap *)

Definition bm_test (b : bitmap_t) (i : Z) : bool :=
  match storage b !! Z.to_nat (i / 64) with
  | Some w => Z.testbit w (i mod 64)
  | None => false
  end.

Definition is_bit (v : bool) : Z := if v then 1 else 0.

(** The storage covers the bits, and its words are 64-bit words. *)
Record bm_wf (b : bitmap_t) : Prop := {
  bw_bits : 0 < bits b < 2 ^ 62;
  bw_len : bits b <= 64 * Z.of_nat (length (storage b));
  bw_words : Forall (fun w => 0 <= w < 2 ^ 64) (storage b);
}.

(** The positions [bmap_set] handles correctly. *)
Definition good_bit (i : Z) : Prop := 0 <= i mod 64 < 31.

(** The bits [bmap_set] of bit [i] writes: the mask is a 32-bit [int], so a
    position of 32 and more in a word stands for the one 32 below, and
    position 31 for the whole upper half from there. *)
Definition marks (i j : Z) : bool :=
  (j / 64 =? i / 64) && (if i mod 32 =? 31 then 31 <=? j mod 64 else j mod 64 =? i mod 32).

Lemma bit_mask_range off : 0 <= bit_mask off < 2 ^ 64.
Proof. unfold bit_mask, u64. apply Z.mod_pos_bound. lia. Qed.

Lemma bit_mask_testbit off k : 0 <= off < 64 -> 0 <= k < 64 ->
  Z.testbit (bit_mask off) k = if off mod 32 =? 31 then 31 <=? k else k =? off mod 32.
Proof.
  intros Ho Hk.
  assert (forallb (fun o => forallb (fun q => eqb (Z.testbit (bit_mask o) q) (if o mod 32 =? 31 then 31 <=? q else q =? o mod 32))
    (seqZ 0 64)) (seqZ 0 64) = true) as Hall by (by vm_compute).
  rewrite forallb_forall in Hall. specialize (Hall off ltac:(apply list_elem_of_In, elem_of_seqZ; lia)).
  rewrite forallb_forall in Hall. specialize (Hall k ltac:(apply list_elem_of_In, elem_of_seqZ; lia)). by apply eqb_prop.
Qed.

Lemma marks_good i j : good_bit i -> marks i j = (j =? i).
Proof.
  intros Hg. unfold good_bit in Hg. unfold marks.
  assert (i mod 32 = i mod 64) as Hm by dlia. rewrite Hm. destruct (Z.eqb_spec (i mod 64) 31); [lia|].
  destruct (Z.eqb_spec (j / 64) (i / 64)), (Z.eqb_spec (j mod 64) (i mod 64)), (Z.eqb_spec j i); try done; exfalso; dlia.
Qed.

(** A bit of a position below 32 marks itself. *)
Lemma marks_self i : i mod 64 < 32 -> marks i i = true.
Proof.
  intros Hi. unfold marks. rewrite Z.eqb_refl. assert (i mod 32 = i mod 64) as -> by dlia.
  destruct (Z.eqb_spec (i mod 64) 31); [|by rewrite Z.eqb_refl]. apply Z.leb_le. lia.
Qed.

(** The bits that marking the [n] bits from [x] on writes. *)
Definition marked (x n j : Z) : bool := existsb (fun i => marks i j) (seqZ x n).

Lemma marked_spec x n j : marked x n j = true <-> exists i, x <= i < x + n /\ marks i j = true.
Proof.
  unfold marked. rewrite existsb_exists. split; intros (i & Hi & Hm); exists i; (split; [|done]);
    [apply list_elem_of_In, elem_of_seqZ in Hi|apply list_elem_of_In, elem_of_seqZ]; lia.
Qed.
Lemma marked_0 x j : marked x 0 j = false.
Proof. done. Qed.
Lemma marked_S x n j : 0 <= n -> marked x (n + 1) j = marks x j || marked (x + 1) n j.
Proof. intros Hn. unfold marked. rewrite seqZ_cons by lia. cbn [existsb]. by replace (Z.pred (n + 1)) with n by lia. Qed.

(** All the positions are good: the bits themselves and no other. *)
Definition good_run (x n : Z) : Prop := forall j, x <= j < x + n -> good_bit j.
Lemma marked_good x n j : good_run x n -> marked x n j = true <-> x <= j < x + n.
Proof.
  intros Hg. rewrite marked_spec. split.
  - intros (i & Hi & Hm). rewrite marks_good in Hm by (by apply Hg). apply Z.eqb_eq in Hm. lia.
  - intros Hj. exists j. split; [done|]. rewrite marks_good by (by apply Hg). apply Z.eqb_refl.
Qed.
Lemma marked_self x n j : x <= j < x + n -> j mod 64 < 32 -> marked x n j = true.
Proof. intros Hj Hm. apply marked_spec. exists j. split; [done|by apply marks_self]. Qed.

Lemma land_1_testbit w off : 0 <= off -> Z.land (Z.shiftr w off) 1 = is_bit (Z.testbit w off).
Proof.
  intros Ho. change 1 with (Z.ones 1). rewrite Z.land_ones by lia. change (2 ^ 1) with 2.
  rewrite <-Z.bit0_mod, Z.shiftr_spec by lia. replace (0 + off) with off by lia.
  by destruct (Z.testbit w off).
Qed.

Lemma bmap_get_run b i :
  bm_wf b -> 0 <= i < bits b -> bmap_get i b = Ret (is_bit (bm_test b i), b).
Proof.
  intros [Hb Hl Hw] Hi. unfold bmap_get, bm_test, BMAP_BITLOC.
  destruct (Z.ltb_spec (bits b) i); [lia|].
  destruct (lookup_lt_is_Some_2 (storage b) (Z.to_nat (i / 64))) as [w ->]; [dlia|].
  rewrite land_1_testbit; [done|dlia].
Qed.

(** A word below 2^64 whose bits from 64 on are those of two such words. *)
Lemma word_range w w' : 0 <= w < 2 ^ 64 -> 0 <= w' -> (forall k, 64 <= k -> Z.testbit w' k = Z.testbit w k) -> 0 <= w' < 2 ^ 64.
Proof.
  intros Hw Hw' Hk. split; [done|]. apply Z.bounded_iff_bits_nonneg; [lia|done|]. intros l Hl. rewrite Hk by done.
  exact (proj1 (Z.bounded_iff_bits_nonneg 64 w ltac:(lia) ltac:(lia)) ltac:(lia) l ltac:(lia)).
Qed.
Lemma mask_high off k : 64 <= k -> Z.testbit (bit_mask off) k = false.
Proof.
  intros Hk. pose proof (bit_mask_range off).
  exact (proj1 (Z.bounded_iff_bits_nonneg 64 (bit_mask off) ltac:(lia) ltac:(lia)) ltac:(lia) k ltac:(lia)).
Qed.

(** What [bmap_set] writes, at every position. *)
Lemma bmap_set_run b i v :
  bm_wf b -> 0 <= i < bits b -> v = 0 \/ v = 1 ->
  exists b', bmap_set i v b = Ret (tt, b') /\ bm_wf b' /\ bits b' = bits b /\ hint b' = hint b /\
    set_cnt b' = u64 (set_cnt b + (if v =? 0 then -1 else 1)) /\
    forall j, 0 <= j -> bm_test b' j = if marks i j then (v =? 1) else bm_test b j.
Proof.
  intros [Hb Hl Hw] Hi Hv. unfold bmap_set, BMAP_BITLOC. destruct (Z.ltb_spec (bits b) i); [lia|].
  set (idx := Z.to_nat (i / 64)). set (off := i mod 64).
  destruct (lookup_lt_is_Some_2 (storage b) idx) as [w Hiw]; [unfold idx; dlia|]. rewrite Hiw.
  assert (Hw64 : 0 <= w < 2 ^ 64) by (by eapply (Forall_lookup_1 _ _ _ _ Hw)). pose proof (bit_mask_range off).
  assert (Hgen : forall w' c, 0 <= w' < 2 ^ 64 ->
    (forall k, 0 <= k < 64 -> Z.testbit w' k = if Z.testbit (bit_mask off) k then (v =? 1) else Z.testbit w k) ->
    exists b', Ret (tt, with_cnt c (with_storage (<[idx := w']>) b)) = Ret (tt, b') /\ bm_wf b' /\
      bits b' = bits b /\ hint b' = hint b /\ set_cnt b' = c /\
      forall j, 0 <= j -> bm_test b' j = if marks i j then (v =? 1) else bm_test b j).
  { intros w' c Hr Ht. eexists. split; [done|]. split_and!; [|done..|].
    - constructor; simpl; [done|by rewrite length_insert|]. by apply Forall_insert.
    - intros j Hj. unfold bm_test, marks. simpl. destruct (Z.eqb_spec (j / 64) (i / 64)) as [He|He].
      + rewrite He. fold idx. rewrite list_lookup_insert_eq, Hiw by (by eapply lookup_lt_Some). rewrite Ht by dlia.
        rewrite bit_mask_testbit by (unfold off; dlia). replace (off mod 32) with (i mod 32) by (unfold off; dlia). done.
      + rewrite list_lookup_insert_ne; [done|]. unfold idx. intros Hx. apply He. dlia. }
  destruct Hv as [-> | ->]; simpl; apply Hgen.
  - apply (word_range w); [done|apply Z.ldiff_nonneg; lia|]. intros k Hk. by rewrite Z.ldiff_spec, mask_high, andb_true_r by lia.
  - intros k Hk. rewrite Z.ldiff_spec. destruct (Z.testbit (bit_mask off) k); [by rewrite andb_false_r|by rewrite andb_true_r].
  - apply (word_range w); [done|apply Z.lor_nonneg; lia|]. intros k Hk. by rewrite Z.lor_spec, mask_high, orb_false_r by lia.
  - intros k Hk. rewrite Z.lor_spec. destruct (Z.testbit (bit_mask off) k); [by rewrite orb_true_r|by rewrite orb_false_r].
Qed.

(** ** Filling *)

Lemma fill_loop_run n b v start :
  bm_wf b -> v = 0 \/ v = 1 -> 0 <= start -> start + Z.of_nat n <= bits b ->
  exists b', bmap_fill_loop n v start b = Ret (tt, b') /\ bm_wf b' /\ bits b' = bits b /\
    hint b' = hint b /\
    forall j, 0 <= j -> bm_test b' j = if marked start (Z.of_nat n) j then (v =? 1) else bm_test b j.
Proof.
  revert b start. induction n as [|n IH]; intros b start Hb Hv Hs He.
  { exists b. split_and!; try done. }
  destruct (bmap_set_run b start v) as (b1 & Hrun1 & Hb1 & Hbits1 & Hh1 & _ & Ht1); [done|lia|done|].
  destruct (IH b1 (start + 1)) as (b2 & Hrun2 & Hb2 & Hbits2 & Hh2 & Ht2); [done|done|lia|lia|].
  exists b2. cbn [bmap_fill_loop]. rewrite (mseq_run _ _ _ _ _ Hrun1). split_and!; [done|done|congruence|congruence|].
  intros j Hj. rewrite Ht2, Ht1 by done. replace (Z.of_nat (S n)) with (Z.of_nat n + 1) by lia. rewrite marked_S by lia.
  by destruct (marks start j), (marked (start + 1) (Z.of_nat n) j).
Qed.

Lemma bmap_fill_run b v start end_ :
  bm_wf b -> v = 0 \/ v = 1 -> 0 <= start <= end_ -> end_ < bits b ->
  exists b', bmap_fill v start end_ b = Ret (true, b') /\ bm_wf b' /\ bits b' = bits b /\
    hint b' = hint b /\
    forall j, 0 <= j -> bm_test b' j = if marked start (end_ - start) j then (v =? 1) else bm_test b j.
Proof.
  intros Hb Hv Hs He.
  destruct (fill_loop_run (Z.to_nat (end_ - start)) b v start) as (b' & Hrun & ? & ? & ? & Ht);
    [done|done|lia|lia|]. rewrite Z2Nat.id in Ht by lia.
  exists b'. split_and!; [|done..].
  unfold bmap_fill, mget. unfold mseq at 1. destruct (Z.leb_spec (bits b) start); [lia|].
  destruct (Z.leb_spec (bits b) end_); [lia|]. cbn [orb]. by rewrite (mseq_run _ _ _ _ _ Hrun).
Qed.

(** ** Searching *)

Lemma next_mul_spec x m :
  0 <= x < 2 ^ 63 -> 0 < m < 2 ^ 62 ->
  x <= BMAP_NEXT_MUL x m < x + m /\ BMAP_NEXT_MUL x m mod m = 0.
Proof.
  intros Hx Hm. unfold BMAP_NEXT_MUL. rewrite (u64_small (x + _)) by lia.
  pose proof (Z.div_mod (x + (m - 1)) m ltac:(lia)) as Hd.
  pose proof (Z.mod_pos_bound (x + (m - 1)) m ltac:(lia)).
  rewrite u64_small by nia. split; [nia|]. apply Z.mod_mul. lia.
Qed.

Lemma next_mul_1 x : 0 <= x < 2 ^ 63 -> BMAP_NEXT_MUL x 1 = x.
Proof. intros Hx. destruct (next_mul_spec x 1); lia. Qed.

(** [run b v i n]: the [n] bits from [i] on all have the value [v]. *)
Definition run (b : bitmap_t) (v i n : Z) : Prop :=
  forall j, i <= j < i + n -> is_bit (bm_test b j) = v.

Lemma srch_forward_ok fuel b v cnt mul start con :
  bm_wf b -> 0 < mul < 2 ^ 62 -> 0 <= con < cnt -> con <= start < 2 ^ 63 ->
  (start - con) mod mul = 0 -> run b v (start - con) con ->
  Z.max 0 (bits b - start) < Z.of_nat fuel ->
  exists start' con', srch_forward fuel v cnt mul start con b = Ret ((start', con'), b) /\
    0 <= start' < 2 ^ 63 /\
    (con' = cnt /\ cnt <= start' + 1 /\ start' < bits b /\ run b v (start' - cnt + 1) cnt /\
       (start' - cnt + 1) mod mul = 0 \/
     0 <= con' < cnt /\ bits b <= start' /\ con' <= start').
Proof.
  revert start con. induction fuel as [|fuel IH]; intros start con Hb Hm Hc Hs Hmod Hrun Hf; [lia|].
  destruct (bw_bits _ Hb). cbn [srch_forward]. unfold mget. unfold mseq at 1.
  destruct (Z.ltb_spec start (bits b)) as [Hlt|Hge]; cbn [andb].
  2:{ exists start, con. split; [done|]. split; [lia|]. right. lia. }
  destruct (Z.ltb_spec con cnt); [|lia].
  rewrite (mseq_run _ _ _ _ _ (bmap_get_run b start Hb ltac:(lia))).
  destruct (Z.eqb_spec (is_bit (bm_test b start)) v) as [Hv|Hv].
  - assert (Hrun' : run b v (start - con) (con + 1)).
    { intros j Hj. destruct (decide (j = start)) as [->|]; [done|]. apply Hrun. lia. }
    destruct (Z.eqb_spec (con + 1) cnt) as [He|He].
    + exists start, (con + 1). split; [done|]. split; [lia|]. left.
      replace (start - cnt + 1) with (start - con) by lia. rewrite <-He. split_and!; [lia..|done|done].
    + replace (start - con) with (start + 1 - (con + 1)) in * by lia. apply IH; try done; lia.
  - destruct (next_mul_spec (start + 1) mul) as [Hn Hn']; [lia|lia|].
    apply IH; try done; try lia; [by rewrite Z.sub_0_r|]. intros j Hj. lia.
Qed.

(** One forward search from the hint or from zero. *)
Lemma srch_once_ok fuel b v cnt mul hinted :
  bm_wf b -> 0 < mul < 2 ^ 62 -> 0 < cnt < 2 ^ 62 -> 0 <= hint b < 2 ^ 62 -> bits b < Z.of_nat fuel ->
  wpf (srch_once fuel v cnt mul false hinted) (fun r b' => b' = b /\
    match r with
    | Some i => 0 <= i < bits b /\ i mod mul = 0 /\ (i + cnt <= bits b -> run b v i cnt)
    | None => True
    end) b.
Proof.
  intros Hb Hm Hc Hh Hf. destruct (bw_bits _ Hb) as [? ?].
  assert (Hh' : 0 <= (if hinted then hint b else 0) < 2 ^ 62) by (destruct hinted; lia).
  destruct (next_mul_spec (if hinted then hint b else 0) mul) as [Hn Hn']; [lia|lia|].
  destruct (srch_forward_ok fuel b v cnt mul (BMAP_NEXT_MUL (if hinted then hint b else 0) mul) 0)
    as (st & con & Hrun & Hst & Hres); [done|lia|lia|lia|by rewrite Z.sub_0_r|intros j Hj; lia|lia|].
  unfold srch_once. eapply wpf_seq; [reflexivity|]. eapply wpf_seq; [by rewrite (mseq_run _ _ _ _ _ Hrun)|].
  cbn [fst snd]. destruct (Z.eqb_spec (u64 (st - (con - 1)) mod mul) 0) as [He|He]; cbn [negb]; [|done].
  destruct (Z.leb_spec (bits b) (u64 (st - (con - 1)))) as [Hle|Hlt]; apply wpf_ret; [done|].
  split; [done|]. destruct Hres as [(-> & H1 & H2 & H3 & H4)|(H1 & H2 & H3)].
  - rewrite u64_small in * by lia. replace (st - (cnt - 1)) with (st - cnt + 1) in * by lia.
    split_and!; [lia|lia|done|done].
  - rewrite u64_small in * by lia. split_and!; [lia|lia|done|]. intros. exfalso. lia.
Qed.

Lemma bmap_search_ok fuel b v cnt mul flags :
  bm_wf b -> 0 <= mul < 2 ^ 62 -> 0 < cnt < 2 ^ 62 -> 0 <= hint b < 2 ^ 62 -> bits b < Z.of_nat fuel ->
  Z.land flags BMAP_SRCH_BACKWARD = 0 -> v = 0 \/ v = 1 ->
  wpf (bmap_search fuel v cnt mul flags) (fun r b' =>
    match r with
    | Some i => b' = with_hint (i + cnt) b /\ 0 <= i < bits b /\
                (mul <> 0 -> i mod mul = 0) /\ (i + cnt <= bits b -> run b v i cnt)
    | None => b' = b
    end) b.
Proof.
  intros Hb Hm Hc Hh Hf Hfl Hv. unfold bmap_search. destruct (Z.eqb_spec cnt 0); [lia|].
  rewrite Hfl. cbn [negb Z.eqb].
  assert (Hvv : (if negb (v =? 0) then 1 else 0) = v) by (by destruct Hv as [-> | ->]). rewrite Hvv.
  set (mul' := if mul =? 0 then 1 else mul).
  assert (Hm' : 0 < mul' < 2 ^ 62 /\ (mul <> 0 -> mul' = mul))
    by (unfold mul'; destruct (Z.eqb_spec mul 0); lia). destruct Hm' as [Hm' Hmm].
  destruct (bw_bits _ Hb) as [? ?].
  apply wpf_bind. eapply wpf_mono; [by apply srch_once_ok|]. intros r b1 [-> Hr].
  destruct r as [i|].
  { destruct Hr as (H1 & H2 & H3). unfold wpf. simpl. rewrite u64_small by lia.
    split_and!; [done|lia|lia|intros Hne; by rewrite <-(Hmm Hne)|done]. }
  destruct (negb (Z.land flags BMAP_SRCH_HINTED =? 0)); cbn [negb]; [|by apply wpf_ret].
  apply wpf_bind. eapply wpf_mono; [by apply srch_once_ok|]. intros r b1 [-> Hr'].
  destruct r as [i|]; [|by apply wpf_ret].
  destruct Hr' as (H1 & H2 & H3). unfold wpf. simpl. rewrite u64_small by lia.
  split_and!; [done|lia|lia|intros Hne; by rewrite <-(Hmm Hne)|done].
Qed.

(** A search for a single bit. *)
Lemma srch_one fuel b v start :
  bm_wf b -> 0 <= start < 2 ^ 63 -> Z.max 0 (bits b - start) < Z.of_nat fuel ->
  exists st con, srch_forward fuel v 1 1 start 0 b = Ret ((st, con), b) /\ start <= st < 2 ^ 63 /\
    (forall j, start <= j < st -> j < bits b -> is_bit (bm_test b j) <> v) /\
    (con = 1 /\ st < bits b /\ is_bit (bm_test b st) = v \/ con = 0 /\ bits b <= st).
Proof.
  revert start. induction fuel as [|fuel IH]; intros start Hb Hs Hf; [lia|].
  destruct (bw_bits _ Hb). cbn [srch_forward]. unfold mget. unfold mseq at 1.
  destruct (Z.ltb_spec start (bits b)) as [Hlt|Hge]; cbn [andb].
  2:{ exists start, 0. split; [done|]. split; [lia|]. split; [lia|]. right. lia. }
  change (0 <? 1) with true. cbn iota.
  rewrite (mseq_run _ _ _ _ _ (bmap_get_run b start Hb ltac:(lia))).
  destruct (Z.eqb_spec (is_bit (bm_test b start)) v) as [Hv|Hv].
  - exists start, 1. split; [done|]. split; [lia|]. split; [lia|]. by left.
  - rewrite next_mul_1 by lia.
    destruct (IH (start + 1)) as (st & con & Hrun & Hst & Hnone & Hres); [done|lia|lia|].
    exists st, con. split; [done|]. split; [lia|]. split; [|done].
    intros j Hj Hjb. destruct (decide (j = start)) as [->|]; [done|]. apply Hnone; lia.
Qed.

(** [i] is the first bit with value [v] from [h] on. *)
Definition first_bit (b : bitmap_t) (v h i : Z) : Prop :=
  h <= i < bits b /\ is_bit (bm_test b i) = v /\ forall j, h <= j < i -> is_bit (bm_test b j) <> v.

Lemma srch_once_one fuel b v hinted :
  bm_wf b -> 0 <= hint b < 2 ^ 62 -> bits b < Z.of_nat fuel ->
  exists r, srch_once fuel v 1 1 false hinted b = Ret (r, b) /\
    match r with
    | Some i => first_bit b v (if hinted then hint b else 0) i
    | None => forall j, (if hinted then hint b else 0) <= j < bits b -> is_bit (bm_test b j) <> v
    end.
Proof.
  intros Hb Hh Hf. destruct (bw_bits _ Hb) as [? ?].
  set (h := if hinted then hint b else 0).
  assert (Hh' : 0 <= h < 2 ^ 62) by (unfold h; destruct hinted; lia).
  destruct (srch_one fuel b v h) as (st & con & Hrun & Hst & Hnone & Hres); [done|lia|lia|].
  unfold srch_once, mget. unfold mseq at 1. fold h. rewrite next_mul_1 by lia.
  erewrite mseq_run; [|by rewrite (mseq_run _ _ _ _ _ Hrun)]. cbn [fst snd].
  rewrite Z.mod_1_r. cbn [negb Z.eqb]. destruct Hres as [(-> & H1 & H2)|(-> & H1)].
  - rewrite u64_small by lia. replace (st - (1 - 1)) with st by lia.
    destruct (Z.leb_spec (bits b) st); [lia|]. exists (Some st). split; [done|]. split; [lia|]. split; [done|].
    intros j Hj. apply Hnone; lia.
  - rewrite u64_small by lia. destruct (Z.leb_spec (bits b) (st - (0 - 1))); [|lia].
    exists None. split; [done|]. intros j Hj. apply Hnone; lia.
Qed.


(** On positions below 31 of a word, bmap_set is a write and bmap_get a
    read of one bit: the bit written reads back, every other bit keeps its
    value. *)
Theorem bmap_set_get b i v j :
  bm_wf b -> 0 <= i < bits b -> good_bit i -> v = 0 \/ v = 1 -> 0 <= j < bits b ->
  exists b', bmap_set i v b = Ret (tt, b') /\ bm_wf b' /\ bits b' = bits b /\
    bmap_get j b' = Ret (if decide (j = i) then v else is_bit (bm_test b j), b').
Proof.
  intros Hb Hi Hg Hv Hj. destruct (bmap_set_run b i v Hb Hi Hv) as (b' & Hrun & Hb' & Hbits & _ & _ & Ht).
  exists b'. split_and!; [done..|]. rewrite (bmap_get_run b' j Hb') by lia. rewrite Ht, marks_good by (done || lia).
  apply Ret_eq; [|done]. destruct (Z.eqb_spec j i); [|by rewrite decide_False]. rewrite decide_True by done. by destruct Hv as [-> | ->].
Qed.

#[local] Arguments Z.testbit : simpl never.
#[local] Arguments Z.lor : simpl never.

(** The mask is built by a 32-bit shift: setting bit 32 of a map marks bit
    0 instead and leaves bit 32 clear, and setting bit 31 marks the whole
    upper half of the word. *)
Theorem bmap_set_wraps b w :
  storage b = [w] -> 0 <= w < 2 ^ 31 -> 32 < bits b <= 64 ->
  (exists b', bmap_set 32 1 b = Ret (tt, b') /\ bm_test b' 32 = false /\ bm_test b' 0 = true) /\
  (exists b', bmap_set 31 1 b = Ret (tt, b') /\ forall j, 31 <= j < 64 -> bm_test b' j = true).
Proof.
  intros Hs Hw Hb. unfold bmap_set. change (BMAP_BITLOC 32) with (0, 32). change (BMAP_BITLOC 31) with (0, 31).
  destruct (Z.ltb_spec (bits b) 32); [lia|]. destruct (Z.ltb_spec (bits b) 31); [lia|].
  rewrite Hs. change (bit_mask 32) with 1. change (bit_mask 31) with (2 ^ 64 - 2 ^ 31). simpl.
  split; eexists; (split; [reflexivity|]); unfold bm_test; simpl; rewrite Hs; simpl.
  - change (32 mod 64) with 32. change (0 mod 64) with 0. rewrite !Z.lor_spec.
    rewrite (proj1 (Z.bounded_iff_bits_nonneg 31 w ltac:(lia) ltac:(lia)) ltac:(lia) 32) by lia.
    split; [done|]. by rewrite orb_true_r.
  - intros j Hj. rewrite (Z.div_small j 64), (Z.mod_small j 64) by lia. simpl.
    rewrite Z.lor_spec. replace (Z.testbit (2 ^ 64 - 2 ^ 31) j) with true; [by rewrite orb_true_r|].
    symmetry. change (2 ^ 64 - 2 ^ 31) with (Z.shiftl (Z.ones 33) 31).
    rewrite Z.shiftl_spec by lia. apply Z.ones_spec_low. lia.
Qed.

(** ** What is never given back *)

Lemma fill_loop_allocated n : forall value start b b',
  bmap_fill_loop n value start b = Ret (tt, b') -> allocated b' = allocated b.
Proof.
  induction n as [|n IH]; intros value start b b'; cbn [bmap_fill_loop]; [by intros [= <-]|].
  unfold mseq. destruct (bmap_set start value b) as [[[] b1]| | | |] eqn:E; [|done..].
  intros Hr. rewrite (IH _ _ _ _ Hr). revert E. unfold bmap_set, BMAP_BITLOC.
  destruct (bits b <? start); [by intros [= <-]|]. destruct (storage b !! _); [|done].
  destruct (negb (value =? 0)); by intros [= <-].
Qed.

(** Nothing ever sets the flag bmap_destroy looks at: a bitmap that bmap_new
    made is not freed. *)
Theorem bmap_destroy_leaks bitcnt cnt0 w b hdr st :
  bmap_new bitcnt (Some cnt0) (Some w) = Ret (Some b) -> bmap_destroy (Some b) hdr st = [].
Proof.
  unfold bmap_new, bmap_init, bmap_clear, bmap_fill, mget, mmodify, mreturn, mseq. cbn [bits].
  destruct (_ || _).
  - by intros [= <-].
  - destruct (bmap_fill_loop _ _ _ _) as [[[] b1]| | | |] eqn:E; [|done..]. intros [= <-].
    apply fill_loop_allocated in E. simpl in *. by rewrite E.
Qed.

Module BmapDemo.
(** The boot bitmap: 32 bits over one word, page 0 in use. *)
Definition b32 : bitmap_t := Bitmap [1] 32 0 false 1.
Lemma b32_wf : bm_wf b32.
Proof. constructor; simpl; [lia|lia|]. by repeat constructor. Qed.


Lemma bmap_set_get_witness : exists b', bmap_set 7 1 b32 = Ret (tt, b') /\ bmap_get 7 b' = Ret (1, b').
Proof.
  destruct (bmap_set_get b32 7 1 7 b32_wf ltac:(simpl; lia) ltac:(unfold good_bit; vm_compute; split; congruence)
    ltac:(lia) ltac:(simpl; lia)) as (b' & Hrun & _ & _ & Hget).
  exists b'. split; [exact Hrun|exact Hget].
Defined.

Lemma bmap_set_wraps_witness :
  exists b', bmap_set 32 1 (Bitmap [0] 64 0 false 0) = Ret (tt, b') /\ bm_test b' 32 = false.
Proof.
  destruct (bmap_set_wraps (Bitmap [0] 64 0 false 0) 0 eq_refl ltac:(lia) ltac:(simpl; lia))
    as [(b' & Hrun & Ht & _) _].
  exists b'. split; [exact Hrun|exact Ht].
Defined.

(** A search for several bits accepts the run the map ends with although it is
    too short, and from its second bit on: three bits are asked for, bits 30
    and 31 alone are clear. *)
Theorem bmap_search_short_run :
  ret_val (bmap_search 40 0 3 1 0 (Bitmap [2 ^ 30 - 1] 32 0 false 30)) = Some (Some 31).
Proof. by vm_compute. Qed.

(** A search that finds nothing for a multiple above 1 stops the machine. *)
Theorem bmap_search_mul_fatal :
  bmap_search 40 0 1 4 0 (Bitmap [2 ^ 32 - 1] 32 0 false 32) = Fatal "internal implementation error!".
Proof. by vm_compute. Qed.

Lemma bmap_destroy_leaks_witness : bmap_destroy (Some (Bitmap [0] 32 0 false 0)) 16 32 = [].
Proof. apply (bmap_destroy_leaks 32 0 [7]). vm_compute. reflexivity. Defined.
End BmapDemo.
