(* ===== verification/Pmem.v ===== *)
(** * Physical memory: pmem.c

    The region list with its bitmaps, and the lock.  The linked list from
    [pmem_region_head] to [pmem_region_tail] is a Rocq list in that order;
    a region's bitmap is a value of Bmap.v. *)

From S2P Require Import Prelude Mem Alloc Bmap.

Definition PMEM_PAGESIZE : Z := 4096.
Definition PMEM_PAGES (len : Z) : Z := ALIGN_UP len PMEM_PAGESIZE / PMEM_PAGESIZE.

Record pmem_region_t := Region { bmap : bitmap_t; start : Z; length : Z }.

(** [pmem_lock]: 0 when free, else the holder. *)
Record pmem := Pmem { regions : list pmem_region_t; pmem_lock : Z }.

Definition with_bmap (b : bitmap_t) (r : pmem_region_t) := Region b (start r) (length r).

Definition PMEM_TO_REGBIT (r : pmem_region_t) (a : Z) : Z :=
  u64 (ALIGN_DN a PMEM_PAGESIZE - start r) / PMEM_PAGESIZE.
Definition PMEM_FROM_REGBIT (r : pmem_region_t) (a : Z) : Z := u64 (start r + a * PMEM_PAGESIZE).

Definition pmem_reg_contains (reg : pmem_region_t) (addr : Z) : bool :=
  (start reg <=? addr) && (addr <? u64 (start reg + length reg)).

(** A lock that is held is never released by anybody else while this CPU
    spins: the call does not return. *)
Definition spl_lock : M pmem unit := fun s =>
  if pmem_lock s =? 0 then Ret (tt, Pmem (regions s) 1) else Deadlock.
Definition spl_unlock : M pmem unit := fun s => Ret (tt, Pmem (regions s) 0).

(** Run a bitmap operation on the bitmap of region number [i]. *)
Definition on_bmap {A} (i : nat) (op : M bitmap_t A) : M pmem A := fun s =>
  match regions s !! i with
  | None => Fault 0
  | Some r =>
      match op (bmap r) with
      | Ret (a, b) => Ret (a, Pmem (<[i := with_bmap b r]> (regions s)) (pmem_lock s))
      | Fatal m => Fatal m
      | Fault a => Fault a
      | Deadlock => Deadlock
      | NoFuel => NoFuel
      end
  end.

(** Fuel for a search: one step per bit and one to leave the loop. *)
Definition srch_fuel (r : pmem_region_t) : nat := S (Z.to_nat (bits (bmap r))).

(** The search of one region, under the lock. *)
Definition pmem_try_region (i : nat) (r : pmem_region_t) (len align : Z) : M pmem (option Z) :=
  spl_lock ;;;
  idx <- on_bmap i (bmap_search (srch_fuel r) 0 (PMEM_PAGES len) (align / PMEM_PAGESIZE) BMAP_SRCH_HINTED) ;;
  match idx with
  | Some x =>
      ok <- on_bmap i (bmap_fill 1 x (u64 (x + PMEM_PAGES len))) ;;
      if (ok : bool) then spl_unlock ;;; mreturn (Some (PMEM_FROM_REGBIT r x))
      else spl_unlock ;;; mreturn None
  | None => spl_unlock ;;; mreturn None
  end.

(** [while(reg)]: [n] regions are left, the next one is number [i]. *)
Fixpoint pmem_alloc_helper_loop (n i : nat) (len align : Z) (use_fdeg : bool) : M pmem (option Z) :=
  match n with
  | O => mreturn None
  | S n' =>
      s <- mget ;;
      match regions s !! i with
      | None => mreturn None
      | Some r =>
          let fdeg := if use_fdeg then bmap_fdeg (bmap r) else 0 in
          if (fdeg =? 0) || (u64 (len * 100) <? u64 (length r * u64 (100 - fdeg))) then
            a <- pmem_try_region i r len align ;;
            match a with
            | Some x => mreturn (Some x)
            | None => pmem_alloc_helper_loop n' (S i) len align use_fdeg
            end
          else pmem_alloc_helper_loop n' (S i) len align use_fdeg
      end
  end.

Definition pmem_alloc_helper (len align : Z) (use_fdeg : bool) : M pmem (option Z) :=
  s <- mget ;; pmem_alloc_helper_loop (List.length (regions s)) 0 len align use_fdeg.

Definition pmem_alloc (len align : Z) : M pmem Z :=
  a <- pmem_alloc_helper len align true ;;
  match a with
  | Some x => mreturn x
  | None =>
      a' <- pmem_alloc_helper len align false ;;
      match a' with
      | Some x => mreturn x
      | None => mfatal "out of physical memory"
      end
  end.

(** [pmem_free]: the first region that contains the address. *)
Fixpoint pmem_free_loop (n i : nat) (addr len : Z) : M pmem unit :=
  match n with
  | O => mreturn tt
  | S n' =>
      s <- mget ;;
      match regions s !! i with
      | None => mreturn tt
      | Some r =>
          if pmem_reg_contains r addr then
            let bit := PMEM_TO_REGBIT r addr in
            on_bmap i (bmap_fill 0 bit (u64 (bit + PMEM_PAGES len))) ;;; mreturn tt
          else pmem_free_loop n' (S i) addr len
      end
  end.

Definition pmem_free (addr len : Z) : M pmem unit :=
  s <- mget ;; pmem_free_loop (List.length (regions s)) 0 addr len.

(** [while(pmem_reg_contains(reg, cur))] of [pmem_reserve], for region [i].
    The result is the new [cur] and how the loop was left: [Some true] at
    [pass_ok], [Some false] when a page is in use, [None] when [cur] left
    the region. *)
Fixpoint reserve_region (fuel : nat) (i : nat) (check : bool) (top cur : Z) : M pmem (Z * option bool) :=
  match fuel with
  | O => mnofuel
  | S f =>
      s <- mget ;;
      match regions s !! i with
      | None => mreturn (cur, None)
      | Some r =>
          if pmem_reg_contains r cur then
            let idx := PMEM_TO_REGBIT r cur in
            used <- (if check then on_bmap i (bmap_get idx)
                     else on_bmap i (bmap_set idx 1) ;;; mreturn 0) ;;
            if negb (used =? 0) then mreturn (cur, Some false)
            else
              let cur' := u64 (cur + PMEM_PAGESIZE) in
              if top <=? cur' then mreturn (cur', Some true)
              else reserve_region f i check top cur'
          else mreturn (cur, None)
      end
  end.

(** [while(reg)] over the regions from number [i] on. *)
Fixpoint reserve_regions (fuel : nat) (n i : nat) (check : bool) (top cur : Z) : M pmem (Z * option bool) :=
  match n with
  | O => mreturn (cur, None)
  | S n' =>
      r <- reserve_region fuel i check top cur ;;
      match snd r with
      | Some _ => mreturn r
      | None => reserve_regions fuel n' (S i) check top (fst r)
      end
  end.

(** One pass: [while(top > cur)]; false when a page is in use. *)
Fixpoint reserve_pass (fuel : nat) (check : bool) (top cur : Z) : M pmem bool :=
  match fuel with
  | O => mnofuel
  | S f =>
      if cur <? top then
        s <- mget ;;
        r <- reserve_regions fuel (List.length (regions s)) 0 check top cur ;;
        match snd r with
        | Some ok => mreturn ok
        | None => reserve_pass f check top (u64 (fst r + PMEM_PAGESIZE))
        end
      else mreturn true
  end.

Definition pmem_reserve (fuel : nat) (addr len : Z) : M pmem bool :=
  if negb (ALIGN_RST addr PMEM_PAGESIZE =? 0) then mfatal "misaligned physical address!"
  else
    spl_lock ;;;
    let top := u64 (addr + len) in
    ok <- reserve_pass fuel true top addr ;;
    if negb ok then spl_unlock ;;; mreturn false
    else reserve_pass fuel false top addr ;;; spl_unlock ;;; mreturn true.

(** The checks of [pmem_add] against one region: what is left to add. *)
Inductive add_check := AddNone | AddRecheck (s l : Z) | AddNext.

Definition pmem_add_check (r : pmem_region_t) (s l : Z) : add_check :=
  let rend := u64 (start r + length r) in
  let send := u64 (s + l) in
  if (start r <=? s) && (s <? rend) then
    if send <=? rend then AddNone
    else AddRecheck rend (u64 (l - u64 (rend - s)))
  else if (start r <? send) && (send <? rend) then
    if start r <=? s then AddNone else AddRecheck s (u64 (start r - s))
  else AddNext.

Fixpoint pmem_add_scan (rs : list pmem_region_t) (s l : Z) : add_check :=
  match rs with
  | [] => AddNext
  | r :: rs' => match pmem_add_check r s l with AddNext => pmem_add_scan rs' s l | c => c end
  end.

(** [recheck:] until a scan changes nothing.  [None]: nothing to add. *)
Fixpoint pmem_add_clip (fuel : nat) (rs : list pmem_region_t) (s l : Z) : outcome (option (Z * Z)) :=
  match fuel with
  | O => NoFuel
  | S f =>
      match pmem_add_scan rs s l with
      | AddNone => Ret None
      | AddRecheck s' l' => pmem_add_clip f rs s' l'
      | AddNext => Ret (Some (s, l))
      end
  end.

(** [region_ok], [hdr], [st]: the results of the three allocations. *)
Definition pmem_add (fuel : nat) (s l : Z) (region_ok : bool) (hdr : option Z) (st : Z -> option (list Z))
    : M pmem unit := fun p =>
  match pmem_add_clip fuel (regions p) s l with
  | Ret None => Ret (tt, p)
  | Ret (Some (s', l')) =>
      match bmap_new (PMEM_PAGES l') hdr (st (PMEM_PAGES l')) with
      | Ret (Some b) =>
          if region_ok then Ret (tt, Pmem (regions p ++ [Region b s' l']) (pmem_lock p))
          else Ret (tt, p)
      | Ret None => Ret (tt, p)
      | Fatal m => Fatal m
      | Fault a => Fault a
      | Deadlock => Deadlock
      | NoFuel => NoFuel
      end
  | Fatal m => Fatal m
  | Fault a => Fault a
  | Deadlock => Deadlock
  | NoFuel => NoFuel
  end.

Record pmem_info_t := PmemInfo { alloc_pages : Z; free_pages : Z }.

Definition pmem_info (s : pmem) : pmem_info_t :=
  foldl (fun i r => PmemInfo (u64 (alloc_pages i + set_cnt (bmap r)))
                             (u64 (free_pages i + u64 (bits (bmap r) - set_cnt (bmap r)))))
        (PmemInfo 0 0) (regions s).

(** [extp_iterate]: run the callbacks of one extension point in order. *)
Fixpoint extp_run (cbs : list (M pmem unit)) : M pmem unit :=
  match cbs with [] => mreturn tt | cb :: cbs' => cb ;;; extp_run cbs' end.

(** [pmem_init]: [w] is the word at [first_storage], [first_start] the
    physical address of [init_phys], [ebss] the end of the kernel image;
    [kheap_init] and the callbacks allocate through this module. *)
Definition pmem_init (fuel : nat) (w first_start ebss : Z) (kheap_init : M pmem unit)
    (region_cbs reserve_cbs : list (M pmem unit)) : M pmem unit := fun _ =>
  match bmap_init [w] 32 0 with
  | Ret (_, b) =>
      (kheap_init ;;;
       extp_run region_cbs ;;;
       pmem_reserve fuel 0 PMEM_PAGESIZE ;;;
       pmem_reserve fuel PMEM_PAGESIZE (PMEM_PAGESIZE * 158) ;;;
       pmem_reserve fuel 0xA0000 (u64 (ebss - 0xA0000)) ;;;
       extp_run reserve_cbs)
        (Pmem [Region b first_start (PMEM_PAGESIZE * 32)] 0)
  | Fatal m => Fatal m
  | Fault a => Fault a
  | Deadlock => Deadlock
  | NoFuel => NoFuel
  end.

(** ** The invariant

    Regions of any size below the limit of physical addresses, with a bit for
    every page in the storage.  What the bits say of the pages is another
    matter: [bmap_set] gets the positions wrong that are above 30 in their word
    of 64 (see [marks]), so the theorems speak of the bits [marked x n] that an
    operation on the pages [x] to [x + n - 1] writes.  These are the pages
    themselves when their positions are good ([marked_good]). *)

Record reg_wf (r : pmem_region_t) : Prop := {
  rw_bm : bm_wf (bmap r);
  rw_end : start r + length r <= 2 ^ 52;
  rw_len : length r = PMEM_PAGESIZE * bits (bmap r);
  rw_start : 0 <= start r /\ start r mod PMEM_PAGESIZE = 0;
  rw_hint : 0 <= hint (bmap r) < 2 ^ 62;
}.

Lemma reg_bits r : reg_wf r -> 0 < bits (bmap r) <= 2 ^ 40 /\ start r + 4096 * bits (bmap r) <= 2 ^ 52.
Proof. intros [[[] _ _] R2 R3 [R4 _] _]. unfold PMEM_PAGESIZE in *. lia. Qed.

Record pm_wf (s : pmem) : Prop := {
  pw_lock : pmem_lock s = 0;
  pw_regs : Forall reg_wf (regions s);
}.

(** [same_but s s' P]: the regions are the same, their bits too except that
    page [j] of region [k] has the value [v] when [P k j]. *)
Definition same_but (s s' : pmem) (P : nat -> Z -> Prop) (v : bool) : Prop :=
  forall k r, regions s !! k = Some r ->
    exists r', regions s' !! k = Some r' /\ start r' = start r /\ length r' = length r /\
      bits (bmap r') = bits (bmap r) /\
      (forall j, 0 <= j -> P k j -> bm_test (bmap r') j = v) /\
      (forall j, 0 <= j -> ~ P k j -> bm_test (bmap r') j = bm_test (bmap r) j).

Definition nothing : nat -> Z -> Prop := fun _ _ => False.

Lemma same_but_refl s v : same_but s s nothing v.
Proof. intros k r Hr. exists r. split_and!; try done. Qed.

Lemma same_but_trans s1 s2 s3 P v :
  same_but s1 s2 nothing v -> same_but s2 s3 P v -> same_but s1 s3 P v.
Proof.
  intros H1 H2 k r Hr. destruct (H1 k r Hr) as (r2 & Hr2 & E1 & E2 & E3 & _ & E5).
  destruct (H2 k r2 Hr2) as (r3 & Hr3 & F1 & F2 & F3 & F4 & F5).
  exists r3. split_and!; [done|congruence|congruence|congruence|done|].
  intros j Hj Hn. rewrite F5 by done. apply E5; [done|by intros []].
Qed.

Lemma bm_test_hint b h j : bm_test (with_hint h b) j = bm_test b j.
Proof. done. Qed.

Lemma pages_pos len : 0 < len < 2 ^ 52 -> 0 < PMEM_PAGES len < 2 ^ 52.
Proof.
  intros Hl. unfold PMEM_PAGES, PMEM_PAGESIZE. rewrite ALIGN_UP_4096 by lia.
  rewrite Z.div_mul by lia. dlia.
Qed.

Lemma on_bmap_run {A} i (op : M bitmap_t A) s r a b :
  regions s !! i = Some r -> op (bmap r) = Ret (a, b) ->
  on_bmap i op s = Ret (a, Pmem (<[i := with_bmap b r]> (regions s)) (pmem_lock s)).
Proof. intros Hr Hop. unfold on_bmap. by rewrite Hr, Hop. Qed.

Lemma on_bmap_wpf {A} i (op : M bitmap_t A) s r Q :
  regions s !! i = Some r ->
  wpf op (fun a b => Q a (Pmem (<[i := with_bmap b r]> (regions s)) (pmem_lock s))) (bmap r) ->
  wpf (on_bmap i op) Q s.
Proof.
  intros Hr. unfold wpf, on_bmap. rewrite Hr. by destruct (op (bmap r)) as [[]| | | |].
Qed.

(** A new bitmap for region [i] with the same bits up to [P]. *)
Lemma same_but_insert s i r b (P : Z -> Prop) v lk :
  regions s !! i = Some r -> bits b = bits (bmap r) ->
  (forall j, 0 <= j -> P j -> bm_test b j = v) ->
  (forall j, 0 <= j -> ~ P j -> bm_test b j = bm_test (bmap r) j) ->
  same_but s (Pmem (<[i := with_bmap b r]> (regions s)) lk) (fun k j => k = i /\ P j) v.
Proof.
  intros Hr Hb H1 H2 k r' Hk. simpl. destruct (decide (k = i)) as [->|Hne].
  - rewrite list_lookup_insert_eq by (by eapply lookup_lt_Some). simplify_eq.
    eexists. split; [done|]. simpl. split_and!; [done..| |].
    + intros j Hj [_ Hp]. by apply H1.
    + intros j Hj Hn. apply H2; [done|]. naive_solver.
  - rewrite list_lookup_insert_ne by done. exists r'. split_and!; try done. naive_solver.
Qed.

Lemma same_but_keep s i r b v lk :
  regions s !! i = Some r -> bits b = bits (bmap r) -> storage b = storage (bmap r) ->
  same_but s (Pmem (<[i := with_bmap b r]> (regions s)) lk) nothing v.
Proof.
  intros Hr Hb Hs k r' Hk.
  destruct (same_but_insert s i r b (fun _ => False) v lk Hr Hb) with (k := k) (r := r')
    as (r'' & ? & ? & ? & ? & _ & E); [done|intros; unfold bm_test; by rewrite Hs|done|].
  exists r''. split_and!; try done. intros j Hj _. apply E; [done|naive_solver].
Qed.

Lemma reg_wf_insert s i r b lk :
  Forall reg_wf (regions s) -> regions s !! i = Some r -> bm_wf b -> bits b = bits (bmap r) ->
  0 <= hint b < 2 ^ 62 -> Forall reg_wf (regions (Pmem (<[i := with_bmap b r]> (regions s)) lk)).
Proof.
  intros Hf Hr Hb Hbits Hh. simpl. apply Forall_insert; [done|].
  destruct (Forall_lookup_1 _ _ _ _ Hf Hr) as [R1 R2 R3 R4 R5].
  constructor; simpl; [done|lia|congruence|done|done].
Qed.

(** The changes as a function: what [bmap_fill] of pages of region [i] does. *)
Lemma same_but_fill s i r b x n v lk :
  regions s !! i = Some r -> bits b = bits (bmap r) ->
  (forall j, 0 <= j -> bm_test b j = if marked x n j then v else bm_test (bmap r) j) ->
  same_but s (Pmem (<[i := with_bmap b r]> (regions s)) lk) (fun k j => k = i /\ marked x n j = true) v.
Proof.
  intros Hr Hb Ht. apply (same_but_insert s i r b (fun j => marked x n j = true) v lk Hr Hb); intros j Hj Hm; rewrite Ht by done.
  - by rewrite Hm.
  - by destruct (marked x n j).
Qed.
Lemma same_but_iff s s' (P Q : nat -> Z -> Prop) v : (forall k j, P k j <-> Q k j) -> same_but s s' P v -> same_but s s' Q v.
Proof.
  intros HPQ H k r Hr. destruct (H k r Hr) as (r' & ? & ? & ? & ? & H1 & H2). exists r'. split_and!; [done..| |].
  - intros j Hj Hq. by apply H1, HPQ.
  - intros j Hj Hq. apply H2; [done|]. by rewrite HPQ.
Qed.
(** On pages at good positions these are the pages. *)
Lemma same_but_good s s' i x n v : good_run x n ->
  same_but s s' (fun k j => k = i /\ marked x n j = true) v -> same_but s s' (fun k j => k = i /\ x <= j < x + n) v.
Proof. intros Hg. apply same_but_iff. intros k j. by rewrite marked_good. Qed.

(** The pages a successful attempt on region [i] hands out. *)
Definition handed (s : pmem) (i : nat) (x n addr : Z) : Prop :=
  exists r, regions s !! i = Some r /\ 0 <= x /\ x + n < bits (bmap r) /\
    addr = start r + x * PMEM_PAGESIZE /\ run (bmap r) 0 x n.

Definition alloc_result (s : pmem) (n : Z) (a : option Z) (s' : pmem) : Prop :=
  pm_wf s' /\
  match a with
  | None => same_but s s' nothing true
  | Some addr => exists i x, handed s i x n addr /\
      same_but s s' (fun k j => k = i /\ marked x n j = true) true
  end.

Lemma try_region_ok s i r len align :
  pm_wf s -> regions s !! i = Some r -> 0 < len < 2 ^ 52 -> 0 <= align < 2 ^ 52 ->
  wpf (pmem_try_region i r len align) (alloc_result s (PMEM_PAGES len)) s.
Proof.
  intros [Hlk Hregs] Hr Hlen Hal. destruct (Forall_lookup_1 _ _ _ _ Hregs Hr) as [R1 R2 R3 [R4 R4'] R5].
  destruct (reg_bits r) as [Hbits Hend]; [by constructor|].
  pose proof (pages_pos len Hlen) as Hpg. set (n := PMEM_PAGES len) in *.
  unfold pmem_try_region. eapply wpf_seq; [unfold spl_lock; by rewrite Hlk|].
  set (s1 := Pmem (regions s) 1). apply wpf_bind. apply on_bmap_wpf with (r := r); [done|].
  eapply wpf_mono.
  { apply bmap_search_ok; [done| |lia|done|unfold srch_fuel; lia|done|by left].
    unfold PMEM_PAGESIZE. dlia. }
  intros [x|] b Hres; [|].
  2:{ subst b. simpl. apply wpf_ret. split; [constructor; [done|by eapply reg_wf_insert]|].
      by apply same_but_keep. }
  destruct Hres as (-> & Hx & _ & Hrun). fold n.
  set (s2 := Pmem (<[i := with_bmap (with_hint (x + n) (bmap r)) r]> (regions s1)) (pmem_lock s1)).
  assert (Hr2 : regions s2 !! i = Some (with_bmap (with_hint (x + n) (bmap r)) r))
    by (apply list_lookup_insert_eq; by eapply lookup_lt_Some).
  assert (Hb2 : bm_wf (with_hint (x + n) (bmap r))) by (destruct R1; by constructor).
  rewrite u64_small by lia. destruct (decide (x + n < bits (bmap r))) as [Hfit|Hfit].
  - destruct (bmap_fill_run _ 1 x (x + n) Hb2) as (b3 & Hfill & Hb3 & Hbits3 & Hh3 & Ht3);
      [by right|lia|done|]. replace (x + n - x) with n in Ht3 by lia.
    eapply wpf_seq; [exact (on_bmap_run i _ s2 _ _ _ Hr2 Hfill)|].
    eapply wpf_seq; [reflexivity|]. apply wpf_ret.
    simpl. rewrite list_insert_insert_eq. split.
    + constructor; [done|]. apply (reg_wf_insert s i r b3 0 Hregs Hr Hb3 Hbits3). rewrite Hh3. simpl. lia.
    + exists i, x. split.
      { exists r. split_and!; [done|lia|lia| |apply Hrun; lia]. unfold PMEM_FROM_REGBIT, PMEM_PAGESIZE in *.
        apply u64_small. simpl in *. lia. }
      by apply (same_but_fill s i r b3 x n true 0 Hr).
  - assert (Hfill : bmap_fill 1 x (x + n) (with_hint (x + n) (bmap r)) = Ret (false, with_hint (x + n) (bmap r))).
    { unfold bmap_fill, mget. unfold mseq at 1. simpl. destruct (Z.leb_spec (bits (bmap r)) x); [done|].
      destruct (Z.leb_spec (bits (bmap r)) (x + n)); [done|lia]. }
    eapply wpf_seq; [exact (on_bmap_run i _ s2 _ _ _ Hr2 Hfill)|].
    eapply wpf_seq; [reflexivity|]. apply wpf_ret.
    simpl. rewrite list_insert_insert_eq. split.
    + constructor; [done|]. apply (reg_wf_insert s i r _ 0 Hregs Hr Hb2 eq_refl). simpl. lia.
    + by apply (same_but_keep s i r (with_hint (x + n) (bmap r))).
Qed.

Lemma same_but_lookup s s' P v k r :
  same_but s s' P v -> regions s !! k = Some r ->
  exists r', regions s' !! k = Some r' /\ start r' = start r /\ bits (bmap r') = bits (bmap r).
Proof. intros H Hr. destruct (H k r Hr) as (r' & ? & ? & _ & ? & _). eauto. Qed.

Lemma handed_same s s1 i x n addr :
  same_but s s1 nothing true -> List.length (regions s1) = List.length (regions s) ->
  handed s1 i x n addr -> handed s i x n addr.
Proof.
  intros Hs Hlen (r1 & Hr1 & H1 & H2 & H3 & H4).
  destruct (lookup_lt_is_Some_2 (regions s) i) as [r Hr].
  { rewrite <-Hlen. by eapply lookup_lt_Some. }
  destruct (Hs i r Hr) as (r1' & Hr1' & E1 & E2 & E3 & _ & E5). simplify_eq.
  exists r. split_and!; [done|done|congruence|congruence|].
  intros j Hj. rewrite <-E5; [by apply H4|lia|by intros []].
Qed.

Lemma on_bmap_length {A} i (op : M bitmap_t A) s a s' :
  on_bmap i op s = Ret (a, s') -> List.length (regions s') = List.length (regions s).
Proof.
  unfold on_bmap. destruct (regions s !! i) as [r|]; [|done].
  destruct (op (bmap r)) as [[? b]| | | |]; intros ?; simplify_eq. simpl. apply length_insert.
Qed.

Lemma try_region_length i r len align s a s' :
  pmem_try_region i r len align s = Ret (a, s') -> List.length (regions s') = List.length (regions s).
Proof.
  unfold pmem_try_region, spl_lock, spl_unlock, mseq, mreturn. destruct (pmem_lock s =? 0); [|done].
  destruct (on_bmap i (bmap_search _ _ _ _ _) _) as [[o s1]| | | |] eqn:H1; try done.
  apply on_bmap_length in H1. simpl in H1. destruct o as [x|]; [|intros; by simplify_eq].
  destruct (on_bmap i (bmap_fill _ _ _) s1) as [[[] s2]| | | |] eqn:H2; try done;
    apply on_bmap_length in H2; intros; simplify_eq; simpl; congruence.
Qed.

Lemma helper_loop_ok n i len align fd s :
  pm_wf s -> 0 < len < 2 ^ 52 -> 0 <= align < 2 ^ 52 ->
  wpf (pmem_alloc_helper_loop n i len align fd) (fun a s' =>
    alloc_result s (PMEM_PAGES len) a s' /\
    List.length (regions s') = List.length (regions s)) s.
Proof.
  revert i s. induction n as [|n IH]; intros i s Hwf Hlen Hal; cbn [pmem_alloc_helper_loop].
  { apply wpf_ret. split; [|done]. split; [done|apply same_but_refl]. }
  eapply wpf_seq; [reflexivity|]. destruct (regions s !! i) as [r|] eqn:Hr.
  2:{ apply wpf_ret. split; [|done]. split; [done|apply same_but_refl]. }
  match goal with |- wpf (if ?c then _ else _) _ _ => destruct c end; [|by apply IH].
  pose proof (try_region_ok s i r len align Hwf Hr Hlen Hal) as Hok. apply wpf_bind. unfold wpf in Hok |- *.
  destruct (pmem_try_region i r len align s) as [[a s1]| | | |] eqn:Hrun; try done.
  pose proof (try_region_length _ _ _ _ _ _ _ Hrun) as Hl. destruct a as [x|]; [done|].
  destruct Hok as [Hwf1 Hs1]. pose proof (IH (S i) s1 Hwf1 Hlen Hal) as Hih. unfold wpf in Hih.
  destruct (pmem_alloc_helper_loop n (S i) len align fd s1) as [[a s2]| | | |]; try done.
  destruct Hih as [[Hwf2 Ha] Hl2]. split; [|congruence]. split; [done|]. destruct a as [x|].
  - destruct Ha as (k & y & Hh & Hsb). exists k, y.
    split; [by eapply handed_same|]. by eapply same_but_trans.
  - by eapply same_but_trans.
Qed.

Lemma pmem_alloc_ok len align s :
  pm_wf s -> 0 < len < 2 ^ 52 -> 0 <= align < 2 ^ 52 ->
  wpf (pmem_alloc len align) (fun a s' => alloc_result s (PMEM_PAGES len) (Some a) s' /\
    List.length (regions s') = List.length (regions s)) s.
Proof.
  intros Hwf Hlen Hal. unfold pmem_alloc, pmem_alloc_helper. apply wpf_bind. eapply wpf_seq; [reflexivity|].
  eapply wpf_mono; [by apply helper_loop_ok|]. intros [x|] s1 [[Hwf1 Ha] Hl1]; [by apply wpf_ret|].
  apply wpf_bind. eapply wpf_seq; [reflexivity|].
  eapply wpf_mono; [by apply helper_loop_ok|]. intros [x|] s2 [[Hwf2 Ha2] Hl2]; [|done].
  apply wpf_ret. split; [|congruence]. split; [done|]. destruct Ha2 as (k & y & Hh & Hsb). exists k, y.
  split; [by eapply handed_same|]. by eapply same_but_trans.
Qed.

(** Regions do not overlap. *)
Definition pm_disjoint (s : pmem) : Prop :=
  forall k k' r r', k <> k' -> regions s !! k = Some r -> regions s !! k' = Some r' ->
    start r + length r <= start r' \/ start r' + length r' <= start r.

Lemma same_but_disjoint s s' P v :
  same_but s s' P v -> List.length (regions s') = List.length (regions s) ->
  pm_disjoint s -> pm_disjoint s'.
Proof.
  intros Hs Hl Hd k k' r r' Hne Hk Hk'.
  destruct (lookup_lt_is_Some_2 (regions s) k) as [q Hq]; [rewrite <-Hl; by eapply lookup_lt_Some|].
  destruct (lookup_lt_is_Some_2 (regions s) k') as [q' Hq']; [rewrite <-Hl; by eapply lookup_lt_Some|].
  destruct (Hs k q Hq) as (x & Hx & E1 & E2 & _). destruct (Hs k' q' Hq') as (x' & Hx' & E1' & E2' & _).
  simplify_eq. rewrite E1, E2, E1', E2'. by eapply Hd.
Qed.

(** C16: pmem_alloc hands out pages that were free.  Over regions of any size,
    whatever it returns lies in one region and the bits of all its pages were
    clear; it sets exactly the bits [marked] by these pages and changes no other
    bit of any region.  These are the bits of the pages and no other when the
    pages are at good positions (below 31 of each 64); a page at another position
    sets the bit of some other page, and is free as before if its position is 32
    or more (pmem_alloc_twice).  If pmem_alloc does not return it ended in
    [fatal]. *)
Theorem pmem_alloc_takes_free_pages len align s :
  pm_wf s -> 0 < len < 2 ^ 52 -> 0 <= align < 2 ^ 52 ->
  wpf (pmem_alloc len align) (fun addr s' => pm_wf s' /\ exists i x,
    handed s i x (PMEM_PAGES len) addr /\
    same_but s s' (fun k j => k = i /\ marked x (PMEM_PAGES len) j = true) true /\
    (good_run x (PMEM_PAGES len) -> same_but s s' (fun k j => k = i /\ x <= j < x + PMEM_PAGES len) true)) s.
Proof.
  intros Hwf Hlen Hal. eapply wpf_mono; [by apply pmem_alloc_ok|]. intros a s' [[? (i & x & Hh & Hs)] _].
  split; [done|]. exists i, x. split_and!; [done|done|]. intros Hg. by apply same_but_good.
Qed.

(** Two allocations do not overlap, over regions that do not overlap, when the
    bits of the pages of the first are set by it. *)
Theorem pmem_alloc_disjoint s l1 l2 al a1 a2 s1 s2 :
  pm_wf s -> pm_disjoint s -> 0 < l1 < 2 ^ 52 -> 0 < l2 < 2 ^ 52 -> 0 <= al < 2 ^ 52 ->
  (forall i x, handed s i x (PMEM_PAGES l1) a1 -> forall j, x <= j < x + PMEM_PAGES l1 -> j mod 64 < 32) ->
  pmem_alloc l1 al s = Ret (a1, s1) -> pmem_alloc l2 al s1 = Ret (a2, s2) ->
  a1 + PMEM_PAGESIZE * PMEM_PAGES l1 <= a2 \/ a2 + PMEM_PAGESIZE * PMEM_PAGES l2 <= a1.
Proof.
  intros Hwf Hd Hl1 Hl2 Hal Hlow Hr1 Hr2.
  pose proof (pmem_alloc_ok l1 al s Hwf Hl1 Hal) as Ho1. unfold wpf in Ho1. rewrite Hr1 in Ho1.
  destruct Ho1 as [[Hwf1 (i1 & x1 & Hh1 & Hsb1)] Hlen1]. specialize (Hlow _ _ Hh1). destruct Hh1 as (r1 & Hq1 & Hx1 & Hb1 & -> & _).
  pose proof (pmem_alloc_ok l2 al s1 Hwf1 Hl2 Hal) as Ho2. unfold wpf in Ho2. rewrite Hr2 in Ho2.
  destruct Ho2 as [[_ (i2 & x2 & (r2 & Hq2 & Hx2 & Hb2 & -> & Hrun2) & _)] _].
  pose proof (pages_pos l1 Hl1). pose proof (pages_pos l2 Hl2). unfold PMEM_PAGESIZE.
  destruct (Hsb1 i1 r1 Hq1) as (r1' & Hq1' & E1 & E2 & E3 & E4 & _).
  destruct (decide (i1 = i2)) as [<-|Hne].
  - simplify_eq. rewrite E1. destruct (decide (x1 + PMEM_PAGES l1 <= x2 \/ x2 + PMEM_PAGES l2 <= x1)); [lia|].
    set (j := Z.max x1 x2). specialize (E4 j ltac:(lia) ltac:(split; [done|apply marked_self; [lia|apply Hlow; lia]])).
    specialize (Hrun2 j ltac:(lia)). by rewrite E4 in Hrun2.
  - pose proof (same_but_disjoint _ _ _ _ Hsb1 Hlen1 Hd) as Hd1.
    destruct (Forall_lookup_1 _ _ _ _ (pw_regs _ Hwf1) Hq1') as [_ _ L1 _ _].
    destruct (Forall_lookup_1 _ _ _ _ (pw_regs _ Hwf1) Hq2) as [_ _ L2 _ _]. unfold PMEM_PAGESIZE in *.
    destruct (Hd1 i1 i2 _ _ Hne Hq1' Hq2); lia.
Qed.

(** ** Freeing *)

Lemma contains_spec r a : reg_wf r ->
  pmem_reg_contains r a = true <-> start r <= a < start r + length r.
Proof.
  intros [R1 R2 R3 [R4 _] _]. unfold pmem_reg_contains, PMEM_PAGESIZE in *.
  destruct (bw_bits _ R1). rewrite u64_small by lia. rewrite andb_true_iff, Z.leb_le, Z.ltb_lt. lia.
Qed.

Lemma regbit_page r x : reg_wf r -> 0 <= x < bits (bmap r) -> PMEM_TO_REGBIT r (start r + x * PMEM_PAGESIZE) = x.
Proof.
  intros [R1 R2 R3 [R4 R4'] _] Hx. unfold PMEM_TO_REGBIT, PMEM_PAGESIZE in *. rewrite ALIGN_DN_4096.
  assert ((start r + x * 4096) / 4096 * 4096 = start r + x * 4096) as -> by dlia.
  rewrite u64_small by lia. dlia.
Qed.

Lemma free_loop_find m k i s r addr len :
  pm_wf s -> pm_disjoint s -> regions s !! i = Some r -> start r <= addr < start r + length r ->
  (k <= i)%nat -> (i < k + m)%nat ->
  pmem_free_loop m k addr len s =
    (on_bmap i (bmap_fill 0 (PMEM_TO_REGBIT r addr) (u64 (PMEM_TO_REGBIT r addr + PMEM_PAGES len))) ;;; mreturn tt) s.
Proof.
  intros Hwf Hd Hr Ha. revert k. induction m as [|m IH]; intros k Hk Hm; [lia|].
  cbn [pmem_free_loop]. unfold mget. unfold mseq at 1.
  destruct (lookup_lt_is_Some_2 (regions s) k) as [q Hq].
  { apply lookup_lt_Some in Hr. lia. }
  rewrite Hq. pose proof (Forall_lookup_1 _ _ _ _ (pw_regs _ Hwf) Hq) as Rq.
  destruct (decide (k = i)) as [->|Hne].
  - simplify_eq. rewrite (proj2 (contains_spec r addr Rq)) by done. done.
  - destruct (pmem_reg_contains q addr) eqn:Hc; [|apply IH; lia].
    apply (contains_spec q addr Rq) in Hc. destruct (Hd k i q r Hne Hq Hr); lia.
Qed.

Lemma pmem_free_ok s i r x len :
  pm_wf s -> pm_disjoint s -> regions s !! i = Some r -> 0 < len < 2 ^ 52 -> 0 <= x ->
  x + PMEM_PAGES len < bits (bmap r) ->
  exists s', pmem_free (start r + x * PMEM_PAGESIZE) len s = Ret (tt, s') /\ pm_wf s' /\
    same_but s s' (fun k j => k = i /\ marked x (PMEM_PAGES len) j = true) false.
Proof.
  intros Hwf Hd Hr Hl Hx Hb. pose proof (Forall_lookup_1 _ _ _ _ (pw_regs _ Hwf) Hr) as Rr.
  pose proof Rr as [R1 R2 R3 [R4 R4'] R5]. pose proof (pages_pos len Hl). destruct (reg_bits r Rr) as [Hbits0 _].
  destruct (bmap_fill_run (bmap r) 0 x (x + PMEM_PAGES len)) as (b & Hfill & Hb' & Hbits & Hh & Ht);
    [done|by left|lia|done|]. replace (x + PMEM_PAGES len - x) with (PMEM_PAGES len) in Ht by lia.
  eexists. split.
  - unfold pmem_free, mget. unfold mseq at 1.
    pose proof (lookup_lt_Some _ _ _ Hr).
    rewrite (free_loop_find _ _ i s r) by (done || unfold PMEM_PAGESIZE in *; lia).
    rewrite regbit_page by (done || lia). rewrite u64_small by lia.
    by rewrite (mseq_run _ _ _ _ _ (on_bmap_run _ _ _ _ _ _ Hr Hfill)).
  - split.
    + constructor; [apply Hwf|]. eapply reg_wf_insert; [apply Hwf|done|done|done|lia].
    + by apply (same_but_fill s i r b x (PMEM_PAGES len) false _ Hr).
Qed.


(** ** Adding regions *)

(** What the overlap checks guarantee about a region that is added. *)
Lemma scan_next rs s l : pmem_add_scan rs s l = AddNext -> Forall (fun r => pmem_add_check r s l = AddNext) rs.
Proof.
  induction rs as [|r rs IH]; simpl; [done|]. destruct (pmem_add_check r s l) eqn:Hc; [done|done|].
  intros Hs. constructor; [done|by apply IH].
Qed.

Lemma clip_sound fuel rs s l s' l' :
  pmem_add_clip fuel rs s l = Ret (Some (s', l')) -> Forall (fun r => pmem_add_check r s' l' = AddNext) rs.
Proof.
  revert s l. induction fuel as [|fuel IH]; intros s l; simpl; [done|].
  destruct (pmem_add_scan rs s l) eqn:Hs; [done|apply IH|]. intros [= <- <-]. by apply scan_next.
Qed.

(** The region pmem_add is left with after clipping overlaps an existing
    region only if it encloses it: the two are disjoint, or the existing one
    lies inside the new one with no common end beyond it. *)
Theorem pmem_add_clips fuel rs s l s' l' r :
  pmem_add_clip fuel rs s l = Ret (Some (s', l')) -> r ∈ rs ->
  0 <= s' < 2 ^ 62 -> 0 < l' < 2 ^ 62 -> 0 <= start r < 2 ^ 62 -> 0 < length r < 2 ^ 62 ->
  s' + l' <= start r \/ start r + length r <= s' \/
  (s' < start r /\ start r + length r <= s' + l').
Proof.
  intros Hc Hin Hs Hl Hr1 Hr2. apply clip_sound in Hc. rewrite Forall_forall in Hc. specialize (Hc r Hin).
  unfold pmem_add_check in Hc. rewrite !u64_small in Hc by lia.
  destruct (Z.leb_spec (start r) s'), (Z.ltb_spec s' (start r + length r)), (Z.leb_spec (s' + l') (start r + length r)),
    (Z.ltb_spec (start r) (s' + l')), (Z.ltb_spec (s' + l') (start r + length r)); simpl in Hc; try done; lia.
Qed.

Module PmemDemo.

(** The boot region of 32 pages and a second one above it. *)
Definition boot_region : pmem_region_t := Region (Bitmap [0] 32 0 false 0) 1048576 131072.
Definition high_region : pmem_region_t := Region (Bitmap [0] 16 0 false 0) 2097152 65536.
Definition p0 : pmem := Pmem [boot_region; high_region] 0.

Lemma p0_wf : pm_wf p0.
Proof.
  constructor; [done|].
  repeat constructor; simpl; unfold PMEM_PAGESIZE; (lia || done).
Qed.

Lemma p0_disjoint : pm_disjoint p0.
Proof.
  intros [|[|k]] [|[|k']] r r' Hne Hk Hk'; simpl in *; simplify_eq; simpl; lia.
Qed.

Definition p1 : pmem := state_of (pmem_alloc 4096 4096 p0) p0.
Definition p2 : pmem := state_of (pmem_alloc 8192 4096 p1) p1.
Lemma prun1 : pmem_alloc 4096 4096 p0 = Ret (1048576, p1).
Proof. apply ret_val_run. by vm_compute. Qed.
Lemma prun2 : pmem_alloc 8192 4096 p1 = Ret (1052672, p2).
Proof. apply ret_val_run. by vm_compute. Qed.

Lemma pmem_alloc_takes_free_pages_witness :
  exists addr s', pmem_alloc 4096 4096 p0 = Ret (addr, s') /\ pm_wf s' /\ exists i x, handed p0 i x 1 addr.
Proof.
  pose proof (pmem_alloc_takes_free_pages 4096 4096 p0 p0_wf ltac:(lia) ltac:(lia)) as Hok.
  unfold wpf in Hok. rewrite prun1 in Hok. destruct Hok as [Hwf (i & x & Hh & _)].
  exists 1048576, p1. split; [exact prun1|]. split; [exact Hwf|]. exists i, x. exact Hh.
Defined.

Lemma pmem_alloc_disjoint_witness : 1048576 + 4096 * 1 <= 1052672 \/ 1052672 + 4096 * 2 <= 1048576.
Proof.
  refine (pmem_alloc_disjoint p0 4096 8192 4096 1048576 1052672 p1 p2 p0_wf p0_disjoint
    ltac:(lia) ltac:(lia) ltac:(lia) _ prun1 prun2).
  intros [|[|i]] x (r & Hr & Hx & Hb & Ha & _); simpl in Hr; simplify_eq; change (PMEM_PAGES 4096) with 1 in *; unfold PMEM_PAGESIZE in *;
    simpl in *; intros j Hj; rewrite Z.mod_small by lia; lia.
Defined.


Lemma pmem_add_clips_witness :
  1048576 + 1048576 <= 2097152 \/ 2097152 + 65536 <= 1048576 \/
  (1048576 < 2097152 /\ 2097152 + 65536 <= 1048576 + 1048576).
Proof.
  refine (pmem_add_clips 9 [high_region] 1048576 1081344 1048576 1048576 high_region _ _ _ _ _ _);
    [reflexivity|apply list_elem_of_here|simpl; lia..].
Defined.

(** In a region of 64 pages the page at position 32 is handed out twice: its
    allocation sets the bit of page 0.  The second block returned here is page
    32, the fourth one is pages 31 and 32. *)
Theorem pmem_alloc_twice :
  let big := Pmem [Region (Bitmap [0] 64 0 false 0) 1048576 262144] 0 in
  pm_wf big /\
  ret_val ((a <- pmem_alloc 4096 131072 ;; b <- pmem_alloc 4096 131072 ;; c <- pmem_alloc (30 * 4096) 4096 ;;
            d <- pmem_alloc 8192 4096 ;; mreturn [a; b; c; d]) big) =
    Some [1048576; 1048576 + 32 * 4096; 1048576 + 33 * 4096; 1048576 + 31 * 4096].
Proof.
  split; [|by vm_compute]. constructor; [done|]. repeat constructor; simpl; unfold PMEM_PAGESIZE; (lia || done).
Qed.

(** An added region that encloses an existing one is accepted: the boot
    region and the memory-map region around it then both manage the boot
    pages. *)
Theorem pmem_add_accepts_enclosing :
  let p := state_of (pmem_add 9 0 4194304 true (Some 0) (fun n => Some (replicate (Z.to_nat (bmap_storage_words n)) 0))
                       (Pmem [boot_region] 0)) p0 in
  exists r, regions p = [boot_region; r] /\
    start r < start boot_region /\ start boot_region + length boot_region < start r + length r.
Proof. eexists. split; [vm_compute; reflexivity|]. by vm_compute. Qed.

(** pmem_reserve steps over a page when the reserved range runs from a
    region into one that is earlier in the list: the first page of the
    earlier region stays free although the call reports success. *)
Theorem pmem_reserve_skips_page :
  let lo := Region (Bitmap [0] 16 0 false 0) 983040 65536 in
  let p := Pmem [boot_region; lo] 0 in
  let r := pmem_reserve 99 983040 131072 p in
  ret_val r = Some true /\
  map (fun q => bm_test (bmap q) 0) (regions (state_of r p)) = [false; true] /\
  map (fun q => bm_test (bmap q) 1) (regions (state_of r p)) = [true; true].
Proof. by vm_compute. Qed.

End PmemDemo.
