(* ===== verification/Reserve.v ===== *)
(** * Reserving physical memory: pmem_reserve

    Reservation of a range of pages inside one region, and what it means for
    the allocations that follow. *)

From S2P Require Import Prelude Mem Alloc Bmap Pmem.

(** Are the [n] pages from number [y] on free? *)
Fixpoint all_clear (b : bitmap_t) (n : nat) (y : Z) : bool :=
  match n with O => true | S n' => negb (bm_test b y) && all_clear b n' (y + 1) end.

Lemma all_clear_spec b n : forall y, all_clear b n y = true <-> forall j, y <= j < y + Z.of_nat n -> bm_test b j = false.
Proof.
  induction n as [|n IH]; intros y; cbn [all_clear]; [split; [intros _ j Hj; lia|done]|].
  rewrite andb_true_iff, negb_true_iff, IH. split.
  - intros [H1 H2] j Hj. destruct (decide (j = y)) as [->|]; [done|]. apply H2. lia.
  - intros Hj. split; [apply Hj; lia|]. intros j Hr. apply Hj. lia.
Qed.

Section reserve.
Variables (i : nat) (top : Z).

(** The loop over the pages of region [i], from page [y] on. *)
Lemma reserve_step f check s r y :
  regions s !! i = Some r -> reg_wf r -> 0 <= y < bits (bmap r) ->
  reserve_region (S f) i check top (start r + y * PMEM_PAGESIZE) s =
    (used <- (if check then on_bmap i (bmap_get y) else on_bmap i (bmap_set y 1) ;;; mreturn 0) ;;
     if negb (used =? 0) then mreturn (start r + y * PMEM_PAGESIZE, Some false)
     else if top <=? start r + (y + 1) * PMEM_PAGESIZE then mreturn (start r + (y + 1) * PMEM_PAGESIZE, Some true)
     else reserve_region f i check top (start r + (y + 1) * PMEM_PAGESIZE)) s.
Proof.
  intros Hr Rr Hy. pose proof Rr as [R1 R2 R3 [R4 R4'] _]. destruct (reg_bits r Rr). unfold PMEM_PAGESIZE in *.
  cbn [reserve_region]. unfold mget. unfold mseq at 1. rewrite Hr.
  rewrite (proj2 (contains_spec r (start r + y * 4096) Rr)) by (rewrite R3; lia).
  change 4096 with PMEM_PAGESIZE at 1 2. rewrite regbit_page by done. unfold PMEM_PAGESIZE. rewrite u64_small by lia.
  by replace (start r + y * 4096 + 4096) with (start r + (y + 1) * 4096) by lia.
Qed.

(** The first pass changes nothing, and finds out whether all pages are free. *)
Lemma check_region s r n : forall f y,
  regions s !! i = Some r -> reg_wf r -> (n < f)%nat -> 0 <= y -> y + Z.of_nat n < bits (bmap r) ->
  start r + (y + Z.of_nat n) * PMEM_PAGESIZE < top <= start r + (y + Z.of_nat n + 1) * PMEM_PAGESIZE ->
  exists cur, reserve_region f i true top (start r + y * PMEM_PAGESIZE) s = Ret ((cur, Some (all_clear (bmap r) (S n) y)), s).
Proof.
  induction n as [|n IH]; intros f y Hr Rr Hf Hy Hb Ht; (destruct f as [|f]; [lia|]);
    (rewrite (reserve_step f true s r y) by (done || lia));
    (assert (on_bmap i (bmap_get y) s = Ret (is_bit (bm_test (bmap r) y), s)) as Hget
      by (rewrite (on_bmap_run _ _ _ _ _ _ Hr (bmap_get_run _ y (rw_bm _ Rr) ltac:(lia)));
          rewrite list_insert_id by (by rewrite Hr; destruct r); by destruct s));
    rewrite (mseq_run _ _ _ _ _ Hget); cbn [all_clear]; destruct (bm_test (bmap r) y); cbn [is_bit negb andb Z.eqb]; try (by eexists).
  - destruct (Z.leb_spec top (start r + (y + 1) * PMEM_PAGESIZE)); [by eexists|]. unfold PMEM_PAGESIZE in *. lia.
  - destruct (Z.leb_spec top (start r + (y + 1) * PMEM_PAGESIZE)); [unfold PMEM_PAGESIZE in *; lia|].
    destruct (IH f (y + 1)) as [cur Hc]; [done|done|lia|lia|lia|unfold PMEM_PAGESIZE in *; lia|]. exists cur. by rewrite Hc.
Qed.

(** Two changes one after the other. *)
Lemma same_but_union s1 s2 s3 (P Q R : nat -> Z -> Prop) v : (forall k j, Decision (Q k j)) -> (forall k j, R k j <-> P k j \/ Q k j) ->
  same_but s1 s2 P v -> same_but s2 s3 Q v -> same_but s1 s3 R v.
Proof.
  intros Hdec HR H12 H23 k r Hr. destruct (H12 k r Hr) as (r2 & Hr2 & E1 & E2 & E3 & E4 & E5).
  destruct (H23 k r2 Hr2) as (r3 & Hr3 & F1 & F2 & F3 & F4 & F5). exists r3.
  split_and!; [done|congruence|congruence|congruence| |]; intros j Hj Hp; rewrite HR in Hp.
  - destruct (decide (Q k j)); [by apply F4|]. rewrite F5 by done. apply E4; tauto.
  - rewrite F5, E5 by (done || tauto). done.
Qed.

(** One page is marked. *)
Lemma mark_step s r y : Forall reg_wf (regions s) -> regions s !! i = Some r -> 0 <= y < bits (bmap r) ->
  exists s1 r1, (on_bmap i (bmap_set y 1) ;;; mreturn 0) s = Ret (0, s1) /\ Forall reg_wf (regions s1) /\
    regions s1 !! i = Some r1 /\ start r1 = start r /\ bits (bmap r1) = bits (bmap r) /\
    List.length (regions s1) = List.length (regions s) /\ same_but s s1 (fun k j => k = i /\ marks y j = true) true.
Proof.
  intros Hf Hr Hy. pose proof (Forall_lookup_1 _ _ _ _ Hf Hr) as [R1 R2 _ _ R5].
  destruct (bmap_set_run (bmap r) y 1) as (b & Hset & Hb1 & Hbits & Hh & _ & Htest); [done|lia|by right|].
  exists (Pmem (<[i := with_bmap b r]> (regions s)) (pmem_lock s)), (with_bmap b r). split_and!; try done.
  - by rewrite (mseq_run _ _ _ _ _ (on_bmap_run _ _ _ _ _ _ Hr Hset)).
  - eapply reg_wf_insert; [done|done|done|done|by rewrite Hh].
  - cbn. rewrite list_lookup_insert_eq; [done|]. by eapply lookup_lt_Some.
  - cbn. by rewrite length_insert.
  - apply (same_but_insert s i r b (fun j => marks y j = true) true); [done|done|intros j Hj Hm; by rewrite Htest, Hm|].
    intros j Hj Hn'. rewrite Htest by done. by destruct (marks y j).
Qed.

(** The second pass marks the pages. *)
Lemma mark_region n : forall s r f y,
  Forall reg_wf (regions s) -> regions s !! i = Some r -> (n < f)%nat -> 0 <= y -> y + Z.of_nat n < bits (bmap r) ->
  start r + (y + Z.of_nat n) * PMEM_PAGESIZE < top <= start r + (y + Z.of_nat n + 1) * PMEM_PAGESIZE ->
  exists cur s', reserve_region f i false top (start r + y * PMEM_PAGESIZE) s = Ret ((cur, Some true), s') /\
    Forall reg_wf (regions s') /\ List.length (regions s') = List.length (regions s) /\
    same_but s s' (fun k j => k = i /\ marked y (Z.of_nat (S n)) j = true) true.
Proof.
  induction n as [|n IH]; intros s r f y Hf Hr Hfu Hy Hb Ht; (destruct f as [|f]; [lia|]);
    destruct (mark_step s r y Hf Hr ltac:(lia)) as (s1 & r1 & Hrun & Hf1 & Hr1 & Hst & Hbits & Hl1 & Hsb);
    pose proof (Forall_lookup_1 _ _ _ _ Hf Hr) as Rr;
    rewrite (reserve_step f false s r y), (mseq_run _ _ _ _ _ Hrun) by (done || lia); cbn [negb Z.eqb]; unfold PMEM_PAGESIZE in *.
  - destruct (Z.leb_spec top (start r + (y + 1) * 4096)); [|lia]. eexists _, s1. split_and!; [done|done|done|].
    refine (same_but_union s s s1 nothing _ _ true _ _ (same_but_refl s true) Hsb). intros k j. unfold nothing. change (Z.of_nat 1) with (0 + 1). rewrite marked_S, marked_0, orb_false_r by lia. tauto.
  - destruct (Z.leb_spec top (start r + (y + 1) * 4096)); [lia|].
    destruct (IH s1 r1 f (y + 1)) as (cur & s' & Hr' & Hf' & Hl' & Hsb'); [done|done|lia|lia|rewrite Hbits; lia|rewrite Hst; lia|].
    exists cur, s'. split_and!; [by rewrite <- Hst|done|congruence|].
    refine (same_but_union s s1 s' _ _ _ true _ _ Hsb Hsb'). intros k j. replace (Z.of_nat (S (S n))) with (Z.of_nat (S n) + 1) by lia.
    rewrite marked_S, orb_true_iff by lia. tauto.
Qed.
End reserve.

(** ** The whole call *)

(** Regions before the one that holds the page are passed over. *)
Lemma reserve_regions_at f check top s i r y c s' ok :
  Forall reg_wf (regions s) -> pm_disjoint s -> regions s !! i = Some r -> 0 <= y < bits (bmap r) ->
  reserve_region (S f) i check top (start r + y * PMEM_PAGESIZE) s = Ret ((c, Some ok), s') ->
  forall n k, (k <= i)%nat -> (i < k + n)%nat ->
  reserve_regions (S f) n k check top (start r + y * PMEM_PAGESIZE) s = Ret ((c, Some ok), s').
Proof.
  intros Hf Hd Hr Hy Hrun. pose proof (Forall_lookup_1 _ _ _ _ Hf Hr) as Rr. pose proof Rr as [_ _ R3 _ _].
  induction n as [|n IH]; intros k Hk Hn; [lia|]. cbn [reserve_regions].
  destruct (decide (k = i)) as [->|Hne]; [by rewrite (mseq_run _ _ _ _ _ Hrun)|].
  destruct (lookup_lt_is_Some_2 (regions s) k) as [q Hq]; [apply lookup_lt_Some in Hr; lia|].
  assert (pmem_reg_contains q (start r + y * PMEM_PAGESIZE) = false) as Hc.
  { apply not_true_is_false. rewrite (contains_spec q _ (Forall_lookup_1 _ _ _ _ Hf Hq)). unfold PMEM_PAGESIZE in *. destruct (Hd k i q r Hne Hq Hr); lia. }
  assert (reserve_region (S f) k check top (start r + y * PMEM_PAGESIZE) s = Ret ((start r + y * PMEM_PAGESIZE, None), s)) as Hs
    by (cbn [reserve_region]; unfold mget; unfold mseq at 1; by rewrite Hq, Hc).
  rewrite (mseq_run _ _ _ _ _ Hs). apply IH; lia.
Qed.

(** A pass over a range inside region [i]. *)
Lemma reserve_pass_at f check top s i r y c s' ok :
  Forall reg_wf (regions s) -> pm_disjoint s -> regions s !! i = Some r -> 0 <= y < bits (bmap r) -> start r + y * PMEM_PAGESIZE < top ->
  reserve_region (S f) i check top (start r + y * PMEM_PAGESIZE) s = Ret ((c, Some ok), s') ->
  reserve_pass (S f) check top (start r + y * PMEM_PAGESIZE) s = Ret (ok, s').
Proof.
  intros Hf Hd Hr Hy Ht Hrun. cbn [reserve_pass]. rewrite (proj2 (Z.ltb_lt _ _) Ht). unfold mget. unfold mseq at 1.
  assert (reserve_regions (S f) (List.length (regions s)) 0 check top (start r + y * PMEM_PAGESIZE) s = Ret ((c, Some ok), s')) as H
    by (eapply reserve_regions_at; try done; [lia|apply lookup_lt_Some in Hr; lia]).
  by rewrite (mseq_run _ _ _ _ _ H).
Qed.

Lemma pm_disjoint_lock s lk : pm_disjoint s -> pm_disjoint (Pmem (regions s) lk).
Proof. done. Qed.

(** Reserving is all or nothing. *)
Lemma pmem_reserve_run s i r x len f :
  pm_wf s -> pm_disjoint s -> regions s !! i = Some r -> 0 < len < 2 ^ 52 -> 0 <= x -> x + PMEM_PAGES len <= bits (bmap r) ->
  (Z.to_nat (PMEM_PAGES len) <= f)%nat ->
  let n := Z.to_nat (PMEM_PAGES len) in
  exists s', pmem_reserve (S f) (start r + x * PMEM_PAGESIZE) len s = Ret (all_clear (bmap r) n x, s') /\ pm_wf s' /\
    List.length (regions s') = List.length (regions s) /\
    (if all_clear (bmap r) n x then same_but s s' (fun k j => k = i /\ marked x (PMEM_PAGES len) j = true) true else s' = s).
Proof.
  intros [Hlk Hf] Hd Hr Hl Hx Hb Hfu n. pose proof (Forall_lookup_1 _ _ _ _ Hf Hr) as Rr. pose proof Rr as [R1 R2 R3 [R4 R4'] _]. destruct (reg_bits r Rr).
  set (s1 := Pmem (regions s) 1). set (a := start r + x * PMEM_PAGESIZE). set (top := a + len).
  pose proof (pages_pos len Hl). assert (PMEM_PAGES len = (len + 4095) / 4096) as Hpg
    by (unfold PMEM_PAGES, PMEM_PAGESIZE; rewrite ALIGN_UP_4096, Z.div_mul by lia; done).
  set (m := (n - 1)%nat). assert (n = S m /\ Z.of_nat m = PMEM_PAGES len - 1) as [Hn Hm] by lia.
  assert (start r + (x + Z.of_nat m) * PMEM_PAGESIZE < top <= start r + (x + Z.of_nat m + 1) * PMEM_PAGESIZE) as Htop
    by (unfold top, a, PMEM_PAGESIZE; rewrite Hm, Hpg; dlia).
  destruct (check_region i top s1 r m (S f) x) as [c1 Hc1]; [done|done|lia|lia|lia|exact Htop|]. rewrite <- Hn in Hc1.
  assert (reserve_pass (S f) true top a s1 = Ret (all_clear (bmap r) n x, s1)) as Hp1
    by (eapply reserve_pass_at; try done; [lia|unfold top, a; lia]).
  assert (pmem_reserve (S f) a len s = (ok <- reserve_pass (S f) true top a ;; if negb ok then spl_unlock ;;; mreturn false
      else reserve_pass (S f) false top a ;;; spl_unlock ;;; mreturn true) s1) as ->.
  { unfold pmem_reserve. unfold PMEM_PAGESIZE at 1. rewrite ALIGN_RST_4096. replace (a mod 4096) with 0 by (unfold a, PMEM_PAGESIZE in *; dlia). cbn [negb Z.eqb].
    unfold spl_lock at 1. unfold mseq at 1. rewrite Hlk. cbn [Z.eqb]. fold s1. replace (u64 (a + len)) with top; [done|]. unfold top. rewrite u64_small; [done|]. unfold a, PMEM_PAGESIZE in *. lia. }
  rewrite (mseq_run _ _ _ _ _ Hp1). destruct (all_clear (bmap r) n x); cbn [negb].
  - destruct (mark_region i top m s1 r (S f) x) as (c2 & s2 & Hc2 & Hf2 & Hl2 & Hsb); [done|done|lia|lia|lia|exact Htop|].
    assert (reserve_pass (S f) false top a s1 = Ret (true, s2)) as Hp2 by (eapply reserve_pass_at; try done; [lia|unfold top, a; lia]).
    rewrite (mseq_run _ _ _ _ _ Hp2). exists (Pmem (regions s2) 0). split_and!; [done|by constructor|exact Hl2|].
    replace (PMEM_PAGES len) with (Z.of_nat (S m)) by lia. exact Hsb.
  - exists (Pmem (regions s) 0). split_and!; [done|by constructor|done|]. destruct s. cbn in Hlk. by rewrite Hlk.
Qed.

(** ** Reserved pages stay reserved *)

(** Allocations one after the other; the addresses they return. *)
Fixpoint allocs (ls : list (Z * Z)) : M pmem (list Z) :=
  match ls with
  | [] => mreturn []
  | (len, align) :: r => a <- pmem_alloc len align ;; l <- allocs r ;; mreturn (a :: l)
  end.

Definition in_use (s : pmem) (i : nat) (st x n : Z) : Prop :=
  exists r, regions s !! i = Some r /\ start r = st /\ x + n <= bits (bmap r) /\ forall j, x <= j < x + n -> bm_test (bmap r) j = true.

(** An allocation and a range in use lie apart. *)
Definition apart_from (a len b n : Z) : Prop := a + PMEM_PAGESIZE * PMEM_PAGES len <= b \/ b + PMEM_PAGESIZE * n <= a.

Lemma alloc_avoids s i st x n len al : pm_wf s -> pm_disjoint s -> 0 <= x -> 0 < n -> in_use s i st x n ->
  0 < len < 2 ^ 52 -> 0 <= al < 2 ^ 52 ->
  wpf (pmem_alloc len al) (fun a s' => pm_wf s' /\ pm_disjoint s' /\ in_use s' i st x n /\ apart_from a len (st + x * PMEM_PAGESIZE) n) s.
Proof.
  intros Hwf Hd Hx Hn (r & Hr & <- & Hb & Hu) Hl Hal. eapply wpf_mono; [by apply pmem_alloc_ok|].
  intros a s' [[Hwf' (k & y & (q & Hq & Hy & Hyb & -> & Hrun) & Hsb)] Hlen]. pose proof (pages_pos len Hl).
  destruct (Hsb i r Hr) as (r' & Hr' & E1 & E2 & E3 & E4 & E5). split_and!; [done|by eapply same_but_disjoint| |].
  - exists r'. split_and!; [done|done|lia|]. intros j Hj. destruct (decide (i = k /\ marked y (PMEM_PAGES len) j = true)); [apply E4; [lia|done]|].
    rewrite E5 by (done || lia). by apply Hu.
  - unfold apart_from, PMEM_PAGESIZE. destruct (decide (k = i)) as [->|Hne].
    + assert (q = r) as -> by congruence. destruct (decide (y + PMEM_PAGES len <= x \/ x + n <= y)); [lia|].
      exfalso. set (j := Z.max x y). specialize (Hu j ltac:(lia)). specialize (Hrun j ltac:(lia)). by rewrite Hu in Hrun.
    + pose proof (Forall_lookup_1 _ _ _ _ (pw_regs _ Hwf) Hr) as [_ _ L1 _ _]. pose proof (Forall_lookup_1 _ _ _ _ (pw_regs _ Hwf) Hq) as [_ _ L2 _ _].
      unfold PMEM_PAGESIZE in *. destruct (Hd k i q r Hne Hq Hr); lia.
Qed.

Lemma allocs_avoid ls : forall s i st x n, pm_wf s -> pm_disjoint s -> 0 <= x -> 0 < n -> in_use s i st x n ->
  Forall (fun l => 0 < l.1 < 2 ^ 52 /\ 0 <= l.2 < 2 ^ 52) ls ->
  wpf (allocs ls) (fun l s' => Forall2 (fun a q => apart_from a q.1 (st + x * PMEM_PAGESIZE) n) l ls) s.
Proof.
  induction ls as [|[len al] ls IH]; intros s i st x n Hwf Hd Hx Hn Hu Hls; [by apply wpf_ret|].
  apply Forall_cons in Hls as [[Hl Hal] Hls]. cbn [allocs]. apply wpf_bind. eapply wpf_mono; [by eapply alloc_avoids|].
  intros a s1 (Hwf1 & Hd1 & Hu1 & Hap). apply wpf_bind. eapply wpf_mono; [by eapply IH|]. intros l s2 Hf2. apply wpf_ret. by constructor.
Qed.


Module ReserveDemo.
Import PmemDemo.
End ReserveDemo.
