(* ===== verification/Log.v ===== *)
(** * Logging: log.c

    Characters are their codes.  A format string is the list of bytes found
    from its first character on, terminator included: reading past what is
    there faults.  Variadic arguments are 64-bit words, [str_at] gives the
    string a pointer leads to.  The destination table is a list of 32
    slots; writing a message yields the calls of the writers, in order. *)

From S2P Require Import Prelude.

Definition zero_c : Z := 48.   (* '0' *)
Definition nine_c : Z := 57.   (* '9' *)
Definition a_c : Z := 97.      (* 'a' *)
Definition space_c : Z := 32.  (* ' ' *)
Definition minus_c : Z := 45.  (* '-' *)

(** ** Numbers *)

(** The [do ... while(number /= base)] loop: least significant digit first. *)
Definition digit_c (rem : Z) : Z := if rem <? 10 then rem + zero_c else rem + a_c - 10.

Fixpoint digits_loop (fuel : nat) (number base : Z) : list Z :=
  match fuel with
  | O => []
  | S f =>
      digit_c (number mod base) ::
      (if number / base =? 0 then [] else digits_loop f (number / base) base)
  end.

(** Base 2 is the smallest base in use, 64 digits the longest number. *)
Definition digits_fuel : nat := 64.

(** The characters [log_format_u] writes before the terminator. *)
Definition log_format_u (number base fill width : Z) : outcome (list Z) :=
  if base =? 0 then Fatal "log format with base 0!"
  else
    let ds := digits_loop digits_fuel number base in
    let padded := if negb (fill =? 0)
                  then ds ++ replicate (Z.to_nat (width - Z.of_nat (length ds))) fill
                  else ds in
    Ret (rev padded).

Definition log_format_s (number base fill width : Z) : outcome (list Z) :=
  if number <? 0 then
    match log_format_u (u64 (- number)) base fill width with
    | Ret s => Ret (minus_c :: s)
    | o => o
    end
  else log_format_u number base fill width.

Definition is_digit (c : Z) : bool := (zero_c <=? c) && (c <=? nine_c).

Fixpoint log_parse_loop (val : Z) (str : list Z) : Z :=
  match str with
  | [] => val
  | c :: str' => if is_digit c then log_parse_loop (u64 (u64 (val * 10) + (c - zero_c))) str' else val
  end.

Definition log_parse_number (str : list Z) : Z := log_parse_loop 0 str.

(** ** Messages *)

Definition CHECKED_APPEND (len : Z) (p : list Z) (c : Z) : list Z :=
  if Z.of_nat (length p) <? len then p ++ [c] else p.

(** The [string:] label.  Its block has a [len] of its own, which counts the
    turns of the two loops; CHECKED_APPEND compares with this one and not with
    the size [bound] of the buffer, and it advances [append] only when it
    appends.  What is written behind the buffer overwrites the stack. *)
Definition put_char (bound : Z) (p : list Z) (c : Z) : outcome (list Z) :=
  if Z.of_nat (length p) <? bound then Ret (p ++ [c]) else Fault bound.

(** [while( *append) { CHECKED_APPEND( *append++); len++; }] *)
Fixpoint append_chars (fuel : nat) (bound len : Z) (p s : list Z) : outcome (Z * list Z) :=
  match s with
  | [] => Ret (len, p)
  | c :: s' =>
      match fuel with
      | O => NoFuel
      | S f =>
          if Z.of_nat (length p) <? len then
            match put_char bound p c with
            | Ret p' => append_chars f bound (len + 1) p' s'
            | _ => Fault bound
            end
          else append_chars f bound (len + 1) p s
      end
  end.

(** [while(len++ < width) CHECKED_APPEND(' ');], for [n = width - len] turns *)
Fixpoint append_blanks (n : nat) (bound len : Z) (p : list Z) : outcome (list Z) :=
  match n with
  | O => Ret p
  | S n' =>
      if Z.of_nat (length p) <? len + 1 then
        match put_char bound p space_c with
        | Ret p' => append_blanks n' bound (len + 1) p'
        | _ => Fault bound
        end
      else append_blanks n' bound (len + 1) p
  end.

(** Fuel for the first loop: one turn per character of the buffer and of the
    text, and one more. *)
Definition append_string (bound width : Z) (p s : list Z) : outcome (list Z) :=
  match append_chars (S (length p + length s)) bound 0 p s with
  | Ret (len, p') => append_blanks (Z.to_nat (width - len)) bound len p'
  | Fatal m => Fatal m
  | Fault x => Fault x
  | Deadlock => Deadlock
  | NoFuel => NoFuel
  end.

(** The first character behind the digits, and what follows it. *)
Fixpoint skip_digits (c : Z) (fmt : list Z) : option (Z * list Z) :=
  if is_digit c then
    match fmt with [] => None | c' :: fmt' => skip_digits c' fmt' end
  else Some (c, fmt).

Definition str_null : list Z := [40; 110; 117; 108; 108; 41].
Definition str_unknown : list Z := [40; 117; 110; 107; 110; 111; 119; 110; 32; 102; 111; 114; 109; 97; 116; 41].

(** [temp] holds 32 characters; what does not fit overwrites the stack. *)
Definition TEMP_SZ : Z := 32.
Definition in_temp (off : Z) (o : outcome (list Z)) : outcome (list Z) :=
  match o with
  | Ret s => if off + Z.of_nat (length s) <? TEMP_SZ then Ret s else Fault TEMP_SZ
  | x => x
  end.

Section message.
Variable str_at : Z -> list Z.

(** The text of one conversion: [c] the conversion character, [lng] the
    long switch.  The result is the text and the remaining arguments. *)
Definition convert (c : Z) (lng : bool) (width : Z) (args : list Z) : outcome (list Z * list Z) :=
  let with_arg (f : Z -> outcome (list Z)) :=
    match args with
    | [] => Fault 0
    | a :: args' =>
        match f a with
        | Ret s => Ret (s, args')
        | Fatal m => Fatal m
        | Fault x => Fault x
        | Deadlock => Deadlock
        | NoFuel => NoFuel
        end
    end in
  if (c =? 105) || (c =? 100) then        (* 'i', 'd' *)
    with_arg (fun a => in_temp 0 (log_format_s (if lng then s64 a else s32 a) 10 space_c width))
  else if c =? 117 then                   (* 'u' *)
    with_arg (fun a => in_temp 0 (log_format_u (if lng then u64 a else u32 a) 10 space_c width))
  else if c =? 120 then                   (* 'x' *)
    with_arg (fun a => in_temp 0 (log_format_u (if lng then u64 a else u32 a) 16 zero_c width))
  else if c =? 112 then                   (* 'p' *)
    with_arg (fun a => match in_temp 2 (log_format_u (u64 a) 16 zero_c 16) with
                       | Ret s => Ret (48 :: 120 :: s)
                       | o => o
                       end)
  else if c =? 99 then                    (* 'c' *)
    with_arg (fun a => Ret (if u8 a =? 0 then [] else [u8 a]))
  else if c =? 115 then                   (* 's' *)
    with_arg (fun a => Ret (if a =? 0 then str_null else str_at a))
  else Ret (str_unknown, args).

(** One directive behind the percent sign. *)
Definition directive (fmt args : list Z) : outcome (list Z * Z * list Z * list Z) :=
  match fmt with
  | [] => Fault 0
  | c0 :: fmt0 =>
      let width := if is_digit c0 then u32 (log_parse_number (c0 :: fmt0)) else 0 in
      match skip_digits c0 fmt0 with
      | None => Fault 0
      | Some (c1, fmt1) =>
          match (if c1 =? 108 then match fmt1 with [] => None | c :: f => Some (true, c, f) end
                 else Some (false, c1, fmt1)) with
          | None => Fault 0
          | Some (lng, c, fmt2) =>
              match convert c lng width args with
              | Ret (s, args') => Ret (s, width, fmt2, args')
              | Fatal m => Fatal m
              | Fault x => Fault x
              | Deadlock => Deadlock
              | NoFuel => NoFuel
              end
          end
      end
  end.

(** The main loop; one unit of fuel per character of the format. *)
Fixpoint format_loop (fuel : nat) (len : Z) (p fmt args : list Z) : outcome (list Z) :=
  match fuel with
  | O => NoFuel
  | S f =>
      match fmt with
      | [] => Fault 0
      | c :: fmt' =>
          if c =? 0 then Ret p
          else if negb (c =? 37) then
            let p' := CHECKED_APPEND len p c in
            if len <=? Z.of_nat (length p') then Ret p' else format_loop f len p' fmt' args
          else
            match directive fmt' args with
            | Ret (s, width, fmt'', args') =>
                match append_string len width p s with
                | Ret p' => if len <=? Z.of_nat (length p') then Ret p' else format_loop f len p' fmt'' args'
                | o => o
                end
            | Fatal m => Fatal m
            | Fault x => Fault x
            | Deadlock => Deadlock
            | NoFuel => NoFuel
            end
      end
  end.

(** The characters written to [buf]; the terminator is written behind
    them, at the index that is their number. *)
Definition log_format_message (len : Z) (fmt args : list Z) : outcome (list Z) :=
  format_loop (S (length fmt)) len [] fmt args.
End message.

(** ** Destinations *)

Definition MAX_LOG_DESTINATIONS : nat := 32.
Definition MAX_LOG_WRITE_BUFFER : Z := 1024.

Inductive log_level_t := LFatal | LError | LWarning | LInfo | LDebug | LTrace.
Definition level_num (l : log_level_t) : Z :=
  match l with LFatal => 0 | LError => 1 | LWarning => 2 | LInfo => 3 | LDebug => 4 | LTrace => 5 end.
Definition LOG_DEFAULT_LEVEL : log_level_t := LWarning.

(** [writer] 0 is a free slot. *)
Record log_destination_t := Dest { writer : Z; level : log_level_t; name : list Z }.
Definition no_dest : log_destination_t := Dest 0 LFatal [].
Definition destinations0 : list log_destination_t := replicate MAX_LOG_DESTINATIONS no_dest.

Fixpoint log_add_writer (w : Z) (descr : list Z) (ds : list log_destination_t)
    : bool * list log_destination_t :=
  match ds with
  | [] => (false, [])
  | d :: ds' =>
      if writer d =? 0 then (true, Dest w LOG_DEFAULT_LEVEL descr :: ds')
      else let (ok, r) := log_add_writer w descr ds' in (ok, d :: r)
  end.

Definition log_set_level (dest : option (list Z)) (lvl : log_level_t) (ds : list log_destination_t)
    : list log_destination_t :=
  map (fun d => if negb (writer d =? 0) &&
                   match dest with None => true | Some n => bool_decide (n = name d) end
                then Dest (writer d) lvl (name d) else d) ds.

(** The writer calls of [log_write]: writer and message. *)
Definition log_write (str_at : Z -> list Z) (lvl : log_level_t) (fmt args : list Z)
    (ds : list log_destination_t) : outcome (list (Z * list Z)) :=
  match log_format_message str_at MAX_LOG_WRITE_BUFFER fmt args with
  | Ret msg =>
      Ret (map (fun d => (writer d, msg))
             (List.filter (fun d => negb (writer d =? 0) && (level_num lvl <=? level_num (level d))) ds))
  | Fatal m => Fatal m
  | Fault x => Fault x
  | Deadlock => Deadlock
  | NoFuel => NoFuel
  end.

(** ** Numbers are printed and read back *)

Lemma is_digit_c d : 0 <= d < 10 -> is_digit (digit_c d) = true /\ digit_c d - zero_c = d.
Proof.
  intros Hd. unfold is_digit, digit_c, zero_c, nine_c. destruct (Z.ltb_spec d 10); [|lia].
  rewrite andb_true_iff, !Z.leb_le. lia.
Qed.

Lemma parse_digit v d rest :
  0 <= v -> 0 <= d < 10 -> v * 10 + d < 2 ^ 64 ->
  log_parse_loop v (digit_c d :: rest) = log_parse_loop (v * 10 + d) rest.
Proof.
  intros Hv Hd Hb. cbn [log_parse_loop]. destruct (is_digit_c d Hd) as [-> ->].
  by rewrite (u64_small (v * 10)), u64_small by lia.
Qed.

Lemma parse_digits fuel n rest :
  0 <= n < 10 ^ Z.of_nat fuel -> n < 2 ^ 64 -> (0 < fuel)%nat ->
  log_parse_loop 0 (rev (digits_loop fuel n 10) ++ rest) = log_parse_loop n rest.
Proof.
  revert n rest. induction fuel as [|fuel IH]; intros n rest Hn Hb Hf; [lia|].
  cbn [digits_loop]. destruct (Z.eqb_spec (n / 10) 0) as [Hz|Hz].
  - cbn [rev app]. rewrite parse_digit by dlia. f_equal. dlia.
  - cbn [rev]. rewrite <-app_assoc. destruct fuel as [|fuel].
    { change (10 ^ Z.of_nat 1) with 10 in Hn. dlia. }
    rewrite IH; [|split; [dlia|]|dlia|lia].
    + cbn [app]. rewrite parse_digit by dlia. f_equal. dlia.
    + apply Z.div_lt_upper_bound; [lia|]. rewrite Nat2Z.inj_succ, Z.pow_succ_r in Hn by lia. lia.
Qed.

Lemma digits_length fuel n base k :
  2 <= base -> 0 <= n < base ^ Z.of_nat k -> (0 < k)%nat -> (length (digits_loop fuel n base) <= k)%nat.
Proof.
  revert n k. induction fuel as [|fuel IH]; intros n k Hb Hn Hk; simpl; [lia|].
  destruct (Z.eqb_spec (n / base) 0) as [Hz|Hz]; [simpl; lia|].
  destruct k as [|[|k]]; [lia| |].
  - change (Z.of_nat 1) with 1 in Hn. rewrite Z.pow_1_r in Hn. rewrite Z.div_small in Hz; lia.
  - assert (length (digits_loop fuel (n / base) base) <= S k)%nat; [|lia].
    apply IH; [done| |lia]. split; [apply Z.div_pos; lia|].
    apply Z.div_lt_upper_bound; [lia|]. rewrite (Nat2Z.inj_succ (S k)), Z.pow_succ_r in Hn by lia. lia.
Qed.

Lemma digits_nonempty fuel n base : (0 < fuel)%nat -> (0 < length (digits_loop fuel n base))%nat.
Proof. destruct fuel; simpl; lia. Qed.

Lemma parse_zeros n rest : log_parse_loop 0 (replicate n zero_c ++ rest) = log_parse_loop 0 rest.
Proof. induction n as [|n IH]; [done|]. cbn. apply IH. Qed.

Lemma rev_replicate_Z n (x : Z) : rev (replicate n x) = replicate n x.
Proof.
  induction n as [|n IH]; [done|]. cbn [replicate rev]. rewrite IH.
  change [x] with (replicate 1 x). rewrite <-replicate_add. by rewrite Nat.add_comm.
Qed.

(** C39: Printing a number in decimal and reading it back gives the number:
    for every 64-bit value, unpadded or padded with zeros to any width, and
    whatever follows as long as it is not a digit. *)
Theorem log_number_roundtrip n fill width s rest :
  0 <= n < 2 ^ 64 -> fill = 0 \/ fill = zero_c -> log_format_u n 10 fill width = Ret s ->
  is_digit (default 0 (head rest)) = false -> log_parse_number (s ++ rest) = n.
Proof.
  intros Hn Hf Hs Hr. unfold log_format_u in Hs. cbn [Z.eqb] in Hs.
  assert (Hp : forall r, log_parse_loop 0 (rev (digits_loop digits_fuel n 10) ++ r) = log_parse_loop n r).
  { intros r. apply parse_digits; unfold digits_fuel; [|lia|lia]. split; [lia|].
    eapply Z.lt_le_trans; [apply Hn|]. by vm_compute. }
  assert (Hstop : log_parse_loop n rest = n)
    by (clear Hs Hp; destruct rest as [|c rest]; [done|]; cbn in Hr |- *; by rewrite Hr).
  set (ds := digits_loop digits_fuel n 10) in *. clearbody ds. unfold log_parse_number.
  destruct Hf as [-> | ->]; cbn [Z.eqb negb zero_c] in Hs; injection Hs as <-.
  - by rewrite Hp.
  - by rewrite rev_app_distr, rev_replicate_Z, <-app_assoc, parse_zeros, Hp.
Qed.

(** The text of a number is as long as its digits or the field. *)
Lemma format_u_length n base fill width s k :
  2 <= base -> 0 <= n < base ^ Z.of_nat k -> (0 < k)%nat -> fill <> 0 -> log_format_u n base fill width = Ret s ->
  Z.max 1 width <= Z.of_nat (length s) <= Z.max (Z.of_nat k) width.
Proof.
  intros Hb Hn Hk Hf Hs. unfold log_format_u in Hs. destruct (Z.eqb_spec base 0); [lia|].
  pose proof (digits_length digits_fuel n base k Hb Hn Hk).
  pose proof (digits_nonempty digits_fuel n base ltac:(unfold digits_fuel; lia)).
  set (ds := digits_loop digits_fuel n base) in *. clearbody ds.
  destruct (Z.eqb_spec fill 0); [done|]. cbn [negb] in Hs. injection Hs as <-.
  rewrite length_rev, length_app, length_replicate. lia.
Qed.

Lemma format_u_total n base fill width : base <> 0 -> exists s, log_format_u n base fill width = Ret s.
Proof. intros Hb. unfold log_format_u. destruct (Z.eqb_spec base 0); [done|]. eauto. Qed.

(** The 32-byte scratch buffer of a conversion: an unsigned decimal or
    hexadecimal conversion fits for every field width up to 31 and every
    value, and overruns the buffer for every larger width. *)
Theorem log_convert_temp_bound str_at c lng width a args :
  c = 117 \/ c = 120 -> 0 <= width ->
  (width <= 31 -> exists s, convert str_at c lng width (a :: args) = Ret (s, args) /\
                   Z.of_nat (length s) <= 31) /\
  (32 <= width -> convert str_at c lng width (a :: args) = Fault TEMP_SZ).
Proof.
  intros Hc Hw.
  assert (Hn : 0 <= (if lng then u64 a else u32 a) < 2 ^ 64)
    by (destruct lng; pose proof (u64_range a); pose proof (u32_range a); lia).
  set (n := if lng then u64 a else u32 a) in *.
  assert (Hgen : forall base fill, 10 <= base -> fill <> 0 ->
    exists s, log_format_u n base fill width = Ret s /\ Z.max 1 width <= Z.of_nat (length s) <= Z.max 20 width).
  { intros base fill Hb Hf. destruct (format_u_total n base fill width) as [s Hs]; [lia|].
    exists s. split; [done|]. eapply (format_u_length n base fill width s 20); [lia| |lia|done|done].
    split; [lia|]. eapply Z.lt_le_trans; [apply Hn|]. transitivity (10 ^ 20); [by vm_compute|].
    apply Z.pow_le_mono_l. lia. }
  destruct Hc as [-> | ->]; unfold convert; cbn [Z.eqb Pos.eqb orb]; fold n.
  - destruct (Hgen 10 space_c) as (s & -> & Hs); [lia|done|]. unfold in_temp, TEMP_SZ. split; intros Hlim.
    + exists s. destruct (Z.ltb_spec (0 + Z.of_nat (length s)) 32); [|lia]. split; [done|lia].
    + by destruct (Z.ltb_spec (0 + Z.of_nat (length s)) 32); [lia|].
  - destruct (Hgen 16 zero_c) as (s & -> & Hs); [lia|done|]. unfold in_temp, TEMP_SZ. split; intros Hlim.
    + exists s. destruct (Z.ltb_spec (0 + Z.of_nat (length s)) 32); [|lia]. split; [done|lia].
    + by destruct (Z.ltb_spec (0 + Z.of_nat (length s)) 32); [lia|].
Qed.

(** ** Messages *)

(** Text without terminator and percent sign. *)
Definition plain (s : list Z) : Prop := Forall (fun c => c <> 0 /\ c <> 37) s.

Lemma format_plain str_at fuel len p s rest args :
  plain s -> 0 <= len -> Z.of_nat (length p) < len -> (length s < fuel)%nat ->
  format_loop str_at fuel len p (s ++ rest) args =
    if len <=? Z.of_nat (length p + length s)
    then Ret (p ++ take (Z.to_nat len - length p) s)
    else format_loop str_at (fuel - length s) len (p ++ s) rest args.
Proof.
  revert fuel p. induction s as [|c s IH]; intros fuel p Hpl Hlen Hp Hf.
  { simpl. rewrite Nat.add_0_r. destruct (Z.leb_spec len (Z.of_nat (length p))); [lia|].
    by rewrite app_nil_r, Nat.sub_0_r. }
  inversion Hpl as [|? ? [Hc0 Hc37] Hpl']; subst. simpl in Hf. destruct fuel as [|fuel]; [lia|].
  cbn [app format_loop]. destruct (Z.eqb_spec c 0); [done|]. destruct (Z.eqb_spec c 37); [done|]. cbn [negb].
  unfold CHECKED_APPEND. destruct (Z.ltb_spec (Z.of_nat (length p)) len); [|lia].
  rewrite length_app. cbn [length]. destruct (Z.leb_spec len (Z.of_nat (length p + 1))).
  - destruct (Z.leb_spec len (Z.of_nat (length p + S (length s)))); [|lia].
    replace (Z.to_nat len - length p)%nat with 1%nat by lia. done.
  - rewrite IH by (try done; rewrite ?length_app; simpl; lia). rewrite length_app. cbn [length].
    replace (length p + 1 + length s)%nat with (length p + S (length s))%nat by lia.
    destruct (Z.leb_spec len (Z.of_nat (length p + S (length s)))); [|by rewrite <-app_assoc].
    replace (Z.to_nat len - length p)%nat with (S (Z.to_nat len - (length p + 1))) by lia.
    by rewrite <-app_assoc.
Qed.

(** A text without conversions is written as it is, cut off at the buffer
    length; the terminator lands behind it, so a text of 1024 characters or
    more puts it one byte past the 1024-byte buffer of log_write. *)
Theorem log_plain_message str_at len s args :
  plain s -> 0 < len ->
  exists msg, log_format_message str_at len (s ++ [0]) args = Ret msg /\
    msg = take (Z.to_nat len) s /\
    (len <= Z.of_nat (length s) -> Z.of_nat (length msg) = len).
Proof.
  intros Hpl Hlen. exists (take (Z.to_nat len) s). split; [|split; [done|]].
  - unfold log_format_message. rewrite format_plain; [|done|lia|simpl; lia|rewrite length_app; simpl; lia].
    simpl. rewrite Nat.sub_0_r. destruct (Z.leb_spec len (Z.of_nat (length s))); [done|].
    rewrite length_app, take_ge by lia. cbn [length].
    by replace (S (length s + 1) - length s)%nat with 2%nat by lia.
  - intros Hge. rewrite length_take. lia.
Qed.

(** Once [len] is above the number of characters written, every turn appends. *)
Lemma append_chars_copy bound s : forall fuel len p, Z.of_nat (length p) < len -> (length s <= fuel)%nat ->
  append_chars fuel bound len p s =
    if Z.of_nat (length p + length s) <=? Z.max bound (Z.of_nat (length p)) then Ret (len + Z.of_nat (length s), p ++ s) else Fault bound.
Proof.
  induction s as [|c s IH]; intros fuel len p Hp Hf.
  { cbn [length]. rewrite Nat.add_0_r, Z.add_0_r, app_nil_r. destruct (Z.leb_spec (Z.of_nat (length p)) (Z.max bound (Z.of_nat (length p)))); [|lia].
    by destruct fuel. }
  destruct fuel as [|fuel]; [simpl in Hf; lia|]. cbn [append_chars]. destruct (Z.ltb_spec (Z.of_nat (length p)) len); [|lia].
  unfold put_char. cbn [length] in *. destruct (Z.ltb_spec (Z.of_nat (length p)) bound).
  - rewrite IH by (rewrite ?length_app; simpl; lia). rewrite length_app, <- app_assoc. cbn [length app].
    replace (length p + 1 + length s)%nat with (length p + S (length s))%nat by lia.
    replace (len + 1 + Z.of_nat (length s)) with (len + Z.of_nat (S (length s))) by lia.
    by rewrite !Z.max_l by lia.
  - by destruct (Z.leb_spec (Z.of_nat (length p + S (length s))) (Z.max bound (Z.of_nat (length p)))); [lia|].
Qed.
(** Until then it only counts. *)
Lemma append_chars_count bound p c s : forall n fuel, (n <= S (length p))%nat ->
  append_chars (n + fuel) bound (Z.of_nat (S (length p) - n)) p (c :: s) = append_chars fuel bound (Z.of_nat (S (length p))) p (c :: s).
Proof.
  induction n as [|n IH]; intros fuel Hn; [by rewrite Nat.sub_0_r|]. cbn [Nat.add append_chars].
  destruct (Z.ltb_spec (Z.of_nat (length p)) (Z.of_nat (S (length p) - S n))); [lia|].
  replace (Z.of_nat (S (length p) - S n) + 1) with (Z.of_nat (S (length p) - n)) by lia. apply IH. lia.
Qed.
Lemma append_blanks_copy bound n : forall len p, Z.of_nat (length p) < len + 1 ->
  append_blanks n bound len p = if Z.of_nat (length p + n) <=? Z.max bound (Z.of_nat (length p)) then Ret (p ++ replicate n space_c) else Fault bound.
Proof.
  induction n as [|n IH]; intros len p Hp; cbn [append_blanks replicate].
  { rewrite Nat.add_0_r, app_nil_r. by destruct (Z.leb_spec (Z.of_nat (length p)) (Z.max bound (Z.of_nat (length p)))); [|lia]. }
  destruct (Z.ltb_spec (Z.of_nat (length p)) (len + 1)); [|lia]. unfold put_char. destruct (Z.ltb_spec (Z.of_nat (length p)) bound).
  - rewrite IH by (rewrite length_app; simpl; lia). rewrite length_app, <- app_assoc. cbn [length app].
    replace (length p + 1 + n)%nat with (length p + S n)%nat by lia. by rewrite !Z.max_l by lia.
  - by destruct (Z.leb_spec (Z.of_nat (length p + S n)) (Z.max bound (Z.of_nat (length p)))); [lia|].
Qed.

(** What the block does to a text that is not empty: the whole text is
    appended, with what is already in the buffer counted as part of the field;
    the size of the buffer does not stop it. *)
Theorem append_string_spec bound width p s :
  s <> [] -> Z.of_nat (length p) < bound ->
  let blanks := Z.to_nat (width - Z.of_nat (length p + 1 + length s)) in
  append_string bound width p s =
    if Z.of_nat (length p + length s + blanks) <=? bound then Ret (p ++ s ++ replicate blanks space_c) else Fault bound.
Proof.
  intros Hs Hp blanks. unfold append_string. destruct s as [|c s]; [done|].
  pose proof (append_chars_count bound p c s (S (length p)) (length (c :: s)) ltac:(lia)) as Hc. rewrite Nat.sub_diag in Hc.
  change (S (length p + length (c :: s))) with (S (length p) + length (c :: s))%nat. change 0 with (Z.of_nat 0) at 1. rewrite Hc.
  rewrite append_chars_copy by lia. rewrite Z.max_l by lia. destruct (Z.leb_spec (Z.of_nat (length p + length (c :: s))) bound).
  - replace (Z.to_nat (width - (Z.of_nat (S (length p)) + Z.of_nat (length (c :: s))))) with blanks by lia.
    rewrite append_blanks_copy by (rewrite length_app; lia). rewrite length_app, Z.max_l, <- app_assoc by lia. done.
  - by destruct (Z.leb_spec (Z.of_nat (length p + length (c :: s) + blanks)) bound); [lia|].
Qed.

(** A format that ends in a percent sign is read past its terminator: with
    nothing readable behind it, the message is not completed. *)
Theorem log_trailing_percent str_at len s args :
  plain s -> Z.of_nat (length s) + 16 < len ->
  log_format_message str_at len (s ++ [37; 0]) args = Fault 0.
Proof.
  intros Hpl Hlen. unfold log_format_message.
  rewrite format_plain; [|done|lia|simpl; lia|rewrite length_app; simpl; lia]. cbn [length].
  destruct (Z.leb_spec len (Z.of_nat (0 + length s))); [lia|]. rewrite length_app. cbn [length].
  replace (S (length s + 2) - length s)%nat with 3%nat by lia.
  assert (Hd : directive str_at [0] args = Ret (str_unknown, 0, [], args)) by done.
  remember 2%nat as f eqn:Ef. cbn [format_loop]. rewrite Hd. cbn [Z.eqb Pos.eqb negb].
  rewrite append_string_spec by (done || (simpl; lia)). change (length str_unknown) with 16%nat. cbn [app].
  replace (Z.to_nat (0 - Z.of_nat (length s + 1 + 16))) with 0%nat by lia. cbn [replicate].
  destruct (Z.leb_spec (Z.of_nat (length s + 16 + 0)) len); [|lia]. rewrite app_nil_r, length_app. change (length str_unknown) with 16%nat.
  destruct (Z.leb_spec len (Z.of_nat (length s + 16))); [lia|]. by subst f.
Qed.

Module LogDemo.
Lemma log_number_roundtrip_witness : log_parse_number [49; 50; 48; 32] = 120.
Proof. exact (log_number_roundtrip 120 0 0 [49; 50; 48] [32] ltac:(lia) ltac:(by left) eq_refl eq_refl). Defined.

Lemma log_convert_temp_bound_witness :
  convert (fun _ => []) 117 false 40 [7] = Fault TEMP_SZ /\
  exists s, convert (fun _ => []) 117 false 31 [7] = Ret (s, []).
Proof.
  split.
  - apply (log_convert_temp_bound (fun _ => []) 117 false 40 7 []); [by left|lia|lia].
  - destruct (log_convert_temp_bound (fun _ => []) 117 false 31 7 []) as [H _]; [by left|lia|].
    destruct H as (s & Hs & _); [lia|]. exists s. exact Hs.
Defined.

Lemma hi_plain : plain [104; 105].
Proof. by repeat constructor. Qed.

Lemma log_plain_message_witness :
  exists msg, log_format_message (fun _ => []) 1 ([104; 105] ++ [0]) [] = Ret msg /\ msg = [104].
Proof.
  destruct (log_plain_message (fun _ => []) 1 [104; 105] [] hi_plain ltac:(lia)) as (msg & Hr & Hm & _).
  exists msg. split; [exact Hr|exact Hm].
Defined.

Lemma log_trailing_percent_witness :
  log_format_message (fun _ => []) 1024 ([104; 105] ++ [37; 0]) [] = Fault 0.
Proof. apply (log_trailing_percent (fun _ => []) 1024 [104; 105] [] hi_plain). simpl. lia. Defined.

Definition text_at (a : Z) : list Z := replicate (Z.to_nat a) a_c.

(** A string behind %s that is longer than the buffer is written behind it; the
    message is not cut off. *)
Theorem log_string_overruns :
  log_format_message text_at 16 [37; 115; 0] [17] = Fault 16 /\
  log_format_message text_at 16 [37; 115; 0] [16] = Ret (text_at 16).
Proof. by vm_compute. Qed.

(** The characters already written count as part of the field: "ab" behind
    "xx" in a field of 6 gets one blank and not four. *)
Theorem log_field_short :
  log_format_message (fun _ => [97; 98]) 64 [120; 120; 37; 54; 115; 0] [7] = Ret [120; 120; 97; 98; 32].
Proof. by vm_compute. Qed.

Lemma append_string_spec_witness : append_string 64 6 [120; 120] [97; 98] = Ret [120; 120; 97; 98; 32].
Proof. exact (append_string_spec 64 6 [120; 120] [97; 98] ltac:(done) ltac:(simpl; lia)). Defined.
End LogDemo.
