(* ===== verification/Sched.v ===== *)
(** * Threads, processes and the scheduler: thread.c, process.c, sched.c, context.c

    Threads, contexts and processes are records reached by address; the
    scheduler's queues are lists of thread addresses, with the operations
    list.c implements (KList.v).  One CPU: [cpu_ctx] is the context of its
    locals.  [now] is what [systime] answers. *)

From S2P Require Import Prelude Mem Alloc KList.

Inductive thread_state_t := Initial | Runnable | Running | Yielded | Waiting | Aborting | Aborted | Exited.
Inductive priority_t := PrioIdle | PrioLowest | PrioLow | PrioNormal | PrioHigh | PrioHighest | PrioKernel.
Inductive thread_isolation_t := IsolationKernel | IsolationUser.

#[export] Instance thread_state_eq : EqDecision thread_state_t.
Proof. solve_decision. Defined.
#[export] Instance priority_eq : EqDecision priority_t.
Proof. solve_decision. Defined.

Definition prio_num (p : priority_t) : nat :=
  match p with
  | PrioIdle => 0 | PrioLowest => 1 | PrioLow => 2 | PrioNormal => 3
  | PrioHigh => 4 | PrioHighest => 5 | PrioKernel => 6
  end.
Definition PrioMaxPrio : nat := 7.

(** The part of a [thr_context_t] the C code sets up. *)
Record thr_context_t := Ctx {
  c_ss : Z; c_cs : Z; c_rip : Z; c_rdi : Z; c_rflags : Z; c_rsp : Z;
  ifda_cnt : Z; c_thread : Z }.

Record thread_t := Thread {
  id : Z; t_state : thread_state_t; priority : priority_t;
  t_stka : Z; t_stack : Z; parent : Z; context : Z; syscall : Z; preempt_at : Z }.

Record process_t := Process {
  p_id : Z; p_space : Z; p_priority : priority_t; p_lock : Z; ctid : Z;
  p_threads : alist; p_stka : Z }.

Record kernel := Kernel {
  threads : gmap Z thread_t;
  contexts : gmap Z thr_context_t;
  processes : gmap Z process_t;
  queues : list (option alist);
  sched_lock : Z;
  cpu_ctx : Z;
  cr3 : Z;
  now : Z }.

(** ** Field updates *)

Definition set_threads x k := Kernel x (contexts k) (processes k) (queues k) (sched_lock k) (cpu_ctx k) (cr3 k) (now k).
Definition set_contexts x k := Kernel (threads k) x (processes k) (queues k) (sched_lock k) (cpu_ctx k) (cr3 k) (now k).
Definition set_processes x k := Kernel (threads k) (contexts k) x (queues k) (sched_lock k) (cpu_ctx k) (cr3 k) (now k).
Definition set_queues x k := Kernel (threads k) (contexts k) (processes k) x (sched_lock k) (cpu_ctx k) (cr3 k) (now k).
Definition set_sched_lock x k := Kernel (threads k) (contexts k) (processes k) (queues k) x (cpu_ctx k) (cr3 k) (now k).
Definition set_cpu_ctx x k := Kernel (threads k) (contexts k) (processes k) (queues k) (sched_lock k) x (cr3 k) (now k).
Definition set_cr3 x k := Kernel (threads k) (contexts k) (processes k) (queues k) (sched_lock k) (cpu_ctx k) x (now k).

Definition with_tstate st t := Thread (id t) st (priority t) (t_stka t) (t_stack t) (parent t) (context t) (syscall t) (preempt_at t).
Definition with_preempt a t := Thread (id t) (t_state t) (priority t) (t_stka t) (t_stack t) (parent t) (context t) (syscall t) a.
Definition with_prio p t := Thread (id t) (t_state t) p (t_stka t) (t_stack t) (parent t) (context t) (syscall t) (preempt_at t).
Definition with_plock l p := Process (p_id p) (p_space p) (p_priority p) l (ctid p) (p_threads p) (p_stka p).
Definition with_ctid c p := Process (p_id p) (p_space p) (p_priority p) (p_lock p) c (p_threads p) (p_stka p).
Definition with_pthreads l p := Process (p_id p) (p_space p) (p_priority p) (p_lock p) (ctid p) l (p_stka p).

(** Dereferencing a thread, context or process pointer. *)
Definition thr_at (t : Z) : M kernel thread_t := fun k =>
  match threads k !! t with Some x => Ret (x, k) | None => Fault t end.
Definition ctx_at (c : Z) : M kernel thr_context_t := fun k =>
  match contexts k !! c with Some x => Ret (x, k) | None => Fault c end.
Definition prc_at (p : Z) : M kernel process_t := fun k =>
  match processes k !! p with Some x => Ret (x, k) | None => Fault p end.
Definition thr_upd (t : Z) (f : thread_t -> thread_t) : M kernel unit :=
  x <- thr_at t ;; mmodify (fun k => set_threads (<[t := f x]> (threads k)) k).
Definition prc_upd (p : Z) (f : process_t -> process_t) : M kernel unit :=
  x <- prc_at p ;; mmodify (fun k => set_processes (<[p := f x]> (processes k)) k).

(** ** context.c and spc.c *)

Definition thr_ctx_get : M kernel Z := mgets cpu_ctx.
Definition thr_ctx_set (c : Z) : M kernel unit := mmodify (set_cpu_ctx c).

Definition spc_switch (target : Z) : M kernel unit := fun k =>
  if target =? cr3 k then Ret (tt, k) else Ret (tt, set_cr3 target k).

(** ** process.c *)

Definition prc_lock (p : Z) : M kernel unit :=
  x <- prc_at p ;;
  if p_lock x =? 0 then prc_upd p (with_plock 1) else mdeadlock.
Definition prc_unlock (p : Z) : M kernel unit := prc_upd p (with_plock 0).

Definition prc_next_tid (p : Z) : M kernel Z :=
  prc_lock p ;;;
  x <- prc_at p ;;
  prc_upd p (with_ctid (u64 (ctid x + 1))) ;;;
  prc_unlock p ;;;
  mreturn (ctid x).

Definition prc_add_thread (p thr : Z) : M kernel unit :=
  prc_lock p ;;; prc_upd p (fun x => with_pthreads (al_add thr (p_threads x)) x) ;;; prc_unlock p.

Definition prc_remove_thread (p thr : Z) : M kernel unit :=
  prc_lock p ;;; prc_upd p (fun x => with_pthreads (al_remove thr (p_threads x)) x) ;;; prc_unlock p.

(** ** thread.c *)

Definition GDT_KCODE64 : Z := 0x18.
Definition GDT_KDATA64 : Z := 0x20.
Definition GDT_UCODE64 : Z := 0x38.
Definition GDT_UDATA64 : Z := 0x40.
Definition RING_USERSPACE : Z := 3.
Definition FL_IF : Z := 512.

Definition thr_current : M kernel Z :=
  c <- thr_ctx_get ;; x <- ctx_at c ;; mreturn (c_thread x).

(** [thr_create]: [thr] and [ctx] are the two heap blocks (0 for NULL),
    [stack] what [stka_alloc] returns (its address and top, [None] for
    NULL), [kstka] the kernel stack allocator, [trampoline] the address of
    [uapi_thr_trampoline]. *)
Definition thr_create (thr ctx : Z) (stack : option (Z * Z)) (kstka trampoline : Z)
    (prc entry : Z) (isolation : thread_isolation_t) : M kernel Z :=
  if thr =? 0 then mreturn 0
  else
    tid <- prc_next_tid prc ;;
    p <- prc_at prc ;;
    if ctx =? 0 then mfault 0
    else
      match stack with
      | None => mfault 0
      | Some (stk, top) =>
          let '(ss, cs, stka) := match isolation with
            | IsolationKernel => (GDT_KDATA64, GDT_KCODE64, kstka)
            | IsolationUser => (Z.lor GDT_UDATA64 RING_USERSPACE, Z.lor GDT_UCODE64 RING_USERSPACE, p_stka p)
            end in
          mmodify (fun k => set_contexts
            (<[ctx := Ctx ss cs trampoline entry FL_IF (u64 (top - 16)) 0 thr]> (contexts k)) k) ;;;
          mmodify (fun k => set_threads
            (<[thr := Thread tid Runnable (p_priority p) stka stk prc ctx 0 0]> (threads k)) k) ;;;
          mreturn thr
      end.

Definition thr_switch (target : Z) : M kernel Z :=
  old <- thr_ctx_get ;;
  t <- thr_at target ;;
  thr_ctx_set (context t) ;;;
  oc <- ctx_at old ;;
  if c_thread oc =? 0 then mreturn target
  else
    ot <- thr_at (c_thread oc) ;;
    (if negb (parent ot =? parent t)
     then p <- prc_at (parent t) ;; spc_switch (p_space p)
     else mreturn tt) ;;;
    mreturn (c_thread oc).

(** ** sched.c *)

Definition SCHED_TIMESLICE_US : Z := 5000.

Definition sched_spl_lock : M kernel unit := fun k =>
  if sched_lock k =? 0 then Ret (tt, set_sched_lock 1 k) else Deadlock.
Definition sched_spl_unlock : M kernel unit := mmodify (set_sched_lock 0).

Definition sched_add_unlocked (t : Z) : M kernel unit :=
  x <- thr_at t ;;
  mmodify (fun k =>
    let i := prio_num (priority x) in
    let q := match queues k !! i with Some (Some q) => q | _ => al_new end in
    set_queues (<[i := Some (al_add t q)]> (queues k)) k).

Definition sched_remove_unlocked (t : Z) : M kernel unit :=
  x <- thr_at t ;;
  mmodify (fun k =>
    let i := prio_num (priority x) in
    match queues k !! i with
    | Some (Some q) => set_queues (<[i := Some (al_remove t q)]> (queues k)) k
    | _ => k
    end).

(** The first runnable thread of a queue. *)
Fixpoint sched_pick (ths : gmap Z thread_t) (l : list Z) : outcome (option Z) :=
  match l with
  | [] => Ret None
  | t :: l' =>
      if t =? 0 then sched_pick ths l'
      else match ths !! t with
           | None => Fault t
           | Some x => if decide (t_state x = Runnable) then Ret (Some t) else sched_pick ths l'
           end
  end.

(** [for(i = PrioKernel; i < PrioMaxPrio; --i)]: from the top queue down;
    the unsigned index leaves the range after zero. *)
Fixpoint sched_choose_loop (i : nat) : M kernel (option Z) := fun k =>
  match sched_pick (threads k) (match queues k !! i with Some (Some q) => items q | _ => [] end) with
  | Ret (Some t) => Ret (Some t, k)
  | Ret None => match i with O => Ret (None, k) | S i' => sched_choose_loop i' k end
  | Fatal m => Fatal m
  | Fault a => Fault a
  | Deadlock => Deadlock
  | NoFuel => NoFuel
  end.

Definition sched_choose : M kernel (option Z) := sched_choose_loop (prio_num PrioKernel).

(** The switch itself: the chosen thread leaves its queue, the old one is
    appended to its own. *)
Definition sched_take (old t : Z) : M kernel unit :=
  n <- mgets now ;;
  thr_upd t (with_preempt (u64 (n + SCHED_TIMESLICE_US))) ;;;
  thr_switch t ;;;
  sched_remove_unlocked t ;;;
  (if negb (old =? 0) then sched_add_unlocked old else mreturn tt).

Definition sched_pick_next (old : Z) : M kernel unit :=
  c <- sched_choose ;;
  match c with
  | Some t => sched_take old t ;;; sched_spl_unlock
  | None =>
      x <- thr_at old ;;
      if decide (t_state x = Runnable) then sched_spl_unlock
      else mfatal "no thread left to schedule - this is bad!"
  end.

Definition sched_schedule : M kernel unit :=
  sched_spl_lock ;;;
  old <- thr_current ;;
  if old =? 0 then sched_pick_next old
  else
    x <- thr_at old ;;
    n <- mgets now ;;
    match t_state x with
    | Runnable => if n <? preempt_at x then sched_spl_unlock else sched_pick_next old
    | Yielded => thr_upd old (with_tstate Runnable) ;;; sched_pick_next old
    | _ => sched_pick_next old
    end.

Definition sched_yield : M kernel unit :=
  t <- thr_current ;; thr_upd t (with_tstate Yielded) ;;; sched_schedule.

Definition sched_add (t : Z) : M kernel unit :=
  sched_spl_lock ;;; sched_add_unlocked t ;;; sched_spl_unlock.

Definition sched_remove (t : Z) : M kernel unit :=
  sched_spl_lock ;;; sched_remove_unlocked t ;;; sched_spl_unlock.

(** [intr_state] tells whether interrupts are enabled. *)
Definition sched_init (intr_state : bool) : M kernel unit :=
  if intr_state then mfatal "interrupts may not be enabled in sched_init()"
  else sched_spl_unlock ;;; mmodify (set_queues (replicate PrioMaxPrio None)).

(** ** The rest of thread.c *)

Definition thr_exit (t : Z) : M kernel unit := thr_upd t (with_tstate Exited) ;;; sched_schedule.
Definition thr_exit_current : M kernel unit := t <- thr_current ;; thr_exit t.

Definition thr_abort (t : Z) : M kernel unit :=
  thr_upd t (with_tstate Aborting) ;;;
  x <- thr_at t ;;
  p <- prc_at (parent x) ;;
  if p_id p =? 0 then mfatal "kernel thread crashed" else sched_schedule.

(** idle.c: [idle_init]; the arguments are those of [thr_create]. *)
Definition idle_init (thr ctx : Z) (stack : option (Z * Z)) (kstka trampoline core entry : Z) : M kernel unit :=
  t <- thr_create thr ctx stack kstka trampoline core entry IsolationKernel ;;
  thr_upd t (with_prio PrioIdle) ;;;
  sched_add t.

(** ** What the scheduler keeps

    [population]: the queued threads and the running one. *)

Definition qitems (q : option alist) : list Z := match q with Some a => items a | None => [] end.
Definition flat (qs : list (option alist)) : list Z := concat (qitems <$> qs).

Definition cur (k : kernel) : Z := match contexts k !! cpu_ctx k with Some c => c_thread c | None => 0 end.
Definition population (k : kernel) : list Z := cur k :: flat (queues k).

(** A thread address with everything the scheduler dereferences. *)
Definition thr_ok (k : kernel) (t : Z) : Prop :=
  t <> 0 /\ exists x c p, threads k !! t = Some x /\ contexts k !! context x = Some c /\ c_thread c = t /\
    processes k !! parent x = Some p.

Record sched_wf (k : kernel) : Prop := {
  sw_len : length (queues k) = PrioMaxPrio;
  sw_att : forall i q, queues k !! i = Some (Some q) -> attached q = true;
  sw_prio : forall i t, t ∈ qitems (default None (queues k !! i)) ->
    exists x, threads k !! t = Some x /\ prio_num (priority x) = i;
  sw_ok : forall t, t ∈ population k -> thr_ok k t;
  sw_nodup : NoDup (population k);
  sw_space : exists x p, threads k !! cur k = Some x /\ processes k !! parent x = Some p /\ cr3 k = p_space p;
}.

Lemma flat_split qs i q :
  qs !! i = Some q -> flat qs = flat (take i qs) ++ qitems q ++ flat (drop (S i) qs).
Proof.
  intros Hq. rewrite <-(take_drop_middle qs i q Hq) at 1. unfold flat. rewrite fmap_app, concat_app. done.
Qed.

Lemma flat_insert qs i q :
  (i < length qs)%nat -> flat (<[i := q]> qs) = flat (take i qs) ++ qitems q ++ flat (drop (S i) qs).
Proof.
  intros Hi. rewrite insert_take_drop by done. unfold flat. rewrite fmap_app, concat_app. done.
Qed.

Lemma remove_first_perm t l : t ∈ l -> l ≡ₚ t :: remove_first t l.
Proof.
  induction l as [|y l IH]; [by intros ?%elem_of_nil|]. simpl.
  destruct (Z.eqb_spec y t) as [->|Hne]; [done|]. intros [?|Hx]%elem_of_cons; [congruence|].
  rewrite (IH Hx) at 1. apply Permutation_swap.
Qed.

Lemma elem_of_flat qs t : t ∈ flat qs <-> exists i q, qs !! i = Some q /\ t ∈ qitems q.
Proof.
  unfold flat. rewrite list_elem_of_In, in_concat. setoid_rewrite <-list_elem_of_In. split.
  - intros (l & Hl & Ht). apply list_elem_of_fmap in Hl as (q & -> & Hq).
    apply list_elem_of_lookup in Hq as [i Hi]. eauto.
  - intros (i & q & Hi & Ht). exists (qitems q). split; [|done].
    apply list_elem_of_fmap_2. by eapply list_elem_of_lookup_2.
Qed.

(** ** The choice *)

Lemma sched_pick_spec ths l r :
  sched_pick ths l = Ret r ->
  match r with
  | Some t => exists l1 l2 x, l = l1 ++ t :: l2 /\ t <> 0 /\ ths !! t = Some x /\ t_state x = Runnable /\
      forall u y, u ∈ l1 -> u <> 0 -> ths !! u = Some y -> t_state y <> Runnable
  | None => forall u y, u ∈ l -> u <> 0 -> ths !! u = Some y -> t_state y <> Runnable
  end.
Proof.
  revert r. induction l as [|t l IH]; intros r; cbn [sched_pick].
  { intros [= <-] u y Hu. by apply elem_of_nil in Hu. }
  assert (Hskip : sched_pick ths l = Ret r -> (t <> 0 -> forall y, ths !! t = Some y -> t_state y <> Runnable) ->
    match r with
    | Some t' => exists l1 l2 x, t :: l = l1 ++ t' :: l2 /\ t' <> 0 /\ ths !! t' = Some x /\ t_state x = Runnable /\
        forall u y, u ∈ l1 -> u <> 0 -> ths !! u = Some y -> t_state y <> Runnable
    | None => forall u y, u ∈ t :: l -> u <> 0 -> ths !! u = Some y -> t_state y <> Runnable
    end).
  { intros Hr Ht. specialize (IH r Hr). destruct r as [t'|].
    - destruct IH as (l1 & l2 & x & -> & Hn & Hx & Hst & Hno). exists (t :: l1), l2, x. split_and!; try done.
      intros u y [->|Hu]%elem_of_cons Hu0 Huy; [by apply Ht|by eapply Hno].
    - intros u y [->|Hu]%elem_of_cons Hu0 Huy; [by apply Ht|by eapply IH]. }
  destruct (Z.eqb_spec t 0) as [->|Hne]; [intros Hr; by apply Hskip|].
  destruct (ths !! t) as [x|] eqn:Hx; [|done].
  case_decide as Hst.
  - intros [= <-]. exists [], l, x. split_and!; try done. intros u y Hu. by apply elem_of_nil in Hu.
  - intros Hr. apply Hskip; [done|]. intros _ y [= <-]. done.
Qed.

Lemma sched_choose_loop_spec i k r k' :
  sched_choose_loop i k = Ret (r, k') -> k' = k /\
  match r with
  | Some t => exists j l1 l2 x, (j <= i)%nat /\ qitems (default None (queues k !! j)) = l1 ++ t :: l2 /\
      t <> 0 /\ threads k !! t = Some x /\ t_state x = Runnable /\
      (forall u y, u ∈ l1 -> u <> 0 -> threads k !! u = Some y -> t_state y <> Runnable) /\
      (forall h u y, (j < h <= i)%nat -> u ∈ qitems (default None (queues k !! h)) -> u <> 0 ->
         threads k !! u = Some y -> t_state y <> Runnable)
  | None => forall h u y, (h <= i)%nat -> u ∈ qitems (default None (queues k !! h)) -> u <> 0 ->
      threads k !! u = Some y -> t_state y <> Runnable
  end.
Proof.
  assert (Hq : forall h, match queues k !! h with Some (Some q) => items q | _ => [] end =
                    qitems (default None (queues k !! h))) by (intros h; by destruct (queues k !! h) as [[q|]|]).
  revert r. induction i as [|i IH]; intros r; cbn [sched_choose_loop]; rewrite Hq;
    destruct (sched_pick (threads k) _) as [[t|]| | | |] eqn:Hp; try done;
    apply sched_pick_spec in Hp.
  - intros [= <- <-]. split; [done|]. destruct Hp as (l1 & l2 & x & ? & ? & ? & ? & ?).
    exists 0%nat, l1, l2, x. split_and!; try done. intros; lia.
  - intros [= <- <-]. split; [done|]. intros h u y Hh. assert (h = 0%nat) as -> by lia. apply Hp.
  - intros [= <- <-]. split; [done|]. destruct Hp as (l1 & l2 & x & ? & ? & ? & ? & ?).
    exists (S i), l1, l2, x. split_and!; try done. intros; lia.
  - intros Hr. destruct (IH r Hr) as [-> Hspec]. split; [done|]. destruct r as [t|].
    + destruct Hspec as (j & l1 & l2 & x & ? & ? & ? & ? & ? & ? & Hno). exists j, l1, l2, x.
      split_and!; try done; [lia|]. intros h u y Hh. destruct (decide (h = S i)) as [->|].
      * apply Hp.
      * apply Hno. lia.
    + intros h u y Hh. destruct (decide (h = S i)) as [->|]; [apply Hp|]. apply Hspec. lia.
Qed.

(** ** One switch *)

Definition old_queue (qs : list (option alist)) (i : nat) : alist :=
  match qs !! i with Some (Some q) => q | _ => al_new end.

Definition after_take (k : kernel) (old t : Z) (xo x : thread_t) (q : alist) (p : process_t) : kernel :=
  let q1 := <[prio_num (priority x) := Some (al_remove t q)]> (queues k) in
  Kernel (<[t := with_preempt (u64 (now k + SCHED_TIMESLICE_US)) x]> (threads k)) (contexts k) (processes k)
    (<[prio_num (priority xo) := Some (al_add old (old_queue q1 (prio_num (priority xo))))]> q1)
    (sched_lock k) (context x) (if parent xo =? parent x then cr3 k else p_space p) (now k).

Lemma thr_at_run k t x : threads k !! t = Some x -> thr_at t k = Ret (x, k).
Proof. intros Hx. unfold thr_at. by rewrite Hx. Qed.
Lemma ctx_at_run k c x : contexts k !! c = Some x -> ctx_at c k = Ret (x, k).
Proof. intros Hx. unfold ctx_at. by rewrite Hx. Qed.
Lemma prc_at_run k p x : processes k !! p = Some x -> prc_at p k = Ret (x, k).
Proof. intros Hx. unfold prc_at. by rewrite Hx. Qed.

(** [thr_switch] away from a running thread: the context of the target is
    installed, and its address space when the processes differ. *)
Lemma thr_switch_run k t xo x c p old :
  old <> 0 -> contexts k !! cpu_ctx k = Some c -> c_thread c = old ->
  threads k !! old = Some xo -> threads k !! t = Some x -> processes k !! parent x = Some p ->
  thr_switch t k = Ret (old, set_cr3 (if parent xo =? parent x then cr3 k else p_space p) (set_cpu_ctx (context x) k)).
Proof.
  intros Ho Hc Hco Hxo Hx Hp. unfold thr_switch, thr_ctx_get, mgets. unfold mseq at 1.
  rewrite (mseq_run _ _ _ _ _ (thr_at_run _ _ _ Hx)). unfold thr_ctx_set, mmodify. unfold mseq at 1.
  rewrite (mseq_run _ _ _ _ _ (ctx_at_run (set_cpu_ctx (context x) k) _ _ Hc)). rewrite Hco.
  destruct (Z.eqb_spec old 0); [done|].
  rewrite (mseq_run _ _ _ _ _ (thr_at_run (set_cpu_ctx (context x) k) _ _ Hxo)).
  destruct (Z.eqb_spec (parent xo) (parent x)); cbn [negb].
  - unfold mseq, mreturn. by destruct k.
  - rewrite mseq_assoc. rewrite (mseq_run _ _ _ _ _ (prc_at_run (set_cpu_ctx (context x) k) _ _ Hp)).
    unfold spc_switch, mseq, mreturn. cbn [cr3 set_cpu_ctx].
    destruct (Z.eqb_spec (p_space p) (cr3 k)) as [->|]; [by destruct k|done].
Qed.

Lemma sched_take_run k old t xo x c q p :
  old <> 0 -> old <> t -> contexts k !! cpu_ctx k = Some c -> c_thread c = old ->
  threads k !! old = Some xo -> threads k !! t = Some x -> processes k !! parent x = Some p ->
  queues k !! prio_num (priority x) = Some (Some q) ->
  sched_take old t k = Ret (tt, after_take k old t xo x q p).
Proof.
  intros Ho Hne Hc Hco Hxo Hx Hp Hq. unfold sched_take.
  set (x' := with_preempt (u64 (now k + SCHED_TIMESLICE_US)) x).
  set (k1 := set_threads (<[t := x']> (threads k)) k).
  assert (Hup : thr_upd t (with_preempt (u64 (now k + SCHED_TIMESLICE_US))) k = Ret (tt, k1)).
  { unfold thr_upd. by rewrite (mseq_run _ _ _ _ _ (thr_at_run _ _ _ Hx)). }
  set (k2 := set_cr3 (if parent xo =? parent x then cr3 k else p_space p) (set_cpu_ctx (context x) k1)).
  assert (Hsw : thr_switch t k1 = Ret (old, k2)).
  { apply (thr_switch_run k1 t xo x' c p old); try done; simpl.
    - by rewrite lookup_insert_ne.
    - by rewrite lookup_insert_eq. }
  unfold mgets. unfold mseq at 1. rewrite (mseq_run _ _ _ _ _ Hup), (mseq_run _ _ _ _ _ Hsw).
  unfold sched_remove_unlocked.
  rewrite mseq_assoc, (mseq_run _ _ _ _ _ (thr_at_run k2 t x' ltac:(simpl; by rewrite lookup_insert_eq))).
  unfold mmodify at 1. unfold mseq at 1. change (priority x') with (priority x). change (queues k2) with (queues k).
  rewrite Hq. destruct (Z.eqb_spec old 0); [done|]. cbn [negb]. unfold sched_add_unlocked.
  erewrite mseq_run; [|apply (thr_at_run _ old xo); simpl; by rewrite lookup_insert_ne]. done.
Qed.

Lemma thr_ok_upd k k' t f u :
  thr_ok k u -> threads k' = <[t := f]> (threads k) -> contexts k' = contexts k -> processes k' = processes k ->
  (forall x, threads k !! t = Some x -> context f = context x /\ parent f = parent x) -> thr_ok k' u.
Proof.
  intros [Hu (x & c & p & Hx & Hc & Hcu & Hp)] Ht Hcs Hps Hf. split; [done|].
  destruct (decide (u = t)) as [->|Hne].
  - destruct (Hf x Hx) as [E1 E2]. exists f, c, p. rewrite Ht, Hcs, Hps, lookup_insert_eq, E1, E2. done.
  - exists x, c, p. by rewrite Ht, Hcs, Hps, lookup_insert_ne.
Qed.

(** Replacing queue [i] only changes the threads of that queue. *)
Lemma qitems_insert qs i q j :
  (i < length qs)%nat ->
  qitems (default None (<[i := q]> qs !! j)) = if decide (j = i) then qitems q else qitems (default None (qs !! j)).
Proof.
  intros Hi. destruct (decide (j = i)) as [->|Hne].
  - by rewrite list_lookup_insert_eq.
  - by rewrite list_lookup_insert_ne.
Qed.

Lemma take_flat k old t xo x q :
  sched_wf k -> queues k !! prio_num (priority x) = Some (Some q) -> t ∈ items q ->
  let q1 := <[prio_num (priority x) := Some (al_remove t q)]> (queues k) in
  let q2 := <[prio_num (priority xo) := Some (al_add old (old_queue q1 (prio_num (priority xo))))]> q1 in
  t :: flat q2 ≡ₚ old :: flat (queues k).
Proof.
  intros Hwf Hq Ht q1 q2. set (i := prio_num (priority x)) in *. set (j := prio_num (priority xo)) in *.
  assert (Hi : (i < length (queues k))%nat) by (by eapply lookup_lt_Some).
  assert (Hj : (j < length q1)%nat) by (unfold q1; rewrite length_insert, (sw_len _ Hwf); unfold j, PrioMaxPrio; destruct (priority xo); simpl; lia).
  assert (H1 : flat (queues k) ≡ₚ t :: flat q1).
  { unfold q1. rewrite (flat_split _ _ _ Hq), flat_insert by done. unfold al_remove. rewrite decide_True by done.
    simpl qitems. rewrite (remove_first_perm t (items q) Ht) at 1. cbn [app]. symmetry. apply Permutation_middle. }
  assert (H2 : flat q2 ≡ₚ old :: flat q1).
  { destruct (lookup_lt_is_Some_2 q1 j Hj) as [q' Hq'].
    unfold q2. rewrite flat_insert by done. rewrite (flat_split q1 j q' Hq').
    assert (Hit : qitems (Some (al_add old (old_queue q1 j))) = qitems q' ++ [old]).
    { unfold old_queue. rewrite Hq'. destruct q' as [a|]; [|done]. unfold al_add. simpl.
      assert (attached a = true) as ->; [|done]. unfold q1 in Hq'. destruct (decide (j = i)) as [He|Hne].
      - rewrite He, list_lookup_insert_eq in Hq' by done. simplify_eq. unfold al_remove. rewrite decide_True by done.
        simpl. by eapply (sw_att _ Hwf).
      - rewrite list_lookup_insert_ne in Hq' by done. by eapply (sw_att _ Hwf). }
    rewrite Hit, <-app_assoc. cbn [app]. by rewrite !app_assoc, <-Permutation_middle. }
  rewrite H2, H1. apply Permutation_swap.
Qed.

Lemma flat_in_queue k t :
  sched_wf k -> t ∈ flat (queues k) ->
  exists x q, threads k !! t = Some x /\ queues k !! prio_num (priority x) = Some (Some q) /\ t ∈ items q.
Proof.
  intros Hwf (i & q & Hi & Ht)%elem_of_flat.
  destruct (sw_prio _ Hwf i t) as (x & Hx & <-); [by rewrite Hi|].
  destruct q as [q|]; [eauto|by apply elem_of_nil in Ht].
Qed.

Lemma take_wf k t xo x q p :
  sched_wf k -> t ∈ flat (queues k) -> threads k !! cur k = Some xo -> threads k !! t = Some x ->
  queues k !! prio_num (priority x) = Some (Some q) -> t ∈ items q -> processes k !! parent x = Some p ->
  let k' := after_take k (cur k) t xo x q p in
  sched_wf k' /\ cur k' = t /\ population k' ≡ₚ population k.
Proof.
  intros Hwf Htf Hxo Hx Hq Htq Hp k'.
  pose proof (take_flat k (cur k) t xo x q Hwf Hq Htq) as Hperm. cbn zeta in Hperm.
  destruct (sw_ok _ Hwf t) as [Ht0 (x' & c & p' & Hx' & Hc & Hct & _)]; [by right|].
  assert (x' = x) as -> by congruence. clear Hx' p'.
  assert (Hcur : cur k' = t) by (unfold cur, k'; simpl; by rewrite Hc).
  assert (Hpop : population k' ≡ₚ population k) by (unfold population; rewrite Hcur; exact Hperm).
  split; [|done]. set (i := prio_num (priority x)) in *. set (j := prio_num (priority xo)) in *.
  assert (Hi : (i < length (queues k))%nat) by (by eapply lookup_lt_Some).
  assert (Hj : (j < length (queues k))%nat)
    by (rewrite (sw_len _ Hwf); unfold j, PrioMaxPrio; destruct (priority xo); simpl; lia).
  set (f := with_preempt (u64 (now k + SCHED_TIMESLICE_US)) x).
  assert (Hth : forall u y, threads k !! u = Some y ->
    exists y', threads k' !! u = Some y' /\ priority y' = priority y /\ parent y' = parent y).
  { intros u y Hu. unfold k'. simpl. destruct (decide (u = t)) as [->|Hne].
    - rewrite lookup_insert_eq. simplify_eq. by eexists.
    - rewrite lookup_insert_ne by done. eauto. }
  constructor.
  - unfold k'. simpl. rewrite !length_insert. apply Hwf.
  - intros h q' Hq'. unfold k' in Hq'. simpl in Hq'. fold i j in Hq'.
    apply list_lookup_insert_Some in Hq' as [(<- & Heq & _)|[_ Hq']].
    + simplify_eq. unfold al_add. simpl. unfold old_queue.
      destruct (_ !! j) as [[a|]|] eqn:Ha; [|done..].
      apply list_lookup_insert_Some in Ha as [(_ & Heq & _)|[_ Ha]]; [|by eapply (sw_att _ Hwf)].
      simplify_eq. unfold al_remove. rewrite decide_True by done. simpl. by eapply (sw_att _ Hwf).
    + apply list_lookup_insert_Some in Hq' as [(_ & Heq & _)|[_ Hq']]; [|by eapply (sw_att _ Hwf)].
      simplify_eq. unfold al_remove. rewrite decide_True by done. simpl. by eapply (sw_att _ Hwf).
  - intros h u Hu. unfold k' in Hu. simpl in Hu. fold i j in Hu.
    assert (exists y, threads k !! u = Some y /\ prio_num (priority y) = h) as (y & Hy & Hyp).
    { rewrite qitems_insert in Hu by (by rewrite length_insert).
      assert (Hrem : forall h0, u ∈ qitems (default None (<[i:=Some (al_remove t q)]> (queues k) !! h0)) ->
        exists y, threads k !! u = Some y /\ prio_num (priority y) = h0).
      { intros h0 Hu0. apply (sw_prio _ Hwf). rewrite qitems_insert in Hu0 by done.
        case_decide as Hh; [|done]. subst h0. rewrite Hq. simpl. unfold al_remove in Hu0. rewrite decide_True in Hu0 by done.
        simpl in Hu0. rewrite (remove_first_perm t (items q)) by done. by right. }
      case_decide as Hh; [|by apply Hrem]. subst h. simpl in Hu. unfold old_queue in Hu.
      destruct (_ !! j) as [[a|]|] eqn:Ha; simpl in Hu;
        [|apply list_elem_of_singleton in Hu as ->; by exists xo|apply list_elem_of_singleton in Hu as ->; by exists xo].
      destruct (attached a); [apply elem_of_app in Hu as [Hu|Hu]|].
      - apply Hrem. by rewrite Ha.
      - apply list_elem_of_singleton in Hu as ->. by exists xo.
      - apply Hrem. by rewrite Ha. }
    destruct (Hth u y Hy) as (y' & Hy' & Hpr & _). exists y'. split; [done|congruence].
  - intros u Hu. rewrite Hpop in Hu. eapply (thr_ok_upd k k' t f); [by apply Hwf|done..|].
    intros x0 Hx0. simplify_eq. done.
  - rewrite Hpop. apply Hwf.
  - rewrite Hcur. exists f, p. unfold k'. simpl. rewrite lookup_insert_eq. split_and!; [done|done|].
    destruct (Z.eqb_spec (parent xo) (parent x)) as [He|]; [|done].
    destruct (sw_space _ Hwf) as (y & py & Hy & Hpy & ->). simplify_eq. by rewrite He in Hpy; simplify_eq.
Qed.

Lemma cur_ctx k : cur k <> 0 -> exists c, contexts k !! cpu_ctx k = Some c /\ c_thread c = cur k.
Proof. unfold cur. destruct (contexts k !! cpu_ctx k); [eauto|done]. Qed.

Lemma thr_current_run k : cur k <> 0 -> thr_current k = Ret (cur k, k).
Proof.
  intros Hc. destruct (cur_ctx k Hc) as (c & Hcx & Ht). unfold thr_current, thr_ctx_get, mgets. unfold mseq at 1.
  rewrite (mseq_run _ _ _ _ _ (ctx_at_run _ _ _ Hcx)). by rewrite Ht.
Qed.

Lemma wf_cur k : sched_wf k -> cur k <> 0 /\ exists x, threads k !! cur k = Some x.
Proof.
  intros Hwf. destruct (sw_ok _ Hwf (cur k)) as [H0 (x & _ & _ & Hx & _)]; [by left|]. eauto.
Qed.

(** Fields the invariant does not look at. *)
Lemma sched_wf_lock k l : sched_wf (set_sched_lock l k) <-> sched_wf k.
Proof. split; intros [W1 W2 W3 W4 W5 W6]; by constructor. Qed.

Lemma thr_upd_wf k t f x :
  sched_wf k -> threads k !! t = Some x ->
  context (f x) = context x -> parent (f x) = parent x -> priority (f x) = priority x ->
  exists k', thr_upd t f k = Ret (tt, k') /\ sched_wf k' /\ cur k' = cur k /\ population k' = population k /\
    queues k' = queues k /\ sched_lock k' = sched_lock k /\ now k' = now k /\ threads k' = <[t := f x]> (threads k).
Proof.
  intros Hwf Hx E1 E2 E3. exists (set_threads (<[t := f x]> (threads k)) k).
  split; [unfold thr_upd; by rewrite (mseq_run _ _ _ _ _ (thr_at_run _ _ _ Hx))|].
  split; [|done]. destruct Hwf as [W1 W2 W3 W4 W5 (y & p & Hy & Hp & Hs)]. constructor; try done.
  - intros i u Hu. destruct (W3 i u Hu) as (y' & Hy' & Hi). simpl. destruct (decide (u = t)) as [->|].
    + rewrite lookup_insert_eq. exists (f x). split; [done|]. congruence.
    + rewrite lookup_insert_ne by done. eauto.
  - intros u Hu. eapply (thr_ok_upd k _ t (f x)); [by apply W4|done..|]. intros x0 Hx0. by simplify_eq.
  - change (cur (set_threads (<[t:=f x]> (threads k)) k)) with (cur k). simpl.
    destruct (decide (cur k = t)) as [He|].
    + rewrite He in *. rewrite lookup_insert_eq. exists (f x), p. assert (y = x) as -> by congruence. by rewrite E2.
    + rewrite lookup_insert_ne by done. eauto.
Qed.

Lemma sched_pick_total ths l :
  (forall t, t ∈ l -> is_Some (ths !! t)) -> exists r, sched_pick ths l = Ret r.
Proof.
  induction l as [|t l IH]; intros Hl; cbn [sched_pick]; [by exists None|].
  assert (exists r, sched_pick ths l = Ret r) as [r Hr] by (apply IH; intros; apply Hl; by right).
  destruct (t =? 0); [by exists r|]. destruct (Hl t) as [x ->]; [by left|]. case_decide; [by exists (Some t)|by exists r].
Qed.

Lemma sched_choose_total i k : sched_wf k -> exists r, sched_choose_loop i k = Ret (r, k).
Proof.
  intros Hwf. induction i as [|i IH]; cbn [sched_choose_loop];
    match goal with |- context [sched_pick _ ?l] => destruct (sched_pick_total (threads k) l) as [r ->] end;
    try (intros t Ht; match type of Ht with context [queues k !! ?j] =>
      destruct (queues k !! j) as [[q|]|] eqn:Hq; try (by apply elem_of_nil in Ht);
      destruct (sw_prio _ Hwf j t) as (x & Hx & _); [by rewrite Hq|by exists x] end).
  - destruct r; eauto.
  - destruct r; [eauto|exact IH].
Qed.

(** The running thread may run. *)
Definition running (k : kernel) : Prop := exists x, threads k !! cur k = Some x /\ t_state x = Runnable.

(** The threads of [k] are there in [k'], in the same state, but for a thread
    that has given up its time slice and runs again. *)
Definition states_kept (k k' : kernel) : Prop := forall u x, threads k !! u = Some x ->
  exists x', threads k' !! u = Some x' /\ (t_state x' = t_state x \/ t_state x = Yielded /\ t_state x' = Runnable).

Lemma states_kept_upd k k' t x x' : threads k !! t = Some x -> threads k' = <[t := x']> (threads k) ->
  t_state x' = t_state x \/ t_state x = Yielded /\ t_state x' = Runnable -> states_kept k k'.
Proof.
  intros Hx Ht Hs u y Hy. rewrite Ht. destruct (decide (u = t)) as [->|].
  - rewrite lookup_insert_eq. exists x'. assert (y = x) as -> by congruence. done.
  - rewrite lookup_insert_ne by done. exists y. split; [done|by left].
Qed.
Lemma states_kept_trans k1 k2 k3 : states_kept k1 k2 -> states_kept k2 k3 -> states_kept k1 k3.
Proof.
  intros H1 H2 u x Hx. destruct (H1 u x Hx) as (x' & Hx' & Hs). destruct (H2 u x' Hx') as (x'' & Hx'' & Hs').
  exists x''. split; [done|]. destruct Hs as [Hs|[Hs Hs1]], Hs' as [Hs'|[Hs' Hs1']]; rewrite ?Hs in *; rewrite ?Hs1 in *; auto.
Qed.

(** The end of [sched_schedule], entered with the lock held: the thread it
    switches to, if any, is the choice. *)
Lemma pick_next_ok k :
  sched_wf k ->
  wpf (sched_pick_next (cur k)) (fun _ k' => sched_wf k' /\ sched_lock k' = 0 /\ population k' ≡ₚ population k /\
    running k' /\ states_kept k k' /\ exists r, sched_choose k = Ret (r, k) /\ cur k' = default (cur k) r) k.
Proof.
  intros Hwf. destruct (wf_cur k Hwf) as [Hc0 [xo Hxo]]. unfold sched_pick_next.
  destruct (sched_choose_total (prio_num PrioKernel) k Hwf) as [r Hch].
  eapply wpf_seq; [exact Hch|]. pose proof Hch as [_ Hr]%sched_choose_loop_spec. destruct r as [t|].
  - destruct Hr as (j & l1 & l2 & x & Hj & Hq & Ht0 & Hx & Hst & _ & _).
    assert (Htf : t ∈ flat (queues k)).
    { apply elem_of_flat. destruct (queues k !! j) as [q|] eqn:Hqj; simpl in Hq; [|by destruct l1].
      exists j, q. split; [done|]. rewrite Hq. set_solver. }
    destruct (flat_in_queue k t Hwf Htf) as (x0 & q & Hx0 & Hq0 & Htq).
    assert (x0 = x) as -> by congruence.
    destruct (sw_ok _ Hwf t) as [_ (x1 & c1 & p & Hx1 & _ & _ & Hp)]; [by right|].
    assert (x1 = x) as -> by congruence.
    assert (Hne : cur k <> t).
    { intros He. pose proof (sw_nodup _ Hwf) as Hnd. unfold population in Hnd. rewrite He in Hnd.
      apply NoDup_cons in Hnd as [Hn _]. done. }
    destruct (cur_ctx k Hc0) as (c & Hcx & Hct).
    eapply wpf_seq; [by eapply (sched_take_run k (cur k) t xo x c q p)|].
    destruct (take_wf k t xo x q p) as (Hwf' & Hcur' & Hpop); [done..|].
    unfold sched_spl_unlock. eapply run_wpf; [reflexivity|].
    split_and!; [by apply sched_wf_lock|done|done| |by eapply states_kept_upd; [exact Hx|done|by left]|by exists (Some t)].
    exists (with_preempt (u64 (now k + SCHED_TIMESLICE_US)) x). split; [|done].
    change (cur (set_sched_lock 0 (after_take k (cur k) t xo x q p))) with (cur (after_take k (cur k) t xo x q p)).
    rewrite Hcur'. cbn [set_sched_lock after_take threads]. by rewrite lookup_insert_eq.
  - eapply wpf_seq; [by apply thr_at_run|]. case_decide; [|done]. unfold sched_spl_unlock.
    eapply run_wpf; [reflexivity|]. split_and!; [by apply sched_wf_lock|done|done|by exists xo| |by exists None].
    eapply states_kept_upd; [exact Hxo| |by left]. cbn. by rewrite insert_id.
Qed.

Lemma sched_schedule_ok k :
  sched_wf k -> sched_lock k = 0 ->
  wpf sched_schedule (fun _ k' => sched_wf k' /\ sched_lock k' = 0 /\ population k' ≡ₚ population k /\ running k' /\ states_kept k k') k.
Proof.
  intros Hwf Hlk. destruct (wf_cur k Hwf) as [Hc0 [xo Hxo]]. unfold sched_schedule.
  eapply wpf_seq; [unfold sched_spl_lock; by rewrite Hlk|].
  set (k1 := set_sched_lock 1 k). assert (Hwf1 : sched_wf k1) by (by apply sched_wf_lock).
  eapply wpf_seq; [by apply thr_current_run|]. change (cur k1) with (cur k).
  destruct (Z.eqb_spec (cur k) 0); [done|].
  eapply wpf_seq; [by apply (thr_at_run k1)|]. apply wpf_gets.
  assert (Hnext : forall k2, sched_wf k2 -> cur k2 = cur k -> population k2 = population k -> states_kept k k2 ->
    wpf (sched_pick_next (cur k)) (fun _ k' => sched_wf k' /\ sched_lock k' = 0 /\ population k' ≡ₚ population k /\ running k' /\ states_kept k k') k2).
  { intros k2 Hwf2 Hcur2 Hpop2 Hst2. rewrite <-Hcur2. eapply wpf_mono; [by apply pick_next_ok|].
    intros _ k' (? & ? & Hp & ? & ? & _). rewrite <-Hpop2. split_and!; try done. by eapply states_kept_trans. }
  assert (Hk1 : states_kept k k1) by (intros u x Hx; exists x; split; [done|by left]).
  destruct (t_state xo) eqn:Hs; try (by apply Hnext).
  - destruct (now k1 <? preempt_at xo); [|by apply Hnext]. unfold sched_spl_unlock.
    eapply run_wpf; [reflexivity|]. split_and!; [by apply sched_wf_lock|done|done|by exists xo|exact Hk1].
  - destruct (thr_upd_wf k1 (cur k) (with_tstate Runnable) xo) as (k2 & Hrun & Hwf2 & Hc2 & Hp2 & _ & _ & _ & Ht2); [done..|].
    eapply wpf_seq; [exact Hrun|]. apply Hnext; [done..|]. by eapply states_kept_upd; [exact Hxo|exact Ht2|right].
Qed.

(** C6: Scheduling loses and duplicates no thread: from a consistent state the
    call returns (or stops the machine because nobody can run), the running
    thread and the queued threads together are the same threads as before,
    each once and in the state it was in, every queued thread is in the queue of its priority, the lock
    is free again, the thread that runs now is runnable, and the active
    address space is that of its process. *)
Theorem sched_schedule_keeps_threads k :
  sched_wf k -> sched_lock k = 0 ->
  wpf sched_schedule (fun _ k' => sched_wf k' /\ sched_lock k' = 0 /\ population k' ≡ₚ population k /\ running k' /\ states_kept k k') k.
Proof. apply sched_schedule_ok. Qed.

(** C30: The choice is by priority, then first come first served: a thread that
    is chosen is runnable, no queue above its own holds a runnable thread,
    and none before it in its queue is runnable; if none is chosen, no
    queued thread is runnable. *)
Theorem sched_choose_highest k :
  sched_wf k ->
  exists r, sched_choose k = Ret (r, k) /\
  match r with
  | Some t => exists j l1 l2 x, qitems (default None (queues k !! j)) = l1 ++ t :: l2 /\
      threads k !! t = Some x /\ t_state x = Runnable /\
      (forall u y, u ∈ l1 -> u <> 0 -> threads k !! u = Some y -> t_state y <> Runnable) /\
      (forall h u y, (j < h < PrioMaxPrio)%nat -> u ∈ qitems (default None (queues k !! h)) -> u <> 0 ->
         threads k !! u = Some y -> t_state y <> Runnable)
  | None => forall u y, u ∈ flat (queues k) -> threads k !! u = Some y -> t_state y <> Runnable
  end.
Proof.
  intros Hwf. destruct (sched_choose_total (prio_num PrioKernel) k Hwf) as [r Hch].
  exists r. split; [done|]. apply sched_choose_loop_spec in Hch as [_ Hr]. destruct r as [t|].
  - destruct Hr as (j & l1 & l2 & x & Hj & Hq & _ & Hx & Hst & H1 & H2). exists j, l1, l2, x. split_and!; try done.
    intros h u y Hh. apply H2. unfold PrioMaxPrio in Hh. simpl. lia.
  - intros u y Hu Hy. destruct (sw_ok _ Hwf u) as [Hu0 _]; [by right|].
    apply elem_of_flat in Hu as (h & q & Hh & Hq). eapply (Hr h u y); [|by rewrite Hh|done|done].
    apply lookup_lt_Some in Hh. rewrite (sw_len _ Hwf) in Hh. unfold PrioMaxPrio in Hh. simpl. lia.
Qed.

(** The thread that runs is not a candidate: when its time slice is over, it
    is switched out for any runnable thread in a queue, even one of lower
    priority (so that the idle thread runs although a kernel thread could
    go on). *)
Theorem sched_prefers_queued k x t xt :
  sched_wf k -> sched_lock k = 0 -> threads k !! cur k = Some x -> t_state x = Runnable ->
  preempt_at x <= now k -> sched_choose k = Ret (Some t, k) ->
  threads k !! t = Some xt -> (prio_num (priority xt) < prio_num (priority x))%nat ->
  wpf sched_schedule (fun _ k' => cur k' = t /\ cur k' <> cur k) k.
Proof.
  intros Hwf Hlk Hx Hst Hpre Hch Hxt Hprio. destruct (wf_cur k Hwf) as [Hc0 _]. unfold sched_schedule.
  eapply wpf_seq; [unfold sched_spl_lock; by rewrite Hlk|]. eapply wpf_seq; [by apply thr_current_run|].
  change (cur (set_sched_lock 1 k)) with (cur k). destruct (Z.eqb_spec (cur k) 0); [done|].
  eapply wpf_seq; [by apply (thr_at_run (set_sched_lock 1 k))|]. apply wpf_gets. rewrite Hst.
  change (now (set_sched_lock 1 k)) with (now k). destruct (Z.ltb_spec (now k) (preempt_at x)); [lia|].
  change (cur k) with (cur (set_sched_lock 1 k)) at 1.
  eapply wpf_mono; [apply pick_next_ok; by apply sched_wf_lock|]. intros _ k' (_ & _ & _ & _ & _ & r & Hr & ->).
  assert (Hr' : sched_choose (set_sched_lock 1 k) = Ret (Some t, set_sched_lock 1 k)).
  { clear Hr. revert Hch. unfold sched_choose. generalize (prio_num PrioKernel). intros i.
    induction i as [|i IH]; cbn [sched_choose_loop]; cbn [threads queues set_sched_lock];
      destruct (sched_pick _ _) as [[u|]| | | |]; try done; try (intros [= ->]; done). }
  rewrite Hr' in Hr. simplify_eq. split; [done|]. intros He. simpl in He. rewrite He in Hxt. simplify_eq. lia.
Qed.

Module SchedDemo.
(** The core process with a running thread, and an idle thread waiting. *)
Definition thr (t c : Z) (p : priority_t) : thread_t := Thread t Runnable p 0 0 500 c 0 100.
Definition ctx (t : Z) : thr_context_t := Ctx 0 0 0 0 0 0 0 t.
Definition k0 : kernel := Kernel
  {[ 10 := thr 10 20 PrioKernel; 11 := thr 11 21 PrioIdle ]}
  {[ 20 := ctx 10; 21 := ctx 11 ]}
  {[ 500 := Process 0 4096 PrioKernel 0 2 al_new 0 ]}
  [Some (Alist [11] 1 true); None; None; None; None; None; None] 0 20 4096 200.

Lemma k0_ok t : t ∈ [10; 11] -> thr_ok k0 t.
Proof.
  intros Ht. repeat (apply elem_of_cons in Ht as [->|Ht]); [..|by apply elem_of_nil in Ht].
  - split; [done|]. by eexists _, _, _.
  - split; [done|]. by eexists _, _, _.
Qed.

Lemma k0_wf : sched_wf k0.
Proof.
  constructor.
  - done.
  - intros [|[|[|[|[|[|[|i]]]]]]] q Hq; simpl in Hq; simplify_eq; done.
  - intros [|[|[|[|[|[|[|i]]]]]]] t Ht; simpl in Ht; try (by apply elem_of_nil in Ht).
    apply list_elem_of_singleton in Ht as ->. by exists (thr 11 21 PrioIdle).
  - apply k0_ok.
  - apply (bool_decide_unpack (NoDup [10; 11])). by vm_compute.
  - by eexists _, _.
Qed.

Lemma sched_schedule_keeps_threads_witness :
  exists k', sched_schedule k0 = Ret (tt, k') /\ sched_wf k' /\ population k' ≡ₚ [10; 11].
Proof.
  pose proof (sched_schedule_keeps_threads k0 k0_wf eq_refl) as Hok.
  unfold wpf in Hok. assert (Hrun : sched_schedule k0 = Ret (tt, state_of (sched_schedule k0) k0))
    by (apply ret_val_run; reflexivity).
  rewrite Hrun in Hok. destruct Hok as (Hw & _ & Hp & _). eexists. split; [exact Hrun|]. split; [exact Hw|exact Hp].
Defined.

Lemma sched_choose_highest_witness : exists r, sched_choose k0 = Ret (r, k0).
Proof. destruct (sched_choose_highest k0 k0_wf) as (r & Hr & _). exists r. exact Hr. Defined.

Lemma sched_prefers_queued_witness : exists k', sched_schedule k0 = Ret (tt, k') /\ cur k' = 11.
Proof.
  pose proof (sched_prefers_queued k0 (thr 10 20 PrioKernel) 11 (thr 11 21 PrioIdle) k0_wf eq_refl eq_refl eq_refl
    ltac:(vm_compute; discriminate) eq_refl eq_refl ltac:(simpl; lia)) as Hok.
  unfold wpf in Hok. assert (Hrun : sched_schedule k0 = Ret (tt, state_of (sched_schedule k0) k0))
    by (apply ret_val_run; reflexivity).
  rewrite Hrun in Hok. eexists. split; [exact Hrun|exact (proj1 Hok)].
Defined.
End SchedDemo.
