(* ===== verification/Intr.v ===== *)
(** * Interrupt gates and system calls: intr.c, syscall.c

    The gate table is a list of 60 gates.  The union of a gate holds NULL, a
    handler or a handler list; using one as the other is an access through a
    wild pointer and faults.  Handlers are code elsewhere: [call] runs the
    handler at an address on the world [W] and answers whether it handled
    the interrupt. *)

From S2P Require Import Prelude Mem Alloc KList.

Definition MAX_INTR : Z := 60.
Definition SYSC_INTERRUPT : Z := 50.
Definition GateModeSingleHandler : Z := 1.
Definition GateModeMultiHandler : Z := 2.
Definition GateModeNotifyAll : Z := 4.

Inductive gate_h := HNull | HHandler (f : Z) | HList (l : alist).
Record intr_gate_desc_t := Gate { mode : Z; h : gate_h }.

Definition has_mode (m f : Z) : bool := negb (Z.land m f =? 0).

Abbreviation gate_table := (list intr_gate_desc_t).
Definition intr_init : gate_table := replicate (Z.to_nat MAX_INTR) (Gate 0 HNull).

(** The entry of gate [num]; [fatal] for a number out of range. *)
Definition gate_at (num : Z) : M gate_table intr_gate_desc_t := fun g =>
  if MAX_INTR <=? num then Fatal "gate not available"
  else match g !! Z.to_nat num with Some x => Ret (x, g) | None => Fault num end.

Definition gate_set (num : Z) (x : intr_gate_desc_t) : M gate_table unit :=
  mmodify (fun g => <[Z.to_nat num := x]> g).

Section dispatch.
Context {W : Type}.
Variable call : Z -> M W bool.

(** The handlers in list order; true when one of them ends the dispatch. *)
Fixpoint dispatch_list (notify_all : bool) (hs : list Z) : M W bool :=
  match hs with
  | [] => mreturn false
  | f :: hs' =>
      if f =? 0 then dispatch_list notify_all hs'
      else
        r <- call f ;;
        if (r : bool) && negb notify_all then mreturn true else dispatch_list notify_all hs'
  end.

Definition dispatch_gate (g : intr_gate_desc_t) : M W bool :=
  if has_mode (mode g) GateModeMultiHandler then
    match h g with
    | HNull => mreturn false
    | HList l => dispatch_list (has_mode (mode g) GateModeNotifyAll) (items l)
    | HHandler f => mfault f
    end
  else
    match h g with
    | HNull => mreturn false
    | HHandler f => if f =? 0 then mreturn false else call f
    | HList _ => mfault 0
    end.

Definition intr_dispatch (table : gate_table) (num : Z) : M W unit :=
  if MAX_INTR <=? num then mfatal "gate not available"
  else match table !! Z.to_nat num with
       | None => mfault num
       | Some g =>
           handled <- dispatch_gate g ;;
           if (handled : bool) then mreturn tt
           else if num =? SYSC_INTERRUPT then mreturn tt
           else mfatal "unhandled interrupt"
       end.
End dispatch.

Definition intr_add (num handler : Z) : M gate_table unit :=
  g <- gate_at num ;;
  if has_mode (mode g) GateModeMultiHandler then
    match h g with
    | HNull => gate_set num (Gate (mode g) (HList (al_add handler al_new)))
    | HList l => gate_set num (Gate (mode g) (HList (al_add handler l)))
    | HHandler f => mfault f
    end
  else gate_set num (Gate (mode g) (HHandler handler)).

Definition intr_remove (num handler : Z) : M gate_table unit :=
  g <- gate_at num ;;
  if has_mode (mode g) GateModeMultiHandler then
    match h g with
    | HNull => mreturn tt
    | HList l => gate_set num (Gate (mode g) (HList (al_remove handler l)))
    | HHandler f => mfault f
    end
  else
    match h g with
    | HHandler f => if f =? handler then gate_set num (Gate (mode g) HNull)
                    else mfatal "trying to remove foreign handler"
    | HNull => if handler =? 0 then gate_set num (Gate (mode g) HNull)
               else mfatal "trying to remove foreign handler"
    | HList _ => mfatal "trying to remove foreign handler"
    end.

(** The list is cleared and, unless the new mode is the multi-handler mode,
    deleted; the union is set to NULL in either case. *)
Definition intr_set_mode (num m : Z) : M gate_table unit :=
  g <- gate_at num ;;
  if has_mode (mode g) m then mreturn tt
  else
    gate_set num (Gate m (h g)) ;;;
    match h g with
    | HNull => gate_set num (Gate m HNull)
    | HList _ => gate_set num (Gate m HNull)
    | HHandler f => if f =? 0 then gate_set num (Gate m HNull) else mfault f
    end.

Definition sysc_init : M gate_table unit := intr_set_mode SYSC_INTERRUPT GateModeMultiHandler.

(** ** Masking: the interrupt flag and the nesting count of the context *)

Record irq := Irq { if_flag : bool; ifda_cnt : Z }.

Definition intr_disable (s : irq) : irq := Irq false (u8 (ifda_cnt s + 1)).

Definition intr_enable (do_it : bool) (s : irq) : bool * irq :=
  let c := if 0 <? ifda_cnt s then ifda_cnt s - 1 else ifda_cnt s in
  if c =? 0 then (true, Irq (if do_it then true else if_flag s) c)
  else (false, Irq (if_flag s) c).

Definition intr_state (s : irq) : bool := if_flag s.

(** ** System calls *)

Record sysc_ctx := SyscCtx { rax : Z; rdi : Z; rsi : Z; rdx : Z; thr_syscall : option Z }.

Definition sysc_get_call (s : sysc_ctx) : Z := u32 (rdi s).

(** [thr_syscall] is the nesting count of the context's thread, [None] when
    there is no thread. *)
Definition sysc_call (handler : Z -> Z -> Z -> outcome Z) (s : sysc_ctx) : outcome (Z * sysc_ctx) :=
  match thr_syscall s with
  | None => Fatal "no thread associated with execution context!"
  | Some n =>
      match handler (sysc_get_call s) (rsi s) (rdx s) with
      | Ret v => Ret (v, SyscCtx v (rdi s) (rsi s) (rdx s) (Some (u8 (u8 (n + 1) - 1))))
      | Fatal m => Fatal m
      | Fault a => Fault a
      | Deadlock => Deadlock
      | NoFuel => NoFuel
      end
  end.

Definition sysc_active (s : sysc_ctx) : outcome bool :=
  match thr_syscall s with
  | None => Fatal "no thread associated with execution context!"
  | Some n => Ret (0 <? n)
  end.

(** ** Theorems *)

Section dispatch_thms.
Context {W : Type}.
Variable call : Z -> M W bool.

(** [declines hs w w']: the handlers [hs], called in order from [w], all
    decline and leave [w']. *)
Inductive declines : list Z -> W -> W -> Prop :=
| decl_nil w : declines [] w w
| decl_cons f hs w w1 w2 :
    f <> 0 -> call f w = Ret (false, w1) -> declines hs w1 w2 -> declines (f :: hs) w w2.

Lemma dispatch_declined hs rest w w' :
  declines hs w w' -> dispatch_list call false (hs ++ rest) w = dispatch_list call false rest w'.
Proof.
  induction 1 as [w|f hs w w1 w2 Hf Hc _ IH]; [done|]. cbn [app dispatch_list].
  destruct (Z.eqb_spec f 0); [done|]. rewrite (mseq_run _ _ _ _ _ Hc). cbn [andb]. exact IH.
Qed.

(** C36: A shared gate offers the interrupt to its handlers in the order they
    were added and stops at the first that takes it: the later handlers are
    not called, and the dispatch returns. *)
Theorem intr_dispatch_first table num l hs f rest w w1 w2 :
  0 <= num < MAX_INTR -> table !! Z.to_nat num = Some (Gate GateModeMultiHandler (HList l)) ->
  items l = hs ++ f :: rest -> f <> 0 -> declines hs w w1 -> call f w1 = Ret (true, w2) ->
  intr_dispatch call table num w = Ret (tt, w2).
Proof.
  intros Hn Hg Hl Hf Hd Hc. unfold intr_dispatch. destruct (Z.leb_spec MAX_INTR num); [lia|]. rewrite Hg.
  rewrite (mseq_run _ _ _ true w2); [done|]. unfold dispatch_gate. simpl. rewrite Hl, (dispatch_declined _ _ _ _ Hd).
  cbn [dispatch_list]. destruct (Z.eqb_spec f 0); [done|]. by rewrite (mseq_run _ _ _ _ _ Hc).
Qed.

(** A gate that notifies all handlers reports every interrupt as
    unhandled: if the handlers return, the machine is stopped, even though
    each of them may have handled the interrupt. *)
Theorem intr_notify_all_fatal table num l w :
  0 <= num < MAX_INTR -> num <> SYSC_INTERRUPT ->
  table !! Z.to_nat num = Some (Gate (Z.lor GateModeMultiHandler GateModeNotifyAll) (HList l)) ->
  (forall f w', exists b w'', call f w' = Ret (b, w'')) ->
  intr_dispatch call table num w = Fatal "unhandled interrupt".
Proof.
  intros Hn Hs Hg Hcall. unfold intr_dispatch. destruct (Z.leb_spec MAX_INTR num); [lia|]. rewrite Hg.
  assert (Hd : forall hs w0, exists w', dispatch_list call true hs w0 = Ret (false, w')).
  { induction hs as [|f hs IH]; intros w0; cbn [dispatch_list]; [by exists w0|]. destruct (f =? 0); [apply IH|].
    destruct (Hcall f w0) as (b & w1 & Hc). rewrite (mseq_run _ _ _ _ _ Hc), andb_false_r. apply IH. }
  destruct (Hd (items l) w) as (w' & Hrun). erewrite mseq_run; [|unfold dispatch_gate; simpl; exact Hrun].
  by destruct (Z.eqb_spec num SYSC_INTERRUPT).
Qed.
End dispatch_thms.

Lemma remove_first_snoc x l : x ∉ l -> remove_first x (l ++ [x]) = l.
Proof.
  induction l as [|y l IH]; intros Hx; simpl; [by rewrite Z.eqb_refl|].
  destruct (Z.eqb_spec y x) as [->|]; [set_solver|]. rewrite IH; set_solver.
Qed.

(** Removing a handler that was just added restores the gate table, on a
    shared gate where it was not registered before. *)
Theorem intr_add_remove table num l f :
  0 <= num < MAX_INTR -> table !! Z.to_nat num = Some (Gate GateModeMultiHandler (HList l)) ->
  attached l = true -> f ∉ items l ->
  (intr_add num f ;;; intr_remove num f) table = Ret (tt, table).
Proof.
  intros Hn Hg Ha Hf. assert (Hlt : (Z.to_nat num < length table)%nat) by (by eapply lookup_lt_Some).
  unfold intr_add, intr_remove, gate_set.
  assert (Hat : forall t g, t !! Z.to_nat num = Some g -> gate_at num t = Ret (g, t)).
  { intros t g Ht. unfold gate_at. destruct (Z.leb_spec MAX_INTR num); [lia|]. by rewrite Ht. }
  rewrite mseq_assoc, (mseq_run _ _ _ _ _ (Hat _ _ Hg)). cbn [mode h]. change (has_mode GateModeMultiHandler GateModeMultiHandler) with true.
  cbn iota. unfold mmodify at 1. unfold mseq at 1.
  rewrite (mseq_run _ _ _ _ _ (Hat _ _ (list_lookup_insert_eq _ _ _ Hlt))). cbn [mode h].
  change (has_mode GateModeMultiHandler GateModeMultiHandler) with true. cbn iota. unfold mmodify.
  apply Ret_eq; [done|]. cbn beta. rewrite list_insert_insert_eq.
  assert (Hl : al_remove f (al_add f l) = l).
  { unfold al_remove, al_add. rewrite Ha. simpl. rewrite decide_True by set_solver.
    rewrite remove_first_snoc by done. destruct l as [its n att]. simpl in *. subst. f_equal. lia. }
  rewrite Hl. by apply list_insert_id.
Qed.

(** Changing the mode of a gate that has a single handler treats the
    handler's address as a list and clears it: the call does not return. *)
Theorem intr_set_mode_confuses_union table num f m :
  0 <= num < MAX_INTR -> table !! Z.to_nat num = Some (Gate GateModeSingleHandler (HHandler f)) ->
  f <> 0 -> has_mode GateModeSingleHandler m = false -> intr_set_mode num m table = Fault f.
Proof.
  intros Hn Hg Hf Hm. unfold intr_set_mode.
  assert (Hat : gate_at num table = Ret (Gate GateModeSingleHandler (HHandler f), table)).
  { unfold gate_at. destruct (Z.leb_spec MAX_INTR num); [lia|]. by rewrite Hg. }
  rewrite (mseq_run _ _ _ _ _ Hat). cbn [mode h]. rewrite Hm. unfold gate_set, mmodify, mseq.
  by destruct (Z.eqb_spec f 0).
Qed.

(** Nested masking. *)
Fixpoint disable_n (n : nat) (s : irq) : irq := match n with O => s | S n' => disable_n n' (intr_disable s) end.
Fixpoint enable_n (n : nat) (s : irq) : irq := match n with O => s | S n' => enable_n n' (snd (intr_enable true s)) end.

Lemma disable_n_spec n s : 0 <= ifda_cnt s -> ifda_cnt s + Z.of_nat n < 256 ->
  disable_n n s = match n with O => s | _ => Irq false (ifda_cnt s + Z.of_nat n) end.
Proof.
  revert s. induction n as [|n IH]; intros s H0 Hn; [done|]. cbn [disable_n].
  rewrite IH; unfold intr_disable; simpl; rewrite u8_small by lia; [|lia|lia].
  destruct n; [done|]. f_equal. lia.
Qed.

Lemma enable_n_spec n c : 0 <= Z.of_nat n < c ->
  enable_n n (Irq false c) = Irq false (c - Z.of_nat n).
Proof.
  revert c. induction n as [|n IH]; intros c Hn; [simpl; f_equal; lia|]. cbn [enable_n].
  unfold intr_enable. simpl. destruct (Z.ltb_spec 0 c); [|lia]. destruct (Z.eqb_spec (c - 1) 0); [lia|].
  simpl. rewrite IH by lia. f_equal. lia.
Qed.

(** Masking nests, up to 255 levels: after [n] calls of intr_disable the
    interrupts stay off through the first [n - 1] calls of intr_enable and
    come back with the last; at 256 levels the count wraps and the first
    intr_enable turns them on. *)
Theorem intr_masking_nests n :
  (0 < n < 256)%nat ->
  (forall k, (k < n)%nat -> intr_state (enable_n k (disable_n n (Irq true 0))) = false) /\
  enable_n n (disable_n n (Irq true 0)) = Irq true 0 /\
  intr_state (enable_n 1 (disable_n 256 (Irq true 0))) = true.
Proof.
  intros Hn. rewrite disable_n_spec by (simpl; lia). destruct n as [|n]; [lia|]. cbn [ifda_cnt].
  rewrite Z.add_0_l. split_and!.
  - intros k Hk. rewrite enable_n_spec by lia. done.
  - replace (S n) with (n + 1)%nat at 1 by lia.
    assert (Hadd : forall a b s, enable_n (a + b) s = enable_n b (enable_n a s)).
    { induction a as [|a IH]; intros b s; [done|]. simpl. apply IH. }
    rewrite Hadd, enable_n_spec by lia. replace (Z.of_nat (S n) - Z.of_nat n) with 1 by lia. done.
  - by vm_compute.
Qed.

Module IntrDemo.
(** Two handlers: the one at 100 declines and counts, the one at 200 takes
    the interrupt. *)
Definition demo_call (f : Z) : M Z bool := fun w => if f =? 100 then Ret (false, w + 1) else Ret (true, w + 10).
Definition multi (m : Z) : gate_table := <[7%nat := Gate m (HList (Alist [100; 200; 300] 3 true))]> intr_init.

Lemma intr_dispatch_first_witness : intr_dispatch demo_call (multi GateModeMultiHandler) 7 0 = Ret (tt, 11).
Proof.
  apply (intr_dispatch_first demo_call (multi GateModeMultiHandler) 7 (Alist [100; 200; 300] 3 true) [100] 200 [300] 0 1 11);
    try reflexivity; try (unfold MAX_INTR; lia).
  apply (decl_cons demo_call 100 [] 0 1 1); [lia|reflexivity|apply decl_nil].
Defined.

Lemma intr_notify_all_fatal_witness :
  intr_dispatch demo_call (multi (Z.lor GateModeMultiHandler GateModeNotifyAll)) 7 0 = Fatal "unhandled interrupt".
Proof.
  apply (intr_notify_all_fatal demo_call _ 7 (Alist [100; 200; 300] 3 true) 0);
    [unfold MAX_INTR; lia|unfold SYSC_INTERRUPT; lia|reflexivity|].
  intros f w'. unfold demo_call. destruct (f =? 100); eexists _, _; reflexivity.
Defined.

Lemma intr_add_remove_witness :
  (intr_add 7 400 ;;; intr_remove 7 400) (multi GateModeMultiHandler) = Ret (tt, multi GateModeMultiHandler).
Proof.
  apply (intr_add_remove _ 7 (Alist [100; 200; 300] 3 true) 400); [unfold MAX_INTR; lia|reflexivity|reflexivity|].
  apply (bool_decide_unpack (400 ∉ [100; 200; 300])). vm_compute. exact I.
Defined.

Lemma intr_set_mode_confuses_union_witness :
  intr_set_mode 7 GateModeMultiHandler (<[7%nat := Gate GateModeSingleHandler (HHandler 100)]> intr_init) = Fault 100.
Proof.
  apply (intr_set_mode_confuses_union _ 7 100 GateModeMultiHandler); [unfold MAX_INTR; lia|reflexivity|lia|reflexivity].
Defined.

Lemma intr_masking_nests_witness : enable_n 3 (disable_n 3 (Irq true 0)) = Irq true 0.
Proof. destruct (intr_masking_nests 3 ltac:(lia)) as (_ & H & _). exact H. Defined.
End IntrDemo.
