(* ===== verification/Tmr.v ===== *)
(** * Timers and the system time source: tmr.c, systime.c

    [tmr_t] records by address, the timer list with the operations of
    list.c, and a record of what happens outside: the callbacks that were
    called and the timeouts the generator was programmed with.  Callbacks
    are other components' code and leave the timers alone.  [now] is what
    [systime] answers during one tick. *)

From S2P Require Import Prelude Mem Alloc KList.

Definition TMR_MAX_TIMEOUT : Z := 10000.
Definition TMR_MIN_TIMEOUT : Z := 50.

Record tmr_t := Tmr { expire : Z; period : Z; callback : Z }.

Record timers := Timers {
  tmrs : gmap Z tmr_t; tlist : alist; now : Z; called : list Z; programmed : list Z }.

Definition set_tlist l t := Timers (tmrs t) l (now t) (called t) (programmed t).
Definition set_tmrs m t := Timers m (tlist t) (now t) (called t) (programmed t).
Definition add_called c t := Timers (tmrs t) (tlist t) (now t) (called t ++ [c]) (programmed t).
Definition add_programmed u t := Timers (tmrs t) (tlist t) (now t) (called t) (programmed t ++ [u]).

Definition tmr_at (p : Z) : M timers tmr_t := fun t =>
  match tmrs t !! p with Some x => Ret (x, t) | None => Fault p end.

(** Position of the first timer of the list that does not expire earlier. *)
Fixpoint find_later (m : gmap Z tmr_t) (e : Z) (l : list Z) : outcome (option nat) :=
  match l with
  | [] => Ret None
  | p :: l' =>
      match m !! p with
      | None => Fault p
      | Some x =>
          if e <=? expire x then Ret (Some 0%nat)
          else match find_later m e l' with
               | Ret (Some i) => Ret (Some (S i))
               | o => o
               end
      end
  end.

Definition tmr_resched_sorted (tmr : Z) : M timers unit :=
  x <- tmr_at tmr ;;
  fun t =>
    match find_later (tmrs t) (expire x) (items (tlist t)) with
    | Ret (Some i) => Ret (tt, set_tlist (al_insert_after i tmr (tlist t)) t)
    | Ret None => Ret (tt, set_tlist (al_insert_head tmr (tlist t)) t)
    | Fatal m => Fatal m
    | Fault a => Fault a
    | Deadlock => Deadlock
    | NoFuel => NoFuel
    end.

Definition tmr_handle_expired (tmr : Z) : M timers unit :=
  x <- tmr_at tmr ;;
  mmodify (add_called (callback x)) ;;;
  mmodify (fun t => set_tlist (al_remove tmr (tlist t)) t) ;;;
  if negb (period x =? 0) then
    mmodify (fun t => set_tmrs (<[tmr := Tmr (u64 (now t + period x)) (period x) (callback x)]> (tmrs t)) t) ;;;
    tmr_resched_sorted tmr
  else mmodify (fun t => set_tmrs (delete tmr (tmrs t)) t).

(** What a walk sees from the node of [p] on: [node->next] is read before the
    expired timer is handled, and the walk goes on in the list as it then
    is. *)
Fixpoint suffix_from (p : Z) (l : list Z) : list Z :=
  match l with [] => [] | q :: l' => if q =? p then l else suffix_from p l' end.

Definition continue_at (rest cur_list : list Z) : list Z :=
  match rest with
  | [] => []
  | p :: _ => if decide (p ∈ cur_list) then suffix_from p cur_list else rest
  end.

Fixpoint tick_loop (fuel : nat) (current : Z) (l : list Z) : M timers unit :=
  match l with
  | [] => mreturn tt
  | p :: rest =>
      match fuel with
      | O => mnofuel
      | S f =>
          x <- tmr_at p ;;
          if expire x <=? current then
            tmr_handle_expired p ;;;
            t <- mget ;;
            tick_loop f current (continue_at rest (items (tlist t)))
          else mreturn tt
      end
  end.

Definition tmr_do_handle_tick (fuel : nat) : M timers unit :=
  t <- mget ;; tick_loop fuel (now t) (items (tlist t)).

Definition tmr_set_next_tick (fuel : nat) : M timers unit :=
  t0 <- mget ;;
  let current := now t0 in
  tmr_do_handle_tick fuel ;;;
  t <- mget ;;
  match items (tlist t) with
  | p :: _ =>
      x <- tmr_at p ;;
      let timeout := if expire x <=? u64 (current + TMR_MIN_TIMEOUT) then TMR_MIN_TIMEOUT
                     else u64 (expire x - current) in
      mmodify (add_programmed timeout)
  | [] => mmodify (add_programmed TMR_MAX_TIMEOUT)
  end.

(** [p] is the block [kheap_alloc] returned. *)
Definition tmr_schedule (fuel : nat) (p cb us : Z) (oneshot : bool) : M timers bool :=
  if cb =? 0 then mreturn false
  else if p =? 0 then mfault 0
  else
    mmodify (fun t => set_tmrs (<[p := Tmr (u64 (us + now t)) (if oneshot then 0 else us) cb]> (tmrs t)) t) ;;;
    tmr_resched_sorted p ;;;
    tmr_set_next_tick fuel ;;;
    mreturn true.

Definition tmr_handle_tick (fuel : nat) : M timers unit := tmr_set_next_tick fuel.

(** ** Choosing the hardware *)

Record tmr_gen_t := Gen { supported : bool; init_ok : bool; gen_id : Z }.

(** [tmr_init]: the first generator that is there, supported and starts. *)
Fixpoint tmr_init_loop (gens : list (option tmr_gen_t)) (chosen : option tmr_gen_t) : option tmr_gen_t :=
  match gens with
  | [] => chosen
  | g :: gens' =>
      tmr_init_loop gens'
        (match chosen with
         | Some _ => chosen
         | None => match g with
                   | Some p => if negb (supported p) then None else if negb (init_ok p) then None else Some p
                   | None => None
                   end
         end)
  end.

Definition tmr_init (gens : list (option tmr_gen_t)) : outcome (tmr_gen_t * alist) :=
  match tmr_init_loop gens None with
  | Some g => Ret (g, al_new)
  | None => Fatal "no timer generator found!"
  end.

Record systime_desc_t := TimeSrc { accuracy : Z; systime_us_func : Z; systime_init_func : Z }.

Definition systime_extp_init (the : option systime_desc_t) (desc : systime_desc_t) : option systime_desc_t :=
  match the with
  | None => Some desc
  | Some s => if accuracy s <? accuracy desc then Some desc else the
  end.

(** The source chosen, and the initialiser that is called (0 for none). *)
Definition systime_init (descs : list systime_desc_t) : outcome (systime_desc_t * Z) :=
  match foldl systime_extp_init None descs with
  | None => Fatal "no system time source found!"
  | Some s => if systime_us_func s =? 0 then Fatal "no system time source found!"
              else Ret (s, systime_init_func s)
  end.

Definition systime (the : option systime_desc_t) (read : Z -> Z) : Z :=
  match the with None => 0 | Some s => read (systime_us_func s) end.

(** [systime_stall]: [readings] are the answers of [systime] in turn; the
    result is the number of readings taken after the first. *)
Fixpoint stall_loop (end_ : Z) (readings : list Z) : option nat :=
  match readings with
  | [] => None
  | r :: rs => if r <? end_ then match stall_loop end_ rs with Some n => Some (S n) | None => None end
               else Some 1%nat
  end.
Definition systime_stall (us : Z) (readings : list Z) : option nat :=
  match readings with [] => None | start :: rs => stall_loop (u64 (start + us)) rs end.

(** ** Theorems *)

Lemma find_later_none m e l :
  Forall (fun p => exists x, m !! p = Some x /\ expire x < e) l -> find_later m e l = Ret None.
Proof.
  induction 1 as [|p l (x & Hx & He) _ IH]; [done|]. simpl. rewrite Hx.
  destruct (Z.leb_spec e (expire x)); [lia|]. by rewrite IH.
Qed.

(** A timer that expires after all others replaces them: they are dropped
    from the list, the new timer is the only one a tick will ever see. *)
Theorem tmr_later_timer_drops_others t p x :
  tmrs t !! p = Some x -> items (tlist t) <> [] ->
  Forall (fun q => exists y, tmrs t !! q = Some y /\ expire y < expire x) (items (tlist t)) ->
  exists t', tmr_resched_sorted p t = Ret (tt, t') /\ items (tlist t') = [p] /\
    asize (tlist t') = asize (tlist t) + 1.
Proof.
  intros Hx Hne Hall. eexists. split.
  - unfold tmr_resched_sorted, mseq, tmr_at. rewrite Hx. by rewrite (find_later_none _ _ _ Hall).
  - done.
Qed.

(** A timer that expires earlier than one already in the list is put behind
    it, so that the list is not in order of expiry. *)
Theorem tmr_earlier_timer_goes_behind t p q x y :
  items (tlist t) = [q] -> tmrs t !! p = Some x -> tmrs t !! q = Some y -> expire x < expire y ->
  exists t', tmr_resched_sorted p t = Ret (tt, t') /\ items (tlist t') = [q; p].
Proof.
  intros Hl Hx Hy He. eexists. split.
  - unfold tmr_resched_sorted, mseq, tmr_at. rewrite Hx, Hl. simpl. rewrite Hy.
    by destruct (Z.leb_spec (expire x) (expire y)); [|lia].
  - simpl. by rewrite Hl.
Qed.

(** The heartbeat: a periodic timer that is alone in the list and due is
    called exactly once by a tick, armed again one period from now, stays
    the only timer, and the generator is programmed for the period (or the
    minimum). *)
Theorem tmr_heartbeat t p x fuel :
  items (tlist t) = [p] -> attached (tlist t) = true -> tmrs t !! p = Some x -> expire x <= now t ->
  0 < period x -> 0 <= now t -> now t + period x < 2 ^ 63 -> (0 < fuel)%nat ->
  exists t', tmr_handle_tick fuel t = Ret (tt, t') /\
    called t' = called t ++ [callback x] /\
    items (tlist t') = [p] /\ attached (tlist t') = true /\
    tmrs t' !! p = Some (Tmr (now t + period x) (period x) (callback x)) /\
    programmed t' = programmed t ++ [Z.max TMR_MIN_TIMEOUT (period x)].
Proof.
  intros Hl Ha Hx He Hp Hn Hb Hf. destruct fuel as [|fuel]; [lia|].
  set (x' := Tmr (now t + period x) (period x) (callback x)).
  set (l1 := al_remove p (tlist t)).
  assert (Hl1 : items l1 = [] /\ attached l1 = true).
  { unfold l1, al_remove. rewrite Hl, decide_True by set_solver. simpl. by rewrite Z.eqb_refl. }
  set (t1 := Timers (<[p := x']> (tmrs t)) (al_insert_head p l1) (now t) (called t ++ [callback x]) (programmed t)).
  assert (Hexp : tmr_handle_expired p t = Ret (tt, t1)).
  { unfold tmr_handle_expired, tmr_at. unfold mseq at 1. rewrite Hx. unfold mmodify, mseq.
    destruct (Z.eqb_spec (period x) 0); [lia|]. cbn [negb]. unfold tmr_resched_sorted, tmr_at, mseq.
    cbn [tmrs set_tmrs set_tlist add_called now tlist]. rewrite u64_small by lia. rewrite lookup_insert_eq.
    match goal with |- context [find_later _ _ ?l] => change l with (items l1) end.
    by rewrite (proj1 Hl1). }
  exists (add_programmed (Z.max TMR_MIN_TIMEOUT (period x)) t1). split.
  - assert (Hdo : tmr_do_handle_tick (S fuel) t = Ret (tt, t1)).
    { unfold tmr_do_handle_tick. rewrite (mseq_run mget _ t t t eq_refl), Hl. cbn [tick_loop].
      unfold tmr_at. unfold mseq at 1. rewrite Hx. destruct (Z.leb_spec (expire x) (now t)); [|lia].
      rewrite (mseq_run _ _ _ _ _ Hexp), (mseq_run mget _ t1 t1 t1 eq_refl). cbn [continue_at]. by destruct fuel. }
    unfold tmr_handle_tick, tmr_set_next_tick. rewrite (mseq_run mget _ t t t eq_refl).
    rewrite (mseq_run _ _ _ _ _ Hdo), (mseq_run mget _ t1 t1 t1 eq_refl).
    unfold t1 at 1. cbn [tlist al_insert_head items].
    unfold tmr_at, mseq. unfold t1 at 1. cbn [tmrs]. rewrite lookup_insert_eq. cbn [expire x'].
    unfold mmodify. apply Ret_eq; [done|]. f_equal. rewrite (u64_small (now t + TMR_MIN_TIMEOUT)) by (unfold TMR_MIN_TIMEOUT; lia).
    destruct (Z.leb_spec (now t + period x) (now t + TMR_MIN_TIMEOUT)); [lia|].
    rewrite u64_small by (unfold TMR_MIN_TIMEOUT in *; lia). lia.
  - simpl. rewrite lookup_insert_eq. destruct Hl1 as [-> ->]. done.
Qed.

(** The time source with the best accuracy wins: whatever systime_init
    settles on is one of the offered sources, and none offered is better. *)
Theorem systime_init_best descs s f :
  systime_init descs = Ret (s, f) -> s ∈ descs /\ forall d, d ∈ descs -> accuracy d <= accuracy s.
Proof.
  unfold systime_init. destruct (foldl systime_extp_init None descs) as [b|] eqn:Hb; [|done].
  destruct (systime_us_func b =? 0); [done|]. intros [= <- <-].
  assert (Hgen : forall l a b, foldl systime_extp_init a l = Some b ->
    (a = Some b \/ b ∈ l) /\ (forall d, d ∈ l -> accuracy d <= accuracy b) /\
    (forall c, a = Some c -> accuracy c <= accuracy b)).
  { clear. induction l as [|d l IH]; intros a b Hf; simpl in Hf.
    { split_and!; [by left|by intros d ?%elem_of_nil|]. intros c ->. simplify_eq. lia. }
    destruct (IH _ _ Hf) as (H1 & H2 & H3). unfold systime_extp_init in H1, H3.
    destruct a as [c|]; [destruct (Z.ltb_spec (accuracy c) (accuracy d))|].
    - split_and!; [right; destruct H1; [simplify_eq; by left|by right]| |].
      + intros e [->|He]%elem_of_cons; [by apply H3|by apply H2].
      + intros c' [= ->]. specialize (H3 d eq_refl). lia.
    - split_and!; [destruct H1; [by left|right; by right]| |].
      + intros e [->|He]%elem_of_cons; [specialize (H3 c eq_refl); lia|by apply H2].
      + intros c' [= ->]. by apply H3.
    - split_and!; [right; destruct H1; [simplify_eq; by left|by right]| |done].
      intros e [->|He]%elem_of_cons; [by apply H3|by apply H2]. }
  destruct (Hgen _ _ _ Hb) as ([?|?] & H2 & _); done.
Qed.

Module TmrDemo.
Definition t0 : timers := Timers {[ 8 := Tmr 100 50 1; 16 := Tmr 200 0 2; 24 := Tmr 30 0 3 ]} (Alist [8] 1 true) 120 [] [].

Lemma tmr_later_timer_drops_others_witness :
  exists t', tmr_resched_sorted 16 t0 = Ret (tt, t') /\ items (tlist t') = [16].
Proof.
  destruct (tmr_later_timer_drops_others t0 16 (Tmr 200 0 2)) as (t' & Hr & Hi & _); [reflexivity|discriminate| |].
  { constructor; [|constructor]. exists (Tmr 100 50 1). split; [reflexivity|simpl; lia]. }
  exists t'. split; [exact Hr|exact Hi].
Defined.

Lemma tmr_earlier_timer_goes_behind_witness :
  exists t', tmr_resched_sorted 24 t0 = Ret (tt, t') /\ items (tlist t') = [8; 24].
Proof.
  destruct (tmr_earlier_timer_goes_behind t0 24 8 (Tmr 30 0 3) (Tmr 100 50 1)) as (t' & Hr & Hi);
    [reflexivity|reflexivity|reflexivity|simpl; lia|].
  exists t'. split; [exact Hr|exact Hi].
Defined.

Lemma tmr_heartbeat_witness :
  exists t', tmr_handle_tick 1 t0 = Ret (tt, t') /\ called t' = [1] /\ programmed t' = [50].
Proof.
  destruct (tmr_heartbeat t0 8 (Tmr 100 50 1) 1) as (t' & Hr & Hc & _ & _ & _ & Hg);
    [reflexivity|reflexivity|reflexivity|simpl; lia..|].
  exists t'. split; [exact Hr|]. split; [exact Hc|exact Hg].
Defined.

Lemma systime_init_best_witness :
  TimeSrc 9 2 0 ∈ [TimeSrc 5 1 0; TimeSrc 9 2 0].
Proof.
  exact (proj1 (systime_init_best [TimeSrc 5 1 0; TimeSrc 9 2 0] (TimeSrc 9 2 0) 0 eq_refl)).
Defined.
End TmrDemo.
