(* ===== verification/RoundRobin.v ===== *)
(** * The scheduler over time: rounds

    What successive calls of sched_schedule from the heartbeat timer do to the
    threads of one priority. *)

From S2P Require Import Prelude.
From S2P Require Import KList.
From S2P Require Import Sched.

(** The clock shows [n]. *)
Definition at_time (n : Z) (k : kernel) : kernel :=
  Kernel (threads k) (contexts k) (processes k) (queues k) (sched_lock k) (cpu_ctx k) (cr3 k) n.

(** The heartbeat: sched_schedule at each of the times [ns]. *)
Fixpoint heartbeats (ns : list Z) : M kernel unit :=
  match ns with
  | [] => mreturn tt
  | n :: r => mmodify (at_time n) ;;; sched_schedule ;;; heartbeats r
  end.

(** Every call comes when the slice that began with the previous one, the
    first when the slice up to [a], is over. *)
Fixpoint expired (a : Z) (ns : list Z) : Prop :=
  match ns with [] => True | n :: r => a <= n /\ expired (u64 (n + SCHED_TIMESLICE_US)) r end.

(** Can the thread at [u] be taken? *)
Definition ready (k : kernel) (u : Z) : Prop := match threads k !! u with Some x => t_state x = Runnable | None => False end.
#[export] Instance ready_dec k u : Decision (ready k u).
Proof. unfold ready. destruct (threads k !! u); apply _. Defined.

Definition queue_of (p : priority_t) (k : kernel) : list Z := qitems (default None (queues k !! prio_num p)).

(** [l] are the runnable threads in the queue of priority [p], and above it
    none is runnable. *)
Record waiting (p : priority_t) (l : list Z) (k : kernel) : Prop := {
  wait_wf : sched_wf k;
  wait_lock : sched_lock k = 0;
  wait_queue : filter (ready k) (queue_of p k) = l;
  wait_top : forall h u, (prio_num p < h < PrioMaxPrio)%nat -> u ∈ qitems (default None (queues k !! h)) -> ~ ready k u;
}.

(** In addition [c] of priority [p] runs, up to [a]. *)
Record ring (p : priority_t) (c : Z) (l : list Z) (a : Z) (k : kernel) : Prop := {
  ring_wait : waiting p l k;
  ring_cur : cur k = c;
  ring_until : exists x, threads k !! c = Some x /\ preempt_at x = a /\ t_state x = Runnable /\ priority x = p;
}.

Lemma prio_lt p : (prio_num p < PrioMaxPrio)%nat.
Proof. destruct p; unfold PrioMaxPrio; simpl; lia. Qed.
Lemma ready_iff k u : ready k u <-> exists x, threads k !! u = Some x /\ t_state x = Runnable.
Proof. unfold ready. destruct (threads k !! u); naive_solver. Qed.

(** The head of the waiting threads is the choice. *)
Lemma waiting_choice p t l k : waiting p (t :: l) k -> sched_choose k = Ret (Some t, k).
Proof.
  intros [Hwf _ Hq Htop]. destruct (sched_choose_total (prio_num PrioKernel) k Hwf) as [r Hch]. unfold sched_choose. rewrite Hch.
  assert (t ∈ filter (ready k) (queue_of p k)) as Ht by (rewrite Hq; by left). apply list_elem_of_filter in Ht as [Hrt Ht].
  apply ready_iff in Hrt as (x & Hx & Hst). destruct (sw_ok _ Hwf t) as [Ht0 _].
  { right. apply elem_of_flat. unfold queue_of in Ht. destruct (queues k !! prio_num p) as [q|] eqn:E; [by exists (prio_num p), q|by apply elem_of_nil in Ht]. }
  pose proof (prio_lt p) as Hp. unfold PrioMaxPrio in *. apply sched_choose_loop_spec in Hch as [_ Hs]. destruct r as [u|].
  - destruct Hs as (j & l1 & l2 & y & Hj & Hqj & _ & Hy & Hyst & Hl1 & Hhi). simpl in *.
    destruct (decide (j = prio_num p)) as [->|Hne].
    + unfold queue_of in Hq. rewrite Hqj, filter_app, filter_cons_True in Hq by (apply ready_iff; eauto).
      destruct (filter (ready k) l1) as [|t' l1'] eqn:E; simpl in Hq; injection Hq as -> _; [done|]. exfalso.
      assert (t ∈ filter (ready k) l1) as (_ & Hin)%list_elem_of_filter by (rewrite E; by left). by eapply (Hl1 t x).
    + destruct (decide (prio_num p < j)%nat).
      * exfalso. eapply (Htop j u); [lia| |apply ready_iff; eauto]. rewrite Hqj. set_solver.
      * exfalso. by eapply (Hhi (prio_num p) t x); [lia|..].
  - exfalso. by eapply (Hs (prio_num p) t x); [simpl; lia|..].
Qed.

Lemma filter_remove_first (P : Z -> Prop) `{forall u, Decision (P u)} t l q :
  filter P q = t :: l -> filter P (remove_first t q) = l.
Proof.
  induction q as [|y q IH]; intros Hf; [done|]. cbn [remove_first]. rewrite filter_cons in Hf. destruct (decide (P y)) as [Hy|Hy].
  - injection Hf as -> <-. by rewrite Z.eqb_refl.
  - destruct (Z.eqb_spec y t) as [->|]; [|rewrite filter_cons_False by done; by apply IH].
    assert (t ∈ filter P q) as [? _]%list_elem_of_filter by (rewrite Hf; by left). done.
Qed.

(** The queues after the switch from [c] to [t]. *)
Lemma take_queues k p c t xo x q pr : sched_wf k -> priority xo = p -> priority x = p ->
  queues k !! prio_num p = Some (Some q) -> t ∈ items q ->
  let k' := after_take k c t xo x q pr in
  queue_of p k' = remove_first t (items q) ++ [c] /\ forall h, h <> prio_num p -> queues k' !! h = queues k !! h.
Proof.
  intros Hwf Hxo Hx Hq Hi k'. assert (prio_num p < length (queues k))%nat as Hl by (rewrite (sw_len _ Hwf); apply prio_lt).
  unfold k', queue_of. cbn [after_take queues]. rewrite Hxo, Hx. split.
  - rewrite list_lookup_insert_eq by (by rewrite length_insert). unfold old_queue. rewrite list_lookup_insert_eq by done. cbn [default from_option id qitems].
    unfold al_add, al_remove. rewrite decide_True by done. cbn [attached items]. by rewrite (sw_att _ Hwf _ _ Hq).
  - intros h Hh. by rewrite !list_lookup_insert_ne.
Qed.

(** The threads after the switch: only the end of the slice of [t] is new. *)
Lemma take_ready k c t xo x q pr : threads k !! t = Some x -> forall u, ready (after_take k c t xo x q pr) u <-> ready k u.
Proof.
  intros Hx u. unfold ready. cbn [after_take threads]. destruct (decide (u = t)) as [->|];
    [by rewrite lookup_insert_eq, Hx|by rewrite lookup_insert_ne].
Qed.

(** The runnable threads of the queue when [c] has made way. *)
Definition rejoin (k : kernel) (c : Z) (l : list Z) : list Z := if decide (ready k c) then l ++ [c] else l.

(** The state inside the lock. *)
Definition locked (n : Z) (k : kernel) : kernel := set_sched_lock 1 (at_time n k).

Lemma choose_locked n k r : sched_choose k = Ret (r, k) -> sched_choose (locked n k) = Ret (r, locked n k).
Proof.
  unfold sched_choose. generalize (prio_num PrioKernel). intros i.
  induction i as [|i IH]; cbn [sched_choose_loop]; cbn [locked threads queues set_sched_lock at_time];
    destruct (sched_pick _ _) as [[u|]| | | |]; try done; try (intros [= <-]; done).
Qed.

(** sched_schedule when the running thread has to make way and another one is
    chosen. *)
Lemma schedule_takes n k c t xo x q pr : sched_wf k -> sched_lock k = 0 -> cur k = c -> threads k !! c = Some xo ->
  (t_state xo = Runnable -> preempt_at xo <= n) -> t_state xo <> Yielded ->
  sched_choose k = Ret (Some t, k) -> c <> t -> threads k !! t = Some x -> processes k !! parent x = Some pr ->
  queues k !! prio_num (priority x) = Some (Some q) ->
  sched_schedule (at_time n k) = Ret (tt, set_sched_lock 0 (after_take (locked n k) c t xo x q pr)).
Proof.
  intros Hwf Hlk Hcur Hxo Hpre Hy Hch Hne Hx Hpr Hq. destruct (wf_cur k Hwf) as [Hc0 _]. rewrite Hcur in Hc0.
  destruct (cur_ctx k) as (c0 & Hcc & Hc0t); [congruence|]. rewrite Hcur in Hc0t.
  assert (sched_take c t (locked n k) = Ret (tt, after_take (locked n k) c t xo x q pr)) as Hrun
    by by apply (sched_take_run (locked n k) c t xo x c0 q pr).
  assert (sched_pick_next c (locked n k) = Ret (tt, set_sched_lock 0 (after_take (locked n k) c t xo x q pr))) as Hpick
    by (unfold sched_pick_next; by rewrite (mseq_run _ _ _ _ _ (choose_locked n k _ Hch)), (mseq_run _ _ _ _ _ Hrun)).
  unfold sched_schedule, sched_spl_lock. unfold mseq at 1. cbn [sched_lock at_time]. rewrite Hlk. cbn [Z.eqb]. fold (locked n k).
  assert (cur (locked n k) = c) as Hk1 by done.
  rewrite (mseq_run _ _ _ _ _ (thr_current_run (locked n k) ltac:(congruence))), Hk1, (proj2 (Z.eqb_neq _ _) Hc0).
  rewrite (mseq_run _ _ _ _ _ (thr_at_run (locked n k) c xo Hxo)). unfold mgets, mseq at 1. change (now (locked n k)) with n.
  destruct (t_state xo); try done. by destruct (Z.ltb_spec n (preempt_at xo)); [specialize (Hpre eq_refl); lia|].
Qed.

(** One beat when the running thread [c] of priority [p] has to make way: its
    slice is over, or it has ended. *)
Lemma waiting_beat p c t l n k xo : waiting p (t :: l) k -> cur k = c -> threads k !! c = Some xo -> priority xo = p ->
  (t_state xo = Runnable -> preempt_at xo <= n) -> t_state xo <> Yielded ->
  exists k', sched_schedule (at_time n k) = Ret (tt, k') /\ ring p t (rejoin k c l) (u64 (n + SCHED_TIMESLICE_US)) k'.
Proof.
  intros W Hcur Hxo Hpo Hpre Hy. pose proof (waiting_choice _ _ _ _ W) as Hch. destruct W as [Hwf Hlk Hq Htop].
  assert (t ∈ filter (ready k) (queue_of p k)) as Ht by (rewrite Hq; by left). apply list_elem_of_filter in Ht as [Hrt Ht].
  pose proof Ht as Htq. unfold queue_of in Ht. destruct (queues k !! prio_num p) as [[q|]|] eqn:Eq; try (by apply elem_of_nil in Ht).
  simpl in Ht. destruct (sw_prio _ Hwf _ _ Htq) as (x & Hx & Hpx).
  assert (t ∈ flat (queues k)) as Htf by (apply elem_of_flat; by exists (prio_num p), (Some q)).
  destruct (sw_ok _ Hwf t) as [_ (x' & cx & pr & Hx' & _ & _ & Hpr)]; [by right|]. assert (x' = x) as -> by congruence. clear Hx'.
  assert (priority x = p) as Hpp by (destruct (priority x), p; simpl in Hpx; done).
  assert (c <> t) as Hne.
  { intros ->. pose proof (sw_nodup _ Hwf) as Hnd. unfold population in Hnd. rewrite Hcur in Hnd. apply NoDup_cons in Hnd as [Hn _]. done. }
  assert (sched_wf (locked n k)) as Hwf1 by by destruct Hwf. assert (cur (locked n k) = c) as Hk1 by done.
  destruct (take_wf (locked n k) t xo x q pr) as (Hwf2 & Hcur2 & _); try done; [by rewrite Hk1|by rewrite Hpp|].
  rewrite Hk1 in Hwf2, Hcur2. set (k2 := after_take (locked n k) c t xo x q pr) in *.
  destruct (take_queues (locked n k) p c t xo x q pr Hwf1 Hpo Hpp Eq Ht) as [Hq2 Hqo]. fold k2 in Hq2, Hqo.
  pose proof (take_ready (locked n k) c t xo x q pr Hx) as Hrd. fold k2 in Hrd. change (ready (locked n k)) with (ready k) in Hrd.
  exists (set_sched_lock 0 k2). split; [apply schedule_takes; try done; by rewrite Hpp|].
  constructor; [constructor| |].
  - by apply sched_wf_lock.
  - done.
  - change (queue_of p (set_sched_lock 0 k2)) with (queue_of p k2). rewrite Hq2.
    rewrite (list_filter_iff (ready (set_sched_lock 0 k2)) (ready k) _ Hrd), filter_app.
    assert (filter (ready k) (items q) = t :: l) as Hqi by (unfold queue_of in Hq; by rewrite Eq in Hq).
    rewrite (filter_remove_first (ready k) t l) by done. unfold rejoin. rewrite filter_cons. destruct (decide (ready k c)); [done|]. by rewrite app_nil_r.
  - intros h u Hh Hu Hr. change (queues (set_sched_lock 0 k2)) with (queues k2) in Hu. rewrite Hqo in Hu by lia.
    apply Hrd in Hr. by eapply Htop.
  - done.
  - unfold k2. cbn [set_sched_lock after_take threads]. rewrite lookup_insert_eq. eexists. split; [done|].
    apply ready_iff in Hrt as (y & Hy1 & Hy2). assert (y = x) as -> by congruence. by split_and!.
Qed.

(** A full slice of a runnable thread. *)
Lemma ring_beat p c t l a n k : ring p c (t :: l) a k -> a <= n ->
  exists k', sched_schedule (at_time n k) = Ret (tt, k') /\ ring p t (l ++ [c]) (u64 (n + SCHED_TIMESLICE_US)) k'.
Proof.
  intros [W Hcur (xo & Hxo & <- & Hst & Hp)] Ha.
  destruct (waiting_beat p c t l n k xo) as (k' & Hs & R); try done; [congruence|]. exists k'. split; [done|].
  unfold rejoin in R. rewrite decide_True in R by (apply ready_iff; eauto). done.
Qed.

Lemma ring_beats p t l2 : forall l1 c l a ns k,
  c :: l = l1 ++ t :: l2 -> length ns = length l1 -> expired a ns -> ring p c l a k ->
  exists k' a', heartbeats ns k = Ret (tt, k') /\ ring p t (l2 ++ l1) a' k'.
Proof.
  intros l1. revert l2. induction l1 as [|c' l1 IH]; intros l2 c l a ns k Hl Hn He R.
  - destruct ns; [|done]. injection Hl as -> ->. rewrite app_nil_r. by exists k, a.
  - destruct ns as [|n ns]; [done|]. injection Hl as -> Hl. destruct He as [Hn0 He].
    destruct l as [|t' l]; [by destruct l1|]. destruct (ring_beat p c' t' l a n k R Hn0) as (k1 & Hs & R1).
    edestruct (IH (l2 ++ [c']) t' (l ++ [c'])) as (k' & a' & Hr & R'); [| |exact He|exact R1|].
    + by rewrite app_comm_cons, Hl, <- app_assoc.
    + by injection Hn.
    + exists k', a'. split; [|by rewrite <- app_assoc in R'].
      cbn [heartbeats]. unfold mmodify. unfold mseq at 1. by rewrite (mseq_run _ _ _ _ _ Hs).
Qed.

(** C8: The scheduler is fair among the runnable threads of the highest
    priority.  If [c] runs, [l] are the runnable threads in the queue
    of its priority, and none above is runnable, then the thread at place [i] of [c :: l]
    runs after [i] heartbeats at the ends of the time slices: within one round
    every one of them has run, and the runnable threads behind it are the rest
    of the round. *)
Theorem sched_round_robin p c l a k l1 t l2 ns :
  ring p c l a k -> c :: l = l1 ++ t :: l2 -> expired a ns -> length ns = length l1 ->
  exists k', heartbeats ns k = Ret (tt, k') /\ cur k' = t /\
    filter (ready k') (queue_of p k') = l2 ++ l1 /\ sched_wf k'.
Proof.
  intros R Hl He Hn. destruct (ring_beats p t l2 l1 c l a ns k) as (k' & a' & Hr & R'); [done..|].
  exists k'. destruct R' as [[] ? _]. done.
Qed.

Module RoundRobinDemo.
Import SchedDemo.
(** Three kernel threads. *)
Definition k3 : kernel := Kernel
  {[ 10 := thr 10 20 PrioKernel; 11 := thr 11 21 PrioKernel; 12 := thr 12 22 PrioKernel ]}
  {[ 20 := ctx 10; 21 := ctx 11; 22 := ctx 12 ]}
  {[ 500 := Process 0 4096 PrioKernel 0 2 al_new 0 ]}
  [None; None; None; None; None; None; Some (Alist [11; 12] 2 true)] 0 20 4096 200.

Lemma k3_ring : ring PrioKernel 10 [11; 12] 100 k3.
Proof.
  constructor; [constructor; try done| |by eexists].
  - constructor; try done.
    + intros [|[|[|[|[|[|[|i]]]]]]] q Hq; simpl in Hq; simplify_eq; done.
    + intros [|[|[|[|[|[|[|i]]]]]]] t Ht; simpl in Ht; try (by apply elem_of_nil in Ht).
      repeat (apply elem_of_cons in Ht as [->|Ht]); [..|by apply elem_of_nil in Ht]; by eexists.
    + intros t Ht. repeat (apply elem_of_cons in Ht as [->|Ht]); [..|by apply elem_of_nil in Ht]; (split; [done|]); by eexists _, _, _.
    + apply (bool_decide_unpack (NoDup [10; 11; 12])). by vm_compute.
    + by eexists _, _.
  - intros h u Hh. unfold PrioMaxPrio in Hh. simpl in Hh. lia.
  - done.
Qed.

Lemma sched_round_robin_witness : exists k', heartbeats [6000; 12000] k3 = Ret (tt, k') /\ cur k' = 12.
Proof.
  destruct (sched_round_robin PrioKernel 10 [11; 12] 100 k3 [10; 11] 12 [] [6000; 12000] k3_ring eq_refl) as (k' & H & Hc & _).
  - split; [lia|]. split; [vm_compute; discriminate|exact I].
  - reflexivity.
  - exists k'. exact (conj H Hc).
Defined.
End RoundRobinDemo.
