(* ===== verification/Start.v ===== *)
(** * sched_start: the heartbeat that drives the scheduler

    The timers of tmr.c and the scheduler together: sched_start arms the
    timer whose callback is sched_schedule and lets interrupts in; from then on
    every tick of the generator goes through tmr_handle_tick to the callbacks
    that are due. *)

From S2P Require Import Prelude.
From S2P Require Import KList.
From S2P Require Import Sched.
From S2P Require Import Tmr.
From S2P Require Import RoundRobin.

Record machine := Machine { m_timers : timers; m_kernel : kernel; m_if : bool }.

Definition on_timers {A} (c : M timers A) : M machine A := fun m =>
  match c (m_timers m) with
  | Ret (a, t) => Ret (a, Machine t (m_kernel m) (m_if m))
  | Fatal e => Fatal e
  | Fault a => Fault a
  | Deadlock => Deadlock
  | NoFuel => NoFuel
  end.
Definition on_kernel {A} (c : M kernel A) : M machine A := fun m =>
  match c (m_kernel m) with
  | Ret (a, k) => Ret (a, Machine (m_timers m) k (m_if m))
  | Fatal e => Fatal e
  | Fault a => Fault a
  | Deadlock => Deadlock
  | NoFuel => NoFuel
  end.

Section start.
(** The address of sched_schedule, the block kheap_alloc gives to the timer,
    and the fuel of the walk over the timer list. *)
Variable addr_sched_schedule block : Z.
Variable fuel : nat.
Hypothesis addr_ok : addr_sched_schedule <> 0.
Hypothesis block_ok : block <> 0.
Hypothesis fuel_ok : (0 < fuel)%nat.

(** The callbacks a tick reached, in order; sched_schedule is the only one
    that acts on the kernel.  It does not look at the timers, so it may run
    behind the handling of their list, at the same time. *)
Fixpoint run_callbacks (cbs : list Z) : M machine unit :=
  match cbs with
  | [] => mreturn tt
  | cb :: r => (if cb =? addr_sched_schedule then on_kernel sched_schedule else mreturn tt) ;;; run_callbacks r
  end.

(** A tick of the generator while systime shows [n]. *)
Definition timers_at (n : Z) (t : timers) : timers := Timers (tmrs t) (tlist t) n (called t) (programmed t).
Definition machine_at (n : Z) (m : machine) : machine := Machine (timers_at n (m_timers m)) (at_time n (m_kernel m)) (m_if m).
Definition tick (n : Z) : M machine unit :=
  mmodify (machine_at n) ;;;
  m <- mget ;;
  on_timers (tmr_handle_tick fuel) ;;;
  m' <- mget ;;
  run_callbacks (drop (length (called (m_timers m))) (called (m_timers m'))).
Fixpoint ticks (ns : list Z) : M machine unit :=
  match ns with [] => mreturn tt | n :: r => tick n ;;; ticks r end.

(** What runs before the processor waits. *)
Definition sched_start : M machine unit :=
  on_timers (tmr_schedule fuel block addr_sched_schedule SCHED_TIMESLICE_US false) ;;;
  mmodify (fun m => Machine (m_timers m) (m_kernel m) true).

(** The heartbeat is the only timer, due at [e]. *)
Record armed (e : Z) (t : timers) : Prop := {
  arm_list : items (tlist t) = [block];
  arm_att : attached (tlist t) = true;
  arm_tmr : tmrs t !! block = Some (Tmr e SCHED_TIMESLICE_US addr_sched_schedule);
}.

(** A tick at a time the heartbeat is due is one call of sched_schedule, and
    arms the next. *)
Lemma tick_beat e n m k' : armed e (m_timers m) -> e <= n -> 0 <= n -> n + SCHED_TIMESLICE_US < 2 ^ 63 ->
  sched_schedule (at_time n (m_kernel m)) = Ret (tt, k') ->
  exists m', tick n m = Ret (tt, m') /\ m_kernel m' = k' /\ armed (n + SCHED_TIMESLICE_US) (m_timers m').
Proof.
  intros [Hl Ha Ht] He Hn Hb Hs. set (t := timers_at n (m_timers m)).
  destruct (tmr_heartbeat t block (Tmr e SCHED_TIMESLICE_US addr_sched_schedule) fuel) as (t' & Hr & Hc & Hl' & Ha' & Ht' & _); try done.
  set (m1 := Machine t' (at_time n (m_kernel m)) (m_if m)). exists (Machine t' k' (m_if m)). split; [|by split].
  unfold tick, mmodify. unfold mseq at 1. rewrite (mseq_run mget _ (machine_at n m) (machine_at n m) _ eq_refl).
  assert (on_timers (tmr_handle_tick fuel) (machine_at n m) = Ret (tt, m1)) as H1.
  { unfold on_timers. change (m_timers (machine_at n m)) with t. by rewrite Hr. }
  rewrite (mseq_run _ _ _ _ _ H1), (mseq_run mget _ m1 m1 _ eq_refl). change (called (m_timers (machine_at n m))) with (called t).
  change (called (m_timers m1)) with (called t'). rewrite Hc, drop_app_length. cbn [run_callbacks callback].
  rewrite Z.eqb_refl. assert (on_kernel sched_schedule m1 = Ret (tt, Machine t' k' (m_if m))) as H2 by (unfold on_kernel; cbn [m1 m_kernel]; by rewrite Hs).
  by rewrite (mseq_run _ _ _ _ _ H2).
Qed.

(** The generator fires after the time it is programmed with: each tick comes
    a time slice or more after the one before. *)
Fixpoint slices (n0 : Z) (ns : list Z) : Prop :=
  match ns with
  | [] => True
  | n :: r => n0 + SCHED_TIMESLICE_US <= n /\ n + SCHED_TIMESLICE_US < 2 ^ 63 /\ slices n r
  end.

(** Ticks drive the scheduler. *)
Lemma ticks_beats : forall ns n0 m k', 0 <= n0 -> armed (n0 + SCHED_TIMESLICE_US) (m_timers m) -> slices n0 ns ->
  heartbeats ns (m_kernel m) = Ret (tt, k') -> exists m', ticks ns m = Ret (tt, m') /\ m_kernel m' = k'.
Proof.
  induction ns as [|n ns IH]; intros n0 m k' H0 Ha Hs Hb; [injection Hb as <-; by exists m|].
  destruct Hs as (Hn & Hlt & Hs). cbn [heartbeats] in Hb. unfold mmodify in Hb. unfold mseq at 1 in Hb.
  unfold SCHED_TIMESLICE_US in Hn. unfold mseq at 1 in Hb. destruct (sched_schedule (at_time n (m_kernel m))) as [[[] k1]| | | |] eqn:Hk; try done.
  destruct (tick_beat _ n m k1 Ha) as (m1 & Ht & Hm1 & Ha1); [unfold SCHED_TIMESLICE_US; lia|lia|done..|].
  destruct (IH n m1 k') as (m' & Ht' & Hm'); [lia|done..|by rewrite Hm1|]. exists m'. split; [|done].
  cbn [ticks]. by rewrite (mseq_run _ _ _ _ _ Ht).
Qed.
Lemma slices_expired : forall ns n0, 0 <= n0 -> slices n0 ns -> expired (u64 (n0 + SCHED_TIMESLICE_US)) ns.
Proof.
  induction ns as [|n ns IH]; intros n0 H0 Hs; [done|]. destruct Hs as (Hn & Hlt & Hs). unfold SCHED_TIMESLICE_US in *.
  split; [rewrite u64_small; lia|]. apply IH; [lia|done].
Qed.

Lemma sched_start_run m : items (tlist (m_timers m)) = [] -> attached (tlist (m_timers m)) = true ->
  0 <= Tmr.now (m_timers m) -> Tmr.now (m_timers m) + SCHED_TIMESLICE_US < 2 ^ 63 ->
  exists m', sched_start m = Ret (tt, m') /\ m_kernel m' = m_kernel m /\ m_if m' = true /\
    armed (Tmr.now (m_timers m) + SCHED_TIMESLICE_US) (m_timers m') /\
    programmed (m_timers m') = programmed (m_timers m) ++ [SCHED_TIMESLICE_US].
Proof.
  intros Hl Ha H0 Hb. set (n0 := Tmr.now (m_timers m)) in *. set (x := Tmr (n0 + SCHED_TIMESLICE_US) SCHED_TIMESLICE_US addr_sched_schedule).
  set (t1 := Timers (<[block := x]> (tmrs (m_timers m))) (al_insert_head block (tlist (m_timers m))) n0 (called (m_timers m)) (programmed (m_timers m))).
  assert (tmr_resched_sorted block (set_tmrs (<[block := x]> (tmrs (m_timers m))) (m_timers m)) = Ret (tt, t1)) as Hr.
  { unfold tmr_resched_sorted, tmr_at, mseq. cbn [tmrs set_tmrs tlist]. rewrite lookup_insert_eq. cbn [set_tmrs tlist]. by rewrite Hl. }
  assert (tmr_set_next_tick fuel t1 = Ret (tt, add_programmed SCHED_TIMESLICE_US t1)) as Hn.
  { assert (tmr_at block t1 = Ret (x, t1)) as Hx by (unfold tmr_at; cbn [tmrs t1]; by rewrite lookup_insert_eq).
    assert (items (tlist t1) = [block]) as Hl1 by done. assert (Tmr.now t1 = n0) as Hnow by done. unfold SCHED_TIMESLICE_US in *.
    assert (tmr_do_handle_tick fuel t1 = Ret (tt, t1)) as Hdo.
    { unfold tmr_do_handle_tick. rewrite (mseq_run mget _ t1 t1 _ eq_refl), Hl1, Hnow. destruct fuel as [|f]; [lia|]. cbn [tick_loop].
      rewrite (mseq_run _ _ _ _ _ Hx). cbn [expire x]. by destruct (Z.leb_spec (n0 + 5000) n0); [lia|]. }
    unfold tmr_set_next_tick. rewrite (mseq_run mget _ t1 t1 _ eq_refl). cbv zeta.
    rewrite (mseq_run _ _ _ _ _ Hdo), (mseq_run mget _ t1 t1 _ eq_refl), Hl1, (mseq_run _ _ _ _ _ Hx), Hnow. cbn [expire x].
    unfold TMR_MIN_TIMEOUT. rewrite !u64_small by lia. destruct (Z.leb_spec (n0 + 5000) (n0 + 50)); [lia|].
    replace (n0 + 5000 - n0) with 5000 by lia. done. }
  eexists. split.
  - unfold sched_start, on_timers. unfold mseq at 1.
    assert (tmr_schedule fuel block addr_sched_schedule SCHED_TIMESLICE_US false (m_timers m) = Ret (true, add_programmed SCHED_TIMESLICE_US t1)) as Hs.
    { unfold tmr_schedule. rewrite (proj2 (Z.eqb_neq _ _) addr_ok), (proj2 (Z.eqb_neq _ _) block_ok). unfold mmodify. unfold mseq at 1.
      fold n0. replace (u64 (SCHED_TIMESLICE_US + n0)) with (n0 + SCHED_TIMESLICE_US) by (unfold SCHED_TIMESLICE_US in *; rewrite u64_small; lia).
      fold x. by rewrite (mseq_run _ _ _ _ _ Hr), (mseq_run _ _ _ _ _ Hn). }
    rewrite Hs. reflexivity.
  - split_and!; try done. constructor; try done; cbn; [by rewrite Ha, Hl|by rewrite lookup_insert_eq].
Qed.

(** Once started, the scheduler runs every kernel thread in turn.  At the
    end of boot the initial thread [c] has exited, [l] are the runnable
    threads of its priority and none above is runnable; sched_start arms the
    heartbeat, programs the generator for one time slice and enables
    interrupts; after [i + 1] ticks, each a time slice or more after the last,
    the thread at place [i] of [l] runs. *)
Lemma sched_start_runs_all m p c xo l l1 t l2 ns :
  items (tlist (m_timers m)) = [] -> attached (tlist (m_timers m)) = true -> 0 <= Tmr.now (m_timers m) ->
  Tmr.now (m_timers m) + SCHED_TIMESLICE_US < 2 ^ 63 ->
  waiting p l (m_kernel m) -> cur (m_kernel m) = c -> threads (m_kernel m) !! c = Some xo -> priority xo = p -> t_state xo = Exited ->
  l = l1 ++ t :: l2 -> length ns = S (length l1) -> slices (Tmr.now (m_timers m)) ns ->
  exists m' m'', sched_start m = Ret (tt, m') /\ m_if m' = true /\
    programmed (m_timers m') = programmed (m_timers m) ++ [SCHED_TIMESLICE_US] /\
    ticks ns m' = Ret (tt, m'') /\ cur (m_kernel m'') = t.
Proof.
  intros Hl Ha H0 Hb W Hcur Hxo Hp Hst El Hn Hs. destruct (sched_start_run m Hl Ha H0 Hb) as (m' & Hm & Hk & Hif & Harm & Hprog).
  destruct ns as [|n ns]; [done|]. pose proof Hs as (Hn0 & Hlt & Hs'). unfold SCHED_TIMESLICE_US in Hn0.
  destruct l as [|t0 l0]; [by destruct l1|].
  destruct (waiting_beat p c t0 l0 n (m_kernel m) xo W Hcur Hxo Hp) as (k1 & Hk1 & R); [congruence|congruence|].
  assert (rejoin (m_kernel m) c l0 = l0) as Hre.
  { unfold rejoin. rewrite decide_False; [done|]. unfold ready. rewrite Hxo. congruence. }
  rewrite Hre in R. injection Hn as Hn.
  destruct (ring_beats p t l2 l1 t0 l0 _ ns k1 El Hn (slices_expired ns n ltac:(lia) Hs') R) as (k2 & a2 & Hbeats & R2).
  destruct (ticks_beats (n :: ns) _ m' k2 H0 Harm Hs) as (m'' & Ht & Hm'').
  { rewrite Hk. cbn [heartbeats]. unfold mmodify. unfold mseq at 1. by rewrite (mseq_run _ _ _ _ _ Hk1). }
  exists m', m''. split_and!; try done. rewrite Hm''. apply R2.
Qed.
End start.
