(* ===== verification/Stka.v ===== *)
(** * Stack allocators: stka.c

    One allocator, its stacks by address, and the pages mapped in its
    address space.  [map_ok] says for which pages [vmem_map] succeeds (it
    never does for a page that is mapped); [pmem_alloc] and [kheap_alloc]
    are taken to succeed, the latter with the address given. *)

From S2P Require Import Prelude Mem Alloc KList.

Definition STK_PAGESIZE : Z := 0x1000.
Definition STK_INITSIZE : Z := STK_PAGESIZE * 2.
Definition STK_FIXEDSIZE : Z := STK_PAGESIZE * 4.
Definition STK_GUARDSIZE : Z := STK_PAGESIZE * 256.

Record stack_allocator_desc_t := Desc {
  bottom : Z; d_top : Z; space : Z; pg_fl : Z; fixed : bool; global : bool }.
Record stack_t := Stack { top : Z; mapped : Z; guard : Z }.

Record stka := Stka {
  desc : stack_allocator_desc_t; next_stk : Z; stacks : alist; lock : Z;
  stks : gmap Z stack_t; pgs : gset Z }.

Definition set_next n s := Stka (desc s) n (stacks s) (lock s) (stks s) (pgs s).
Definition set_stacks l s := Stka (desc s) (next_stk s) l (lock s) (stks s) (pgs s).
Definition set_lock l s := Stka (desc s) (next_stk s) (stacks s) l (stks s) (pgs s).
Definition set_stks m s := Stka (desc s) (next_stk s) (stacks s) (lock s) m (pgs s).
Definition set_pgs p s := Stka (desc s) (next_stk s) (stacks s) (lock s) (stks s) p.

Definition spl_lock : M stka unit := fun s => if lock s =? 0 then Ret (tt, set_lock 1 s) else Deadlock.
Definition spl_unlock : M stka unit := mmodify (set_lock 0).

Definition stka_new (d : stack_allocator_desc_t) : stka := Stka d (d_top d) al_new 0 ∅ ∅.

Definition stk_at (p : Z) : M stka stack_t := fun s =>
  match stks s !! p with Some x => Ret (x, s) | None => Fault p end.

Section grow.
Variable map_ok : Z -> bool.

(** [for(i = mapped - amount; i < mapped; i += STK_PAGESIZE)], [n] pages. *)
Fixpoint stka_map_pages (n : nat) (i : Z) : M stka bool :=
  match n with
  | O => mreturn true
  | S n' => fun s =>
      if map_ok i && negb (bool_decide (i ∈ pgs s))
      then stka_map_pages n' (i + STK_PAGESIZE) (set_pgs ({[ i ]} ∪ pgs s) s)
      else Ret (false, s)
  end.

Definition stka_grow (stack amount : Z) : M stka bool :=
  x <- stk_at stack ;;
  if negb (amount mod STK_PAGESIZE =? 0) then mreturn false
  else if u64 (mapped x - amount) <? guard x then mreturn false
  else
    let i := u64 (mapped x - amount) in
    ok <- stka_map_pages (Z.to_nat ((mapped x - i) / STK_PAGESIZE)) i ;;
    if negb ok then mreturn false
    else mmodify (fun s => set_stks (<[stack := Stack (top x) (u64 (mapped x - amount)) (guard x)]> (stks s)) s) ;;;
         mreturn true.

(** [p] is the block for the descriptor of the stack. *)
Definition stka_alloc (p : Z) : M stka Z :=
  spl_lock ;;;
  s <- mget ;;
  let d := desc s in
  if (next_stk s <=? bottom d) || (u64 (next_stk s - STK_INITSIZE) <? bottom d) then mreturn 0
  else
    let t := next_stk s in
    let g := u64 (t - (if fixed d then STK_FIXEDSIZE else STK_GUARDSIZE)) in
    mmodify (fun s => set_stks (<[p := Stack t t g]> (stks s)) s) ;;;
    stka_grow p (if fixed d then STK_FIXEDSIZE else STK_INITSIZE) ;;;
    mmodify (set_next (u64 (g - STK_PAGESIZE))) ;;;
    mmodify (fun s => set_stacks (al_add p (stacks s)) s) ;;;
    spl_unlock ;;;
    mreturn p.

Definition stka_pgflt (stack fault : Z) : M stka bool :=
  x <- stk_at stack ;;
  if (fault <=? guard x) || (top x <=? fault) then mreturn false
  else stka_grow stack (ALIGN_UP (u64 (mapped x - fault)) STK_PAGESIZE).
End grow.

(** The pages of a stack are unmapped and freed. *)
Fixpoint stka_unmap_pages (n : nat) (m : Z) (pg : gset Z) : gset Z :=
  match n with O => pg | S n' => stka_unmap_pages n' (m + STK_PAGESIZE) (pg ∖ {[ m ]}) end.

Definition stka_free (stack : Z) : M stka unit :=
  x <- stk_at stack ;;
  mmodify (fun s => set_pgs (stka_unmap_pages (Z.to_nat ((top x - mapped x + STK_PAGESIZE - 1) / STK_PAGESIZE)) (mapped x) (pgs s)) s) ;;;
  mmodify (fun s => set_stacks (al_remove stack (stacks s)) s) ;;;
  mmodify (fun s => set_stks (delete stack (stks s)) s).

(** The loop of stka_delete over the list: a node's link is still read after
    the node was freed by [stka_free], whose heap does not touch it. *)
Fixpoint stka_free_all (ps : list Z) : M stka unit :=
  match ps with
  | [] => mreturn tt
  | p :: r => stka_free p ;;; stka_free_all r
  end.

(** The allocator's own block is freed between the last two steps. *)
Definition stka_delete : M stka unit :=
  spl_lock ;;;
  s <- mget ;;
  stka_free_all (items (stacks s)) ;;;
  mmodify (set_stacks al_new) ;;;
  spl_unlock.

(** ** Layout *)

(** Every stack lies in its reserved range; two stacks, and a stack and the
    next one, are at least one page apart. *)
Record stka_wf (s : stka) : Prop := {
  tw_range : forall p x, stks s !! p = Some x ->
    next_stk s + STK_PAGESIZE <= guard x /\ guard x <= mapped x <= top x /\ top x <= d_top (desc s);
  tw_apart : forall p q x y, p <> q -> stks s !! p = Some x -> stks s !! q = Some y ->
    top x + STK_PAGESIZE <= guard y \/ top y + STK_PAGESIZE <= guard x;
  tw_top : d_top (desc s) < 2 ^ 64;
}.

Lemma map_pages_spec map_ok n i s :
  exists ok pg, stka_map_pages map_ok n i s = Ret (ok, set_pgs pg s) /\ pgs s ⊆ pg /\
    (ok = true -> forall j, 0 <= j < Z.of_nat n -> i + j * STK_PAGESIZE ∈ pg).
Proof.
  revert i s. induction n as [|n IH]; intros i s; cbn [stka_map_pages].
  { exists true, (pgs s). split; [by destruct s|]. split; [done|]. intros _ j Hj. lia. }
  destruct (map_ok i && negb (bool_decide (i ∈ pgs s))).
  - destruct (IH (i + STK_PAGESIZE) (set_pgs ({[i]} ∪ pgs s) s)) as (ok & pg & Hrun & Hsub & Hin).
    exists ok, pg. split; [exact Hrun|]. simpl in Hsub. split; [set_solver|]. intros Hok j Hj.
    destruct (decide (j = 0)) as [->|].
    + replace (i + 0 * STK_PAGESIZE) with i by lia. set_solver.
    + replace (i + j * STK_PAGESIZE) with (i + STK_PAGESIZE + (j - 1) * STK_PAGESIZE) by lia. apply Hin; [done|lia].
  - exists false, (pgs s). split; [by destruct s|]. by split.
Qed.

(** [stka_grow] in range. *)
Lemma grow_spec map_ok p x amount s :
  stks s !! p = Some x -> 0 <= amount -> amount mod STK_PAGESIZE = 0 -> 0 <= guard x ->
  guard x <= mapped x - amount -> mapped x < 2 ^ 64 ->
  exists ok pg m, stka_grow map_ok p amount s =
      Ret (ok, set_stks (<[p := Stack (top x) m (guard x)]> (stks s)) (set_pgs pg s)) /\
    pgs s ⊆ pg /\ (m = if (ok : bool) then mapped x - amount else mapped x) /\
    (ok = true -> forall j, 0 <= j < amount / STK_PAGESIZE -> mapped x - amount + j * STK_PAGESIZE ∈ pg).
Proof.
  intros Hx Ha Hm Hg Hge Hb. unfold stka_grow.
  assert (Hat : stk_at p s = Ret (x, s)) by (unfold stk_at; by rewrite Hx).
  rewrite (mseq_run _ _ _ _ _ Hat), Hm. cbn [negb Z.eqb]. rewrite u64_small by lia.
  destruct (Z.ltb_spec (mapped x - amount) (guard x)); [lia|].
  replace ((mapped x - (mapped x - amount)) / STK_PAGESIZE) with (amount / STK_PAGESIZE) by (f_equal; lia).
  destruct (map_pages_spec map_ok (Z.to_nat (amount / STK_PAGESIZE)) (mapped x - amount) s) as (ok & pg & Hrun & Hsub & Hin).
  exists ok, pg, (if ok then mapped x - amount else mapped x).
  rewrite (mseq_run _ _ _ _ _ Hrun). destruct ok; cbn [negb].
  - unfold mseq, mmodify, mreturn. split; [done|]. split; [done|]. split; [done|]. intros _ j Hj. apply Hin; [done|lia].
  - unfold mreturn. split; [|done]. apply Ret_eq; [done|]. destruct x as [t m g]. simpl. rewrite insert_id; [by destruct s|done].
Qed.

(** The room an allocation takes, and the part of it that is mapped at once. *)
Definition stk_room (s : stka) : Z := if fixed (desc s) then STK_FIXEDSIZE else STK_GUARDSIZE.
Definition stk_commit (s : stka) : Z := if fixed (desc s) then STK_FIXEDSIZE else STK_INITSIZE.

(** [stka_alloc] with address space left: the state it ends in. *)
Lemma stka_alloc_run map_ok p s :
  lock s = 0 -> 0 < bottom (desc s) < next_stk s - STK_INITSIZE -> STK_GUARDSIZE + STK_PAGESIZE <= next_stk s < 2 ^ 64 ->
  exists m pg, stka_alloc map_ok p s = Ret (p,
      Stka (desc s) (next_stk s - stk_room s - STK_PAGESIZE) (al_add p (stacks s)) 0
        (<[p := Stack (next_stk s) m (next_stk s - stk_room s)]> (stks s)) pg) /\
    (m = next_stk s \/ m = next_stk s - stk_commit s).
Proof.
  intros Hlk Hbot Hnext. unfold stka_alloc, stk_room, stk_commit.
  unfold STK_GUARDSIZE, STK_INITSIZE, STK_FIXEDSIZE, STK_PAGESIZE in *.
  rewrite (mseq_run _ _ _ tt (set_lock 1 s)) by (unfold spl_lock; by rewrite Hlk).
  rewrite (mseq_run mget _ _ (set_lock 1 s) (set_lock 1 s) eq_refl). cbn [desc next_stk set_lock].
  destruct (Z.leb_spec (next_stk s) (bottom (desc s))); [lia|]. rewrite u64_small by lia.
  destruct (Z.ltb_spec (next_stk s - 4096 * 2) (bottom (desc s))); [lia|]. cbn [orb].
  set (sz := if fixed (desc s) then 4096 * 4 else 4096 * 256).
  assert (Hsz : 16384 <= sz <= 1048576) by (unfold sz; destruct (fixed (desc s)); lia).
  rewrite u64_small by lia. set (g := next_stk s - sz). unfold mmodify at 1. unfold mseq at 1.
  set (s1 := set_stks (<[p := Stack (next_stk s) (next_stk s) g]> (stks (set_lock 1 s))) (set_lock 1 s)).
  set (am := if fixed (desc s) then 4096 * 4 else 4096 * 2).
  assert (Ham : 8192 <= am <= 16384 /\ am mod 4096 = 0 /\ am <= sz)
    by (unfold am, sz; destruct (fixed (desc s)); split_and!; done || lia).
  destruct (grow_spec map_ok p (Stack (next_stk s) (next_stk s) g) am s1) as (ok & pg & m & Hrun & _ & Hm & _);
    [simpl; by rewrite lookup_insert_eq|lia|unfold STK_PAGESIZE; lia|simpl; lia|simpl; lia|simpl; lia|].
  rewrite (mseq_run _ _ _ _ _ Hrun). unfold mmodify, mseq, spl_unlock, mmodify, mreturn. cbn [top guard mapped] in *.
  exists m, pg. split; [|destruct ok; auto].
  apply Ret_eq; [done|]. rewrite u64_small by lia. unfold s1. simpl. by rewrite insert_insert_eq.
Qed.

(** C40: Stacks never overlap: an allocation (with address space left below the
    allocator's mark) returns with the lock free, gives a stack that keeps a
    page of distance to all others, and leaves the allocator consistent for
    the next one. *)
Theorem stka_alloc_layout map_ok p s :
  stka_wf s -> lock s = 0 -> stks s !! p = None -> p <> 0 ->
  0 < bottom (desc s) < next_stk s - STK_INITSIZE -> STK_GUARDSIZE + STK_PAGESIZE <= next_stk s <= d_top (desc s) ->
  exists s', stka_alloc map_ok p s = Ret (p, s') /\ lock s' = 0 /\ stka_wf s' /\
    exists x, stks s' !! p = Some x /\ top x = next_stk s /\ next_stk s' < guard x.
Proof.
  intros Hwf Hlk Hp Hp0 Hbot Hnext. pose proof (tw_top _ Hwf) as Htop.
  destruct (stka_alloc_run map_ok p s Hlk Hbot ltac:(lia)) as (m & pg & Hrun & Hm).
  eexists. split; [exact Hrun|]. split; [done|].
  assert (Hsz : STK_FIXEDSIZE <= stk_room s <= STK_GUARDSIZE /\ 0 <= stk_commit s <= stk_room s)
    by (unfold stk_room, stk_commit; destruct (fixed (desc s)); done).
  unfold STK_GUARDSIZE, STK_INITSIZE, STK_FIXEDSIZE, STK_PAGESIZE in *.
  set (x0 := Stack (next_stk s) m (next_stk s - stk_room s)).
  assert (Hst : forall q x, <[p := x0]> (stks s) !! q = Some x -> (q = p /\ x = x0) \/ (q <> p /\ stks s !! q = Some x)).
  { intros q x [[<- <-]|[Hne Hx]]%lookup_insert_Some; [by left|]. right. by split. }
  split.
  - constructor; cbn [stks next_stk desc]; [|..].
    + intros q x Hq. apply Hst in Hq as [[-> ->]|[Hne Hx]]; simpl.
      * unfold STK_PAGESIZE. lia.
      * destruct (tw_range _ Hwf q x Hx). unfold STK_PAGESIZE in *. lia.
    + intros q q' x y Hne Hq Hq'. apply Hst in Hq as [[-> ->]|[Hn Hx]]; apply Hst in Hq' as [[-> ->]|[Hn' Hy]]; [done|..]; simpl.
      * destruct (tw_range _ Hwf q' y Hy). unfold STK_PAGESIZE in *. lia.
      * destruct (tw_range _ Hwf q x Hx). unfold STK_PAGESIZE in *. lia.
      * by apply (tw_apart _ Hwf q q').
    + done.
  - exists x0. simpl. rewrite lookup_insert_eq. split_and!; [done|done|lia].
Qed.

(** When the stack region is exhausted, stka_alloc returns NULL with the
    lock held: the next allocation never returns. *)
Theorem stka_alloc_exhausted_deadlocks map_ok p q s :
  lock s = 0 -> next_stk s <= bottom (desc s) ->
  exists s', stka_alloc map_ok p s = Ret (0, s') /\ stka_alloc map_ok q s' = Deadlock.
Proof.
  intros Hlk Hle. exists (set_lock 1 s). unfold stka_alloc.
  rewrite (mseq_run _ _ _ tt (set_lock 1 s)) by (unfold spl_lock; by rewrite Hlk).
  rewrite (mseq_run mget _ _ (set_lock 1 s) (set_lock 1 s) eq_refl). cbn [desc next_stk set_lock].
  destruct (Z.leb_spec (next_stk s) (bottom (desc s))); [|lia]. done.
Qed.

(** A page fault in the guard area below a stack, when the pages can be
    mapped, grows the stack over the faulting address and not past the
    guard. *)
Theorem stka_pgflt_covers map_ok p x fault s s' :
  stks s !! p = Some x -> 0 <= guard x -> guard x mod STK_PAGESIZE = 0 -> mapped x mod STK_PAGESIZE = 0 ->
  guard x < fault < mapped x -> mapped x <= top x < 2 ^ 64 ->
  stka_pgflt map_ok p fault s = Ret (true, s') ->
  exists y, stks s' !! p = Some y /\ guard x <= mapped y <= fault /\ top y = top x /\
    fault / STK_PAGESIZE * STK_PAGESIZE ∈ pgs s'.
Proof.
  intros Hx Hg Hg' Hm Hf Ht. unfold stka_pgflt.
  assert (Hat : stk_at p s = Ret (x, s)) by (unfold stk_at; by rewrite Hx).
  rewrite (mseq_run _ _ _ _ _ Hat). destruct (Z.leb_spec fault (guard x)); [lia|].
  destruct (Z.leb_spec (top x) fault); [lia|]. cbn [orb]. rewrite u64_small by lia.
  unfold STK_PAGESIZE in *. rewrite ALIGN_UP_4096 by dlia.
  set (am := (mapped x - fault + 4095) / 4096 * 4096).
  assert (Ham : mapped x - am <= fault < mapped x - am + 4096 /\ am mod 4096 = 0 /\ 0 <= am)
    by (unfold am; split_and!; dlia).
  destruct (grow_spec map_ok p x am s) as (ok & pg & m & -> & _ & -> & Hin);
    [done|lia|unfold STK_PAGESIZE; lia|done|dlia|lia|].
  intros Heq. simplify_eq. exists (Stack (top x) (mapped x - am) (guard x)). simpl.
  rewrite lookup_insert_eq. split_and!; [done|dlia|lia|done|].
  specialize (Hin eq_refl 0). unfold STK_PAGESIZE in Hin. rewrite Z.mul_0_l, Z.add_0_r in Hin.
  replace (fault / 4096 * 4096) with (mapped x - am) by dlia. apply Hin. split; [lia|].
  apply Z.div_str_pos. dlia.
Qed.

(** A page fault changes at most the record of the faulting stack. *)
Lemma stka_pgflt_one map_ok p x fault s : stks s !! p = Some x ->
  exists ok s' y, stka_pgflt map_ok p fault s = Ret (ok, s') /\ stks s' = <[p := y]> (stks s).
Proof.
  intros Hx. assert (Hat : stk_at p s = Ret (x, s)) by (unfold stk_at; by rewrite Hx).
  assert (Hid : stks s = <[p := x]> (stks s)) by (by rewrite insert_id).
  unfold stka_pgflt. rewrite (mseq_run _ _ _ _ _ Hat).
  destruct ((fault <=? guard x) || (top x <=? fault)); [by exists false, s, x|].
  unfold stka_grow. rewrite (mseq_run _ _ _ _ _ Hat).
  destruct (negb _); [by exists false, s, x|]. destruct (_ <? _); [by exists false, s, x|].
  destruct (map_pages_spec map_ok (Z.to_nat ((mapped x - u64 (mapped x - ALIGN_UP (u64 (mapped x - fault)) STK_PAGESIZE)) / STK_PAGESIZE))
    (u64 (mapped x - ALIGN_UP (u64 (mapped x - fault)) STK_PAGESIZE)) s) as (ok & pg & Hrun & _).
  rewrite (mseq_run _ _ _ _ _ Hrun). destruct ok; cbn [negb].
  - eexists true, _, _. split; [reflexivity|done].
  - by exists false, (set_pgs pg s), x.
Qed.

(** ** Deleting an allocator *)

(** The list holds the stacks that exist, each once. *)
Definition stka_listed (s : stka) : Prop :=
  NoDup (items (stacks s)) /\ forall p, p ∈ items (stacks s) <-> is_Some (stks s !! p).

Lemma unmap_pages_subset n m pg : stka_unmap_pages n m pg ⊆ pg.
Proof. revert m pg. induction n as [|n IH]; intros m pg; [done|]. simpl. etrans; [apply IH|set_solver]. Qed.

Lemma unmap_pages_gone n m pg j : (0 <= j < Z.of_nat n) -> m + j * STK_PAGESIZE ∉ stka_unmap_pages n m pg.
Proof.
  revert m pg j. induction n as [|n IH]; intros m pg j Hj; [lia|]. simpl. destruct (decide (j = 0)) as [->|].
  - intros Hin%unmap_pages_subset. set_solver by lia.
  - replace (m + j * STK_PAGESIZE) with (m + STK_PAGESIZE + (j - 1) * STK_PAGESIZE) by lia. apply IH. lia.
Qed.

Lemma stka_free_all_run ps s : NoDup ps -> (forall p, p ∈ ps -> is_Some (stks s !! p)) ->
  exists s', stka_free_all ps s = Ret (tt, s') /\ lock s' = lock s /\ desc s' = desc s /\ pgs s' ⊆ pgs s /\
    (forall p, p ∈ ps -> stks s' !! p = None) /\ (forall p, p ∉ ps -> stks s' !! p = stks s !! p) /\
    (forall p x, p ∈ ps -> stks s !! p = Some x -> forall j, 0 <= j -> mapped x + j * STK_PAGESIZE < top x ->
       mapped x + j * STK_PAGESIZE ∉ pgs s').
Proof.
  revert s. induction ps as [|p ps IH]; intros s Hnd Hin.
  { exists s. split_and!; try done; intros p; by intros ?%elem_of_nil || intros ? ?%elem_of_nil. }
  apply NoDup_cons in Hnd as [Hp Hnd]. destruct (Hin p) as [x Hx]; [by left|].
  assert (Hfree : exists s1, stka_free p s = Ret (tt, s1) /\ stks s1 = delete p (stks s) /\ lock s1 = lock s /\ desc s1 = desc s /\
    pgs s1 = stka_unmap_pages (Z.to_nat ((top x - mapped x + STK_PAGESIZE - 1) / STK_PAGESIZE)) (mapped x) (pgs s)).
  { unfold stka_free. rewrite (mseq_run _ _ _ x s) by (unfold stk_at; by rewrite Hx). eexists. split; [reflexivity|]. done. }
  destruct Hfree as (s1 & Hrun & Hs & Hl & Hd & Hpg).
  destruct (IH s1) as (s' & Hr & Hl' & Hd' & Hsub & Hg & Hk & Hp'); [done| |].
  { intros q Hq. rewrite Hs, lookup_delete_ne by (intros ->; done). apply Hin. by right. }
  exists s'. cbn [stka_free_all]. rewrite (mseq_run _ _ _ _ _ Hrun). split_and!; try congruence.
  - etrans; [apply Hsub|]. rewrite Hpg. apply unmap_pages_subset.
  - intros q [->|Hq]%elem_of_cons; [|by apply Hg]. rewrite Hk, Hs by done. apply lookup_delete_eq.
  - intros q [Hq Hq']%not_elem_of_cons. rewrite Hk, Hs by done. by apply lookup_delete_ne.
  - intros q y [->|Hq]%elem_of_cons Hy j Hj Ht.
    + rewrite Hx in Hy. injection Hy as <-. intros Hin'%Hsub. rewrite Hpg in Hin'. revert Hin'.
      apply unmap_pages_gone. unfold STK_PAGESIZE in *. dlia.
    + apply (Hp' q y); [done| |done|done]. rewrite Hs, lookup_delete_ne by (intros ->; done). done.
Qed.

Lemma stka_delete_run s : lock s = 0 -> stka_listed s ->
  exists s', stka_delete s = Ret (tt, s') /\ lock s' = 0 /\ stks s' = ∅ /\ pgs s' ⊆ pgs s /\
    forall p x, stks s !! p = Some x -> forall j, 0 <= j -> mapped x + j * STK_PAGESIZE < top x ->
      mapped x + j * STK_PAGESIZE ∉ pgs s'.
Proof.
  intros Hl [Hnd Hin]. unfold stka_delete.
  rewrite (mseq_run _ _ _ tt (set_lock 1 s)) by (unfold spl_lock; by rewrite Hl).
  rewrite (mseq_run mget _ _ (set_lock 1 s) (set_lock 1 s) eq_refl). cbn [stacks set_lock].
  destruct (stka_free_all_run (items (stacks s)) (set_lock 1 s) Hnd) as (s' & Hrun & _ & _ & Hsub & Hg & Hk & Hp).
  { intros p Hp. by apply Hin. }
  rewrite (mseq_run _ _ _ _ _ Hrun). eexists. split; [reflexivity|]. cbn [lock stks pgs set_lock set_stacks spl_unlock].
  split; [done|]. split; [|split; [done|]].
  - apply map_empty. intros p. destruct (decide (p ∈ items (stacks s))); [by apply Hg|].
    rewrite Hk by done. destruct (stks s !! p) eqn:E; [|done]. exfalso. apply n, Hin. eauto.
  - intros p x Hx. apply (Hp p x); [|done]. apply Hin. eauto.
Qed.

(** stka_delete of an allocator whose lock is free returns, every stack is
    gone and none of their pages is mapped any more. *)
Theorem stka_delete_frees s : lock s = 0 -> stka_listed s ->
  exists s', stka_delete s = Ret (tt, s') /\ lock s' = 0 /\ stks s' = ∅ /\ pgs s' ⊆ pgs s /\
    forall p x, stks s !! p = Some x -> forall j, 0 <= j -> mapped x + j * STK_PAGESIZE < top x ->
      mapped x + j * STK_PAGESIZE ∉ pgs s'.
Proof. apply stka_delete_run. Qed.

Module StkaDemo.
Definition kdesc : stack_allocator_desc_t := Desc 0x100000 0x400000 7 2 true false.
Definition a0 : stka := stka_new kdesc.
Definition all_ok (_ : Z) : bool := true.
Definition a1 : stka := state_of (stka_alloc all_ok 8 a0) a0.

Lemma a0_wf : stka_wf a0.
Proof. constructor; simpl; [intros ? ?; by rewrite lookup_empty|intros ? ? ? ? _; by rewrite lookup_empty|lia]. Qed.

Lemma stka_alloc_layout_witness : exists s', stka_alloc all_ok 8 a0 = Ret (8, s') /\ stka_wf s'.
Proof.
  destruct (stka_alloc_layout all_ok 8 a0 a0_wf eq_refl eq_refl ltac:(lia)
    ltac:(unfold STK_INITSIZE, STK_PAGESIZE; simpl; lia)
    ltac:(unfold STK_GUARDSIZE, STK_PAGESIZE; simpl; lia)) as (s' & Hr & _ & Hw & _).
  exists s'. split; [exact Hr|exact Hw].
Defined.

Lemma stka_alloc_exhausted_deadlocks_witness :
  exists s', stka_alloc all_ok 8 (set_next 0x100000 a0) = Ret (0, s') /\ stka_alloc all_ok 16 s' = Deadlock.
Proof. apply (stka_alloc_exhausted_deadlocks all_ok 8 16 (set_next 0x100000 a0)); [reflexivity|simpl; lia]. Defined.

(** A growing user stack: two of 256 pages are mapped. *)
Definition u0 : stka := Stka (Desc 0x100000 0x400000 7 6 false false) 0x2ff000 (Alist [8] 1 true) 0
  {[ 8 := Stack 0x400000 0x3fe000 0x300000 ]} ∅.

Lemma stka_pgflt_covers_witness :
  exists s' y, stka_pgflt all_ok 8 0x3fc123 u0 = Ret (true, s') /\ stks s' !! 8 = Some y /\ mapped y <= 0x3fc123.
Proof.
  assert (Hrun : stka_pgflt all_ok 8 0x3fc123 u0 = Ret (true, state_of (stka_pgflt all_ok 8 0x3fc123 u0) u0))
    by (apply ret_val_run; vm_compute; reflexivity).
  destruct (stka_pgflt_covers all_ok 8 (Stack 0x400000 0x3fe000 0x300000) 0x3fc123 u0 _ eq_refl
    ltac:(simpl; lia) eq_refl eq_refl ltac:(simpl; lia) ltac:(simpl; lia) Hrun) as (y & Hy & Hm & _).
  exists (state_of (stka_pgflt all_ok 8 0x3fc123 u0) u0), y. split; [exact Hrun|]. split; [exact Hy|exact (proj2 Hm)].
Defined.

(** The space check of stka_alloc looks at the initial size only: close to
    the end of the region a stack is handed out whose pages lie below the
    region's bottom. *)
Theorem stka_alloc_below_bottom :
  let s := set_next 0x102000 a0 in
  let r := stka_alloc all_ok 8 s in
  ret_val r = Some 8 /\ 0xFE000 ∈ pgs (state_of r s) /\ 0xFE000 < bottom (desc s).
Proof. vm_compute. split; [reflexivity|]. split; [|reflexivity]. apply (bool_decide_unpack _). vm_compute. exact I. Qed.

(** A fault above the mapped part of a stack (a page that lost its mapping)
    makes stka_pgflt move the recorded boundary up by the wrapped distance
    and report success without mapping anything. *)
Theorem stka_pgflt_above_mapped :
  let s := set_stks {[ 8 := Stack 0x400000 0x3f0000 0x300000 ]} u0 in
  let r := stka_pgflt all_ok 8 0x3f2345 s in
  ret_val r = Some true /\ stks (state_of r s) !! 8 = Some (Stack 0x400000 0x3f2000 0x300000) /\
  pgs (state_of r s) = ∅.
Proof. vm_compute. repeat split; reflexivity. Qed.
End StkaDemo.
