(* ===== verification/Vmem.v ===== *)
(** * Virtual memory: vmem.c, vmem_mgmt.c and the address spaces of spc.c

    Page tables live in physical memory, which the kernel can only reach
    through the ten slots of the temporary mapspace.  A pointer to a paging
    structure is the address [VM_PS_TADDR i] of a slot; dereferencing it goes
    through [ps_mapspace], so that a pointer kept after its slot was unmapped
    faults, and a slot that is never given back is lost.

    Physical memory is a total function from addresses to 64-bit words: there
    is no physical address the machine does not answer at.  Frames come from
    the [PagePool] interface, which pmem.c implements (see PmemPool).

    The second half of the file gives the specification the code implements:
    map, unmap and lookup on physical memory alone, without a mapspace, and the
    walk the processor does, which the lookup is compared with. *)

From S2P Require Import Prelude.
From S2P Require Import Heap.

Definition PG_PRESENT : Z := 1.
Definition PG_WRITETHROUGH : Z := 8.
Definition PG_NONCACHABLE : Z := 16.
Definition PG_LARGE : Z := 128.
Definition PAGE_SIZE_2M : Z := 0x200000.
Definition PG_KFLAGS : Z := Z.lor (Z.lor PG_PRESENT PG_WRITABLE) PG_GLOBAL.

Definition VM_SPLIT_ALLOC : Z := 1.
Definition VM_SPLIT_LARGE : Z := 2.
Definition VM_PS_MAPSPACE_SZ : Z := 10.
Definition VM_PS_STRUCT_SZ : Z := PAGE_SIZE_4K.

Definition VM_PAGE (a s : Z) : Z := Z.land a (Z.lnot (s - 1)).
Definition VM_OFFSET (a s : Z) : Z := Z.land a (s - 1).
Definition VM_ENTRY_FLAG_MASK : Z := Z.lnot 0xFFF.

Definition VM_PS_TADDR (idx : Z) : Z :=
  Z.land (2 ^ 64 - 1) (Z.lnot (VM_PS_STRUCT_SZ - 1)) - (VM_PS_MAPSPACE_SZ - 1) * VM_PS_STRUCT_SZ
  + idx * VM_PS_STRUCT_SZ.

Definition VM_FL_MASK : Z :=
  Z.lor (Z.lor (Z.lor (Z.lor PG_WRITABLE PG_USER) PG_WRITETHROUGH) PG_NONCACHABLE) PG_GLOBAL.
Definition VM_FLAGS (x : Z) : Z := Z.land (Z.land x (Z.lnot VM_ENTRY_FLAG_MASK)) VM_FL_MASK.

(** Whether any bit of [f] is set in [x], the C truth value of [x & f]. *)
Definition has (x f : Z) : bool := negb (Z.land x f =? 0).

Inductive vmem_split_res_t := TableNotMapped | SmallExpected | LargeExpected | SplitSuccess | SplitError.

#[export] Instance split_res_eq : EqDecision vmem_split_res_t.
Proof. solve_decision. Defined.

Record vmem_glob_mapping_t := GlobMapping { from : Z; to : Z; gflags : Z }.

(** The allocator of page frames. *)
Class PagePool (P : Type) := {
  palloc : Z -> Z -> M P Z;
  pfree : Z -> Z -> M P unit;
}.

(** The locals [pd], [pt], [ipd] and [ipt] the callers of [vmem_mgmt_split]
    pass by address. *)
Record outs := Outs { o_pd : Z; o_pt : Z; o_ipd : Z; o_ipt : Z }.
Definition set_pd v o := Outs v (o_pt o) (o_ipd o) (o_ipt o).
Definition set_pt v o := Outs (o_pd o) v (o_ipd o) (o_ipt o).
Definition set_ipd v o := Outs (o_pd o) (o_pt o) v (o_ipt o).
Definition set_ipt v o := Outs (o_pd o) (o_pt o) (o_ipd o) v.

Section vmem_c.
Context {P : Type} `{PagePool P}.

Record phys := Phys { pw : Z -> Z; pool : P }.
Record vm := Vm { ps_mapspace : list Z; ph : phys; vmem_glob_map : list vmem_glob_mapping_t }.

Definition set_ms m (s : vm) := Vm m (ph s) (vmem_glob_map s).
Definition set_ph p (s : vm) := Vm (ps_mapspace s) p (vmem_glob_map s).

Definition wr_word (a v : Z) (w : Z -> Z) : Z -> Z := fun x => if x =? a then v else w x.
Definition zero_page (a : Z) (w : Z -> Z) : Z -> Z :=
  fun x => if (a <=? x) && (x <? a + PAGE_SIZE_4K) then 0 else w x.

(** Physical memory and the frame allocator, as computations on [phys]. *)
Definition rd (a : Z) : M phys Z := mgets (fun p => pw p a).
Definition wr (a v : Z) : M phys unit := mmodify (fun p => Phys (wr_word a v (pw p)) (pool p)).
Definition zero (a : Z) : M phys unit := mmodify (fun p => Phys (zero_page a (pw p)) (pool p)).
Definition on_pool {A} (op : M P A) : M phys A := fun p =>
  match op (pool p) with
  | Ret (a, q) => Ret (a, Phys (pw p) q)
  | Fatal m => Fatal m
  | Fault a => Fault a
  | Deadlock => Deadlock
  | NoFuel => NoFuel
  end.

Definition lift {A} (c : M phys A) : M vm A := fun s =>
  match c (ph s) with
  | Ret (a, p) => Ret (a, set_ph p s)
  | Fatal m => Fatal m
  | Fault a => Fault a
  | Deadlock => Deadlock
  | NoFuel => NoFuel
  end.

(** *** Pointers into the mapspace *)

(** The frame a pointer reaches: the slot at the address, if it is present. *)
Definition slot_frame (p : Z) (s : vm) : option Z :=
  let i := (p - VM_PS_TADDR 0) / VM_PS_STRUCT_SZ in
  if (p =? VM_PS_TADDR i) && (0 <=? i) then
    match ps_mapspace s !! Z.to_nat i with
    | Some e => if has e PG_PRESENT then Some (Z.land e VM_ENTRY_FLAG_MASK) else None
    | None => None
    end
  else None.

Definition pload (p i : Z) : M vm Z := fun s =>
  match slot_frame p s with Some f => lift (rd (f + 8 * i)) s | None => Fault (p + 8 * i) end.
Definition pstore (p i v : Z) : M vm unit := fun s =>
  match slot_frame p s with Some f => lift (wr (f + 8 * i) v) s | None => Fault (p + 8 * i) end.
Definition pmemset0 (p : Z) : M vm unit := fun s =>
  match slot_frame p s with Some f => lift (zero f) s | None => Fault p end.

(** *** vmem_mgmt.c *)

Definition flag_char (flags f c : Z) : Z := if has flags f then c else 45.

Definition vmem_mgmt_gen_flag_string (flags : Z) : list Z :=
  [ flag_char flags PG_WRITABLE 119; flag_char flags PG_USER 117;
    flag_char flags PG_WRITETHROUGH 116; flag_char flags PG_NONCACHABLE 110;
    flag_char flags PG_GLOBAL 103; flag_char flags PG_PRESENT 112;
    flag_char flags (Z.lnot (Z.lor VM_FL_MASK PG_PRESENT)) 63; 0 ].

Fixpoint map_loop (n : nat) (i page : Z) : M vm Z := fun s =>
  match n with
  | O => Fatal "out of ps_mapspace. this probably means there is a bug in vmem!"
  | S n' =>
    match ps_mapspace s !! Z.to_nat i with
    | None => Fault i
    | Some e =>
      if negb (has e PG_PRESENT) then
        let e' := Z.lor (Z.lor (Z.lor page PG_PRESENT) PG_WRITABLE) PG_GLOBAL in
        Ret (VM_PS_TADDR i, set_ms (<[Z.to_nat i := e']> (ps_mapspace s)) s)
      else map_loop n' (i + 1) page s
    end
  end.

Definition vmem_mgmt_map (phys : Z) : M vm Z :=
  let page := VM_PAGE phys VM_PS_STRUCT_SZ in
  if negb (VM_OFFSET phys VM_PS_STRUCT_SZ =? 0) then
    mfatal "misaligned physical address for paging structure."
  else map_loop (Z.to_nat VM_PS_MAPSPACE_SZ) 0 page.

Fixpoint unmap_loop (n : nat) (i virt : Z) : M vm unit := fun s =>
  match n with
  | O => Ret (tt, s)
  | S n' =>
    if VM_PS_TADDR i =? virt then Ret (tt, set_ms (<[Z.to_nat i := 0]> (ps_mapspace s)) s)
    else unmap_loop n' (i + 1) virt s
  end.

Definition vmem_mgmt_unmap (virt : Z) : M vm unit := unmap_loop (Z.to_nat VM_PS_MAPSPACE_SZ) 0 virt.

Definition vmem_mgmt_alloc : M vm Z :=
  phys <- lift (on_pool (palloc VM_PS_STRUCT_SZ VM_PS_STRUCT_SZ)) ;;
  if phys =? 0 then mfatal "out of physical memory for vmem_mgmt"
  else
    mapped <- vmem_mgmt_map phys ;;
    pmemset0 mapped ;;;
    vmem_mgmt_unmap mapped ;;;
    mreturn phys.

Definition vmem_mgmt_free (addr : Z) : M vm unit := lift (on_pool (pfree addr VM_PS_STRUCT_SZ)).

(** The macro VM_CHECK_ENTRY; [false] is its [goto not_found]. *)
Definition VM_CHECK_ENTRY (x i u flags : Z) : M vm bool :=
  e <- pload x i ;;
  ok <- (if negb (has e PG_PRESENT) then
           if has flags VM_SPLIT_ALLOC then
             a <- vmem_mgmt_alloc ;;
             pstore x i (Z.lor (Z.lor a PG_PRESENT) PG_WRITABLE) ;;;
             mreturn true
           else mreturn false
         else mreturn true) ;;
  if (ok : bool) then
    if has flags VM_SPLIT_ALLOC then
      e <- pload x i ;; pstore x i (Z.lor e u) ;;; mreturn true
    else mreturn true
  else mreturn false.

(** The labels [not_found] and [error]. *)
Definition split_error (r : vmem_split_res_t) (pml4 pdpt : Z) (o : outs) : M vm (vmem_split_res_t * outs) :=
  (if pml4 =? 0 then mreturn tt else vmem_mgmt_unmap pml4) ;;;
  (if pdpt =? 0 then mreturn tt else vmem_mgmt_unmap pdpt) ;;;
  (if o_pd o =? 0 then mreturn tt else vmem_mgmt_unmap (o_pd o)) ;;;
  (if o_pt o =? 0 then mreturn tt else vmem_mgmt_unmap (o_pt o)) ;;;
  mreturn (r, o).

Definition split_done (pml4 pdpt idx_pd : Z) (o : outs) : M vm (vmem_split_res_t * outs) :=
  vmem_mgmt_unmap pml4 ;;;
  vmem_mgmt_unmap pdpt ;;;
  mreturn (SplitSuccess, set_ipd idx_pd o).

(** [o] are the values of the caller's locals on entry; [given] says that
    the caller passed their addresses. *)
Definition vmem_mgmt_split (given : bool) (o : outs) (space virt flags pgflags : Z)
  : M vm (vmem_split_res_t * outs) :=
  if negb given then mreturn (SplitError, o)
  else
    let idx_pml4 := Z.land (Z.shiftr virt 39) 0x1FF in
    let idx_pdpt := Z.land (Z.shiftr virt 30) 0x1FF in
    let idx_pd := Z.land (Z.shiftr virt 21) 0x1FF in
    pml4 <- vmem_mgmt_map space ;;
    ok <- VM_CHECK_ENTRY pml4 idx_pml4 pgflags flags ;;
    if negb (ok : bool) then split_error TableNotMapped pml4 0 o
    else
      e <- pload pml4 idx_pml4 ;;
      pdpt <- vmem_mgmt_map (Z.land e VM_ENTRY_FLAG_MASK) ;;
      ok <- VM_CHECK_ENTRY pdpt idx_pdpt pgflags flags ;;
      if negb (ok : bool) then split_error TableNotMapped pml4 pdpt o
      else
        e <- pload pdpt idx_pdpt ;;
        pd <- vmem_mgmt_map (Z.land e VM_ENTRY_FLAG_MASK) ;;
        let o := set_pd pd o in
        e <- pload pd idx_pd ;;
        if has flags VM_SPLIT_LARGE then
          if has e PG_PRESENT && negb (has e PG_LARGE) then split_error LargeExpected pml4 pdpt o
          else split_done pml4 pdpt idx_pd o
        else if has e PG_PRESENT && has e PG_LARGE then split_error SmallExpected pml4 pdpt o
        else
          ok <- VM_CHECK_ENTRY pd idx_pd pgflags flags ;;
          if negb (ok : bool) then split_error TableNotMapped pml4 pdpt o
          else
            e <- pload pd idx_pd ;;
            pt <- vmem_mgmt_map (Z.land e VM_ENTRY_FLAG_MASK) ;;
            split_done pml4 pdpt idx_pd (set_ipt (Z.land (Z.shiftr virt 12) 0x1FF) (set_pt pt o)).

(** *** vmem.c *)

Definition VM_RES_UNMAP (unmap : bool) (x i : Z) : M vm Z :=
  e <- pload x i ;;
  (if unmap then pstore x i 0 else mreturn tt) ;;;
  mreturn (Z.land e VM_ENTRY_FLAG_MASK).

Definition VM_SET_IFN_PRESENT (phys flags x i : Z) : M vm bool :=
  e <- pload x i ;;
  if has e PG_PRESENT then mreturn false
  else pstore x i (Z.lor (Z.lor phys PG_PRESENT) flags) ;;; mreturn true.

Definition find_unmap_entry (unmap : bool) (o : outs) : M vm Z :=
  e <- pload (o_pd o) (o_ipd o) ;;
  r <- (if has e PG_LARGE then VM_RES_UNMAP unmap (o_pd o) (o_ipd o)
        else if o_pt o =? 0 then mreturn 0
        else
          r <- VM_RES_UNMAP unmap (o_pt o) (o_ipt o) ;;
          vmem_mgmt_unmap (o_pt o) ;;;
          mreturn r) ;;
  vmem_mgmt_unmap (o_pd o) ;;;
  mreturn r.

Definition vmem_find_unmap (o : outs) (spc virt : Z) (unmap : bool) : M vm Z :=
  split <- vmem_mgmt_split true o spc virt 0 0 ;;
  match split.1 with
  | SplitSuccess => find_unmap_entry unmap split.2
  | TableNotMapped => mreturn 0
  | SmallExpected =>
    again <- vmem_mgmt_split true split.2 spc virt VM_SPLIT_LARGE 0 ;;
    match again.1 with
    | SplitSuccess => find_unmap_entry unmap again.2
    | _ => mfatal "second chance failure during virtual memory mapping lookup"
    end
  | _ => mfatal "unexpected error during virtual memory mapping lookup"
  end.

Definition vmem_map (o : outs) (spc phys virt flags : Z) : M vm bool :=
  split <- vmem_mgmt_split true o spc virt
             (Z.lor VM_SPLIT_ALLOC (if has flags PG_LARGE then VM_SPLIT_LARGE else 0)) flags ;;
  match split.1 with
  | SplitSuccess | TableNotMapped =>
    let o := split.2 in
    result <- (if has flags PG_LARGE then VM_SET_IFN_PRESENT phys flags (o_pd o) (o_ipd o)
               else if o_pt o =? 0 then mreturn false
               else VM_SET_IFN_PRESENT phys flags (o_pt o) (o_ipt o)) ;;
    (if o_pt o =? 0 then mreturn tt else vmem_mgmt_unmap (o_pt o)) ;;;
    (if o_pd o =? 0 then mreturn tt else vmem_mgmt_unmap (o_pd o)) ;;;
    mreturn result
  | _ => mreturn false
  end.

Definition vmem_unmap (o : outs) (spc virt : Z) : M vm Z := vmem_find_unmap o spc virt true.
Definition vmem_resolve (o : outs) (spc virt : Z) : M vm Z := vmem_find_unmap o spc virt false.

(** *** Kernel mappings of a new address space

    [kernel_pdpt] and [pt_low] are the addresses of the tables
    x86_64_pg_kernel_pdpt and x86_64_pg_pt_low that paging.S reserves; the
    [o] arguments are the values of uninitialised locals. *)
Variables kernel_pdpt pt_low : Z.

Definition add_global_mapping (phys virt flags : Z) : M vm unit :=
  mmodify (fun s => Vm (ps_mapspace s) (ph s) (vmem_glob_map s ++ [GlobMapping phys virt (u32 flags)])).

(** One round of the loop over [vmem_glob_map]. *)
Definition map_global (o : outs) (space : Z) (m : vmem_glob_mapping_t) : M vm unit :=
  _ <- vmem_resolve o space (to m) ;;
  let put := ok <- vmem_map o space (from m) (to m) (gflags m) ;;
             if (ok : bool) then mreturn tt else mfatal "cannot insert required global mapping" in
  split <- vmem_mgmt_split true o space (to m) (if has (gflags m) PG_LARGE then VM_SPLIT_LARGE else 0) 0 ;;
  let o := split.2 in
  match split.1 with
  | TableNotMapped => put
  | SmallExpected | SplitSuccess =>
    e <- pload (o_pd o) (o_ipd o) ;;
    e <- (if has e PG_LARGE then mreturn e else pload (o_pt o) (o_ipt o)) ;;
    (if has e PG_PRESENT then
       if VM_FLAGS e =? VM_FLAGS (gflags m) then mreturn tt
       else mfatal "present page does not match flags"
     else put) ;;;
    (if o_pt o =? 0 then mreturn tt else vmem_mgmt_unmap (o_pt o)) ;;;
    (if o_pd o =? 0 then mreturn tt else vmem_mgmt_unmap (o_pd o))
  | LargeExpected => mfatal "cannot insert large page, small page already mapped"
  | SplitError => mfatal "cannot split virtual address"
  end.

Fixpoint map_globals (o : outs) (space : Z) (l : list vmem_glob_mapping_t) : M vm unit :=
  match l with [] => mreturn tt | m :: l' => map_global o space m ;;; map_globals o space l' end.

Definition vmem_mgmt_make_glob_spc (o : outs) (space : Z) : M vm bool :=
  pml4 <- vmem_mgmt_map space ;;
  if pml4 =? 0 then mreturn false
  else
    let ng_flags := Z.land PG_KFLAGS (Z.lnot PG_GLOBAL) in
    pmemset0 pml4 ;;;
    pstore pml4 511 (Z.lor kernel_pdpt ng_flags) ;;;
    phys_pdpt_low <- lift (on_pool (palloc PAGE_SIZE_4K PAGE_SIZE_4K)) ;;
    pstore pml4 0 (Z.lor phys_pdpt_low ng_flags) ;;;
    pdpt <- vmem_mgmt_map phys_pdpt_low ;;
    if (phys_pdpt_low =? 0) || (pdpt =? 0) then mreturn false
    else
      pmemset0 pdpt ;;;
      phys_pd_low <- lift (on_pool (palloc PAGE_SIZE_4K PAGE_SIZE_4K)) ;;
      pstore pdpt 0 (Z.lor phys_pd_low ng_flags) ;;;
      pd <- vmem_mgmt_map phys_pd_low ;;
      if (phys_pd_low =? 0) || (pd =? 0) then mreturn false
      else
        pmemset0 pd ;;;
        pstore pd 0 (Z.lor pt_low ng_flags) ;;;
        pstore pd 1 (Z.lor (Z.lor (Z.lor 0x200000 ng_flags) PG_LARGE) PG_GLOBAL) ;;;
        vmem_mgmt_unmap pd ;;;
        vmem_mgmt_unmap pdpt ;;;
        vmem_mgmt_unmap pml4 ;;;
        l <- mgets vmem_glob_map ;;
        map_globals o space l ;;;
        mreturn true.

(** *** Tearing an address space down *)

(** The three macros vmem_mgmt_clobber_helper*: run [body] on the address of
    every present entry, free the frame and clear the present bit.  [skip]
    is the [continue] of vmem_mgmt_clobber_spc. *)
Fixpoint clobber_level (n : nat) (skip : Z -> bool) (body : Z -> Z -> M vm unit) (level i : Z) : M vm unit :=
  match n with
  | O => mreturn tt
  | S n' =>
    e <- pload level i ;;
    (if negb (has e PG_PRESENT) then mreturn tt
     else
       let addr := Z.land e VM_ENTRY_FLAG_MASK in
       if skip addr then mreturn tt
       else
         body e addr ;;;
         lift (on_pool (pfree addr PAGE_SIZE_4K)) ;;;
         e <- pload level i ;;
         pstore level i (Z.land e (Z.lnot PG_PRESENT))) ;;;
    clobber_level n' skip body level (i + 1)
  end.

Definition chain (next : Z -> M vm unit) (addr : Z) : M vm unit :=
  entry <- vmem_mgmt_map addr ;;
  if addr =? 0 then mreturn tt else next entry ;;; vmem_mgmt_unmap entry.

Definition never (_ : Z) : bool := false.

Definition vmem_mgmt_clobber_pt (pt : Z) : M vm unit :=
  clobber_level 512 never (fun _ _ => mreturn tt) pt 0.

Definition vmem_mgmt_clobber_pd (pd : Z) : M vm unit :=
  e <- pload pd 0 ;;
  (if Z.land e VM_ENTRY_FLAG_MASK =? pt_low then pstore pd 0 0 ;;; pstore pd 1 0 else mreturn tt) ;;;
  clobber_level 512 never (fun e addr =>
    if has e PG_LARGE then lift (on_pool (pfree (Z.land e VM_ENTRY_FLAG_MASK) PAGE_SIZE_2M))
    else chain vmem_mgmt_clobber_pt addr) pd 0.

Definition vmem_mgmt_clobber_pdpt (pdpt : Z) : M vm unit :=
  clobber_level 512 never (fun _ addr => chain vmem_mgmt_clobber_pd addr) pdpt 0.

Definition vmem_mgmt_clobber_spc (space : Z) : M vm unit :=
  pml4 <- vmem_mgmt_map space ;;
  clobber_level 512 (fun addr => addr =? kernel_pdpt)
    (fun _ addr => chain vmem_mgmt_clobber_pdpt addr) pml4 0 ;;;
  vmem_mgmt_unmap pml4.

(** *** spc.c *)

Definition spc_new (o : outs) : M vm Z :=
  sp <- lift (on_pool (palloc PAGE_SIZE_4K PAGE_SIZE_4K)) ;;
  if sp =? 0 then mreturn 0
  else
    ok <- vmem_mgmt_make_glob_spc o sp ;;
    if (ok : bool) then mreturn sp
    else lift (on_pool (pfree sp PAGE_SIZE_4K)) ;;; mreturn 0.

Definition spc_delete (target : Z) : M vm unit :=
  vmem_mgmt_clobber_spc target ;;;
  lift (on_pool (pfree target PAGE_SIZE_4K)).

(** ** Specification: paging without a mapspace *)

(** The table indices of an address. *)
Definition i4 (v : Z) : Z := Z.land (Z.shiftr v 39) 0x1FF.
Definition i3 (v : Z) : Z := Z.land (Z.shiftr v 30) 0x1FF.
Definition i2 (v : Z) : Z := Z.land (Z.shiftr v 21) 0x1FF.
Definition i1 (v : Z) : Z := Z.land (Z.shiftr v 12) 0x1FF.

Definition frame (e : Z) : Z := Z.land e VM_ENTRY_FLAG_MASK.

(** The entry a lookup of vmem.c ends at: in the page directory for a large
    page (then the flag is true), in the page table for a small one. *)
Definition tables_entry (w : Z -> Z) (spc v : Z) : option (bool * Z) :=
  let e4 := w (spc + 8 * i4 v) in
  if negb (has e4 PG_PRESENT) then None else
  let e3 := w (frame e4 + 8 * i3 v) in
  if negb (has e3 PG_PRESENT) then None else
  let a2 := frame e3 + 8 * i2 v in
  let e2 := w a2 in
  if negb (has e2 PG_PRESENT) then None
  else if has e2 PG_LARGE then Some (true, a2)
  else Some (false, frame e2 + 8 * i1 v).

(** What the lookup returns: whatever frame that entry names. *)
Definition entry_frame (w : Z -> Z) (r : option (bool * Z)) : Z :=
  match r with Some (_, a) => frame (w a) | None => 0 end.

(** The walk of the processor from the root at [cr3] (Intel's manual, volume
    3, 4-level paging): the base and the size of the page [v] lies on.  Every
    entry must be present, a page-size bit in the page directory pointer table
    makes a page of 1 GB and in the root a fault, and the address of a page or
    table is in the bits below 52. *)
Definition canonical (v : Z) : bool := (v mod 2 ^ 64 <? 2 ^ 47) || (2 ^ 64 - 2 ^ 47 <=? v mod 2 ^ 64).
Definition entry_base (e k : Z) : Z := Z.land e (2 ^ 52 - 2 ^ k).
Definition processor_walk (w : Z -> Z) (cr3 v : Z) : option (Z * Z) :=
  if negb (canonical v) then None else
  let e4 := w (cr3 + 8 * i4 v) in
  if negb (has e4 PG_PRESENT) || has e4 PG_LARGE then None else
  let e3 := w (entry_base e4 12 + 8 * i3 v) in
  if negb (has e3 PG_PRESENT) then None
  else if has e3 PG_LARGE then Some (entry_base e3 30, 2 ^ 30) else
  let e2 := w (entry_base e3 12 + 8 * i2 v) in
  if negb (has e2 PG_PRESENT) then None
  else if has e2 PG_LARGE then Some (entry_base e2 21, 2 ^ 21) else
  let e1 := w (entry_base e2 12 + 8 * i1 v) in
  if negb (has e1 PG_PRESENT) then None else Some (entry_base e1 12, 2 ^ 12).
(** The physical address of [v]. *)
Definition processor_address (w : Z -> Z) (cr3 v : Z) : option Z :=
  match processor_walk w cr3 v with Some (base, size) => Some (base + v mod size) | None => None end.

(** Tables that mean the same to both: a canonical address, addresses below
    2^52 and no bits above, no page of 1 GB, a large page at a multiple of its
    size, and entries of page tables that are zero when they are not
    present. *)
Definition plain (w : Z -> Z) (spc v : Z) : Prop :=
  let e4 := w (spc + 8 * i4 v) in
  let e3 := w (frame e4 + 8 * i3 v) in
  let e2 := w (frame e3 + 8 * i2 v) in
  let e1 := w (frame e2 + 8 * i1 v) in
  canonical v = true /\ 0 <= e4 < 2 ^ 52 /\
  (has e4 PG_PRESENT = true -> has e4 PG_LARGE = false /\ 0 <= e3 < 2 ^ 52 /\
  (has e3 PG_PRESENT = true -> has e3 PG_LARGE = false /\ 0 <= e2 < 2 ^ 52 /\
  (has e2 PG_PRESENT = true ->
     if has e2 PG_LARGE then frame e2 mod 2 ^ 21 = 0 else 0 <= e1 < 2 ^ 52 /\ (e1 = 0 \/ has e1 PG_PRESENT = true)))).

(** Make the table below entry [a] exist, and give its address. *)
Definition p_ensure (a u : Z) : M phys Z :=
  e <- rd a ;;
  (if has e PG_PRESENT then mreturn tt
   else
     f <- on_pool (palloc PAGE_SIZE_4K PAGE_SIZE_4K) ;;
     if f =? 0 then mfatal "out of physical memory for vmem_mgmt"
     else if negb (VM_OFFSET f PAGE_SIZE_4K =? 0) then
       mfatal "misaligned physical address for paging structure."
     else
     zero f ;;;
     wr a (Z.lor (Z.lor f PG_PRESENT) PG_WRITABLE)) ;;;
  e <- rd a ;;
  wr a (Z.lor e u) ;;;
  e <- rd a ;;
  mreturn (frame e).

Definition p_set (a pa flags : Z) : M phys bool :=
  e <- rd a ;;
  if has e PG_PRESENT then mreturn false
  else wr a (Z.lor (Z.lor pa PG_PRESENT) flags) ;;; mreturn true.

Definition p_map (spc pa v flags : Z) : M phys bool :=
  f3 <- p_ensure (spc + 8 * i4 v) flags ;;
  f2 <- p_ensure (f3 + 8 * i3 v) flags ;;
  let a2 := f2 + 8 * i2 v in
  e2 <- rd a2 ;;
  if has flags PG_LARGE then
    if has e2 PG_PRESENT && negb (has e2 PG_LARGE) then mreturn false else p_set a2 pa flags
  else if has e2 PG_PRESENT && has e2 PG_LARGE then mreturn false
  else f1 <- p_ensure a2 flags ;; p_set (f1 + 8 * i1 v) pa flags.
End vmem_c.
Arguments phys P : clear implicits.
Arguments vm P : clear implicits.

(** ** Bits of entries *)

Lemma land_lnot_mask e : Z.land e VM_ENTRY_FLAG_MASK = e / 4096 * 4096.
Proof. exact (ALIGN_DN_pow2 e 12 ltac:(lia)). Qed.

Lemma frame_spec e : frame e = e / 4096 * 4096.
Proof. apply land_lnot_mask. Qed.

Lemma VM_PAGE_spec a : VM_PAGE a VM_PS_STRUCT_SZ = a / 4096 * 4096.
Proof. exact (ALIGN_DN_pow2 a 12 ltac:(lia)). Qed.

Lemma VM_OFFSET_spec a : VM_OFFSET a VM_PS_STRUCT_SZ = a mod 4096.
Proof. exact (ALIGN_RST_pow2 a 12 ltac:(lia)). Qed.

Lemma has_lor x y f : has (Z.lor x y) f = has x f || has y f.
Proof.
  unfold has. rewrite Z.land_lor_distr_l.
  destruct (Z.eqb_spec (Z.land x f) 0) as [->|]; [by rewrite Z.lor_0_l|]. simpl.
  destruct (Z.eqb_spec (Z.lor (Z.land x f) (Z.land y f)) 0) as [E|]; [|done].
  apply Z.lor_eq_0_iff in E. tauto.
Qed.

Lemma has_frame e f : 0 <= f < 4096 -> has (frame e) f = false.
Proof.
  intros. unfold has. rewrite frame_spec.
  change (e / 4096 * 4096) with (e / 4096 * 2 ^ 12). rewrite land_mul_pow2 by lia. done.
Qed.

Lemma frame_lor a c : a mod 4096 = 0 -> 0 <= c < 4096 -> frame (Z.lor a c) = a.
Proof.
  intros Ha Hc. rewrite frame_spec.
  replace a with (a / 4096 * 2 ^ 12) at 1 by dlia. rewrite lor_mul_pow2 by lia. dlia.
Qed.

Lemma frame_aligned e : frame e mod 4096 = 0.
Proof. rewrite frame_spec. dlia. Qed.

(** The contents of a slot that maps the frame at [a]. *)
Definition slot (a : Z) : Z := Z.lor (Z.lor (Z.lor a PG_PRESENT) PG_WRITABLE) PG_GLOBAL.

Lemma slot_present a : has (slot a) PG_PRESENT = true.
Proof. unfold slot. rewrite !has_lor. rewrite !orb_true_iff. tauto. Qed.

Lemma slot_of_frame a : a mod 4096 = 0 -> Z.land (slot a) VM_ENTRY_FLAG_MASK = a.
Proof.
  intros Ha. unfold slot. rewrite <-!Z.lor_assoc. by apply (frame_lor a).
Qed.

Lemma TADDR_inj i j : VM_PS_TADDR i = VM_PS_TADDR j -> i = j.
Proof. unfold VM_PS_TADDR. change VM_PS_STRUCT_SZ with 4096. lia. Qed.

Lemma TADDR_index i : (VM_PS_TADDR i - VM_PS_TADDR 0) / VM_PS_STRUCT_SZ = i.
Proof. unfold VM_PS_TADDR. change VM_PS_STRUCT_SZ with 4096. dlia. Qed.

Lemma TADDR_pos i : 0 <= i -> VM_PS_TADDR i <> 0.
Proof. intros. change (VM_PS_TADDR i) with (2 ^ 64 - 40960 + i * 4096). lia. Qed.

(** ** The mapspace *)

(** Slots as options: free, or mapping a frame. *)
Definition cell (o : option Z) : Z := match o with Some a => slot a | None => 0 end.

Fixpoint first_none (l : list (option Z)) : option nat :=
  match l with
  | [] => None
  | None :: _ => Some O
  | Some _ :: l' => S <$> first_none l'
  end.

Abbreviation idle := (replicate 10 None : list (option Z)).

Lemma first_none_lookup l i : first_none l = Some i -> l !! i = Some None.
Proof.
  revert i. induction l as [|[a|] l IH]; intros i Hi; simplify_eq/=; [|done].
  destruct (first_none l) eqn:E; simplify_eq/=. auto.
Qed.

Section mapspace.
Context {P : Type} `{PagePool P}.
Implicit Types (p : phys P) (g : list vmem_glob_mapping_t) (l : list (option Z)).

Abbreviation st l p g := (Vm (cell <$> l) p g).

Lemma map_loop_run n l (pre : list (option Z)) i (a : Z) p g :
  first_none l = Some i -> (i < n)%nat -> (length pre + n = 10)%nat ->
  map_loop n (Z.of_nat (length pre)) a (Vm ((cell <$> pre) ++ (cell <$> l)) p g)
  = Ret (VM_PS_TADDR (Z.of_nat (length pre + i)), Vm ((cell <$> pre) ++ (cell <$> <[i := Some a]> l)) p g).
Proof.
  revert l pre i. induction n as [|n IH]; intros l pre i Hl Hi Hlen; [lia|].
  destruct l as [|c l]; [done|]. simpl.
  rewrite Nat2Z.id, lookup_app_r by (rewrite length_fmap; lia).
  rewrite length_fmap, Nat.sub_diag. simpl.
  destruct c as [b|].
  - unfold cell at 1. rewrite slot_present. simpl in *.
    destruct (first_none l) as [j|] eqn:E; simplify_eq/=.
    specialize (IH l (pre ++ [Some b]) j E ltac:(lia)).
    rewrite length_app in IH. simpl in IH. rewrite Nat2Z.inj_add in IH.
    rewrite !fmap_app, <-!app_assoc in IH. simpl in IH. change (Z.of_nat 1) with 1 in IH.
    rewrite IH by lia. apply Ret_eq; [|done]. f_equal. lia.
  - simplify_eq/=. unfold set_ms. simpl. rewrite insert_app_r_alt by (rewrite length_fmap; lia).
    rewrite length_fmap, Nat.sub_diag. simpl. by rewrite Nat.add_0_r.
Qed.

Lemma map_run l i a p g :
  a mod 4096 = 0 -> first_none l = Some i -> (i < 10)%nat ->
  vmem_mgmt_map a (st l p g) = Ret (VM_PS_TADDR (Z.of_nat i), st (<[i := Some a]> l) p g).
Proof.
  intros Ha Hl Hi. unfold vmem_mgmt_map. rewrite VM_OFFSET_spec, Ha, VM_PAGE_spec. simpl negb. cbv iota.
  replace (a / 4096 * 4096) with a by dlia.
  exact (map_loop_run 10 l [] i a p g Hl Hi eq_refl).
Qed.

Lemma map_misaligned a s : a mod 4096 <> 0 ->
  vmem_mgmt_map a s = Fatal (A := Z * vm P) "misaligned physical address for paging structure.".
Proof. intros Ha. unfold vmem_mgmt_map. rewrite VM_OFFSET_spec. by destruct (Z.eqb_spec (a mod 4096) 0). Qed.

Lemma unmap_loop_run n i k (s : vm P) :
  unmap_loop n k (VM_PS_TADDR i) s
  = Ret (tt, if (k <=? i) && (i <? k + Z.of_nat n) then set_ms (<[Z.to_nat i := 0]> (ps_mapspace s)) s else s).
Proof.
  revert k. induction n as [|n IH]; intros k; simpl.
  - destruct (Z.leb_spec k i), (Z.ltb_spec i (k + Z.of_nat 0)); simpl; done || lia.
  - destruct (Z.eqb_spec (VM_PS_TADDR k) (VM_PS_TADDR i)) as [E|E].
    + apply TADDR_inj in E as ->. rewrite Z.leb_refl.
      destruct (Z.ltb_spec i (i + Z.of_nat (S n))); [done|lia].
    + assert (k <> i) by congruence. rewrite IH.
      replace (k + Z.of_nat (S n)) with (k + 1 + Z.of_nat n) by lia.
      destruct (Z.leb_spec (k + 1) i), (Z.leb_spec k i); simpl; done || lia.
Qed.

Lemma unmap_run l (i : nat) p g : (i < 10)%nat ->
  vmem_mgmt_unmap (VM_PS_TADDR (Z.of_nat i)) (st l p g) = Ret (tt, st (<[i := None]> l) p g).
Proof.
  intros Hi. unfold vmem_mgmt_unmap. rewrite unmap_loop_run.
  change (Z.to_nat VM_PS_MAPSPACE_SZ) with 10%nat.
  destruct (Z.leb_spec 0 (Z.of_nat i)), (Z.ltb_spec (Z.of_nat i) (0 + Z.of_nat 10)); try lia. simpl.
  rewrite Nat2Z.id. unfold set_ms. simpl. by rewrite list_fmap_insert.
Qed.

Lemma unmap_loop_wild n k v (s : vm P) : 0 <= k ->
  (exists i, k <= i < k + Z.of_nat n /\ v = VM_PS_TADDR i) \/ unmap_loop n k v s = Ret (tt, s).
Proof.
  revert k. induction n as [|n IH]; intros k Hk; simpl; [by right|].
  destruct (Z.eqb_spec (VM_PS_TADDR k) v) as [<-|]; [left; exists k; lia|].
  destruct (IH (k + 1)) as [(i & ? & ->)|E]; [lia| |by right]. left. exists i. lia.
Qed.

(** Unmapping whatever an uninitialised pointer holds. *)
Lemma unmap_wild l v p g :
  exists l', vmem_mgmt_unmap v (st l p g) = Ret (tt, st l' p g) /\ 
    (l' = l \/ exists i, (i < 10)%nat /\ l' = <[i := None]> l).
Proof.
  destruct (unmap_loop_wild (Z.to_nat VM_PS_MAPSPACE_SZ) 0 v (st l p g)) as [(i & Hi & ->)|E]; [lia| |].
  - change (Z.to_nat VM_PS_MAPSPACE_SZ) with 10%nat in Hi.
    replace i with (Z.of_nat (Z.to_nat i)) by lia.
    eexists. split; [apply unmap_run; lia|]. right. exists (Z.to_nat i). split; [lia|done].
  - exists l. auto.
Qed.

Lemma unmap_idle v p g : vmem_mgmt_unmap v (st idle p g) = Ret (tt, st idle p g).
Proof.
  destruct (unmap_wild idle v p g) as (l' & -> & [->|(i & Hi & ->)]); [done|].
  do 10 (destruct i as [|i]; [done|]). lia.
Qed.

Lemma slot_frame_run l (i : nat) a p g : a mod 4096 = 0 -> l !! i = Some (Some a) ->
  slot_frame (VM_PS_TADDR (Z.of_nat i)) (st l p g) = Some a.
Proof.
  intros Ha Hl. unfold slot_frame. rewrite TADDR_index, Z.eqb_refl.
  destruct (Z.leb_spec 0 (Z.of_nat i)); [|lia]. simpl.
  rewrite Nat2Z.id, list_lookup_fmap, Hl. simpl. by rewrite slot_present, slot_of_frame.
Qed.

Lemma pload_run l (i : nat) a k p g : a mod 4096 = 0 -> l !! i = Some (Some a) ->
  pload (VM_PS_TADDR (Z.of_nat i)) k (st l p g) = Ret (pw p (a + 8 * k), st l p g).
Proof. intros. unfold pload. by rewrite (slot_frame_run l i a). Qed.

Lemma pstore_run l (i : nat) a k v p g : a mod 4096 = 0 -> l !! i = Some (Some a) ->
  pstore (VM_PS_TADDR (Z.of_nat i)) k v (st l p g) = Ret (tt, st l (Phys (wr_word (a + 8 * k) v (pw p)) (pool p)) g).
Proof. intros. unfold pstore. by rewrite (slot_frame_run l i a). Qed.

Lemma pmemset0_run l (i : nat) a p g : a mod 4096 = 0 -> l !! i = Some (Some a) ->
  pmemset0 (VM_PS_TADDR (Z.of_nat i)) (st l p g) = Ret (tt, st l (Phys (zero_page a (pw p)) (pool p)) g).
Proof. intros. unfold pmemset0. by rewrite (slot_frame_run l i a). Qed.

(** *** The operations refine the specification *)

Lemma alloc_run l i p g : first_none l = Some i -> (i < 10)%nat ->
  vmem_mgmt_alloc (st l p g) =
  lift (f <- on_pool (palloc PAGE_SIZE_4K PAGE_SIZE_4K) ;;
        if f =? 0 then mfatal "out of physical memory for vmem_mgmt"
        else if negb (VM_OFFSET f PAGE_SIZE_4K =? 0) then
          mfatal "misaligned physical address for paging structure."
        else zero f ;;; mreturn f) (st l p g).
Proof.
  intros Hl Hi. unfold vmem_mgmt_alloc, lift at 1, lift, mseq, on_pool. simpl.
  change VM_PS_STRUCT_SZ with PAGE_SIZE_4K.
  destruct (palloc PAGE_SIZE_4K PAGE_SIZE_4K (pool p)) as [[f q]| | | |]; try done.
  unfold set_ph. simpl. destruct (f =? 0); [done|]. rewrite VM_OFFSET_spec.
  destruct (Z.eqb_spec (f mod 4096) 0) as [Hf|Hf]; simpl.
  - rewrite (map_run l i) by done. rewrite (pmemset0_run _ i f) by
      (done || apply list_lookup_insert_eq; eauto using lookup_lt_Some, first_none_lookup).
    rewrite unmap_run by done. rewrite list_insert_insert_eq, list_insert_id; [done|].
    by apply first_none_lookup.
  - rewrite map_misaligned by done. done.
Qed.

Lemma p_ensure_frame a u p x p' : p_ensure a u p = Ret (x, p') -> x = frame (pw p' a).
Proof.
  unfold p_ensure, mseq, rd, wr, mgets, mmodify, mreturn, mfatal, on_pool, zero.
  destruct (has (pw p a) PG_PRESENT); [intros; by simplify_eq/=|].
  destruct (palloc _ _ _) as [[f q]| | | |]; try done.
  destruct (f =? 0); [done|]. destruct (negb _); [done|]. intros. by simplify_eq/=.
Qed.

Lemma check_entry_alloc l i (j : nat) f k u fl p g :
  first_none l = Some i -> (i < 10)%nat -> f mod 4096 = 0 -> l !! j = Some (Some f) -> 
  has fl VM_SPLIT_ALLOC = true ->
  VM_CHECK_ENTRY (VM_PS_TADDR (Z.of_nat j)) k u fl (st l p g)
  = lift (p_ensure (f + 8 * k) u ;;; mreturn true) (st l p g).
Proof.
  intros Hl Hi Hf Hj Hfl. unfold VM_CHECK_ENTRY. rewrite Hfl.
  rewrite (mseq_run _ _ _ _ _ (pload_run l j f k p g Hf Hj)).
  unfold p_ensure, lift, mseq, rd, wr, zero, on_pool, mfatal, mgets, mmodify, mreturn. simpl.
  destruct (has (pw p (f + 8 * k)) PG_PRESENT); simpl.
  - rewrite (pload_run l j f) by done. rewrite (pstore_run l j f) by done. done.
  - rewrite (alloc_run l i) by done.
    unfold lift, mseq, on_pool, mfatal, zero, mmodify, mreturn. simpl.
    destruct (palloc PAGE_SIZE_4K PAGE_SIZE_4K (pool p)) as [[a q]| | | |]; try done.
    destruct (a =? 0); [done|]. destruct (negb _); [done|]. unfold set_ph. simpl.
    rewrite (pstore_run l j f) by done. rewrite (pload_run l j f) by done.
    by rewrite (pstore_run l j f).
Qed.

Lemma check_entry_read l (j : nat) f k u fl p g :
  f mod 4096 = 0 -> l !! j = Some (Some f) -> has fl VM_SPLIT_ALLOC = false ->
  VM_CHECK_ENTRY (VM_PS_TADDR (Z.of_nat j)) k u fl (st l p g)
  = Ret (has (pw p (f + 8 * k)) PG_PRESENT, st l p g).
Proof.
  intros Hf Hj Hfl. unfold VM_CHECK_ENTRY. rewrite Hfl.
  rewrite (mseq_run _ _ _ _ _ (pload_run l j f k p g Hf Hj)).
  by destruct (has (pw p (f + 8 * k)) PG_PRESENT).
Qed.

Lemma unmap_if v l p g :
  (if v =? 0 then mreturn tt else vmem_mgmt_unmap v) (st l p g) = vmem_mgmt_unmap v (st l p g).
Proof.
  destruct (Z.eqb_spec v 0) as [->|]; [|done].
  destruct (unmap_loop_wild (Z.to_nat VM_PS_MAPSPACE_SZ) 0 0 (st l p g)) as [(i & Hi & E)|E]; [lia| |].
  - by destruct (TADDR_pos i ltac:(lia)).
  - done.
Qed.

Ltac slots :=
  first [done | apply frame_aligned | lia | reflexivity ].
Ltac map_step i := rewrite (map_run _ i) by slots.
Ltac lstep L := etrans; [eapply mseq_run, L; slots|].
Ltac unmap_step i := rewrite (unmap_run _ i) by slots.

(** The error labels give every slot back, whatever [pd] and [pt] held. *)
Lemma split_error_2 r o a b p g :
  split_error r (VM_PS_TADDR 0) (VM_PS_TADDR 1) o (st (Some a :: Some b :: replicate 8 None) p g)
  = Ret ((r, o), st idle p g).
Proof.
  unfold split_error, mseq. rewrite !unmap_if.
  change (VM_PS_TADDR 0) with (VM_PS_TADDR (Z.of_nat 0)). unmap_step 0%nat. rewrite unmap_if.
  change (VM_PS_TADDR 1) with (VM_PS_TADDR (Z.of_nat 1)). unmap_step 1%nat.
  change (<[1%nat:=None]> _) with idle. rewrite unmap_if, unmap_idle, unmap_if, unmap_idle. done.
Qed.

Lemma split_error_1 r o a p g :
  split_error r (VM_PS_TADDR 0) 0 o (st (Some a :: replicate 9 None) p g) = Ret ((r, o), st idle p g).
Proof.
  unfold split_error, mseq. rewrite !unmap_if.
  change (VM_PS_TADDR 0) with (VM_PS_TADDR (Z.of_nat 0)). unmap_step 0%nat.
  change (<[0%nat:=None]> _) with idle. do 3 (rewrite unmap_if, unmap_idle). done.
Qed.

Lemma split_error_3 r o a b c p g : o_pd o = VM_PS_TADDR 2 ->
  split_error r (VM_PS_TADDR 0) (VM_PS_TADDR 1) o (st (Some a :: Some b :: Some c :: replicate 7 None) p g)
  = Ret ((r, o), st idle p g).
Proof.
  intros Ho. unfold split_error, mseq. rewrite !unmap_if.
  change (VM_PS_TADDR 0) with (VM_PS_TADDR (Z.of_nat 0)). unmap_step 0%nat. rewrite unmap_if.
  change (VM_PS_TADDR 1) with (VM_PS_TADDR (Z.of_nat 1)). unmap_step 1%nat. rewrite unmap_if, Ho.
  change (VM_PS_TADDR 2) with (VM_PS_TADDR (Z.of_nat 2)). unmap_step 2%nat.
  change (<[2%nat:=None]> _) with idle. rewrite unmap_if, unmap_idle. done.
Qed.

Lemma split_done_run k o l p g : 
  split_done (VM_PS_TADDR 0) (VM_PS_TADDR 1) k o (st l p g)
  = Ret ((SplitSuccess, set_ipd k o), st (<[1%nat := None]> (<[0%nat := None]> l)) p g).
Proof.
  unfold split_done, mseq.
  change (VM_PS_TADDR 0) with (VM_PS_TADDR (Z.of_nat 0)). unmap_step 0%nat.
  change (VM_PS_TADDR 1) with (VM_PS_TADDR (Z.of_nat 1)). unmap_step 1%nat. done.
Qed.

(** Rules to run both sides of a refinement step by step. *)
Lemma mseq_cong {S A B} (c c' : M S A) (k : A -> M S B) s : c s = c' s -> mseq c k s = mseq c' k s.
Proof. unfold mseq. by intros ->. Qed.

Lemma lift_assoc {A B C} (c : M (phys P) A) (d : A -> M (phys P) B) (k : B -> M (vm P) C) s :
  mseq (lift (mseq c d)) k s = mseq (lift c) (fun a => mseq (lift (d a)) k) s.
Proof. unfold mseq, lift. by destruct (c (ph s)) as [[]| | | |]. Qed.

Lemma lift_seq {A B} (c : M (phys P) A) (d : A -> M (phys P) B) s :
  lift (mseq c d) s = mseq (lift c) (fun a => lift (d a)) s.
Proof. unfold mseq, lift. by destruct (c (ph s)) as [[]| | | |]. Qed.

Lemma lift_ext {A B} (c : M (phys P) A) (k k' : A -> M (vm P) B) (l l' : list Z) p g :
  (forall a p', c p = Ret (a, p') -> k a (Vm l p' g) = k' a (Vm l' p' g)) ->
  mseq (lift c) k (Vm l p g) = mseq (lift c) k' (Vm l' p g).
Proof. intros Hk. unfold mseq, lift. simpl. destruct (c p) as [[]| | | |]; try done. by apply Hk. Qed.

Lemma lift_ret {A B} (a : A) (k : A -> M (vm P) B) (l : list Z) p g :
  mseq (lift (mreturn a)) k (Vm l p g) = k a (Vm l p g).
Proof. done. Qed.

Lemma lift_rd {B} a (k : Z -> M (vm P) B) (l : list Z) p g :
  mseq (lift (rd a)) k (Vm l p g) = k (pw p a) (Vm l p g).
Proof. done. Qed.

Lemma set_ms_seq {B} (k : unit -> M (vm P) B) (l l' : list Z) p g :
  mseq (mmodify (set_ms l')) k (Vm l p g) = k tt (Vm l' p g).
Proof. done. Qed.

Lemma ret_seq {S A B} (a : A) (k : A -> M S B) s : mseq (mreturn a) k s = k a s.
Proof. done. Qed.

(** The directory of an address, with the tables above it created. *)
Definition p_dir (spc v u : Z) : M (phys P) Z :=
  f3 <- p_ensure (spc + 8 * i4 v) u ;; p_ensure (f3 + 8 * i3 v) u.

Lemma split_alloc_run (large : bool) o spc v u p g : spc mod 4096 = 0 ->
  vmem_mgmt_split true o spc v (Z.lor VM_SPLIT_ALLOC (if large then VM_SPLIT_LARGE else 0)) u (st idle p g)
  = (f2 <- lift (p_dir spc v u) ;;
     e2 <- lift (rd (f2 + 8 * i2 v)) ;;
     let o2 := set_pd (VM_PS_TADDR 2) o in
     let l2 := None :: None :: Some f2 :: replicate 7 None in
     if large then
       if has e2 PG_PRESENT && negb (has e2 PG_LARGE) then mreturn (LargeExpected, o2)
       else mmodify (set_ms (cell <$> l2)) ;;; mreturn (SplitSuccess, set_ipd (i2 v) o2)
     else if has e2 PG_PRESENT && has e2 PG_LARGE then mreturn (SmallExpected, o2)
     else
       f1 <- lift (p_ensure (f2 + 8 * i2 v) u) ;;
       mmodify (set_ms (cell <$> <[3%nat := Some f1]> l2)) ;;;
       mreturn (SplitSuccess, set_ipd (i2 v) (set_ipt (i1 v) (set_pt (VM_PS_TADDR 3) o2)))) (st idle p g).
Proof.
  intros Hspc. unfold vmem_mgmt_split. simpl negb. cbv iota zeta.
  set (fl := Z.lor VM_SPLIT_ALLOC _). assert (has fl VM_SPLIT_ALLOC = true) as Hfl by by destruct large.
  assert (has fl VM_SPLIT_LARGE = large) as Hla by by destruct large.
  rewrite Hla. clearbody fl. clear Hla. unfold p_dir. fold (i4 v) (i3 v) (i2 v) (i1 v).
  lstep (map_run idle 0).
  etrans; [eapply mseq_cong, (check_entry_alloc _ 1 0 spc); slots|].
  rewrite !lift_assoc. apply lift_ext. intros f3 p3 E3.
  rewrite lift_ret. simpl negb. cbv iota.
  lstep (pload_run (<[0%nat:=Some spc]> idle) 0 spc).
  rewrite <-(p_ensure_frame _ _ _ _ _ E3 : _ = Z.land _ _).
  assert (f3 mod 4096 = 0) as Hf3 by (rewrite (p_ensure_frame _ _ _ _ _ E3); apply frame_aligned).
  lstep (map_run (<[0%nat:=Some spc]> idle) 1).
  etrans; [eapply mseq_cong, (check_entry_alloc _ 2 1 f3); slots|].
  rewrite !lift_assoc. apply lift_ext. intros f2 p2 E2.
  rewrite lift_ret. simpl negb. cbv iota.
  lstep (pload_run (<[1%nat:=Some f3]> (<[0%nat:=Some spc]> idle)) 1 f3).
  rewrite <-(p_ensure_frame _ _ _ _ _ E2 : _ = Z.land _ _).
  assert (f2 mod 4096 = 0) as Hf2 by (rewrite (p_ensure_frame _ _ _ _ _ E2); apply frame_aligned).
  set (l1 := <[1%nat:=Some f3]> (<[0%nat:=Some spc]> idle)).
  lstep (map_run l1 2). lstep (pload_run (<[2%nat:=Some f2]> l1) 2 f2).
  cbv zeta. rewrite lift_rd.
  destruct large.
  { destruct (_ && _); [by apply split_error_3|]. etrans; [apply split_done_run|]. done. }
  destruct (_ && _); [by apply split_error_3|].
  etrans; [eapply mseq_cong, (check_entry_alloc _ 3 2 f2); slots|].
  rewrite lift_assoc. apply lift_ext. intros f1 p1 E1. rewrite lift_ret. simpl negb. cbv iota.
  lstep (pload_run (<[2%nat:=Some f2]> l1) 2 f2).
  rewrite <-(p_ensure_frame _ _ _ _ _ E1 : _ = Z.land _ _).
  assert (f1 mod 4096 = 0) as Hf1 by (rewrite (p_ensure_frame _ _ _ _ _ E1); apply frame_aligned).
  lstep (map_run (<[2%nat:=Some f2]> l1) 3). etrans; [apply split_done_run|]. done.
Qed.

Lemma set_run l (i : nat) f k pa fl p g : f mod 4096 = 0 -> l !! i = Some (Some f) ->
  VM_SET_IFN_PRESENT pa fl (VM_PS_TADDR (Z.of_nat i)) k (st l p g) = lift (p_set (f + 8 * k) pa fl) (st l p g).
Proof.
  intros Hf Hl. unfold VM_SET_IFN_PRESENT, p_set. rewrite lift_seq, lift_rd.
  lstep (pload_run l i f). destruct (has _ _); [done|].
  lstep (pstore_run l i f). done.
Qed.

Abbreviation on_pd f2 := (None :: None :: Some f2 :: replicate 7 None).

(** Releasing the directory after the table, or after a table pointer that
    was never set. *)
Lemma close_pd {A} (r : A) f2 pt p g :
  ((if pt =? 0 then mreturn tt else vmem_mgmt_unmap pt) ;;;
   (if VM_PS_TADDR 2 =? 0 then mreturn tt else vmem_mgmt_unmap (VM_PS_TADDR 2)) ;;;
   mreturn r) (st (on_pd f2) p g) = Ret (r, st idle p g).
Proof.
  unfold mseq. rewrite unmap_if.
  destruct (unmap_wild (on_pd f2) pt p g) as (l' & -> & Hl').
  rewrite unmap_if. change (VM_PS_TADDR 2) with (VM_PS_TADDR (Z.of_nat 2)). unmap_step 2%nat.
  destruct Hl' as [->|(i & Hi & ->)]; [done|].
  do 10 (destruct i as [|i]; [done|]). lia.
Qed.

Lemma close_pt {A} (r : A) f2 f1 p g :
  ((if VM_PS_TADDR 3 =? 0 then mreturn tt else vmem_mgmt_unmap (VM_PS_TADDR 3)) ;;;
   (if VM_PS_TADDR 2 =? 0 then mreturn tt else vmem_mgmt_unmap (VM_PS_TADDR 2)) ;;;
   mreturn r) (st (<[3%nat := Some f1]> (on_pd f2)) p g) = Ret (r, st idle p g).
Proof.
  unfold mseq. rewrite unmap_if.
  change (VM_PS_TADDR 3) with (VM_PS_TADDR (Z.of_nat 3)). unmap_step 3%nat. rewrite unmap_if.
  change (VM_PS_TADDR 2) with (VM_PS_TADDR (Z.of_nat 2)). unmap_step 2%nat. done.
Qed.

Lemma lift_close {A} (c : M (phys P) A) (k : A -> M (vm P) A) (l l' : list Z) p g :
  (forall a p', k a (Vm l p' g) = Ret (a, Vm l' p' g)) -> mseq (lift c) k (Vm l p g) = lift c (Vm l' p g).
Proof. intros Hk. unfold mseq, lift. simpl. destruct (c p) as [[]| | | |]; try done. apply Hk. Qed.

(** [vmem_map] with all slots of the mapspace free is map on physical
    memory, and leaves all slots free. *)
Lemma vmem_map_run o spc pa v fl p g : spc mod 4096 = 0 ->
  vmem_map o spc pa v fl (st idle p g) = lift (p_map spc pa v fl) (st idle p g).
Proof.
  intros Hspc. unfold vmem_map, p_map.
  etrans; [eapply mseq_cong, split_alloc_run; done|].
  unfold p_dir. rewrite mseq_assoc, lift_assoc, lift_seq. apply lift_ext. intros f3 p3 E3.
  rewrite lift_seq. apply lift_ext. intros f2 p2 E2.
  rewrite mseq_assoc, lift_seq, !lift_rd. cbv zeta.
  assert (f2 mod 4096 = 0) as Hf2 by (rewrite (p_ensure_frame _ _ _ _ _ E2); apply frame_aligned).
  destruct (has fl PG_LARGE) eqn:Hfl.
  - destruct (_ && _); [done|]. rewrite mseq_assoc, set_ms_seq, ret_seq. simpl fst. simpl snd. cbv iota.
    change (o_pd _) with (VM_PS_TADDR 2). change (o_ipd _) with (i2 v).
    etrans; [eapply mseq_cong, (set_run _ 2 f2); slots|].
    apply lift_close. intros r p'. apply close_pd.
  - destruct (_ && _); [done|]. rewrite mseq_assoc, lift_seq. apply lift_ext. intros f1 p1 E1.
    rewrite mseq_assoc, set_ms_seq, ret_seq. simpl fst. simpl snd. cbv iota.
    change (o_pt _) with (VM_PS_TADDR 3). change (o_pd _) with (VM_PS_TADDR 2). change (o_ipt _) with (i1 v).
    assert (f1 mod 4096 = 0) as Hf1 by (rewrite (p_ensure_frame _ _ _ _ _ E1); apply frame_aligned).
    destruct (Z.eqb_spec (VM_PS_TADDR 3) 0) as [E|_]; [done|].
    etrans; [eapply mseq_cong, (set_run _ 3 f1); slots|].
    apply lift_close. intros r p'. exact (close_pt r f2 f1 p' g).
Qed.

(** A split that must not allocate follows the walk. *)
Definition read_split (large : bool) (o : outs) (w : Z -> Z) (spc v : Z)
  : vmem_split_res_t * outs * list (option Z) :=
  let o2 := set_pd (VM_PS_TADDR 2) o in
  let e4 := w (spc + 8 * i4 v) in
  if negb (has e4 PG_PRESENT) then (TableNotMapped, o, idle) else
  let e3 := w (frame e4 + 8 * i3 v) in
  if negb (has e3 PG_PRESENT) then (TableNotMapped, o, idle) else
  let e2 := w (frame e3 + 8 * i2 v) in
  if large then
    if has e2 PG_PRESENT && negb (has e2 PG_LARGE) then (LargeExpected, o2, idle)
    else (SplitSuccess, set_ipd (i2 v) o2, on_pd (frame e3))
  else if has e2 PG_PRESENT && has e2 PG_LARGE then (SmallExpected, o2, idle)
  else if negb (has e2 PG_PRESENT) then (TableNotMapped, o2, idle)
  else (SplitSuccess, set_ipd (i2 v) (set_ipt (i1 v) (set_pt (VM_PS_TADDR 3) o2)),
        <[3%nat := Some (frame e2)]> (on_pd (frame e3))).

Lemma split_read_run (large : bool) o spc v u p g : spc mod 4096 = 0 ->
  vmem_mgmt_split true o spc v (if large then VM_SPLIT_LARGE else 0) u (st idle p g)
  = let '(r, o', l) := read_split large o (pw p) spc v in Ret ((r, o'), st l p g).
Proof.
  intros Hspc. unfold vmem_mgmt_split, read_split. simpl negb. cbv iota zeta.
  set (fl := if large then _ else _). assert (has fl VM_SPLIT_ALLOC = false) as Hfl by by destruct large.
  assert (has fl VM_SPLIT_LARGE = large) as Hla by by destruct large.
  rewrite Hla. clearbody fl. clear Hla. fold (i4 v) (i3 v) (i2 v) (i1 v).
  lstep (map_run idle 0). set (l0 := <[0%nat:=Some spc]> idle).
  lstep (check_entry_read l0 0 spc). set (e4 := pw p (spc + 8 * i4 v)).
  destruct (has e4 PG_PRESENT); [|apply split_error_1]. simpl negb. cbv iota.
  lstep (pload_run l0 0 spc). fold (frame e4).
  lstep (map_run l0 1). set (l1 := <[1%nat:=Some (frame e4)]> l0).
  lstep (check_entry_read l1 1 (frame e4)). set (e3 := pw p (frame e4 + 8 * i3 v)).
  destruct (has e3 PG_PRESENT); [|apply split_error_2]. simpl negb. cbv iota.
  lstep (pload_run l1 1 (frame e4)). fold (frame e3).
  lstep (map_run l1 2). set (l2 := <[2%nat:=Some (frame e3)]> l1).
  lstep (pload_run l2 2 (frame e3)). set (e2 := pw p (frame e3 + 8 * i2 v)).
  destruct large.
  { destruct (_ && _); [by apply split_error_3|]. etrans; [apply split_done_run|]. done. }
  destruct (has e2 PG_PRESENT && has e2 PG_LARGE); [by apply split_error_3|].
  lstep (check_entry_read l2 2 (frame e3)). fold e2.
  destruct (has e2 PG_PRESENT); [|by apply split_error_3]. simpl negb. cbv iota.
  lstep (pload_run l2 2 (frame e3)). fold e2. fold (frame e2).
  lstep (map_run l2 3). etrans; [apply split_done_run|]. done.
Qed.

(** Lookup and removal on physical memory. *)
Definition p_find (unmap : bool) (spc v : Z) : M (phys P) Z :=
  w <- mgets pw ;;
  match tables_entry w spc v with
  | None => mreturn 0
  | Some (_, a) =>
    e <- rd a ;;
    (if unmap then wr a 0 else mreturn tt) ;;;
    mreturn (frame e)
  end.

Lemma res_unmap_run (un : bool) l (i : nat) f k p g : f mod 4096 = 0 -> l !! i = Some (Some f) ->
  VM_RES_UNMAP un (VM_PS_TADDR (Z.of_nat i)) k (st l p g) =
  lift (e <- rd (f + 8 * k) ;; (if un then wr (f + 8 * k) 0 else mreturn tt) ;;; mreturn (frame e)) (st l p g).
Proof.
  intros Hf Hl. unfold VM_RES_UNMAP. lstep (pload_run l i f). rewrite lift_seq, lift_rd.
  destruct un; [|done]. lstep (pstore_run l i f). done.
Qed.

Lemma find_entry_large un o f k p g : f mod 4096 = 0 ->
  o_pd o = VM_PS_TADDR 2 -> o_ipd o = k -> has (pw p (f + 8 * k)) PG_LARGE = true ->
  find_unmap_entry un o (st (on_pd f) p g)
  = lift (e <- rd (f + 8 * k) ;; (if un then wr (f + 8 * k) 0 else mreturn tt) ;;; mreturn (frame e)) (st idle p g).
Proof.
  intros Hf Hpd Hk HL. unfold find_unmap_entry. rewrite Hpd, Hk.
  lstep (pload_run (on_pd f) 2 f). rewrite HL.
  etrans; [eapply mseq_cong, (res_unmap_run un (on_pd f) 2 f); slots|].
  apply lift_close. intros r p'. lstep (unmap_run (on_pd f) 2). done.
Qed.

Lemma find_entry_small un o f f1 k k1 p g : f mod 4096 = 0 -> f1 mod 4096 = 0 ->
  o_pd o = VM_PS_TADDR 2 -> o_ipd o = k -> o_pt o = VM_PS_TADDR 3 -> o_ipt o = k1 ->
  has (pw p (f + 8 * k)) PG_LARGE = false ->
  find_unmap_entry un o (st (<[3%nat := Some f1]> (on_pd f)) p g)
  = lift (e <- rd (f1 + 8 * k1) ;; (if un then wr (f1 + 8 * k1) 0 else mreturn tt) ;;; mreturn (frame e)) (st idle p g).
Proof.
  intros Hf Hf1 Hpd Hk Hpt Hk1 HL. unfold find_unmap_entry. rewrite Hpd, Hk, Hpt, Hk1.
  set (l := <[3%nat := Some f1]> (on_pd f)).
  lstep (pload_run l 2 f). rewrite HL.
  destruct (Z.eqb_spec (VM_PS_TADDR 3) 0) as [E|_]; [done|].
  rewrite mseq_assoc. etrans; [eapply mseq_cong, (res_unmap_run un l 3 f1); slots|].
  apply lift_close. intros r p'. rewrite mseq_assoc. lstep (unmap_run l 3).
  rewrite ret_seq. lstep (unmap_run (<[3%nat := None]> l) 2). done.
Qed.

(** Lookup and removal with all slots free are lookup and removal on physical
    memory, and leave all slots free. *)
Lemma vmem_find_unmap_run un o spc v p g : spc mod 4096 = 0 ->
  vmem_find_unmap o spc v un (st idle p g) = lift (p_find un spc v) (st idle p g).
Proof.
  intros Hspc. unfold vmem_find_unmap, p_find, mseq at 1.
  rewrite (split_read_run false o spc v 0 p g Hspc : vmem_mgmt_split true o spc v 0 0 _ = _).
  rewrite lift_seq. change (mseq (lift (mgets pw)) ?k (st idle p g)) with (k (pw p) (st idle p g)). cbv beta.
  unfold read_split, tables_entry. cbv zeta.
  set (e4 := pw p (spc + 8 * i4 v)). destruct (has e4 PG_PRESENT) eqn:H4; [|done].
  set (e3 := pw p (frame e4 + 8 * i3 v)). destruct (has e3 PG_PRESENT) eqn:H3; [|done].
  set (e2 := pw p (frame e3 + 8 * i2 v)). simpl negb. cbv iota.
  destruct (has e2 PG_PRESENT) eqn:H2, (has e2 PG_LARGE) eqn:HL; try done; simpl andb; simpl negb; cbv iota.
  - unfold mseq at 1, fst at 1, snd at 1. cbv beta iota.
    rewrite (split_read_run true _ spc v 0 p g Hspc : vmem_mgmt_split true _ spc v VM_SPLIT_LARGE 0 _ = _).
    unfold read_split. cbv zeta. fold e4. rewrite H4. fold e3. rewrite H3. fold e2. rewrite H2, HL.
    simpl negb. cbv iota. simpl andb. cbv iota. apply find_entry_large; slots.
  - simpl fst. simpl snd. cbv iota. apply (find_entry_small _ _ _ _ (i2 v)); slots.
Qed.
End mapspace.

(** ** Page trees *)

(** What the pager relies on of the frame allocator: it returns or ends in
    [fatal], a frame it returns was available and is not any more, and
    nothing else changes. *)
Class PagePoolLaws (P : Type) `{PagePool P} := {
  pool_ok : P -> Prop;
  avail : P -> Z -> Prop;
  avail_aligned : forall q a, pool_ok q -> avail q a -> a mod 4096 = 0;
  palloc_law : forall q, pool_ok q -> wpf (palloc PAGE_SIZE_4K PAGE_SIZE_4K) (fun a q' =>
    pool_ok q' /\ avail q a /\ ~ avail q' a /\ (forall b, b <> a -> avail q' b <-> avail q b)) q;
}.

Section trees.
Context {P : Type} `{PagePool P} `{!PagePoolLaws P}.
Implicit Types (p : phys P) (w : Z -> Z) (own : gmap Z (list Z)) (π : list Z).

(** [own] gives every table of a space its path, the indices that lead to it:
    a table is reached on one path only, and no table is available to the
    allocator. *)
Record tree (p : phys P) (spc : Z) own : Prop := {
  tr_pool : pool_ok (pool p);
  tr_root : own !! spc = Some [];
  tr_aligned : forall f π, own !! f = Some π -> f mod 4096 = 0;
  tr_child : forall f π i, own !! f = Some π -> (length π <= 2)%nat -> 0 <= i < 512 ->
    has (pw p (f + 8 * i)) PG_PRESENT = true ->
    (length π = 2%nat -> has (pw p (f + 8 * i)) PG_LARGE = false) ->
    own !! frame (pw p (f + 8 * i)) = Some (π ++ [i]);
  tr_avail : forall f, avail (pool p) f -> own !! f = None;
}.

Lemma index_range v k : 0 <= Z.land (Z.shiftr v k) 0x1FF < 512.
Proof. change 0x1FF with (Z.ones 9). rewrite Z.land_ones by lia. apply Z.mod_pos_bound. lia. Qed.

Lemma i4_range v : 0 <= i4 v < 512.
Proof. apply index_range. Qed.

Lemma i3_range v : 0 <= i3 v < 512.
Proof. apply index_range. Qed.

Lemma i2_range v : 0 <= i2 v < 512.
Proof. apply index_range. Qed.

Lemma same_entry own f f' k k' :
  (forall f π, own !! f = Some π -> f mod 4096 = 0) ->
  is_Some (own !! f) -> is_Some (own !! f') -> 0 <= k < 512 -> 0 <= k' < 512 ->
  f + 8 * k = f' + 8 * k' -> f = f' /\ k = k'.
Proof. intros Ha [π E] [π' E'] ? ? ?. apply Ha in E, E'. dlia. Qed.

Lemma zero_page_out w a f k own :
  (forall f π, own !! f = Some π -> f mod 4096 = 0) ->
  own !! a = None -> a mod 4096 = 0 -> is_Some (own !! f) -> 0 <= k < 512 ->
  zero_page a w (f + 8 * k) = w (f + 8 * k).
Proof.
  intros Ha Hn Hm [π E] Hk. unfold zero_page. change PAGE_SIZE_4K with 4096.
  assert (f <> a) by congruence. apply Ha in E.
  destruct (Z.leb_spec a (f + 8 * k)), (Z.ltb_spec (f + 8 * k) (a + 4096)); try done. exfalso. dlia.
Qed.

Lemma zero_page_in w a k : 0 <= k < 512 -> zero_page a w (a + 8 * k) = 0.
Proof.
  intros. unfold zero_page. change PAGE_SIZE_4K with 4096.
  destruct (Z.leb_spec a (a + 8 * k)), (Z.ltb_spec (a + 8 * k) (a + 4096)); done || lia.
Qed.

(** The tables on the walk of an address. *)
Lemma tree_path p spc own v : tree p spc own ->
  let e4 := pw p (spc + 8 * i4 v) in
  let e3 := pw p (frame e4 + 8 * i3 v) in
  let e2 := pw p (frame e3 + 8 * i2 v) in
  has e4 PG_PRESENT = true -> own !! frame e4 = Some [i4 v] /\
  (has e3 PG_PRESENT = true -> own !! frame e3 = Some [i4 v; i3 v] /\
   (has e2 PG_PRESENT = true -> has e2 PG_LARGE = false -> own !! frame e2 = Some [i4 v; i3 v; i2 v])).
Proof.
  intros Ht e4 e3 e2 H4. pose proof (tr_child _ _ _ Ht) as Hc.
  assert (own !! frame e4 = Some [i4 v]) as O4.
  { apply (Hc spc []); simpl; [apply Ht|lia|apply index_range|done|done]. }
  split; [done|]. intros H3.
  assert (own !! frame e3 = Some [i4 v; i3 v]) as O3.
  { apply (Hc _ _ _ O4); simpl; [lia|apply index_range|done|done]. }
  split; [done|]. intros H2 HL. apply (Hc _ _ _ O3); simpl; [lia|apply index_range|done|done].
Qed.

(** *** Changing flags *)

Definition same_bits (w w' : Z -> Z) : Prop := forall y,
  has (w' y) PG_PRESENT = has (w y) PG_PRESENT /\ has (w' y) PG_LARGE = has (w y) PG_LARGE /\
  frame (w' y) = frame (w y).

Lemma same_bits_walk w w' spc v : same_bits w w' -> entry_frame w' (tables_entry w' spc v) = entry_frame w (tables_entry w spc v).
Proof.
  intros Hb. unfold tables_entry. cbv zeta.
  destruct (Hb (spc + 8 * i4 v)) as (-> & _ & ->). destruct (has _ PG_PRESENT); [|done]. simpl negb. cbv iota.
  destruct (Hb (frame (w (spc + 8 * i4 v)) + 8 * i3 v)) as (-> & _ & ->).
  destruct (has _ PG_PRESENT); [|done]. simpl negb. cbv iota.
  set (a2 := _ + 8 * i2 v). destruct (Hb a2) as (-> & -> & E).
  destruct (has _ PG_PRESENT); [|done]. destruct (has _ PG_LARGE); simpl; [done|].
  rewrite E. apply Hb.
Qed.

Lemma same_bits_tree p w' spc own : tree p spc own -> same_bits (pw p) w' -> tree (Phys w' (pool p)) spc own.
Proof.
  intros [] Hb. split; simpl; try done. intros f π i Hf Hlen Hi HP HL.
  destruct (Hb (f + 8 * i)) as (E1 & E2 & E3). rewrite E3. rewrite E1 in HP. rewrite E2 in HL. auto.
Qed.

Lemma frame_lor_low e u : 0 <= u < 4096 -> frame (Z.lor e u) = frame e.
Proof.
  intros. unfold frame. rewrite Z.land_lor_distr_l. change (Z.land u VM_ENTRY_FLAG_MASK) with (frame u).
  rewrite (frame_spec u), Z.div_small by lia. apply Z.lor_0_r.
Qed.

Lemma flags_same w x u : has (w x) PG_PRESENT = true -> 0 <= u < 4096 -> has u PG_LARGE = false ->
  same_bits w (wr_word x (Z.lor (w x) u) w).
Proof.
  intros HP Hu HL y. unfold wr_word. destruct (Z.eqb_spec y x) as [->|]; [|done].
  rewrite !has_lor, HP, HL, orb_false_r, frame_lor_low by done. done.
Qed.

(** *** Linking a new table *)

Definition link (w : Z -> Z) (x a : Z) : Z -> Z :=
  wr_word x (Z.lor (Z.lor a PG_PRESENT) PG_WRITABLE) (zero_page a w).

Lemma link_entry w x a : a mod 4096 = 0 ->
  has (link w x a x) PG_PRESENT = true /\ has (link w x a x) PG_LARGE = false /\ frame (link w x a x) = a.
Proof.
  intros Ha. unfold link, wr_word. rewrite Z.eqb_refl, <-Z.lor_assoc, frame_lor by (done || lia).
  split; [|split; [|done]].
  - rewrite has_lor. apply orb_true_iff. by right.
  - rewrite has_lor. apply orb_false_iff. split; [|done].
    replace a with (frame a) by (rewrite frame_spec; dlia). by apply has_frame.
Qed.

Section linking.
Context (p : phys P) (spc : Z) (own : gmap Z (list Z)) (f k a : Z) (π : list Z) (q : P).
Context (Ht : tree p spc own) (Hf : own !! f = Some π) (Hlen : (length π <= 2)%nat) (Hk : 0 <= k < 512).
Context (Habs : has (pw p (f + 8 * k)) PG_PRESENT = false).
Context (Ha : own !! a = None) (Ham : a mod 4096 = 0).

Local Abbreviation x := (f + 8 * k).
Local Abbreviation w' := (link (pw p) x a).

Lemma link_other f' k' : is_Some (own !! f') -> 0 <= k' < 512 -> (f', k') <> (f, k) ->
  w' (f' + 8 * k') = pw p (f' + 8 * k').
Proof.
  intros Hf' Hk' Hne. unfold link, wr_word. destruct (Z.eqb_spec (f' + 8 * k') x) as [E|_].
  - destruct Hne. apply (same_entry own) in E as [-> ->]; eauto using tr_aligned.
  - eapply zero_page_out; eauto using tr_aligned.
Qed.

Lemma link_new k' : 0 <= k' < 512 -> w' (a + 8 * k') = 0.
Proof.
  intros Hk'. unfold link, wr_word. destruct (Z.eqb_spec (a + 8 * k') x) as [E|_].
  - exfalso. assert (a <> f) by congruence. apply (tr_aligned _ _ _ Ht) in Hf. dlia.
  - by apply zero_page_in.
Qed.

Lemma link_tree : pool_ok q -> (forall b, avail q b -> avail (pool p) b /\ b <> a) ->
  tree (Phys w' q) spc (<[a := π ++ [k]]> own).
Proof.
  intros Hq Hav. destruct (link_entry (pw p) x a Ham) as (EP & EL & EF).
  split; simpl; [done| | | |].
  - rewrite lookup_insert_ne; [apply Ht|]. intros <-. pose proof (tr_root _ _ _ Ht). congruence.
  - intros f' π' [[<- _]|[_ Hf']]%lookup_insert_Some; [done|]. eapply tr_aligned; eauto.
  - intros f' π' i [[<- _]|[Hne Hf']]%lookup_insert_Some Hl Hi HP HL.
    { rewrite link_new in HP by done. done. }
    destruct (decide ((f', i) = (f, k))) as [E|E].
    + simplify_eq. rewrite EF, lookup_insert_eq. done.
    + rewrite link_other in * by eauto. rewrite lookup_insert_ne; [by eapply tr_child|].
      intros E'. pose proof (tr_child _ _ _ Ht f' π' i Hf' Hl Hi HP HL). congruence.
  - intros b Hb. apply Hav in Hb as [Hb Hne]. rewrite lookup_insert_ne by done. by eapply tr_avail.
Qed.

Lemma link_at f' k' π' : own !! f' = Some π' -> 0 <= k' < 512 ->
  w' (f' + 8 * k') = pw p (f' + 8 * k') \/
  (f' = f /\ k' = k /\ π' = π /\ has (pw p (f' + 8 * k')) PG_PRESENT = false /\
   has (w' (f' + 8 * k')) PG_PRESENT = true /\ has (w' (f' + 8 * k')) PG_LARGE = false /\
   frame (w' (f' + 8 * k')) = a).
Proof.
  intros Hf' Hk'. destruct (decide ((f', k') = (f, k))) as [E|E]; [right|left; apply link_other; eauto].
  simplify_eq. destruct (link_entry (pw p) x a Ham) as (? & ? & ?). done.
Qed.

Lemma link_walk v : entry_frame w' (tables_entry w' spc v) = entry_frame (pw p) (tables_entry (pw p) spc v).
Proof.
  unfold tables_entry. cbv zeta. pose proof (tree_path p spc own v Ht) as Hp. simpl in Hp.
  set (e4 := pw p (spc + 8 * i4 v)) in *.
  destruct (link_at spc (i4 v) [] (tr_root _ _ _ Ht) (index_range _ _))
    as [E4|(_ & _ & _ & N4 & P4 & _ & F4)]; cycle 1.
  { fold e4 in N4. rewrite N4, P4, F4, link_new by apply index_range. done. }
  rewrite E4. fold e4. destruct (has e4 PG_PRESENT); [|done]. destruct Hp as [O4 Hp]; [done|].
  simpl negb. cbv iota. set (e3 := pw p (frame e4 + 8 * i3 v)) in *.
  destruct (link_at _ (i3 v) _ O4 (index_range _ _)) as [E3|(_ & _ & _ & N3 & P3 & _ & F3)]; cycle 1.
  { fold e3 in N3. rewrite N3, P3, F3, link_new by apply index_range. done. }
  rewrite E3. fold e3. destruct (has e3 PG_PRESENT); [|done]. destruct Hp as [O3 Hp]; [done|].
  simpl negb. cbv iota. set (e2 := pw p (frame e3 + 8 * i2 v)) in *.
  destruct (link_at _ (i2 v) _ O3 (index_range _ _)) as [E2|(_ & _ & _ & N2 & P2 & L2 & F2)]; cycle 1.
  { fold e2 in N2. rewrite N2, P2, L2, F2. simpl. by rewrite link_new by apply index_range. }
  rewrite E2. fold e2. destruct (has e2 PG_PRESENT); [|done]. simpl negb. cbv iota.
  destruct (has e2 PG_LARGE); simpl; [by rewrite E2|].
  destruct (link_at _ (i1 v) _ (Hp eq_refl eq_refl) (index_range _ _)) as [->|(_ & _ & E & _)]; [done|].
  rewrite <-E in Hlen. simpl in Hlen. lia.
Qed.
End linking.

(** *** Map on a tree *)

(** The mapping a space had is the one it has. *)
Definition same_map (spc : Z) p p' : Prop :=
  forall v, entry_frame (pw p') (tables_entry (pw p') spc v) = entry_frame (pw p) (tables_entry (pw p) spc v).

Lemma p_ensure_ok p spc own f π k u x p' :
  tree p spc own -> own !! f = Some π -> (length π <= 2)%nat -> 0 <= k < 512 ->
  0 <= u < 4096 -> has u PG_LARGE = false ->
  (has (pw p (f + 8 * k)) PG_PRESENT = true -> length π = 2%nat -> has (pw p (f + 8 * k)) PG_LARGE = false) ->
  p_ensure (f + 8 * k) u p = Ret (x, p') ->
  exists own', own ⊆ own' /\ tree p' spc own' /\ own' !! x = Some (π ++ [k]) /\ same_map spc p p' /\
    has (pw p' (f + 8 * k)) PG_PRESENT = true /\ frame (pw p' (f + 8 * k)) = x /\
    (length π = 2%nat -> has (pw p' (f + 8 * k)) PG_LARGE = false) /\
    (forall f' k', is_Some (own !! f') -> 0 <= k' < 512 -> f' <> f -> pw p' (f' + 8 * k') = pw p (f' + 8 * k')).
Proof.
  intros Ht Hf Hlen Hk Hu HuL HL. set (y := f + 8 * k).
  assert (forall f' k', is_Some (own !! f') -> 0 <= k' < 512 -> f' <> f -> f' + 8 * k' <> y) as Hy.
  { intros f' k' Hf' Hk' Hne E. apply (same_entry own) in E as [-> _]; eauto using tr_aligned. }
  assert (forall q w own', own ⊆ own' -> tree (Phys w q) spc own' -> has (w y) PG_PRESENT = true ->
    (length π = 2%nat -> has (w y) PG_LARGE = false) ->
    (forall v, entry_frame w (tables_entry w spc v) = entry_frame (pw p) (tables_entry (pw p) spc v)) ->
    (forall f' k', is_Some (own !! f') -> 0 <= k' < 512 -> f' <> f -> w (f' + 8 * k') = pw p (f' + 8 * k')) ->
    let w' := wr_word y (Z.lor (w y) u) w in
    exists own', own ⊆ own' /\ tree (Phys w' q) spc own' /\ own' !! frame (w' y) = Some (π ++ [k]) /\
      same_map spc p (Phys w' q) /\ has (w' y) PG_PRESENT = true /\ frame (w' y) = frame (w' y) /\
      (length π = 2%nat -> has (w' y) PG_LARGE = false) /\
      (forall f' k', is_Some (own !! f') -> 0 <= k' < 512 -> f' <> f -> w' (f' + 8 * k') = pw p (f' + 8 * k'))) as Hfin.
  { intros q w own' Hsub Ht' HP HL' Hw Hoth w'. pose proof (flags_same w y u HP Hu HuL) as Hb. fold w' in Hb.
    destruct (Hb y) as (BP & BL & BF).
    assert (tree (Phys w' q) spc own') as Ht2 by (apply (same_bits_tree (Phys w q)); done).
    exists own'. split; [done|]. split; [done|]. rewrite BP, BL, BF. split; [|split; [|split; [done|split; [done|split; [done|]]]]].
    - apply (tr_child _ _ _ Ht'); simpl; [eapply lookup_weaken; eauto|done|done|done|done].
    - intros v. simpl. by rewrite (same_bits_walk w w').
    - intros f' k' Hf' Hk' Hne. unfold w', wr_word. destruct (Z.eqb_spec (f' + 8 * k') y) as [E|_]; [|auto].
      by destruct (Hy f' k'). }
  unfold p_ensure, mseq, rd, wr, zero, on_pool, mgets, mmodify, mreturn, mfatal. fold y.
  destruct (has (pw p y) PG_PRESENT) eqn:HP.
  { intros E. simplify_eq/=. apply (Hfin (pool p) (pw p) own); try done; [by destruct p|]. intros; by apply HL. }
  destruct (palloc _ _ _) as [[a q]| | | |] eqn:Ea; try done.
  destruct (a =? 0); [done|]. destruct (negb _); [done|]. intros E. simplify_eq/=.
  pose proof (palloc_law _ (tr_pool _ _ _ Ht)) as Hlaw. unfold wpf in Hlaw. rewrite Ea in Hlaw.
  destruct Hlaw as (Hq & Hav & Hnav & Hrest).
  assert (own !! a = None) as Hao by by eapply tr_avail.
  assert (a mod 4096 = 0) as Ham by (eapply avail_aligned; [apply Ht|done]).
  fold (link (pw p) y a). destruct (link_entry (pw p) y a Ham) as (EP & EL & EF).
  apply (Hfin q (link (pw p) y a) (<[a := π ++ [k]]> own)); try done.
  - by apply insert_subseteq.
  - eapply link_tree; try done. intros b Hb. destruct (decide (b = a)) as [->|]; [done|].
    split; [by apply Hrest|done].
  - intros v. by eapply link_walk.
  - intros f' k' Hf' Hk' Hne. apply link_other with spc own π; try done. congruence.
Qed.

(** The number of the page an address is on, among those 48 bits select. *)
Definition vpn (v : Z) : Z := (v / 4096) mod 2 ^ 36.

Lemma indices_vpn v v' : i4 v = i4 v' -> i3 v = i3 v' -> i2 v = i2 v' -> i1 v = i1 v' -> vpn v = vpn v'.
Proof.
  unfold i4, i3, i2, i1, vpn. change 0x1FF with (Z.ones 9). rewrite !Z.land_ones, !Z.shiftr_div_pow2 by lia.
  intros. Z.to_euclidean_division_equations. lia.
Qed.

(** Writing the entry of a page in its table. *)
Lemma leaf_write p spc own v z :
  let e4 := pw p (spc + 8 * i4 v) in
  let e3 := pw p (frame e4 + 8 * i3 v) in
  let e2 := pw p (frame e3 + 8 * i2 v) in
  let w' := wr_word (frame e2 + 8 * i1 v) z (pw p) in
  tree p spc own -> has e4 PG_PRESENT = true -> has e3 PG_PRESENT = true -> has e2 PG_PRESENT = true ->
  has e2 PG_LARGE = false ->
  tree (Phys w' (pool p)) spc own /\ entry_frame w' (tables_entry w' spc v) = frame z /\
  (forall v', vpn v' <> vpn v -> entry_frame w' (tables_entry w' spc v') = entry_frame (pw p) (tables_entry (pw p) spc v')).
Proof.
  intros e4 e3 e2 w' Ht H4 H3 H2 HL.
  set (f1 := frame e2) in *. set (x := f1 + 8 * i1 v) in *.
  destruct (tree_path p spc own v Ht H4) as [O4 [O3 O2]%(fun h => h H3)].
  specialize (O2 H2 HL). fold e4 e3 e2 f1 in O4, O3, O2.
  assert (forall f π i, own !! f = Some π -> (length π <= 2)%nat -> 0 <= i < 512 ->
    w' (f + 8 * i) = pw p (f + 8 * i)) as Hsame.
  { intros f π i Hf Hlen Hi. unfold w', wr_word. destruct (Z.eqb_spec (f + 8 * i) x) as [E|]; [|done].
    apply (same_entry own) in E as [-> _]; eauto using tr_aligned; [|apply index_range].
    rewrite Hf in O2. simplify_eq. simpl in Hlen. lia. }
  assert (tree (Phys w' (pool p)) spc own) as Ht'.
  { destruct Ht as [? ? ? Hc ?]. split; simpl; try done. intros f π i Hf Hlen Hi.
    rewrite (Hsame f π i) by done. by apply Hc. }
  split; [done|]. split.
  - unfold tables_entry. cbv zeta.
    rewrite (Hsame spc []) by (apply Ht || (simpl; lia) || apply index_range). fold e4. rewrite H4.
    rewrite (Hsame _ _ _ O4) by ((simpl; lia) || apply index_range). fold e3. rewrite H3.
    rewrite (Hsame _ _ _ O3) by ((simpl; lia) || apply index_range). fold e2. rewrite H2, HL. simpl.
    fold f1. unfold w', wr_word. fold x. by rewrite Z.eqb_refl.
  - intros v' Hv. pose proof (tree_path p spc own v' Ht) as Q. simpl in Q. unfold tables_entry. cbv zeta.
    rewrite (Hsame spc []) by (apply Ht || (simpl; lia) || apply index_range).
    set (d4 := pw p (spc + 8 * i4 v')) in *.
    destruct (has d4 PG_PRESENT); [|done]. destruct Q as [Q4 Q]; [done|]. simpl negb. cbv iota.
    rewrite (Hsame _ _ _ Q4) by ((simpl; lia) || apply index_range).
    set (d3 := pw p (frame d4 + 8 * i3 v')) in *.
    destruct (has d3 PG_PRESENT); [|done]. destruct Q as [Q3 Q]; [done|]. simpl negb. cbv iota.
    rewrite (Hsame _ _ _ Q3) by ((simpl; lia) || apply index_range).
    set (d2 := pw p (frame d3 + 8 * i2 v')) in *.
    destruct (has d2 PG_PRESENT); [|done]. simpl negb. cbv iota.
    destruct (has d2 PG_LARGE); simpl; [by rewrite (Hsame _ _ _ Q3) by ((simpl; lia) || apply index_range)|].
    specialize (Q eq_refl eq_refl). unfold w', wr_word.
    destruct (Z.eqb_spec (frame d2 + 8 * i1 v') x) as [E|]; [|done]. destruct Hv.
    apply (same_entry own) in E as [E1 E2]; eauto using tr_aligned; [|apply index_range..].
    rewrite E1, O2 in Q. simplify_eq. by apply indices_vpn.
Qed.

Lemma p_set_ok p spc own v pa fl f1 r p' :
  let e4 := pw p (spc + 8 * i4 v) in
  let e3 := pw p (frame e4 + 8 * i3 v) in
  let e2 := pw p (frame e3 + 8 * i2 v) in
  tree p spc own -> has e4 PG_PRESENT = true -> has e3 PG_PRESENT = true -> has e2 PG_PRESENT = true ->
  has e2 PG_LARGE = false -> frame e2 = f1 -> pa mod 4096 = 0 -> 0 <= fl < 4096 ->
  p_set (f1 + 8 * i1 v) pa fl p = Ret (r, p') ->
  tree p' spc own /\
  (if r then entry_frame (pw p') (tables_entry (pw p') spc v) = pa /\
     (forall v', vpn v' <> vpn v -> entry_frame (pw p') (tables_entry (pw p') spc v') = entry_frame (pw p) (tables_entry (pw p) spc v'))
   else p' = p).
Proof.
  intros e4 e3 e2 Ht H4 H3 H2 HL Hf1 Hpa Hfl. unfold p_set, mseq, rd, wr, mgets, mmodify, mreturn.
  destruct (has (pw p _) PG_PRESENT) eqn:HP; intros E; simplify_eq/=; [done|].
  destruct (leaf_write p spc own v (Z.lor (Z.lor pa PG_PRESENT) fl) Ht H4 H3 H2 HL) as (? & Hv & ?).
  split; [done|]. split; [|done]. etrans; [exact Hv|].
  rewrite <-Z.lor_assoc. apply frame_lor; [done|]. by apply (lor_bound _ _ 12).
Qed.

Lemma p_map_ok p spc own v pa fl r p' :
  tree p spc own -> pa mod 4096 = 0 -> 0 <= fl < 4096 -> has fl PG_LARGE = false ->
  p_map spc pa v fl p = Ret (r, p') ->
  exists own', tree p' spc own' /\
    (if r then entry_frame (pw p') (tables_entry (pw p') spc v) = pa /\
       (forall v', vpn v' <> vpn v -> entry_frame (pw p') (tables_entry (pw p') spc v') = entry_frame (pw p) (tables_entry (pw p) spc v'))
     else same_map spc p p').
Proof.
  intros Ht Hpa Hfl HL. unfold p_map, mseq at 1.
  destruct (p_ensure (spc + 8 * i4 v) fl p) as [[f3 p3]| | | |] eqn:E3; try done.
  destruct (p_ensure_ok _ _ _ _ [] _ _ _ _ Ht (tr_root _ _ _ Ht) ltac:(simpl; lia) (i4_range _) Hfl HL
    ltac:(done) E3) as (own3 & S3 & T3 & O3 & M3 & P3 & F3 & _ & _).
  unfold mseq at 1. destruct (p_ensure (f3 + 8 * i3 v) fl p3) as [[f2 p2]| | | |] eqn:E2; try done.
  destruct (p_ensure_ok _ _ _ _ _ _ _ _ _ T3 O3 ltac:(simpl; lia) (i3_range _) Hfl HL
    ltac:(done) E2) as (own2 & S2 & T2 & O2 & M2 & P2 & F2 & _ & K2).
  set (a2 := f2 + 8 * i2 v). rewrite HL. unfold mseq at 1, rd, mgets.
  assert (same_map spc p p2) as M by (intros w; by rewrite M2, M3).
  destruct (has (pw p2 a2) PG_PRESENT && has (pw p2 a2) PG_LARGE) eqn:HPL; [intros [= <- <-]; eauto|].
  unfold mseq at 1. destruct (p_ensure a2 fl p2) as [[f1 p1]| | | |] eqn:E1; try done.
  assert (has (pw p2 a2) PG_PRESENT = true -> length [i4 v; i3 v] = 2%nat -> has (pw p2 a2) PG_LARGE = false) as HPL'.
  { intros HP _. rewrite HP in HPL. done. }
  destruct (p_ensure_ok _ _ _ _ _ _ _ _ _ T2 O2 ltac:(simpl; lia) (i2_range _) Hfl HL HPL' E1)
    as (own1 & S1 & T1 & O1 & M1 & P1 & F1 & L1 & K1).
  assert (spc <> f3 /\ spc <> f2 /\ f3 <> f2) as (N1 & N2 & N3).
  { pose proof (lookup_weaken _ _ _ _ (tr_root _ _ _ T3) S2). pose proof (lookup_weaken _ _ _ _ O3 S2).
    simpl in *. repeat split; intros E; rewrite <-E in *; congruence. }
  assert (pw p1 (spc + 8 * i4 v) = pw p3 (spc + 8 * i4 v)) as Q4.
  { rewrite K1, K2; eauto using i4_range, tr_root. }
  assert (pw p1 (f3 + 8 * i3 v) = pw p2 (f3 + 8 * i3 v)) as Q3.
  { rewrite K1; eauto using i3_range, lookup_weaken. }
  intros Es. destruct (p_set_ok p1 spc own1 v pa fl f1 r p') as [T' HR]; try done;
    try (rewrite Q4, ?F3; try done; rewrite Q3, ?F2; done || by apply L1).
  exists own1. split; [done|]. destruct r.
  - destruct HR as [? HR]. split; [done|]. intros v' Hv. rewrite HR, M1, M by done. done.
  - subst p'. intros w. by rewrite M1, M.
Qed.

(** Map on physical memory returns or runs out of frames. *)
Lemma p_ensure_pool a u p : pool_ok (pool p) -> wpf (p_ensure a u) (fun _ p' => pool_ok (pool p')) p.
Proof.
  intros Hq. pose proof (palloc_law _ Hq) as Hlaw. revert Hlaw.
  unfold p_ensure, mseq, rd, wr, zero, on_pool, mgets, mmodify, mreturn, mfatal, wpf.
  destruct (has (pw p a) PG_PRESENT); [done|].
  destruct (palloc _ _ _) as [[f q]| | | |]; try done. intros (? & _).
  destruct (f =? 0); [done|]. by destruct (negb _).
Qed.

Lemma p_map_pool spc pa v fl p : pool_ok (pool p) -> wpf (p_map spc pa v fl) (fun _ _ => True) p.
Proof.
  intros Hq. unfold p_map, p_set.
  apply wpf_bind. eapply wpf_mono; [by apply p_ensure_pool|]. intros f3 p3 Hq3.
  apply wpf_bind. eapply wpf_mono; [by apply p_ensure_pool|]. intros f2 p2 Hq2. unfold rd. apply wpf_gets.
  destruct (has fl PG_LARGE); destruct (_ && _); try done.
  - unfold mseq, wpf, mgets. by destruct (has _ _).
  - apply wpf_bind. eapply wpf_mono; [by apply p_ensure_pool|]. intros f1 p1 _.
    unfold mseq, wpf, mgets. by destruct (has _ _).
Qed.

(** *** The walk of the processor *)

Lemma entry_base_small e k : 0 <= e < 2 ^ 52 -> 0 <= k <= 52 -> entry_base e k = e / 2 ^ k * 2 ^ k.
Proof.
  intros He Hk. unfold entry_base.
  assert (2 ^ 52 - 2 ^ k = Z.ldiff (Z.ones 52) (Z.ones k)) as ->.
  { rewrite Z.ones_equiv, (Z.ones_equiv k), <- Z.sub_nocarry_ldiff; [lia|].
    apply Z.bits_inj'. intros i Hi. rewrite <- !Z.ones_equiv, Z.ldiff_spec, Z.bits_0, !Z.testbit_ones_nonneg by lia.
    destruct (Z.ltb_spec i k), (Z.ltb_spec i 52); done || lia. }
  rewrite Z.ldiff_land, Z.land_assoc, Z.land_ones, Z.mod_small, <- Z.ldiff_land by lia.
  by rewrite Z.ldiff_ones_r, Z.shiftl_mul_pow2, Z.shiftr_div_pow2 by lia.
Qed.
Lemma entry_base_frame e : 0 <= e < 2 ^ 52 -> entry_base e 12 = frame e.
Proof. intros He. rewrite entry_base_small, frame_spec by lia. done. Qed.

(** On plain tables the lookup ends where the walk of the processor does. *)
Lemma plain_walk w spc v : plain w spc v ->
  match processor_walk w spc v with
  | Some (base, size) => (size = 2 ^ 12 \/ size = 2 ^ 21) /\ entry_frame w (tables_entry w spc v) = base
  | None => entry_frame w (tables_entry w spc v) = 0
  end.
Proof.
  unfold plain, processor_walk, tables_entry. cbv zeta. intros (-> & H4 & Hp4). cbn [negb].
  rewrite (entry_base_frame (w (spc + 8 * i4 v))) by done. destruct (has _ PG_PRESENT); [|done].
  destruct (Hp4 eq_refl) as (-> & H3 & Hp3). cbn [negb orb].
  rewrite (entry_base_frame (w (frame (w (spc + 8 * i4 v)) + 8 * i3 v))) by done. destruct (has _ PG_PRESENT); [|done].
  destruct (Hp3 eq_refl) as (-> & H2 & Hp2). cbn [negb]. set (e2 := w (frame (w (frame (w (spc + 8 * i4 v)) + 8 * i3 v)) + 8 * i2 v)) in *.
  destruct (has e2 PG_PRESENT); [|done]. cbn [negb]. specialize (Hp2 eq_refl). destruct (has e2 PG_LARGE).
  - split; [by right|]. cbn [entry_frame]. fold e2. rewrite entry_base_small by lia. rewrite frame_spec in *. dlia.
  - destruct Hp2 as [H1 H1p]. rewrite (entry_base_frame e2) by done. cbn [entry_frame].
    set (e1 := w (frame e2 + 8 * i1 v)) in *. destruct (has e1 PG_PRESENT) eqn:Hpe; cbn [negb].
    + split; [by left|]. by rewrite entry_base_frame.
    + destruct H1p as [->|?]; [done|congruence].
Qed.

(** *** The contract of vmem.c *)

(** All slots of the mapspace are free. *)
Definition slots_free (s : vm P) : Prop := ps_mapspace s = replicate 10 0.

Lemma vmem_map_free o spc pa v fl s : slots_free s -> spc mod 4096 = 0 ->
  vmem_map o spc pa v fl s = lift (p_map spc pa v fl) s.
Proof. destruct s. unfold slots_free. simpl. intros -> ?. exact (vmem_map_run o spc pa v fl _ _ H0). Qed.

Lemma vmem_find_unmap_free o spc v un s : slots_free s -> spc mod 4096 = 0 ->
  vmem_find_unmap o spc v un s = lift (p_find un spc v) s.
Proof. destruct s. unfold slots_free. simpl. intros -> ?. exact (vmem_find_unmap_run un o spc v _ _ H0). Qed.

Lemma resolve_run (o : outs) (spc v : Z) (s : vm P) : slots_free s -> spc mod 4096 = 0 ->
  vmem_resolve o spc v s = Ret (entry_frame (pw (ph s)) (tables_entry (pw (ph s)) spc v), s).
Proof.
  intros Hs Hspc. unfold vmem_resolve. rewrite vmem_find_unmap_free by done.
  unfold lift, p_find, mseq, mgets, mreturn, rd. simpl.
  by destruct (tables_entry _ _ _) as [[b a]|], s.
Qed.

(** C19: vmem_resolve against the walk of the processor.  For any contents of
    physical memory it returns the frame that the entry its lookup ends at
    names, and 0 where no table is; it changes nothing, and gives all slots of
    the mapspace back, whatever its uninitialised locals held.  On plain tables
    (see [plain]: no page of 1 GB, entries of page tables zero or present) that
    is the base of the page the processor finds, 4 KB or 2 MB, and 0 where the
    processor faults: the physical address without the offset in the page. *)
Theorem vmem_resolve_walks (o : outs) (spc v : Z) (s : vm P) :
  slots_free s -> spc mod 4096 = 0 ->
  let w := pw (ph s) in
  vmem_resolve o spc v s = Ret (entry_frame w (tables_entry w spc v), s) /\
  (plain w spc v ->
   match processor_walk w spc v with
   | Some (base, size) => (size = 2 ^ 12 \/ size = 2 ^ 21) /\ vmem_resolve o spc v s = Ret (base, s) /\
       processor_address w spc v = Some (base + v mod size)
   | None => vmem_resolve o spc v s = Ret (0, s)
   end).
Proof.
  intros Hs Hspc w. rewrite resolve_run by done. fold w. split; [done|]. intros Hp.
  pose proof (plain_walk w spc v Hp) as H0'. unfold processor_address.
  destruct (processor_walk w spc v) as [[base size]|]; [|by rewrite H0']. by destruct H0' as [? ->].
Qed.

(** C4: vmem_map of a small page returns or runs out of frames.  When it
    returns true the address resolves to the given frame, when it returns
    false nothing resolves differently; no other page of the space is
    affected; the page tables stay a tree; all slots of the mapspace are
    given back. *)
Theorem vmem_map_resolves (o : outs) (spc pa v fl : Z) (own : gmap Z (list Z)) (s : vm P) :
  slots_free s -> tree (ph s) spc own -> pa mod 4096 = 0 -> 0 <= fl < 4096 -> has fl PG_LARGE = false ->
  wpf (vmem_map o spc pa v fl) (fun r s' =>
    slots_free s' /\ (exists own', tree (ph s') spc own') /\
    (r = true -> ret_val (vmem_resolve o spc v s') = Some pa) /\
    (forall v', r = false \/ vpn v' <> vpn v ->
       ret_val (vmem_resolve o spc v' s') = ret_val (vmem_resolve o spc v' s))) s.
Proof.
  intros Hs Ht Hpa Hfl HL. assert (spc mod 4096 = 0) as Hspc by (eapply tr_aligned; [done|apply Ht]).
  pose proof (p_map_pool spc pa v fl (ph s) (tr_pool _ _ _ Ht)) as Hp.
  unfold wpf in *. rewrite vmem_map_free by done. unfold lift.
  destruct (p_map spc pa v fl (ph s)) as [[r p']| | | |] eqn:Em; try done.
  destruct (p_map_ok _ _ _ _ _ _ _ _ Ht Hpa Hfl HL Em) as (own' & Ht' & HR).
  assert (slots_free (set_ph p' s)) as Hs' by done.
  split; [done|]. split; [by exists own'|]. split.
  - intros ->. rewrite resolve_run by done. simpl. f_equal. apply HR.
  - intros v' Hv. rewrite !resolve_run by done. simpl. f_equal.
    destruct r; [|apply HR]. apply HR. by destruct Hv.
Qed.

(** C18: vmem_unmap of any address on a small page, aligned or not, returns the
    frame the address resolved to; afterwards it does not resolve any more and
    the entry of its page is zero, and every other page does as before.
    (vmem.h says that an address that does not match a mapping exactly is left
    alone: vmem_unmap_unaligned.) *)
Theorem vmem_unmap_removes (o : outs) (spc v : Z) (own : gmap Z (list Z)) (a : Z) (s : vm P) :
  slots_free s -> tree (ph s) spc own -> tables_entry (pw (ph s)) spc v = Some (false, a) ->
  wp (vmem_unmap o spc v) (fun r s' =>
    slots_free s' /\ tree (ph s') spc own /\ ret_val (vmem_resolve o spc v s) = Some r /\
    ret_val (vmem_resolve o spc v s') = Some 0 /\ pw (ph s') = wr_word a 0 (pw (ph s)) /\
    (forall v', vpn v' <> vpn v -> ret_val (vmem_resolve o spc v' s') = ret_val (vmem_resolve o spc v' s))) s.
Proof.
  intros Hs Ht Hw. assert (spc mod 4096 = 0) as Hspc by (eapply tr_aligned; [done|apply Ht]).
  unfold wp, vmem_unmap. rewrite vmem_find_unmap_free by done.
  unfold lift, p_find, mseq, mgets, mmodify, mreturn, rd, wr. rewrite Hw. simpl.
  assert (slots_free (set_ph (Phys (wr_word a 0 (pw (ph s))) (pool (ph s))) s)) as Hs' by done.
  rewrite !resolve_run by done. simpl. rewrite Hw. split; [done|].
  assert (Hleaf := leaf_write (ph s) spc own v 0 Ht). cbv zeta in Hleaf.
  revert Hw. unfold tables_entry at 1. cbv zeta.
  destruct (has _ PG_PRESENT) eqn:H4 in Hleaf |- *; [|done]. simpl negb. cbv iota.
  destruct (has _ PG_PRESENT) eqn:H3 in Hleaf |- *; [|done]. simpl negb. cbv iota.
  destruct (has _ PG_PRESENT) eqn:H2 in Hleaf |- *; [|done]. simpl negb. cbv iota.
  destruct (has _ PG_LARGE) eqn:HL in Hleaf |- *; [done|]. intros [= <-].
  destruct Hleaf as (T' & Hv & Ho); try done.
  split; [done|]. split; [done|]. split; [f_equal; exact Hv|]. split; [done|].
  intros v' Hv'. rewrite !resolve_run by done. simpl. f_equal. by apply Ho.
Qed.
End trees.

(** ** Concrete spaces *)

Module VmemDemo.
(** A pool that hands out the frames of a list. *)
#[export] Instance list_pool : PagePool (list Z) := {|
  palloc _ _ := fun q => match q with a :: q' => Ret (a, q') | [] => Fatal "out of physical memory" end;
  pfree a _ := fun q => Ret (tt, a :: q);
|}.

#[export] Program Instance list_pool_laws : PagePoolLaws (list Z) := {|
  pool_ok q := NoDup q /\ Forall (fun a => a mod 4096 = 0) q;
  avail q a := a ∈ q;
|}.
Next Obligation. intros q a [_ Hq] Ha. rewrite Forall_forall in Hq. by apply Hq. Qed.
Next Obligation.
  intros [|a q] [Hd Ha]; [done|]. apply NoDup_cons in Hd as [Hn Hd]. apply Forall_cons in Ha as [_ Ha].
  unfold wpf. simpl.
  split_and!; [done|done|set_solver|done|]. intros b Hb. set_solver.
Qed.

Definition garbage : outs := Outs 7 7 7 7.
Definition spc0 : Z := 0x100000.

(** An empty space. *)
Definition s0 : vm (list Z) := Vm (replicate 10 0) (Phys (fun _ => 0) [0x2000; 0x3000; 0x4000; 0x5000]) [].

Lemma tree0 : tree (ph s0) spc0 {[ spc0 := [] ]}.
Proof.
  split; simpl.
  - split; [by apply (bool_decide_unpack _)|by repeat constructor].
  - by rewrite lookup_singleton_eq.
  - intros f π [<- _]%lookup_singleton_Some. done.
  - done.
  - intros f Hf. apply lookup_singleton_ne. intros <-. revert Hf. by apply (bool_decide_unpack _).
Qed.

Lemma vmem_map_resolves_witness :
  slots_free s0 /\ wpf (vmem_map garbage spc0 0x9000 0x400000 PG_WRITABLE) (fun r s' =>
    slots_free s' /\ (exists own', tree (ph s') spc0 own') /\
    (r = true -> ret_val (vmem_resolve garbage spc0 0x400000 s') = Some 0x9000) /\
    (forall v', r = false \/ vpn v' <> vpn 0x400000 ->
       ret_val (vmem_resolve garbage spc0 v' s') = ret_val (vmem_resolve garbage spc0 v' s0))) s0.
Proof.
  split; [done|]. apply (vmem_map_resolves garbage spc0 0x9000 0x400000 PG_WRITABLE {[ spc0 := [] ]} s0);
    [done|apply tree0|done|done|done].
Defined.

(** A space with the page at 0 mapped to the frame at 0x9000. *)
Definition w1 (a : Z) : Z :=
  if a =? 0x100000 then 0x2003 else if a =? 0x2000 then 0x3003 else if a =? 0x3000 then 0x4003
  else if a =? 0x4000 then 0x9003 else 0.
Definition s1 : vm (list Z) := Vm (replicate 10 0) (Phys w1 [0x5000]) [].
Definition own1 : gmap Z (list Z) :=
  {[ 0x100000 := []; 0x2000 := [0]; 0x3000 := [0; 0]; 0x4000 := [0; 0; 0] ]}.

Lemma tree1 : tree (ph s1) spc0 own1.
Proof.
  split; simpl.
  - split; [by apply (bool_decide_unpack _)|by repeat constructor].
  - done.
  - intros f π Hf. unfold own1 in Hf.
    repeat (apply lookup_insert_Some in Hf as [[<- _]|[_ Hf]]; [done|]).
    by apply lookup_singleton_Some in Hf as [<- _].
  - intros f π i Hf Hlen Hi HP _. unfold own1 in Hf.
    repeat (apply lookup_insert_Some in Hf as [[<- <-]|[_ Hf]]);
      [..|apply lookup_singleton_Some in Hf as [<- <-]; simpl in Hlen; lia];
      destruct (decide (i = 0)) as [->|Hi0]; try done; exfalso; revert HP; unfold w1;
      repeat (case (Z.eqb_spec _ _); [intros; exfalso; lia|intros _]); done.
  - intros f ->%list_elem_of_singleton. done.
Qed.

Lemma vmem_unmap_removes_witness :
  tables_entry w1 spc0 0 = Some (false, 0x4000) /\ wp (vmem_unmap garbage spc0 0) (fun r s' =>
    slots_free s' /\ tree (ph s') spc0 own1 /\ ret_val (vmem_resolve garbage spc0 0 s1) = Some r /\
    ret_val (vmem_resolve garbage spc0 0 s') = Some 0 /\ pw (ph s') = wr_word 0x4000 0 w1 /\
    (forall v', vpn v' <> vpn 0 ->
       ret_val (vmem_resolve garbage spc0 v' s') = ret_val (vmem_resolve garbage spc0 v' s1))) s1.
Proof.
  split; [done|]. apply (vmem_unmap_removes garbage spc0 0 own1 0x4000 s1); [done|apply tree1|done].
Defined.

Lemma vmem_resolve_walks_witness :
  plain w1 spc0 5 /\ processor_walk w1 spc0 5 = Some (0x9000, 2 ^ 12) /\ vmem_resolve garbage spc0 5 s1 = Ret (0x9000, s1).
Proof.
  assert (plain w1 spc0 5) as Hp.
  { split; [reflexivity|]. split; [vm_compute; split; congruence|]. intros _. split; [reflexivity|]. split; [vm_compute; split; congruence|].
    intros _. split; [reflexivity|]. split; [vm_compute; split; congruence|]. intros _. split; [vm_compute; split; congruence|right; reflexivity]. }
  split; [exact Hp|]. split; [reflexivity|].
  exact (proj1 (proj2 (proj2 (vmem_resolve_walks garbage spc0 5 s1 eq_refl eq_refl) Hp))).
Defined.

(** The address in a page is dropped: the processor translates address 5 to
    0x9005, vmem_resolve gives 0x9000. *)
Theorem vmem_resolve_drops_offset :
  processor_address w1 spc0 5 = Some 0x9005 /\ vmem_resolve garbage spc0 5 s1 = Ret (0x9000, s1).
Proof. by vm_compute. Qed.

(** An entry of a page table that is not present but not zero either: the
    processor faults, vmem_resolve gives the frame in the entry. *)
Theorem vmem_resolve_not_present :
  let w a := if a =? 0x4000 then 0x9002 else w1 a in let s := Vm (replicate 10 0) (Phys w [0x5000]) [] in
  processor_walk w spc0 0 = None /\ vmem_resolve garbage spc0 0 s = Ret (0x9000, s).
Proof. by vm_compute. Qed.

(** An address inside a page that does not match the mapping exactly is
    unmapped like the page's own address. *)
Theorem vmem_unmap_unaligned :
  let r := vmem_unmap garbage spc0 5 s1 in
  ret_val r = Some 0x9000 /\ ret_val (vmem_resolve garbage spc0 0 (state_of r s1)) = Some 0 /\
  processor_walk (pw (ph (state_of r s1))) spc0 0 = None.
Proof. by vm_compute. Qed.

(** Mapping a large page puts the page-size bit into the entries above the
    directory too: in an entry of the page directory pointer table this bit
    makes the processor read a 1 GB page, and in the root it is reserved. *)
Definition s2 : vm (list Z) := state_of (vmem_map garbage spc0 0x600000 0x600000 (Z.lor PG_LARGE PG_WRITABLE) s0) s0.

Theorem vmem_map_large_marks_upper_levels :
  ret_val (vmem_resolve garbage spc0 0x600000 s2) = Some 0x600000 /\
  has (pw (ph s2) spc0) PG_LARGE = true /\ has (pw (ph s2) (frame (pw (ph s2) spc0))) PG_LARGE = true.
Proof. by vm_compute. Qed.

(** Deleting an address space frees the frames of every page that is mapped
    outside the 512 GB of the kernel image.  The kernel heap lies in the slot
    before it: a frame of the heap, mapped in every space and still used by
    all others, goes back to the allocator. *)
Definition kpdpt : Z := 0x300000.
Definition ptlow : Z := 0x310000.
Definition s3 : vm (list Z) := state_of (add_global_mapping 0x9000 KHEAP_START (Z.lor PG_GLOBAL PG_WRITABLE) s0) s0.
Definition k1 : vm (list Z) :=
  Vm (replicate 10 0) (Phys (fun _ => 0) [0x2000; 0x3000; 0x4000; 0x5000; 0x6000; 0x7000; 0x8000]) (vmem_glob_map s3).
Definition k2 : vm (list Z) := state_of (spc_new kpdpt ptlow garbage k1) k1.
Definition k3 : vm (list Z) := state_of (spc_delete kpdpt ptlow 0x2000 k2) k2.

Theorem spc_delete_frees_kernel_heap :
  ret_val (spc_new kpdpt ptlow garbage k1) = Some 0x2000 /\
  ret_val (vmem_resolve garbage 0x2000 KHEAP_START k2) = Some 0x9000 /\
  (0x9000 ∉ pool (ph k2)) /\ (0x9000 ∈ pool (ph k3)).
Proof.
  split; [by vm_compute|]. split; [by vm_compute|].
  split; apply (bool_decide_unpack _); by vm_compute.
Qed.

(** A global mapping of a small page that falls into a large page already
    mapped, the case the code calls the good one, reads the directory after
    vmem_mgmt_split has unmapped it. *)
Definition g1 : vm (list Z) :=
  Vm (replicate 10 0) (Phys (fun _ => 0) [0x3000; 0x4000; 0x5000]) [GlobMapping 0x201000 0x201000 PG_WRITABLE].

Theorem make_glob_spc_small_in_large_faults :
  vmem_mgmt_make_glob_spc kpdpt ptlow garbage 0x2000 g1 = Fault (VM_PS_TADDR 2 + 8 * 7).
Proof. by vm_compute. Qed.
End VmemDemo.
