(* ===== verification/PmemPool.v ===== *)
(** * pmem.c as the frame allocator of the pager

    The interface [PagePool] the page-table code is proved against, with
    pmem_alloc and pmem_free as its operations, and the proof that they keep
    its laws while the physical regions are well formed, apart, and of at most
    32 pages each, as the boot region is.  In a larger region they do not hold:
    a page at position 32 of its word is handed out twice (pmem_alloc_twice). *)

From S2P Require Import Prelude.
From S2P Require Import Bmap.
From S2P Require Import Pmem.
From S2P Require Import Vmem.

#[export] Instance pmem_pool : PagePool pmem := {| palloc := pmem_alloc; pfree := pmem_free |}.

(** The page at [a] belongs to a region and its bit is clear. *)
Definition pmem_avail (s : pmem) (a : Z) : Prop := exists i r x,
  regions s !! i = Some r /\ 0 <= x < bits (bmap r) /\ bm_test (bmap r) x = false /\
  a = start r + x * PMEM_PAGESIZE.

Definition pm_small (s : pmem) : Prop := Forall (fun r => bits (bmap r) <= 32) (regions s).
Definition pmem_ok (s : pmem) : Prop := pm_wf s /\ pm_disjoint s /\ pm_small s.

Lemma same_but_small s s' P v : same_but s s' P v -> List.length (regions s') = List.length (regions s) -> pm_small s -> pm_small s'.
Proof.
  unfold pm_small. rewrite !Forall_lookup. intros Hs Hl Hb k r' Hk.
  destruct (lookup_lt_is_Some_2 (regions s) k) as [r Hr]; [rewrite <-Hl; by eapply lookup_lt_Some|].
  destruct (Hs k r Hr) as (x & Hx & _ & _ & E & _). simplify_eq. rewrite E. by eapply Hb.
Qed.

(** A block that fits such a region lies at good positions. *)
Lemma handed_good s i x n a : pm_small s -> handed s i x n a -> good_run x n.
Proof.
  intros Hs (r & Hr & Hx & Hb & _) j Hj. pose proof (Forall_lookup_1 _ _ _ _ Hs Hr) as Hb'. simpl in Hb'.
  unfold good_bit. rewrite Z.mod_small; lia.
Qed.

Lemma pmem_avail_aligned s a : pmem_ok s -> pmem_avail s a -> a mod 4096 = 0.
Proof.
  intros (Hwf & _ & _) (i & r & x & Hr & Hx & _ & ->).
  destruct (Forall_lookup_1 _ _ _ _ (pw_regs _ Hwf) Hr) as [_ _ _ [_ Hs] _].
  unfold PMEM_PAGESIZE in *. dlia.
Qed.

(** Pages of regions that are apart are told apart by region and bit. *)
Lemma page_unique s i j r q x y : pmem_ok s -> regions s !! i = Some r -> regions s !! j = Some q ->
  0 <= x < bits (bmap r) -> 0 <= y < bits (bmap q) ->
  start r + x * PMEM_PAGESIZE = start q + y * PMEM_PAGESIZE -> i = j /\ x = y.
Proof.
  intros (Hwf & Hd & _) Hr Hq Hx Hy E. unfold PMEM_PAGESIZE in *.
  destruct (decide (i = j)) as [->|Hne]; [simplify_eq; lia|]. exfalso.
  destruct (Forall_lookup_1 _ _ _ _ (pw_regs _ Hwf) Hr) as [_ _ Lr _ _].
  destruct (Forall_lookup_1 _ _ _ _ (pw_regs _ Hwf) Hq) as [_ _ Lq _ _]. unfold PMEM_PAGESIZE in *.
  destruct (Hd i j r q Hne Hr Hq); lia.
Qed.

Lemma pmem_palloc_law s : pmem_ok s -> wpf (pmem_alloc PMEM_PAGESIZE PMEM_PAGESIZE) (fun a s' =>
  pmem_ok s' /\ pmem_avail s a /\ ~ pmem_avail s' a /\
  (forall b, b <> a -> pmem_avail s' b <-> pmem_avail s b)) s.
Proof.
  intros Hok. pose proof Hok as (Hwf & Hd & Hsm). eapply wpf_mono; [apply pmem_alloc_ok; [done|unfold PMEM_PAGESIZE; lia..]|].
  change (PMEM_PAGES PMEM_PAGESIZE) with 1.
  intros a s' [[Hwf' (i & x & Hh & Hsb)] Hlen]. apply same_but_good in Hsb; [|by eapply handed_good].
  destruct Hh as (r & Hr & Hx & Hb & -> & Hrun).
  assert (pm_disjoint s' /\ pm_small s') as [Hd' Hsm'] by (split; [by eapply same_but_disjoint|by eapply same_but_small]).
  assert (forall j q', regions s' !! j = Some q' -> exists q, regions s !! j = Some q /\ start q' = start q /\
    bits (bmap q') = bits (bmap q) /\
    (forall y, 0 <= y -> j = i /\ x <= y < x + 1 -> bm_test (bmap q') y = true) /\
    (forall y, 0 <= y -> ~ (j = i /\ x <= y < x + 1) -> bm_test (bmap q') y = bm_test (bmap q) y)) as Hback.
  { intros j q' Hq'. destruct (lookup_lt_is_Some_2 (regions s) j) as [q Hq].
    { rewrite <-Hlen. by eapply lookup_lt_Some. }
    destruct (Hsb j q Hq) as (q2 & Hq2 & ? & ? & ? & ? & ?). simplify_eq. eauto 10. }
  split; [done|]. split; [|split].
  - exists i, r, x. split_and!; try done; try lia. specialize (Hrun x ltac:(lia)).
    unfold is_bit in Hrun. by destruct (bm_test (bmap r) x).
  - intros (j & q' & y & Hq' & Hy & Hf & E). destruct (Hback j q' Hq') as (q & Hq & E1 & E2 & Hset & _).
    rewrite E1, E2 in *. destruct (page_unique s i j r q x y) as [<- <-]; try done; [lia|].
    by rewrite Hset in Hf by lia.
  - intros b Hne. split.
    + intros (j & q' & y & Hq' & Hy & Hf & ->). destruct (Hback j q' Hq') as (q & Hq & E1 & E2 & _ & Hk).
      rewrite E1, E2 in *. exists j, q, y. split_and!; try done; try lia. rewrite <-Hk; [done|lia|].
      intros [-> ?]. simplify_eq. destruct Hne. f_equal. f_equal. lia.
    + intros (j & q & y & Hq & Hy & Hf & ->). destruct (Hsb j q Hq) as (q' & Hq' & E1 & E2 & E3 & _ & Hk).
      exists j, q', y. rewrite E1, E3. split_and!; try done; try lia. rewrite Hk; [done|lia|].
      intros [-> ?]. simplify_eq. destruct Hne. f_equal. f_equal. lia.
Qed.

#[export] Instance pmem_pool_laws : PagePoolLaws pmem := {|
  pool_ok := pmem_ok;
  avail := pmem_avail;
  avail_aligned := pmem_avail_aligned;
  palloc_law := pmem_palloc_law;
|}.
