(* ===== verification/Cga.v ===== *)
(** * The text screen: cga.c

    Video memory is the one page [cga_init] maps, 2048 cells of 16 bits of
    which the screen shows the first 2000.  A store outside the page faults.
    Characters are the signed codes of C's [char]. *)

From S2P Require Import Prelude.
From S2P Require Import Cstring.

Definition CGA_WIDTH : Z := 80.
Definition CGA_HEIGHT : Z := 25.
Definition CGA_CELLS : Z := 2048.

Record cga := Cga { vram : list Z; cga_x : Z; cga_y : Z; cga_attr : Z; cga_lock : Z }.
Definition set_vram v s := Cga v (cga_x s) (cga_y s) (cga_attr s) (cga_lock s).
Definition set_x x s := Cga (vram s) x (cga_y s) (cga_attr s) (cga_lock s).
Definition set_y y s := Cga (vram s) (cga_x s) y (cga_attr s) (cga_lock s).
Definition set_lk l s := Cga (vram s) (cga_x s) (cga_y s) (cga_attr s) l.

Definition cell_get (i : Z) : M cga Z := fun s =>
  if i <? 0 then Fault i else match vram s !! Z.to_nat i with Some v => Ret (v, s) | None => Fault i end.
Definition cell_put (i v : Z) : M cga unit := fun s =>
  if (0 <=? i) && (i <? Z.of_nat (length (vram s))) then Ret (tt, set_vram (<[Z.to_nat i := u16 v]> (vram s)) s)
  else Fault i.

(** [cga_init] after the page is mapped: blank cells, cursor at the top. *)
Definition cga_init : M cga unit := fun s =>
  Ret (tt, Cga (replicate 2000 0x0F20 ++ drop 2000 (vram s)) 0 0 (cga_attr s) 0).

Fixpoint scroll_copy (n : nat) (dest source : Z) : M cga unit :=
  match n with
  | O => mreturn tt
  | S n' => v <- cell_get source ;; cell_put dest v ;;; scroll_copy n' (dest + 1) (source + 1)
  end.

Fixpoint put_blanks (n : nat) (dest : Z) : M cga unit :=
  match n with
  | O => mreturn tt
  | S n' => a <- mgets cga_attr ;; cell_put dest (Z.lor 32 a) ;;; put_blanks n' (dest + 1)
  end.

Definition scroll1 : M cga unit :=
  let move_len := CGA_WIDTH * CGA_HEIGHT - CGA_WIDTH in
  scroll_copy (Z.to_nat move_len) 0 CGA_WIDTH ;;;
  put_blanks (Z.to_nat CGA_WIDTH) move_len.

Definition CALC_LOCATION (s : cga) : Z := CGA_WIDTH * cga_y s + cga_x s.

Definition ch_nl : Z := 10.
Definition ch_cr : Z := 13.
Definition ch_tab : Z := 9.
Definition ch_bs : Z := 8.

(** The switch over an ordinary character; gives the new [vram_current]. *)
Definition cga_put (c cur : Z) : M cga Z :=
  if c =? ch_tab then
    x0 <- mgets cga_x ;;
    let x := u16 (ALIGN_UP (x0 + 1) 8 - x0) in
    mmodify (fun s => set_x (u16 (cga_x s + x)) s) ;;;
    put_blanks (Z.to_nat x) cur ;;;
    mgets (fun s => CALC_LOCATION s - 1)
  else if c =? ch_bs then
    mmodify (fun s => if 0 <? cga_x s then set_x (cga_x s - 1) s else s) ;;;
    cur <- mgets CALC_LOCATION ;;
    a <- mgets cga_attr ;;
    cell_put cur (Z.lor 32 a) ;;;
    mreturn cur
  else
    a <- mgets cga_attr ;;
    cell_put cur (Z.lor c a) ;;;
    mmodify (fun s => set_x (u16 (cga_x s + 1)) s) ;;;
    mreturn cur.

(** One round of the loop of [cga_write]; gives the [vram_current] the next
    round starts with. *)
Definition cga_char (c cur : Z) : M cga Z :=
  cur <- (if negb (c =? ch_nl) && negb (c =? ch_cr) then cga_put c cur else mreturn cur) ;;
  x <- mgets cga_x ;;
  cur <- (if (CGA_WIDTH <=? x) || (c =? ch_nl) || (c =? ch_cr) then
            mmodify (set_x 0) ;;;
            (if negb (c =? ch_cr) then
               mmodify (fun s => set_y (u16 (cga_y s + 1)) s) ;;; mgets (fun s => CALC_LOCATION s - 1)
             else mreturn cur)
          else mreturn cur) ;;
  y <- mgets cga_y ;;
  cur <- (if CGA_HEIGHT <=? y then
            scroll1 ;;; mmodify (set_y (CGA_HEIGHT - 1)) ;;; mgets (fun s => CALC_LOCATION s - 1)
          else mreturn cur) ;;
  mreturn (cur + 1).

Fixpoint cga_loop (str : list Z) (cur : Z) : M cga unit :=
  match str with
  | [] => mreturn tt
  | c :: str' => cur <- cga_char c cur ;; cga_loop str' cur
  end.

Definition cga_spl_lock : M cga unit := fun s => if cga_lock s =? 0 then Ret (tt, set_lk 1 s) else Deadlock.

(** [None] is a NULL string, [Some l] the characters before the terminator. *)
Definition cga_write (str : option (list Z)) : M cga unit :=
  cga_spl_lock ;;;
  cur <- mgets CALC_LOCATION ;;
  cga_loop (default [] str) cur ;;;
  mmodify (set_lk 0).

(** ** The cursor and the cell it stands for *)

Record screen_ok (s : cga) : Prop := {
  so_len : length (vram s) = 2048%nat;
  so_cells : Forall (fun z => 0 <= z < 65536) (vram s);
  so_x : 0 <= cga_x s < CGA_WIDTH;
  so_y : 0 <= cga_y s < CGA_HEIGHT;
}.

Lemma cell_get_run i s v : 0 <= i -> vram s !! Z.to_nat i = Some v -> cell_get i s = Ret (v, s).
Proof. intros Hi Hv. unfold cell_get. destruct (Z.ltb_spec i 0); [lia|]. by rewrite Hv. Qed.

Lemma cell_put_run i v s : 0 <= i < Z.of_nat (length (vram s)) ->
  cell_put i v s = Ret (tt, set_vram (<[Z.to_nat i := u16 v]> (vram s)) s).
Proof. intros Hi. unfold cell_put. destruct (Z.leb_spec 0 i), (Z.ltb_spec i (Z.of_nat (length (vram s)))); done || lia. Qed.

Lemma u16_small x : 0 <= x < 65536 -> u16 x = x.
Proof. intros. unfold u16. by rewrite Z.mod_small. Qed.

(** The cells of [v] with those from [d] on, [n] of them, given by [f]. *)
Definition redrawn (v v' : list Z) (d : Z) (n : nat) (f : Z -> option Z) : Prop :=
  length v' = length v /\
  forall i, 0 <= i -> v' !! Z.to_nat i = if (d <=? i) && (i <? d + Z.of_nat n) then f i else v !! Z.to_nat i.

Lemma redrawn_nil v d f : redrawn v v d 0 f.
Proof.
  split; [done|]. intros i Hi. destruct (Z.leb_spec d i), (Z.ltb_spec i (d + Z.of_nat 0)); simpl; done || lia.
Qed.

Lemma redrawn_cons v w v' d n f z : 0 <= d < Z.of_nat (length v) -> f d = Some z ->
  v' = <[Z.to_nat d := z]> v -> redrawn v' w (d + 1) n f -> redrawn v w d (S n) f.
Proof.
  intros Hd Hz -> [Hl Hi]. rewrite length_insert in Hl. split; [done|]. intros i Hi0. rewrite Hi by done.
  destruct (decide (i = d)) as [->|Hne].
  - destruct (Z.leb_spec (d + 1) d); [lia|]. destruct (Z.leb_spec d d), (Z.ltb_spec d (d + Z.of_nat (S n))); try lia.
    simpl. rewrite list_lookup_insert_eq by lia. by rewrite Hz.
  - rewrite list_lookup_insert_ne by lia.
    destruct (Z.leb_spec (d + 1) i), (Z.leb_spec d i), (Z.ltb_spec i (d + 1 + Z.of_nat n)),
      (Z.ltb_spec i (d + Z.of_nat (S n))); simpl; done || lia.
Qed.

Lemma put_blanks_run n d s : 0 <= d -> d + Z.of_nat n <= Z.of_nat (length (vram s)) ->
  exists v, put_blanks n d s = Ret (tt, set_vram v s) /\
    redrawn (vram s) v d n (fun _ => Some (u16 (Z.lor 32 (cga_attr s)))).
Proof.
  revert d s. induction n as [|n IH]; intros d s Hd Hn.
  - exists (vram s). split; [by destruct s|apply redrawn_nil].
  - simpl. unfold mseq at 1, mgets. rewrite (mseq_run _ _ _ _ _ (cell_put_run d _ s ltac:(lia))).
    edestruct (IH (d + 1)) as (v & -> & Hv); [lia|simpl; rewrite length_insert; lia|].
    exists v. split; [done|]. eapply redrawn_cons; [lia|done|done|exact Hv].
Qed.

Lemma scroll_copy_run n d src s : 0 <= d < src -> src + Z.of_nat n <= Z.of_nat (length (vram s)) ->
  Forall (fun z => 0 <= z < 65536) (vram s) ->
  exists v, scroll_copy n d src s = Ret (tt, set_vram v s) /\
    redrawn (vram s) v d n (fun i => vram s !! Z.to_nat (i + (src - d))).
Proof.
  revert d src s. induction n as [|n IH]; intros d src s Hd Hn Hu.
  - exists (vram s). split; [by destruct s|apply redrawn_nil].
  - destruct (lookup_lt_is_Some_2 (vram s) (Z.to_nat src)) as [z Hz]; [lia|].
    assert (u16 z = z) as Hz16 by (apply u16_small; exact (Forall_lookup_1 _ _ _ _ Hu Hz)).
    simpl. rewrite (mseq_run _ _ _ _ _ (cell_get_run src s z ltac:(lia) Hz)).
    rewrite (mseq_run _ _ _ _ _ (cell_put_run d z s ltac:(lia))). rewrite Hz16.
    edestruct (IH (d + 1) (src + 1)) as (v & -> & Hv); [lia|simpl; rewrite length_insert; lia| |].
    { simpl. apply Forall_insert; [done|]. exact (Forall_lookup_1 _ _ _ _ Hu Hz). }
    exists v. split; [done|]. simpl in Hv. eapply (redrawn_cons _ _ _ _ _ _ z); [lia| |done|].
    { simpl. by replace (d + (src - d)) with src by lia. }
    destruct Hv as [Hl Hv]. split; [done|]. intros i Hi. rewrite Hv by done.
    destruct (Z.leb_spec (d + 1) i), (Z.ltb_spec i (d + 1 + Z.of_nat n)); simpl; try done.
    rewrite list_lookup_insert_ne by lia. f_equal. f_equal. lia.
Qed.

Lemma redrawn_cells v v' d n f : redrawn v v' d n f -> Forall (fun z => 0 <= z < 65536) v ->
  (forall i z, f i = Some z -> 0 <= z < 65536) -> Forall (fun z => 0 <= z < 65536) v'.
Proof.
  intros [Hl Hi] Hv Hf. apply Forall_lookup_2. intros i z Hz. specialize (Hi (Z.of_nat i) ltac:(lia)).
  rewrite Nat2Z.id, Hz in Hi. destruct (_ && _); [by eapply Hf|].
  symmetry in Hi. exact (Forall_lookup_1 _ _ _ _ Hv Hi).
Qed.

Lemma u16_range x : 0 <= u16 x < 65536.
Proof. apply Z.mod_pos_bound. lia. Qed.

(** Scrolling moves every line up by one and blanks the last one. *)
Lemma scroll1_run s : length (vram s) = 2048%nat -> Forall (fun z => 0 <= z < 65536) (vram s) ->
  exists v, scroll1 s = Ret (tt, set_vram v s) /\ length v = 2048%nat /\ Forall (fun z => 0 <= z < 65536) v /\
    (forall i, 0 <= i < 1920 -> v !! Z.to_nat i = vram s !! Z.to_nat (i + 80)) /\
    (forall i, 1920 <= i < 2000 -> v !! Z.to_nat i = Some (u16 (Z.lor 32 (cga_attr s)))) /\
    (forall i, 2000 <= i -> v !! Z.to_nat i = vram s !! Z.to_nat i).
Proof.
  intros Hl Hu. unfold scroll1.
  destruct (scroll_copy_run 1920 0 80 s) as (v & Hrun & Hv); [lia|rewrite Hl; lia|done|].
  change (Z.to_nat (CGA_WIDTH * CGA_HEIGHT - CGA_WIDTH)) with 1920%nat. rewrite (mseq_run _ _ _ _ _ Hrun).
  assert (Forall (fun z => 0 <= z < 65536) v) as Hu'.
  { eapply redrawn_cells; [exact Hv|done|]. simpl. intros i z Hz. exact (Forall_lookup_1 _ _ _ _ Hu Hz). }
  destruct Hv as [Hlv Hv].
  destruct (put_blanks_run 80 1920 (set_vram v s)) as (v2 & Hrun2 & Hv2); [lia|simpl; lia|].
  exists v2. split; [exact Hrun2|]. simpl in Hv2. split; [destruct Hv2; lia|].
  split; [eapply redrawn_cells; [exact Hv2|done|]; intros ? ? [= <-]; apply u16_range|].
  destruct Hv2 as [Hl2 Hv2]. split; [|split]; intros i Hi; rewrite Hv2 by lia.
  - destruct (Z.leb_spec 1920 i); [lia|]. simpl. rewrite Hv by lia.
    destruct (Z.leb_spec 0 i), (Z.ltb_spec i (0 + Z.of_nat 1920)); try lia. done.
  - destruct (Z.leb_spec 1920 i), (Z.ltb_spec i (1920 + Z.of_nat 80)); try lia. done.
  - destruct (Z.ltb_spec i (1920 + Z.of_nat 80)); [lia|]. rewrite andb_false_r. rewrite Hv by lia.
    destruct (Z.ltb_spec i (0 + Z.of_nat 1920)); [lia|]. by rewrite andb_false_r.
Qed.

(** The screen is as it should be, the pointer stands for the cursor, and
    the cells below the screen are those of [s0]. *)
Definition on_screen (s0 : cga) (cur : Z) (s : cga) : Prop :=
  screen_ok s /\ cur = CALC_LOCATION s /\ cga_attr s = cga_attr s0 /\ cga_lock s = cga_lock s0 /\
  forall i, 2000 <= i -> vram s !! Z.to_nat i = vram s0 !! Z.to_nat i.

(** After the character is put, the cursor may stand at the end of a line. *)
Lemma cga_put_ok c s : screen_ok s -> c <> ch_bs ->
  wp (cga_put c (CALC_LOCATION s)) (fun cur s' =>
    length (vram s') = 2048%nat /\ Forall (fun z => 0 <= z < 65536) (vram s') /\
    0 < cga_x s' <= CGA_WIDTH /\ cga_y s' = cga_y s /\ cga_attr s' = cga_attr s /\ cga_lock s' = cga_lock s /\
    cur + 1 = CALC_LOCATION s' /\ (forall i, 2000 <= i -> vram s' !! Z.to_nat i = vram s !! Z.to_nat i)) s.
Proof.
  intros [Hl Hu Hx Hy] Hbs. unfold cga_put, CGA_WIDTH, CGA_HEIGHT in *.
  assert (0 <= CALC_LOCATION s /\ CALC_LOCATION s + (80 - cga_x s) <= 2000) as Hcur
    by (unfold CALC_LOCATION, CGA_WIDTH; lia).
  destruct (Z.eqb_spec c ch_tab) as [->|_]; [|destruct (Z.eqb_spec c ch_bs) as [|_]; [done|]].
  - unfold wp, mseq at 1, mgets at 1. set (x := u16 (ALIGN_UP (cga_x s + 1) 8 - cga_x s)).
    assert (cga_x s < cga_x s + x <= 80) as Hxx.
    { unfold x. rewrite ALIGN_UP_8, u16_small by dlia. dlia. }
    unfold mseq at 1, mmodify. set (s1 := set_x (u16 (cga_x s + x)) s).
    destruct (put_blanks_run (Z.to_nat x) (CALC_LOCATION s) s1) as (v & Hrun & Hv); [lia|simpl; lia|].
    rewrite (mseq_run _ _ _ _ _ Hrun). unfold mgets. simpl.
    rewrite u16_small by lia. split_and!; try done; try lia.
    + destruct Hv. simpl in *. lia.
    + eapply redrawn_cells; [exact Hv|done|]. intros ? ? [= <-]. apply u16_range.
    + intros i Hi. destruct Hv as [_ ->]; [|lia]. simpl.
      destruct (Z.ltb_spec i (CALC_LOCATION s + Z.of_nat (Z.to_nat x))); [lia|]. by rewrite andb_false_r.
  - unfold wp, mseq at 1, mgets.
    assert (0 <= CALC_LOCATION s < Z.of_nat (length (vram s))) as Hin by lia.
    rewrite (mseq_run _ _ _ _ _ (cell_put_run (CALC_LOCATION s) _ s Hin)).
    unfold mseq, mmodify, mreturn. simpl. rewrite (u16_small (cga_x s + 1)) by lia. split_and!; try done; try lia.
    + by rewrite length_insert.
    + apply Forall_insert; [done|apply u16_range].
    + unfold CALC_LOCATION. simpl. unfold CGA_WIDTH. rewrite ?u16_small by lia. lia.
    + intros i Hi. rewrite list_lookup_insert_ne by lia. done.
Qed.

Lemma cga_char_ok c s0 s : c <> ch_cr -> c <> ch_bs -> on_screen s0 (CALC_LOCATION s) s ->
  wp (cga_char c (CALC_LOCATION s)) (on_screen s0) s.
Proof.
  intros Hcr Hbs (Hok & _ & Ha & Hlk & Hbelow). unfold cga_char.
  destruct (Z.eqb_spec c ch_cr) as [|_]; [done|]. simpl negb. rewrite andb_true_r.
  apply wp_bind.
  assert (wp (if negb (c =? ch_nl) then cga_put c (CALC_LOCATION s) else mreturn (CALC_LOCATION s)) (fun cur s' =>
    length (vram s') = 2048%nat /\ Forall (fun z => 0 <= z < 65536) (vram s') /\
    0 <= cga_x s' <= CGA_WIDTH /\ cga_y s' = cga_y s /\ cga_attr s' = cga_attr s /\ cga_lock s' = cga_lock s /\
    (cga_x s' < CGA_WIDTH -> c <> ch_nl -> cur + 1 = CALC_LOCATION s') /\
    (forall i, 2000 <= i -> vram s' !! Z.to_nat i = vram s !! Z.to_nat i)) s) as Hput.
  { destruct (Z.eqb_spec c ch_nl) as [->|]; simpl.
    - destruct Hok. apply wp_ret. split_and!; try done; lia.
    - eapply wp_mono; [by apply cga_put_ok|]. simpl. intros cur s' (? & ? & ? & ? & ? & ? & ? & ?).
      split_and!; try done; lia. }
  destruct Hok as [Hl Hu Hx Hy]. eapply wp_mono; [exact Hput|]. clear Hput. simpl.
  intros cur s1 (Hl1 & Hu1 & Hx1 & Hy1 & Ha1 & Hlk1 & Hc1 & Hb1).
  unfold mseq at 1, mgets at 1, wp. rewrite orb_false_r. rewrite <-Hy1 in Hy.
  destruct ((CGA_WIDTH <=? cga_x s1) || (c =? ch_nl)) eqn:Hbr.
  - unfold mseq, mmodify, mgets. simpl. rewrite u16_small by (unfold CGA_HEIGHT in *; lia).
    destruct (Z.leb_spec CGA_HEIGHT (cga_y s1 + 1)) as [Hsc|Hns]; simpl.
    + edestruct (scroll1_run (set_y (cga_y s1 + 1) (set_x 0 s1))) as (v & -> & Hlv & Huv & _ & _ & Hbv);
        [done|done|]. simpl in *.
      split; [split; simpl; try done; unfold CGA_WIDTH, CGA_HEIGHT; lia|].
      split; [unfold CALC_LOCATION; simpl; lia|]. do 2 (split; [simpl; congruence|]).
      simpl. intros i Hi. by rewrite Hbv, Hb1, Hbelow.
    + split; [split; simpl; try done; unfold CGA_WIDTH; lia|].
      split; [unfold CALC_LOCATION; simpl; lia|]. do 2 (split; [simpl; congruence|]).
      simpl. intros i Hi. by rewrite Hb1, Hbelow.
  - apply orb_false_iff in Hbr as [Hlt%Z.leb_gt Hnl%Z.eqb_neq].
    unfold mseq, mreturn, mgets. simpl. destruct (Z.leb_spec CGA_HEIGHT (cga_y s1)); [lia|].
    split; [split; try done; lia|]. split; [by apply Hc1|]. do 2 (split; [congruence|]).
    intros i Hi. by rewrite Hb1, Hbelow.
Qed.

Lemma cga_loop_ok l s0 s cur : Forall (fun c => c <> ch_cr /\ c <> ch_bs) l -> on_screen s0 cur s ->
  wp (cga_loop l cur) (fun _ s' => on_screen s0 (CALC_LOCATION s') s') s.
Proof.
  revert s cur. induction l as [|c l IH]; intros s cur Hl Hs.
  - apply wp_ret. by destruct Hs as (? & -> & ?).
  - apply Forall_cons in Hl as [[Hcr Hbs] Hl]. simpl. apply wp_bind.
    assert (cur = CALC_LOCATION s) as -> by apply Hs.
    eapply wp_mono; [by apply (cga_char_ok c s0)|]. intros cur' s' Hs'. by apply IH.
Qed.

(** C38: A string without carriage returns and backspaces is written within the
    screen: cga_write returns, no cell below line 25 changes, the cursor ends
    inside the 80 by 25 cells, and the lock is free again. *)
Theorem cga_write_stays_on_screen (l : list Z) (s : cga) :
  screen_ok s -> cga_lock s = 0 -> Forall (fun c => c <> ch_cr /\ c <> ch_bs) l ->
  wp (cga_write (Some l)) (fun _ s' => screen_ok s' /\ cga_lock s' = 0 /\
    forall i, 2000 <= i -> vram s' !! Z.to_nat i = vram s !! Z.to_nat i) s.
Proof.
  intros [] Hlk Hl. unfold cga_write, wp, cga_spl_lock, mseq at 1. rewrite Hlk. simpl.
  unfold mseq at 1, mgets. set (s1 := set_lk 1 s).
  assert (on_screen s1 (CALC_LOCATION s1) s1) as Hs1 by (split_and!; try done; by split).
  destruct (wp_run _ _ _ (cga_loop_ok l s1 s1 _ Hl Hs1)) as ([] & s' & Hrun & (Hok & _ & _ & _ & Hb)).
  rewrite (mseq_run _ _ _ _ _ Hrun). unfold mmodify. destruct Hok. split_and!; done.
Qed.

(** A carriage return does not move the output position back: each one
    moves it a cell on.  A string of [n] of them makes the next character
    land [n] cells behind the cursor, and with enough of them outside the
    mapped page. *)
Theorem cga_cr_runs_away (n : nat) (c : Z) (s : cga) :
  screen_ok s -> cga_lock s = 0 -> c <> ch_cr -> c <> ch_nl -> c <> ch_tab -> c <> ch_bs ->
  2048 <= CALC_LOCATION s + Z.of_nat n ->
  cga_write (Some (replicate n ch_cr ++ [c])) s = Fault (CALC_LOCATION s + Z.of_nat n).
Proof.
  intros [Hl Hu Hx Hy] Hlk H1 H2 H3 H4 Hn. unfold cga_write, cga_spl_lock, mseq at 1. rewrite Hlk.
  change (0 =? 0) with true. cbv iota. unfold mseq at 1, mgets. change (CALC_LOCATION (set_lk 1 s)) with (CALC_LOCATION s).
  assert (forall m cur t, length (vram t) = 2048%nat -> 0 <= cga_y t < 25 -> 2048 <= cur + Z.of_nat m ->
    cga_loop (replicate m ch_cr ++ [c]) cur t = Fault (cur + Z.of_nat m)) as Hloop.
  { clear - H1 H2 H3 H4. intros m. induction m as [|m IH]; intros cur t Hl Hy Hm; simpl.
    - unfold mseq at 1, cga_char.
      rewrite (proj2 (Z.eqb_neq c ch_nl)), (proj2 (Z.eqb_neq c ch_cr)) by done. simpl.
      unfold mseq at 1, cga_put. rewrite (proj2 (Z.eqb_neq c ch_tab)), (proj2 (Z.eqb_neq c ch_bs)) by done.
      unfold mseq at 1 2, mgets, cell_put. rewrite Hl.
      destruct (Z.ltb_spec cur (Z.of_nat 2048)); [lia|]. rewrite andb_false_r. f_equal. lia.
    - unfold mseq at 1, cga_char, mseq, mgets, mreturn. simpl. rewrite orb_true_r. unfold mmodify. simpl.
      destruct (Z.leb_spec CGA_HEIGHT (cga_y t)); [unfold CGA_HEIGHT in *; lia|].
      rewrite IH; [f_equal; lia|done|done|lia]. }
  unfold mseq at 1, default, id. rewrite Hloop; [done|done|exact Hy|done].
Qed.

Module CgaDemo.
Definition blank : cga := Cga (replicate 2048 0x0F20) 79 24 0x0700 0.

Lemma blank_ok : screen_ok blank.
Proof. split; [done|by apply Forall_replicate|done|done]. Qed.

Lemma cga_write_stays_on_screen_witness :
  screen_ok blank /\ wp (cga_write (Some [104; 105; 9; 10; 111])) (fun _ s' => screen_ok s' /\ cga_lock s' = 0 /\
    forall i, 2000 <= i -> vram s' !! Z.to_nat i = vram blank !! Z.to_nat i) blank.
Proof.
  split; [apply blank_ok|]. apply (cga_write_stays_on_screen [104; 105; 9; 10; 111] blank);
    [apply blank_ok|done|by repeat constructor].
Defined.

Lemma cga_cr_runs_away_witness :
  screen_ok blank /\ cga_write (Some (replicate 49 ch_cr ++ [97])) blank = Fault 2048.
Proof.
  split; [apply blank_ok|]. apply (cga_cr_runs_away 49 97 blank); [apply blank_ok|done..].
Defined.
End CgaDemo.
