(* ===== verification/Gdt.v ===== *)
(** * Segment descriptors and the task state: dyngdt.c, tss.c, cpu.c

    The GDT under construction is the page mapped at GDT_VIRTUAL, 512 words
    of 64 bits.  [selector_t] is the bit-field structure of dyngdt.h; the
    field an assignment stores is cut to the width of the field, and [bytes]
    is the other member of the union. *)

From S2P Require Import Prelude.
From S2P Require Import KList.
From S2P Require Import Heap.
From S2P Require Import Sched.
From S2P Require Import Stka.

Definition GDT_TYPE_CODE : Z := 8.
Definition GDT_TYPE_CODE_READ_ENABLE : Z := 2.
Definition GDT_TYPE_DATA_WRITE_ENABLE : Z := 2.
Definition GDT_TYPE_SYSTEM : Z := 8.
Definition GDT_TYPE_TSS : Z := Z.lor GDT_TYPE_SYSTEM 1.
Definition GDT_KTSS : Z := 0x28.
Definition RING_KERNEL : Z := 0.
Definition GDT_WORDS : Z := 512.

Record selector_t := Selector {
  limit_low : Z; base_low : Z; base_m_low : Z; type : Z; seg_sel : Z; dpl : Z; present : Z;
  limit_high : Z; avl0 : Z; large : Z; opsz : Z; granularity : Z; base_m_high : Z }.

(** The word a list of (width, value) fields makes up, low fields first. *)
Fixpoint pack (fs : list (Z * Z)) : Z :=
  match fs with [] => 0 | (n, v) :: fs' => v mod 2 ^ n + 2 ^ n * pack fs' end.

Definition bytes (s : selector_t) : Z := pack
  [ (16, limit_low s); (16, base_low s); (8, base_m_low s); (4, type s); (1, seg_sel s); (2, dpl s);
    (1, present s); (4, limit_high s); (1, avl0 s); (1, large s); (1, opsz s); (1, granularity s);
    (8, base_m_high s) ].

Definition ext_bytes (base_high : Z) : Z := pack [ (32, base_high); (8, 0); (5, 0); (19, 0) ].

Record gdt := Gdt { raw_gdt : list Z; gdt_lock : Z }.

Definition gdt_put (i v : Z) : M gdt unit := fun g =>
  if (0 <=? i) && (i <? Z.of_nat (length (raw_gdt g)))
  then Ret (tt, Gdt (<[Z.to_nat i := v]> (raw_gdt g)) (gdt_lock g)) else Fault i.

Definition dyngdt_init_spinlock : M gdt unit := mmodify (fun g => Gdt (raw_gdt g) 0).

(** [map_ok]: the page for the table could be mapped at GDT_VIRTUAL. *)
Definition dyngdt_init_and_lock (pa : Z) (map_ok : bool) : M gdt unit := fun g =>
  if negb (gdt_lock g =? 0) then Deadlock
  else if pa =? 0 then Fatal "failed to allocate space for dynamic gdt"
  else if negb map_ok then Fatal "mapping the GDT for this cpu failed, already initialized?"
  else Ret (tt, Gdt (replicate (Z.to_nat GDT_WORDS) 0) 1).

Definition dyngdt_set (sel base limit ty dp : Z) (lg sys : bool) : M gdt unit := fun g =>
  if 3 <? dp then Fatal "dpl out of range for gdt entry"
  else if gdt_lock g =? 0 then Fatal "global gdt initialization lock not locked!"
  else
    let selector := Selector
      (Z.land limit 0xFFFF) (Z.land base 0xFFFF) (Z.land (Z.shiftr base 16) 0xFF) ty
      (if sys then 0 else 1) dp 1 (Z.land (Z.shiftr limit 16) 0xF) 0
      (if lg then 1 else 0) (if lg then 0 else 1) (if sys then 0 else 1)
      (Z.land (Z.shiftr base 24) 0xFF) in
    let i := u16 sel / 8 in
    (gdt_put i (bytes selector) ;;;
     if sys && negb (Z.land ty GDT_TYPE_TSS =? 0) then gdt_put (i + 1) (ext_bytes (u32 (Z.shiftr base 32)))
     else mreturn tt) g.

(** Loading the table; [pa] is what GDT_VIRTUAL resolves to.  Gives limit and
    base of the table register. *)
Definition dyngdt_activate_and_unlock (pa : Z) : M gdt (Z * Z) := fun g =>
  if gdt_lock g =? 0 then Fatal "global gdt initialization lock not locked!"
  else Ret ((0x1000, pa), Gdt (raw_gdt g) 0).

(** ** The task state segment *)

Definition KSHEAP_START : Z := 0xFFFFFFFF70000000.
Definition KSHEAP_END : Z := 0xFFFFFFFF80000000.
Definition IST_FAULT_STACK : nat := 1.
Definition IST_SYSC_STACK : nat := 2.
Definition IST_LLHW_STACK : nat := 3.
Definition sizeof_tss_t : Z := 104.

Record tss_t := Tss { rsp : list Z; ist : list Z; iobm_off : Z }.
Definition tss_zero : tss_t := Tss (replicate 3 0) (replicate 8 0) 0.

Record cpu := Cpu { c_gdt : gdt; kstack_allocator : option stka; c_tss : gmap Z tss_t }.

Definition on_gdt {A} (op : M gdt A) : M cpu A := fun c =>
  match op (c_gdt c) with
  | Ret (a, g) => Ret (a, Cpu g (kstack_allocator c) (c_tss c))
  | Fatal m => Fatal m | Fault a => Fault a | Deadlock => Deadlock | NoFuel => NoFuel
  end.

Definition on_stka {A} (op : M stka A) : M cpu A := fun c =>
  match kstack_allocator c with
  | None => Fault 0
  | Some k =>
    match op k with
    | Ret (a, k') => Ret (a, Cpu (c_gdt c) (Some k') (c_tss c))
    | Fatal m => Fatal m | Fault a => Fault a | Deadlock => Deadlock | NoFuel => NoFuel
    end
  end.

Definition kstack_desc (space : Z) : stack_allocator_desc_t :=
  Desc KSHEAP_START KSHEAP_END space PG_WRITABLE true true.

(** Allocate a stack and read its top through the returned pointer. *)
Definition new_ist (map_ok : Z -> bool) (p : Z) : M cpu Z :=
  q <- on_stka (stka_alloc map_ok p) ;;
  x <- on_stka (stk_at q) ;;
  mreturn (top x).

(** [tss] and [p1 p2 p3] are the blocks the kernel heap returns. *)
Definition tss_init (map_ok : Z -> bool) (space tss p1 p2 p3 : Z) : M cpu unit :=
  mmodify (fun c => match kstack_allocator c with
                    | Some _ => c
                    | None => Cpu (c_gdt c) (Some (stka_new (kstack_desc space))) (c_tss c)
                    end) ;;;
  t1 <- new_ist map_ok p1 ;;
  t2 <- new_ist map_ok p2 ;;
  t3 <- new_ist map_ok p3 ;;
  let ists := <[IST_LLHW_STACK := t3]> (<[IST_SYSC_STACK := t2]> (<[IST_FAULT_STACK := t1]> (ist tss_zero))) in
  mmodify (fun c => Cpu (c_gdt c) (kstack_allocator c) (<[tss := Tss (rsp tss_zero) ists 0]> (c_tss c))) ;;;
  on_gdt (dyngdt_set GDT_KTSS tss sizeof_tss_t GDT_TYPE_TSS RING_USERSPACE true true).

(** The part of cpu_init that sets the segments up; [gdt_ok] as in
    [dyngdt_init_and_lock]. *)
Definition cpu_segments (map_ok : Z -> bool) (gdt_ok : bool) (space pa tss p1 p2 p3 : Z) : M cpu (Z * Z) :=
  on_gdt (dyngdt_init_and_lock pa gdt_ok) ;;;
  on_gdt (dyngdt_set GDT_KCODE64 0 0xFFFFFFFF (Z.lor GDT_TYPE_CODE GDT_TYPE_CODE_READ_ENABLE) RING_KERNEL true false) ;;;
  on_gdt (dyngdt_set GDT_KDATA64 0 0xFFFFFFFF GDT_TYPE_DATA_WRITE_ENABLE RING_KERNEL true false) ;;;
  on_gdt (dyngdt_set GDT_UCODE64 0 0xFFFFFFFF (Z.lor GDT_TYPE_CODE GDT_TYPE_CODE_READ_ENABLE) RING_USERSPACE true false) ;;;
  on_gdt (dyngdt_set GDT_UDATA64 0 0xFFFFFFFF GDT_TYPE_DATA_WRITE_ENABLE RING_USERSPACE true false) ;;;
  tss_init map_ok space tss p1 p2 p3 ;;;
  on_gdt (dyngdt_activate_and_unlock pa).

(** ** Reading a descriptor the way the processor does *)

Definition field (w lo n : Z) : Z := Z.shiftr w lo mod 2 ^ n.

Definition desc_base (w : Z) : Z := field w 16 16 + 2 ^ 16 * field w 32 8 + 2 ^ 24 * field w 56 8.
Definition desc_base64 (w ext : Z) : Z := desc_base w + 2 ^ 32 * field ext 0 32.
Definition desc_limit (w : Z) : Z := field w 0 16 + 2 ^ 16 * field w 48 4.
Definition desc_type (w : Z) : Z := field w 40 4.
Definition desc_dpl (w : Z) : Z := field w 45 2.
(** Code or data, present, 64-bit, granularity. *)
Definition desc_bits (w : Z) : Z * Z * Z * Z := (field w 44 1, field w 47 1, field w 53 1, field w 55 1).

(** A field of a packed word. *)
Lemma pack_range fs : Forall (fun f => 0 <= f.1) fs -> 0 <= pack fs < 2 ^ foldr (fun f t => f.1 + t) 0 fs.
Proof.
  induction fs as [|[n v] fs IH]; intros Hf; [simpl; lia|]. apply Forall_cons in Hf as [Hn Hf]. simpl in *.
  specialize (IH Hf). assert (0 <= foldr (fun f t => f.1 + t) 0 fs) as Hs.
  { clear -Hf. induction Hf as [|[m w] fs Hm _ IH]; simpl in *; lia. }
  rewrite Z.pow_add_r by lia. pose proof (Z.mod_pos_bound v (2 ^ n) ltac:(lia)). nia.
Qed.

Lemma pack_skip n v fs : 0 <= n -> Z.shiftr (pack ((n, v) :: fs)) n = pack fs.
Proof.
  intros Hn. simpl. rewrite Z.shiftr_div_pow2 by lia. pose proof (Z.mod_pos_bound v (2 ^ n) ltac:(lia)).
  rewrite Z.mul_comm, Z.div_add by lia. rewrite Z.div_small by lia. lia.
Qed.

Lemma pack_head n v fs : 0 <= n -> pack ((n, v) :: fs) mod 2 ^ n = v mod 2 ^ n.
Proof. intros Hn. simpl. rewrite Z.mul_comm, Z.mod_add, Z.mod_mod by lia. done. Qed.

Lemma field_pack pre n v post :
  Forall (fun f => 0 <= f.1) pre -> 0 <= n ->
  field (pack (pre ++ (n, v) :: post)) (foldr (fun f t => f.1 + t) 0 pre) n = v mod 2 ^ n.
Proof.
  intros Hp Hn. unfold field. induction Hp as [|[m w] pre Hm Hp IH].
  - simpl foldr. rewrite Z.shiftr_0_r. by apply pack_head.
  - simpl foldr. rewrite <-Z.shiftr_shiftr.
    + rewrite <-app_comm_cons, pack_skip by done. exact IH.
    + clear -Hp. induction Hp as [|[k x] pre Hk _ IH]; simpl in *; lia.
Qed.

Section selector_fields.
Variable s : selector_t.
Local Abbreviation fl := [ (16, limit_low s); (16, base_low s); (8, base_m_low s); (4, type s); (1, seg_sel s);
  (2, dpl s); (1, present s); (4, limit_high s); (1, avl0 s); (1, large s); (1, opsz s); (1, granularity s);
  (8, base_m_high s) ].

Lemma bytes_field i n v : fl !! i = Some (n, v) ->
  field (bytes s) (foldr (fun f t => f.1 + t) 0 (take i fl)) n = v mod 2 ^ n.
Proof.
  intros Hi. unfold bytes. rewrite <-(take_drop_middle _ _ _ Hi) at 1. apply field_pack.
  - apply Forall_take. repeat constructor; simpl; lia.
  - assert (Forall (fun f => 0 <= f.1) fl) as Hf by (repeat constructor; simpl; lia).
    exact (Forall_lookup_1 _ _ _ _ Hf Hi).
Qed.
End selector_fields.

Lemma base_parts b : 0 <= b ->
  Z.land b 0xFFFF mod 2 ^ 16 + 2 ^ 16 * (Z.land (Z.shiftr b 16) 0xFF mod 2 ^ 8)
  + 2 ^ 24 * (Z.land (Z.shiftr b 24) 0xFF mod 2 ^ 8) = b mod 2 ^ 32.
Proof.
  intros Hb. change 0xFFFF with (Z.ones 16). change 0xFF with (Z.ones 8).
  rewrite !Z.land_ones, !Z.mod_mod, !Z.shiftr_div_pow2 by lia. change (2 ^ 16) with 65536. change (2 ^ 8) with 256.
  change (2 ^ 24) with 16777216. change (2 ^ 32) with 4294967296. dlia.
Qed.

Lemma limit_parts l : 0 <= l ->
  Z.land l 0xFFFF mod 2 ^ 16 + 2 ^ 16 * (Z.land (Z.shiftr l 16) 0xF mod 2 ^ 4) = l mod 2 ^ 20.
Proof.
  intros Hl. change 0xFFFF with (Z.ones 16). change 0xF with (Z.ones 4).
  rewrite !Z.land_ones, !Z.mod_mod, !Z.shiftr_div_pow2 by lia. change (2 ^ 16) with 65536. change (2 ^ 4) with 16.
  change (2 ^ 20) with 1048576. dlia.
Qed.

Lemma ext_base b : 0 <= b < 2 ^ 64 -> field (ext_bytes (u32 (Z.shiftr b 32))) 0 32 = b / 2 ^ 32.
Proof.
  intros Hb. unfold ext_bytes.
  etrans; [exact (field_pack [] 32 _ _ (Forall_nil_2 _) ltac:(lia))|].
  unfold u32. rewrite Z.mod_mod, Z.shiftr_div_pow2 by lia. apply Z.mod_small.
  split; [apply Z.div_pos; lia|apply Z.div_lt_upper_bound; lia].
Qed.

(** What the processor reads of the descriptor [w] for the arguments of
    dyngdt_set. *)
Definition describes (w base limit ty dp : Z) (lg sys : bool) : Prop :=
  desc_base w = base mod 2 ^ 32 /\ desc_limit w = limit mod 2 ^ 20 /\ desc_type w = ty /\ desc_dpl w = dp /\
  desc_bits w = ((if sys then 0 else 1), 1, (if lg then 1 else 0), (if sys then 0 else 1)).

Lemma gdt_put_run i v g : 0 <= i < Z.of_nat (length (raw_gdt g)) ->
  gdt_put i v g = Ret (tt, Gdt (<[Z.to_nat i := v]> (raw_gdt g)) (gdt_lock g)).
Proof.
  intros Hi. unfold gdt_put.
  destruct (Z.leb_spec 0 i), (Z.ltb_spec i (Z.of_nat (length (raw_gdt g)))); done || lia.
Qed.

Lemma selector_describes base limit ty dp (lg sys : bool) :
  0 <= base -> 0 <= limit -> 0 <= ty < 16 -> 0 <= dp < 4 ->
  describes (bytes (Selector
      (Z.land limit 0xFFFF) (Z.land base 0xFFFF) (Z.land (Z.shiftr base 16) 0xFF) ty
      (if sys then 0 else 1) dp 1 (Z.land (Z.shiftr limit 16) 0xF) 0
      (if lg then 1 else 0) (if lg then 0 else 1) (if sys then 0 else 1)
      (Z.land (Z.shiftr base 24) 0xFF))) base limit ty dp lg sys.
Proof.
  intros Hb Hl Ht Hd. set (sel := Selector _ _ _ _ _ _ _ _ _ _ _ _ _).
  pose proof (fun i n v => bytes_field sel i n v) as Hf.
  unfold describes, desc_base, desc_limit, desc_type, desc_dpl, desc_bits.
  rewrite (Hf 0%nat _ _ eq_refl : field _ 0 16 = _), (Hf 1%nat _ _ eq_refl : field _ 16 16 = _),
    (Hf 2%nat _ _ eq_refl : field _ 32 8 = _), (Hf 12%nat _ _ eq_refl : field _ 56 8 = _),
    (Hf 7%nat _ _ eq_refl : field _ 48 4 = _), (Hf 3%nat _ _ eq_refl : field _ 40 4 = _),
    (Hf 5%nat _ _ eq_refl : field _ 45 2 = _), (Hf 4%nat _ _ eq_refl : field _ 44 1 = _),
    (Hf 6%nat _ _ eq_refl : field _ 47 1 = _), (Hf 9%nat _ _ eq_refl : field _ 53 1 = _),
    (Hf 11%nat _ _ eq_refl : field _ 55 1 = _).
  simpl limit_low. simpl base_low. simpl base_m_low. simpl base_m_high. simpl limit_high. simpl type. simpl dpl.
  split; [by apply base_parts|]. split; [by apply limit_parts|].
  split; [by apply Z.mod_small|]. split; [by apply Z.mod_small|]. by destruct sys, lg.
Qed.

(** What one call of dyngdt_set does to the table. *)
Lemma dyngdt_set_run (sel base limit ty dp : Z) (lg sys : bool) (g : gdt) :
  gdt_lock g <> 0 -> length (raw_gdt g) = 512%nat -> 0 <= sel < 0xFF8 -> 0 <= base < 2 ^ 64 -> 0 <= limit < 2 ^ 32 ->
  0 <= ty < 16 -> 0 <= dp < 4 ->
  exists w e, describes w base limit ty dp lg sys /\ desc_base64 w e = base /\
    dyngdt_set sel base limit ty dp lg sys g =
      Ret (tt, Gdt ((if sys && negb (Z.land ty GDT_TYPE_TSS =? 0) then <[Z.to_nat (sel / 8 + 1) := e]> else Datatypes.id)
                      (<[Z.to_nat (sel / 8) := w]> (raw_gdt g))) (gdt_lock g)).
Proof.
  intros Hlk Hlen Hsel Hb Hl Ht Hd. unfold dyngdt_set.
  destruct (Z.ltb_spec 3 dp); [lia|]. rewrite (proj2 (Z.eqb_neq _ _) Hlk).
  assert (u16 sel = sel) as -> by (unfold u16; apply Z.mod_small; lia).
  assert (0 <= sel / 8 < 511) as Hi by dlia. cbv zeta.
  set (w := bytes _). pose proof (selector_describes base limit ty dp lg sys ltac:(lia) ltac:(lia) Ht Hd) as Hw.
  fold w in Hw. clearbody w. exists w, (ext_bytes (u32 (Z.shiftr base 32))). split; [done|]. split.
  { unfold desc_base64. rewrite ext_base by done. destruct Hw as (-> & _). change (2 ^ 32) with 4294967296. dlia. }
  rewrite (mseq_run _ _ _ _ _ (gdt_put_run (sel / 8) w g ltac:(lia))).
  destruct (sys && negb (Z.land ty GDT_TYPE_TSS =? 0)); [|done].
  by rewrite gdt_put_run by (simpl; rewrite length_insert; lia).
Qed.

(** The descriptor dyngdt_set writes reads back as its arguments: base,
    limit, type, privilege level and the long-mode and granularity bits; for
    a task state segment the second slot holds the upper half of the base, so
    that all 64 bits come back.  No other slot changes. *)
Theorem dyngdt_set_decodes (sel base limit ty dp : Z) (lg sys : bool) (g : gdt) :
  gdt_lock g <> 0 -> length (raw_gdt g) = 512%nat -> 0 <= sel < 0xFF8 -> 0 <= base < 2 ^ 64 -> 0 <= limit < 2 ^ 32 ->
  0 <= ty < 16 -> 0 <= dp < 4 ->
  wp (dyngdt_set sel base limit ty dp lg sys) (fun _ g' =>
    gdt_lock g' = gdt_lock g /\ length (raw_gdt g') = 512%nat /\
    (exists w, raw_gdt g' !! Z.to_nat (sel / 8) = Some w /\ describes w base limit ty dp lg sys /\
       (sys && negb (Z.land ty GDT_TYPE_TSS =? 0) = true ->
        exists e, raw_gdt g' !! Z.to_nat (sel / 8 + 1) = Some e /\ desc_base64 w e = base)) /\
    (forall j, j <> Z.to_nat (sel / 8) -> 
       (sys && negb (Z.land ty GDT_TYPE_TSS =? 0) = true -> j <> Z.to_nat (sel / 8 + 1)) ->
       raw_gdt g' !! j = raw_gdt g !! j)) g.
Proof.
  intros Hlk Hlen Hsel Hb Hl Ht Hd. unfold wp.
  destruct (dyngdt_set_run sel base limit ty dp lg sys g Hlk Hlen Hsel Hb Hl Ht Hd) as (w & e & Hw & He & ->).
  assert (0 <= sel / 8 < 511) as Hi by dlia. split; [done|].
  destruct (sys && negb (Z.land ty GDT_TYPE_TSS =? 0)); cbn [raw_gdt Datatypes.id]; rewrite ?length_insert; (split; [done|split]).
  - exists w. rewrite list_lookup_insert_ne, list_lookup_insert_eq by lia. split; [done|]. split; [done|].
    intros _. exists e. by rewrite list_lookup_insert_eq by (rewrite length_insert; lia).
  - intros j Hj1 Hj2. specialize (Hj2 eq_refl). by rewrite !list_lookup_insert_ne by done.
  - exists w. by rewrite list_lookup_insert_eq by lia.
  - intros j Hj1 _. by rewrite list_lookup_insert_ne by done.
Qed.

Module GdtDemo.
Definition g0 : gdt := Gdt (replicate 512 0) 1.

Lemma dyngdt_set_decodes_witness :
  gdt_lock g0 <> 0 /\
  wp (dyngdt_set GDT_KTSS 0xFFFFFF0000001230 104 GDT_TYPE_TSS 3 true true) (fun _ g' =>
    gdt_lock g' = gdt_lock g0 /\ length (raw_gdt g') = 512%nat /\
    (exists w, raw_gdt g' !! Z.to_nat (GDT_KTSS / 8) = Some w /\
       describes w 0xFFFFFF0000001230 104 GDT_TYPE_TSS 3 true true /\
       (true && negb (Z.land GDT_TYPE_TSS GDT_TYPE_TSS =? 0) = true ->
        exists e, raw_gdt g' !! Z.to_nat (GDT_KTSS / 8 + 1) = Some e /\ desc_base64 w e = 0xFFFFFF0000001230)) /\
    (forall j, j <> Z.to_nat (GDT_KTSS / 8) ->
       (true && negb (Z.land GDT_TYPE_TSS GDT_TYPE_TSS =? 0) = true -> j <> Z.to_nat (GDT_KTSS / 8 + 1)) ->
       raw_gdt g' !! j = raw_gdt g0 !! j)) g0.
Proof.
  split; [done|]. apply (dyngdt_set_decodes GDT_KTSS 0xFFFFFF0000001230 104 GDT_TYPE_TSS 3 true true g0);
    (done || (vm_compute; by split)).
Defined.

Definition boot_cpu : cpu := Cpu (Gdt [] 0) None ∅.
Definition booted : cpu :=
  state_of (cpu_segments (fun _ => true) true 0x1000 0x5000 0xFFFFFF0000001230 8 16 24 boot_cpu) boot_cpu.

(** The table the boot processor ends up with: flat 64-bit code and data for
    both rings, the task state segment, and three interrupt stacks, each four
    pages and a guard page below the one before. *)
Theorem cpu_init_segments :
  ret_val (cpu_segments (fun _ => true) true 0x1000 0x5000 0xFFFFFF0000001230 8 16 24 boot_cpu) = Some (0x1000, 0x5000) /\
  take 9 (raw_gdt (c_gdt booted)) =
    [ 0; 0; 0; 0x00AF9A000000FFFF; 0x00AF92000000FFFF; 0x0020E90012300068; 0xFFFFFF00;
      0x00AFFA000000FFFF; 0x00AFF2000000FFFF ] /\
  ist <$> c_tss booted !! 0xFFFFFF0000001230 =
    Some [0; KSHEAP_END; KSHEAP_END - 0x5000; KSHEAP_END - 0xA000; 0; 0; 0; 0].
Proof. by vm_compute. Qed.
End GdtDemo.
