(* ===== verification/Cpu.v ===== *)
(** * Per-processor data: cpu.c

    The array [_cpulcl] lives on the kernel heap; its element is one pointer.
    The dummies used before [cpu_bsp_init] has run are given by address. *)

From S2P Require Import Prelude.
From S2P Require Import Mem.
From S2P Require Import Heap.
From S2P Require Import HeapSpec.

Definition sizeof_cpu_locals_t : Z := 8.

Record cpus := Cpus { cpumaxid : Z; cpulcl : Z; cpuinit : bool }.
Definition cpus0 : cpus := Cpus 0 0 false.

Record cpuid_leaf_t := Leaf { ax : Z; bx : Z; cx : Z; dx : Z }.

(** What cpu_init reports of the processor, from leaf 1. *)
Definition CPUID_01H_V_STEPPING (l : cpuid_leaf_t) : Z := Z.land (ax l) 0xF.
Definition CPUID_01H_V_MODEL (l : cpuid_leaf_t) : Z := Z.land (Z.shiftr (ax l) 4) 0xF.
Definition CPUID_01H_V_FAMILY (l : cpuid_leaf_t) : Z := Z.land (Z.shiftr (ax l) 8) 0xF.
Definition CPUID_01H_V_EX_MODEL (l : cpuid_leaf_t) : Z := Z.land (Z.shiftr (ax l) 16) 0xF.
Definition CPUID_01H_V_EX_FAMILY (l : cpuid_leaf_t) : Z := Z.land (Z.shiftr (ax l) 20) 0xFF.

Section cpu_c.
Context {St : Type} `{HasHeaps St} `{HasGlobMap St} `{HeapEnv St}.
Variables dummy_context dummy_bsplocals : Z.

Definition max32 (x y : Z) : Z := if y <? x then x else y.

(** The part of cpu_init that makes room for the locals of processor [id]. *)
Definition cpu_init_locals (fuel : nat) (id : Z) (c : cpus) : M St cpus :=
  let m := max32 (cpumaxid c) id in
  lcl <- heap_realloc fuel kheap (cpulcl c) (sizeof_cpu_locals_t * m) ;;
  memset (lcl + sizeof_cpu_locals_t * id) 0 sizeof_cpu_locals_t ;;;
  store64 (lcl + sizeof_cpu_locals_t * id) dummy_context ;;;
  mreturn (Cpus m lcl (cpuinit c)).

Definition cpu_locals (c : cpus) (id : Z) : outcome Z :=
  if negb (cpuinit c) then Ret dummy_bsplocals
  else if cpumaxid c <? id then Fatal "invalid cpu id"
  else Ret (cpulcl c + sizeof_cpu_locals_t * id).

Definition cpu_current_id (lapic_id : Z) (c : cpus) : Z := if cpuinit c then lapic_id else 0.

(** The processor name cpu_init prints: 16 bytes of each of three leaves, and
    nothing when the processor has no such leaves. *)
Definition cpu_name (cpuid : Z -> cpuid_leaf_t) : option (list Z) :=
  let words l := [ax l; bx l; cx l; dx l] in
  let le w := [u8 w; u8 (w / 2 ^ 8); u8 (w / 2 ^ 16); u8 (w / 2 ^ 24)] in
  if 0x80000004 <=? ax (cpuid 0x80000000) then
    Some (concat (le <$> (words (cpuid 0x80000002) ++ words (cpuid 0x80000003) ++ words (cpuid 0x80000004)))
          ++ [0; 0; 0; 0])
  else None.

(** Once the boot processor is set up, cpu_locals returns an address inside
    the array of every processor up to the highest one seen, and stops the
    machine for any other; before, it returns the dummy whatever the id. *)
Theorem cpu_locals_bounds (c : cpus) (id : Z) : 0 <= id ->
  (cpuinit c = false -> cpu_locals c id = Ret dummy_bsplocals) /\
  (cpuinit c = true -> id <= cpumaxid c ->
     exists p, cpu_locals c id = Ret p /\ cpulcl c <= p /\ p + 8 <= cpulcl c + 8 * (cpumaxid c + 1)) /\
  (cpuinit c = true -> cpumaxid c < id -> exists m, cpu_locals c id = Fatal m).
Proof.
  intros Hid. unfold cpu_locals, sizeof_cpu_locals_t. split_and!; intros -> **; simpl; [done| |].
  - destruct (Z.ltb_spec (cpumaxid c) id); [lia|]. eexists. split; [done|]. lia.
  - destruct (Z.ltb_spec (cpumaxid c) id); [|lia]. eauto.
Qed.
End cpu_c.

(** The array has room for [_cpumaxid] elements, one less than are used: on
    the first processor it has size 0, and its only element is the footer of
    the block.  The block cannot be freed or resized any more. *)
Module CpuDemo.
Export HeapDemo.
Definition boot1 : hst := state_of (cpu_init_locals 0x7000 20 0 cpus0 g1) g1.

Theorem cpu_locals_overwrite_footer :
  cpulcl <$> ret_val (cpu_init_locals 0x7000 20 0 cpus0 g1) = Some 65656 /\
  mread 8 (get_mem boot1) 65648 = Some HEAP_PRESENT /\
  mread 8 (get_mem boot1) 65656 = Some 0x7000 /\
  ret_val (heap_validate kheap 65656 boot1) = Some false.
Proof. by vm_compute. Qed.

Lemma cpu_locals_bounds_witness :
  0 <= 0 /\ ((cpuinit cpus0 = false -> cpu_locals 0x9000 cpus0 0 = Ret 0x9000) /\
  (cpuinit cpus0 = true -> 0 <= cpumaxid cpus0 ->
     exists p, cpu_locals 0x9000 cpus0 0 = Ret p /\ cpulcl cpus0 <= p /\ p + 8 <= cpulcl cpus0 + 8 * (cpumaxid cpus0 + 1)) /\
  (cpuinit cpus0 = true -> cpumaxid cpus0 < 0 -> exists m, cpu_locals 0x9000 cpus0 0 = Fatal m)).
Proof. split; [lia|]. apply (cpu_locals_bounds 0x9000 cpus0 0). lia. Defined.
End CpuDemo.
