(* ===== verification/Rd.v ===== *)
(** * The RAM disk image tool: tools/apps/rd/rd.c

    The tool packs files into an image the kernel finds as a boot module, and
    unpacks it again.  A file name is the list of its bytes; the host's file
    system is a map from names to nodes.  Reading and writing an open regular
    file succeeds; whether a new file may be created under a name is a
    parameter.  [create] and [extract] have no return statement at their end:
    [NoValue] is the exit status the caller then gets.  A file name that is not
    terminated inside its header is read beyond it: a [Fault]. *)

From S2P Require Import Prelude.

Abbreviation path := (list Z).

Inductive node := Dir | File (content : list Z).
Abbreviation files := (gmap (list Z) node).

(** What the tool prints of one file of an image. *)
Record entry := Entry { e_name : list Z; e_size : Z; e_start : Z }.
Record host := Host { fs : files; out : list entry }.
Definition set_fs (f : files) (s : host) : host := Host f (out s).

Inductive status := Code (c : Z) | NoValue.

Definition ERR_ARGUMENT : Z := 1.
Definition ERR_FILENAME : Z := 2.
Definition ERR_OSCALL : Z := 3.
Definition ERR_NOIMAGE : Z := 4.
Definition ERR_HDRSIZE : Z := 5.
Definition ERR_ISDIR : Z := 6.

(** ** The image format: rd.h *)

Definition RD_MAGIC : Z := 0x44524452.

Record rd_header_t := RdHeader { magic : Z; hdr_size : Z; num_files : Z }.
Record rd_file_t := RdFile { fhdr_size : Z; f_start : Z; f_size : Z; f_name : list Z }.
Definition sizeof_rd_header_t : Z := 12.
Definition sizeof_rd_file_t : Z := 76.
Definition sizeof_name : Z := 64.

Definition le32 (x : Z) : list Z := [u8 x; u8 (x / 2 ^ 8); u8 (x / 2 ^ 16); u8 (x / 2 ^ 24)].
Definition unle32 (l : list Z) : Z :=
  match l with
  | a :: b :: c :: d :: _ => a + 2 ^ 8 * b + 2 ^ 16 * c + 2 ^ 24 * d
  | _ => 0
  end.

(** The packed structures as bytes, and back. *)
Definition enc_header (h : rd_header_t) : list Z := le32 (magic h) ++ le32 (hdr_size h) ++ le32 (num_files h).
Definition enc_file (f : rd_file_t) : list Z :=
  le32 (fhdr_size f) ++ le32 (f_start f) ++ le32 (f_size f) ++ f_name f.
Definition dec_header (l : list Z) : rd_header_t :=
  RdHeader (unle32 l) (unle32 (drop 4 l)) (unle32 (drop 8 l)).
Definition dec_file (l : list Z) : rd_file_t :=
  RdFile (unle32 l) (unle32 (drop 4 l)) (unle32 (drop 8 l)) (take 64 (drop 12 l)).

(** ** The C library and the system calls the tool uses *)

(** The string a buffer holds; [None]: no terminator inside the buffer. *)
Fixpoint cstring (buf : list Z) : option (list Z) :=
  match buf with
  | [] => None
  | c :: r => if c =? 0 then Some [] else (fun l => c :: l) <$> cstring r
  end.

(** [strncpy] into a buffer of [n] bytes: cut off or padded with zeros. *)
Definition strncpy_buf (s : list Z) (n : nat) : list Z := take n s ++ replicate (n - length s) 0.

(** The part of [s] behind the last [c]; all of [s] when there is none. *)
Fixpoint after_last (c : Z) (s : list Z) : option (list Z) :=
  match s with
  | [] => None
  | x :: r => match after_last c r with
              | Some t => Some t
              | None => if x =? c then Some r else None
              end
  end.

(** [write] at offset [o] of a file of content [c]. *)
Definition write_at (o : nat) (bs c : list Z) : list Z :=
  take o c ++ replicate (o - length c) 0 ++ bs ++ drop (o + length bs) c.

(** Bytes [n] from offset [o] on, fewer at the end of the file. *)
Definition read_at (o n : nat) (c : list Z) : list Z := take n (drop o c).

(** What a read of [n] bytes leaves in a buffer that held [junk]. *)
Definition read_into (junk bs : list Z) : list Z := bs ++ drop (length bs) junk.

Section rd_c.
(** Whether a file may be created under a name. *)
Variable can_create : list Z -> bool.
(** What the stack slots of the headers hold before a read fills them. *)
Variable hdr_junk : list Z.
Variable fhdr_junk : Z -> list Z.

(** open(name, O_CREAT | O_WRONLY): the old content stays. *)
Definition open_wr (name : list Z) : M host bool := fun s =>
  match fs s !! name with
  | Some (File _) => Ret (true, s)
  | Some Dir => Ret (false, s)
  | None => if can_create name then Ret (true, set_fs (<[name := File []]> (fs s)) s) else Ret (false, s)
  end.

(** open(name, O_CREAT | O_EXCL | O_WRONLY). *)
Definition open_excl (name : list Z) : M host bool := fun s =>
  match fs s !! name with
  | Some _ => Ret (false, s)
  | None => if can_create name then Ret (true, set_fs (<[name := File []]> (fs s)) s) else Ret (false, s)
  end.

(** The content of a file open for reading. *)
Definition content_of (name : list Z) : M host (option (list Z)) :=
  mgets (fun s => match fs s !! name with Some (File c) => Some c | _ => None end).

(** write(target, bs) at the descriptor's offset [o]. *)
Definition write_fd (name : list Z) (o : nat) (bs : list Z) : M host unit :=
  mmodify (fun s => match fs s !! name with
                    | Some (File c) => set_fs (<[name := File (write_at o bs c)]> (fs s)) s
                    | _ => s
                    end).

Definition print_entry (e : entry) : M host unit := mmodify (fun s => Host (fs s) (out s ++ [e])).

(** ** create *)

(** The loop over the file names: [pos] is the variable, [o] the offset of
    the target's descriptor. *)
Fixpoint create_loop (name : list Z) (filenames : list (list Z)) (pos : Z) (o : nat) : M host status :=
  match filenames with
  | [] => mreturn NoValue
  | f :: rest =>
      if sizeof_name - 1 <? Z.of_nat (length f) then mreturn (Code ERR_FILENAME)
      else
        n <- mgets (fun s => fs s !! f) ;;
        match n with
        | None => mreturn (Code ERR_OSCALL)
        | Some Dir => mreturn (Code ERR_ISDIR)
        | Some (File c) =>
            let basename := default f (after_last 47 f) in
            let size := u32 (Z.of_nat (length c)) in
            let fhdr := RdFile sizeof_rd_file_t (u32 (pos + sizeof_rd_file_t)) size
                          (strncpy_buf basename (Z.to_nat sizeof_name)) in
            write_fd name o (enc_file fhdr) ;;;
            src <- content_of f ;;
            match src with
            | None => mreturn (Code ERR_OSCALL)
            | Some c' =>
                let bs := read_at 0 (Z.to_nat size) c' in
                let o' := (o + length (enc_file fhdr))%nat in
                write_fd name o' bs ;;;
                create_loop name rest (s32 (pos + sizeof_rd_file_t + size)) (o' + length bs)
            end
        end
  end.

Definition create (name : list Z) (nfiles : Z) (filenames : list (list Z)) : M host status :=
  let hdr := RdHeader RD_MAGIC sizeof_rd_header_t (u32 nfiles) in
  ok <- open_wr name ;;
  if negb ok then mreturn (Code ERR_OSCALL)
  else
    write_fd name 0 (enc_header hdr) ;;;
    create_loop name filenames sizeof_rd_header_t (length (enc_header hdr)).

(** ** extract *)

(** One turn of the loop, with [n] files to go and the source's offset at [o]:
    the status extract returns with, or the offset of the next file.  A name
    without a terminator in its 64 bytes is read beyond the header. *)
Definition extract_file (name : list Z) (test : bool) (n o : nat) : M host (status + nat) :=
  src <- content_of name ;;
  match src with
  | None => mreturn (inl (Code ERR_OSCALL))
  | Some c =>
      let fhdr := dec_file (read_into (fhdr_junk (Z.of_nat n)) (read_at o (Z.to_nat sizeof_rd_file_t) c)) in
      if negb (fhdr_size fhdr =? sizeof_rd_file_t) then mreturn (inl (Code ERR_HDRSIZE))
      else
        match cstring (f_name fhdr) with
        | None => mfault 0
        | Some fname =>
            (if test then print_entry (Entry fname (f_size fhdr) (f_start fhdr)) else mreturn tt) ;;;
            ok <- (if test then mreturn true
                   else ok <- open_excl fname ;;
                        if (ok : bool) then
                          write_fd fname 0 (read_at (Z.to_nat (f_start fhdr)) (Z.to_nat (f_size fhdr)) c) ;;;
                          mreturn true
                        else mreturn false) ;;
            if negb ok then mreturn (inl (Code ERR_OSCALL))
            else
              let off := u32 (f_start fhdr + f_size fhdr) in
              if off =? 2 ^ 32 - 1 then mreturn (inl (Code ERR_OSCALL))
              else mreturn (inr (Z.to_nat off))
        end
  end.

(** [while(hdr.num_files-- > 0)] *)
Fixpoint extract_loop (name : list Z) (test : bool) (n : nat) (o : nat) : M host status :=
  match n with
  | O => mreturn NoValue
  | S n' =>
      r <- extract_file name test n o ;;
      match r with
      | inl st => mreturn st
      | inr off => extract_loop name test n' off
      end
  end.

Definition extract (name : list Z) (test : bool) : M host status :=
  src <- content_of name ;;
  match src with
  | None => mreturn (Code ERR_OSCALL)
  | Some c =>
      let hdr := dec_header (read_into hdr_junk (read_at 0 (Z.to_nat sizeof_rd_header_t) c)) in
      if negb (magic hdr =? RD_MAGIC) then mreturn (Code ERR_NOIMAGE)
      else if negb (hdr_size hdr =? sizeof_rd_header_t) then mreturn (Code ERR_HDRSIZE)
      else extract_loop name test (Z.to_nat (num_files hdr)) (Z.to_nat sizeof_rd_header_t)
  end.

(** ** main *)

Definition has (c : Z) (s : list Z) : bool := bool_decide (c ∈ s).
Arguments has : simpl never.

Definition main (argv : list (list Z)) : M host status :=
  match argv with
  | _ :: opts :: image :: rest =>
      let mode_test := has 116 opts in
      let mode_create := has 99 opts in
      let mode_extract := has 120 opts in
      if 1 <? Z.b2z mode_test + Z.b2z mode_create + Z.b2z mode_extract then mreturn (Code ERR_ARGUMENT)
      else if mode_create then
        match rest with
        | [] => mreturn (Code ERR_ARGUMENT)
        | _ => create image (Z.of_nat (length rest)) rest
        end
      else extract image mode_test
  | _ => mreturn (Code ERR_ARGUMENT)
  end.
End rd_c.

(** ** The image as a specification *)

Definition basename (f : list Z) : list Z := default f (after_last 47 f).

Fixpoint body (pos : Z) (l : list (list Z * list Z)) : list Z :=
  match l with
  | [] => []
  | (b, c) :: r =>
      enc_file (RdFile 76 (pos + 76) (Z.of_nat (length c)) (strncpy_buf b 64)) ++ c ++
      body (pos + 76 + Z.of_nat (length c)) r
  end.

Definition image (l : list (list Z * list Z)) : list Z :=
  enc_header (RdHeader RD_MAGIC 12 (Z.of_nat (length l))) ++ body 12 l.

(** A name that fits the header: no zero byte, at most 63 of them. *)
Definition name_ok (b : list Z) : Prop := Forall (fun x => 0 < x < 256) b /\ (length b <= 63)%nat.

(** ** Lemmas on the encoding *)

Lemma length_enc_file f : length (f_name f) = 64%nat -> length (enc_file f) = 76%nat.
Proof. intros Hn. unfold enc_file, le32. simpl. by rewrite Hn. Qed.

Lemma length_strncpy_buf s n : length (strncpy_buf s n) = n.
Proof. unfold strncpy_buf. rewrite length_app, length_take, length_replicate. lia. Qed.

Lemma le32_unle32 x l : 0 <= x < 2 ^ 32 -> unle32 (le32 x ++ l) = x.
Proof. intros Hx. cbn [le32 unle32 app]. unfold u8. dlia. Qed.

Lemma write_at_app pre old bs : write_at (length pre) bs (pre ++ old) = pre ++ bs ++ drop (length bs) old.
Proof.
  unfold write_at. rewrite take_app_length, length_app.
  replace (length pre - _)%nat with 0%nat by lia. simpl. do 2 f_equal.
  by rewrite drop_app_add.
Qed.

Lemma read_at_app pre bs post : read_at (length pre) (length bs) (pre ++ bs ++ post) = bs.
Proof. unfold read_at. rewrite drop_app_length. apply take_app_length. Qed.

Lemma read_at_all c : read_at 0 (length c) c = c.
Proof. unfold read_at. simpl. by rewrite take_ge. Qed.

Lemma dec_enc_header h :
  0 <= magic h < 2 ^ 32 -> 0 <= hdr_size h < 2 ^ 32 -> 0 <= num_files h < 2 ^ 32 ->
  dec_header (enc_header h) = h.
Proof.
  destruct h as [m z n]; cbn [magic hdr_size num_files]; intros Hm Hz Hn.
  unfold dec_header, enc_header; cbn [magic hdr_size num_files].
  change (drop 4 (le32 m ++ le32 z ++ le32 n)) with (le32 z ++ le32 n).
  change (drop 8 (le32 m ++ le32 z ++ le32 n)) with (le32 n).
  rewrite <-(app_nil_r (le32 n)) at 3. by rewrite !le32_unle32.
Qed.

Lemma dec_enc_file f :
  0 <= fhdr_size f < 2 ^ 32 -> 0 <= f_start f < 2 ^ 32 -> 0 <= f_size f < 2 ^ 32 ->
  length (f_name f) = 64%nat -> dec_file (enc_file f) = f.
Proof.
  destruct f as [h a z n]; cbn [fhdr_size f_start f_size f_name]; intros Hh Ha Hz Hn.
  unfold dec_file, enc_file; cbn [fhdr_size f_start f_size f_name].
  change (drop 4 (le32 h ++ le32 a ++ le32 z ++ n)) with (le32 a ++ le32 z ++ n).
  change (drop 8 (le32 h ++ le32 a ++ le32 z ++ n)) with (le32 z ++ n).
  change (drop 12 (le32 h ++ le32 a ++ le32 z ++ n)) with n.
  rewrite !le32_unle32 by done. by rewrite <-Hn, take_ge.
Qed.

Lemma cstring_padded s n : Forall (fun x => 0 < x < 256) s -> cstring (s ++ replicate (S n) 0) = Some s.
Proof.
  induction 1 as [|x s Hx _ IH]; [done|]. cbn [app cstring].
  destruct (Z.eqb_spec x 0); [lia|]. by rewrite IH.
Qed.

Lemma cstring_name b : name_ok b -> cstring (strncpy_buf b 64) = Some b.
Proof.
  intros [Hb Hl]. unfold strncpy_buf. rewrite take_ge by lia.
  replace (64 - length b)%nat with (S (63 - length b)) by lia. by apply cstring_padded.
Qed.

Lemma after_last_suffix c s t : after_last c s = Some t -> exists p, s = p ++ t /\ p <> [].
Proof.
  revert t. induction s as [|x r IH]; intros t; [done|]. simpl.
  destruct (after_last c r) as [u|]; [intros [= ->]; destruct (IH t eq_refl) as (p & -> & _); by exists (x :: p)|].
  destruct (x =? c); [intros [= ->]; by exists [x]|done].
Qed.

Lemma basename_ok f : name_ok f -> name_ok (basename f).
Proof.
  intros [Hf Hl]. unfold basename. destruct (after_last 47 f) as [t|] eqn:E; [|done].
  destruct (after_last_suffix _ _ _ E) as (p & -> & _). simpl.
  apply Forall_app in Hf as [_ Ht]. rewrite length_app in Hl. split; [done|lia].
Qed.

Section rd_spec.
Variable can_create : list Z -> bool.
Variable hdr_junk : list Z.
Variable fhdr_junk : Z -> list Z.

(** The source files a run of create packs: regular, distinct from the image. *)
Definition packable (f0 : files) (name : list Z) (f c : list Z) : Prop :=
  f0 !! f = Some (File c) /\ f <> name /\ name_ok f.

Lemma length_body pos pos' l : length (body pos l) = length (body pos' l).
Proof.
  revert pos pos'. induction l as [|[b c] r IH]; intros; [done|]. cbn [body].
  rewrite !length_app, !length_enc_file by (cbn [f_name]; apply length_strncpy_buf). by erewrite IH.
Qed.

Lemma write_fd_run name o bs s c : fs s !! name = Some (File c) ->
  write_fd name o bs s = Ret (tt, set_fs (<[name := File (write_at o bs c)]> (fs s)) s).
Proof. intros E. unfold write_fd, mmodify. by rewrite E. Qed.

(** One turn of create's loop appends one entry. *)
Lemma create_loop_run name fl cl : forall s pre old,
  Forall2 (packable (fs s) name) fl cl ->
  fs s !! name = Some (File (pre ++ old)) ->
  Z.of_nat (length pre) + Z.of_nat (length (body 0 (zip (basename <$> fl) cl))) < 2 ^ 31 ->
  create_loop name fl (Z.of_nat (length pre)) (length pre) s =
    let b := body (Z.of_nat (length pre)) (zip (basename <$> fl) cl) in
    Ret (NoValue, set_fs (<[name := File (pre ++ b ++ drop (length b) old)]> (fs s)) s).
Proof.
  revert cl. induction fl as [|f fl IH]; intros cl s pre old HF Hn Hlen; inversion HF as [|? c ? cl' Hp HF']; subst.
  { simpl. unfold mreturn. destruct s as [f0 o0]; simpl in *. unfold set_fs. simpl. by rewrite insert_id. }
  destruct Hp as (Hf & Hne & Hok). pose proof Hok as [_ Hlf].
  cbn [create_loop fmap list_fmap zip zip_with body]. cbn zeta.
  set (h := RdFile _ _ _ _). set (B := strncpy_buf _ _) in h.
  cbn [fmap list_fmap zip zip_with body] in Hlen.
  rewrite !length_app, length_enc_file in Hlen by (cbn [f_name]; apply length_strncpy_buf).
  destruct (Z.ltb_spec (sizeof_name - 1) (Z.of_nat (length f))); [unfold sizeof_name in *; lia|].
  unfold mgets. unfold mseq at 1. rewrite Hf. fold (basename f).
  rewrite (u32_small (Z.of_nat (length c))) by lia.
  rewrite (u32_small (_ + sizeof_rd_file_t)) by (unfold sizeof_rd_file_t; lia).
  set (h' := RdFile sizeof_rd_file_t _ _ _). change h' with h.
  rewrite (mseq_run _ _ _ _ _ (write_fd_run _ _ _ _ _ Hn)), write_at_app.
  set (s1 := set_fs _ s).
  assert (E1 : content_of f s1 = Ret (Some c, s1)).
  { unfold content_of, mgets. simpl. by rewrite lookup_insert_ne, Hf. }
  rewrite (mseq_run _ _ _ _ _ E1), Nat2Z.id, read_at_all.
  assert (Hlh : length (enc_file h) = 76%nat) by (apply length_enc_file, length_strncpy_buf).
  assert (E2 : fs s1 !! name = Some (File ((pre ++ enc_file h) ++ drop (length (enc_file h)) old)))
    by (unfold s1, set_fs; cbn [fs]; rewrite lookup_insert_eq; by rewrite <-app_assoc).
  rewrite (mseq_run _ _ _ _ _ (write_fd_run _ _ _ _ _ E2)), <-length_app, write_at_app.
  set (s2 := set_fs _ s1).
  replace (s32 _) with (Z.of_nat (length ((pre ++ enc_file h) ++ c)))
    by (rewrite s32_small by (unfold sizeof_rd_file_t; lia); rewrite !length_app, Hlh; unfold sizeof_rd_file_t; lia).
  rewrite <-length_app.
  rewrite (IH cl' s2 ((pre ++ enc_file h) ++ c) (drop (length c) (drop (length (enc_file h)) old))).
  - cbn zeta. unfold s2, s1, set_fs. cbn [fs out]. apply Ret_eq; [done|]. f_equal.
    rewrite !insert_insert_eq. do 2 f_equal. rewrite !length_app, Hlh.
    replace (Z.of_nat (length pre + 76 + length c)) with (Z.of_nat (length pre) + 76 + Z.of_nat (length c)) by lia.
    rewrite !drop_drop, <-!app_assoc. do 4 f_equal.
  - eapply Forall2_impl; [exact HF'|]. intros g d (Hg & Hgn & Hgo). split; [|done]. simpl.
    by rewrite !lookup_insert_ne.
  - unfold s2, s1, set_fs; cbn [fs]. rewrite lookup_insert_eq. by rewrite <-!app_assoc.
  - rewrite !length_app, Hlh, (length_body 0 (0 + 76 + Z.of_nat (length c))). lia.
Qed.

(** The files of [l], placed into the directory. *)
Fixpoint add_files (l : list (list Z * list Z)) (f : files) : files :=
  match l with
  | [] => f
  | (b, c) :: r => add_files r (<[b := File c]> f)
  end.

(** A name extract may create. *)
Definition fresh (f0 : files) (b : list Z) : Prop := name_ok b /\ f0 !! b = None /\ can_create b = true.

Lemma open_excl_run b s : fs s !! b = None -> can_create b = true ->
  open_excl can_create b s = Ret (true, set_fs (<[b := File []]> (fs s)) s).
Proof. intros E Hc. unfold open_excl. by rewrite E, Hc. Qed.

Lemma read_into_full junk bs : length junk = length bs -> read_into junk bs = bs.
Proof. intros E. unfold read_into. rewrite drop_ge by lia. apply app_nil_r. Qed.

(** A turn at a packed file's header creates that file. *)
Lemma extract_file_run name s n pre b c rest :
  fresh (fs s) b -> (forall n, length (fhdr_junk n) = 76%nat) ->
  let h := RdFile 76 (Z.of_nat (length pre) + 76) (Z.of_nat (length c)) (strncpy_buf b 64) in
  fs s !! name = Some (File (pre ++ enc_file h ++ c ++ rest)) ->
  Z.of_nat (length pre) + 76 + Z.of_nat (length c) < 2 ^ 31 ->
  extract_file can_create fhdr_junk name false n (length pre) s =
    Ret (inr (length (pre ++ enc_file h ++ c)), set_fs (<[b := File c]> (fs s)) s).
Proof.
  intros (Hb & Hbn & Hbc) Hj h Hn Hlen.
  assert (Hlh : length (enc_file h) = 76%nat) by (apply length_enc_file, length_strncpy_buf).
  unfold extract_file. set (C := pre ++ _ ++ _ ++ _) in Hn.
  assert (E0 : content_of name s = Ret (Some C, s)) by (unfold content_of, mgets; by rewrite Hn).
  rewrite (mseq_run _ _ _ _ _ E0).
  assert (Er : read_at (length pre) (Z.to_nat sizeof_rd_file_t) C = enc_file h).
  { unfold C. change (Z.to_nat sizeof_rd_file_t) with 76%nat. rewrite <-Hlh. apply read_at_app. }
  rewrite Er, read_into_full by (by rewrite Hj, Hlh).
  rewrite dec_enc_file by (cbn [h fhdr_size f_start f_size f_name]; first [lia | apply length_strncpy_buf]).
  cbn [h fhdr_size f_start f_size f_name]. change (negb (76 =? sizeof_rd_file_t)) with false. cbv iota.
  rewrite (cstring_name _ Hb). unfold mreturn at 1. unfold mseq at 1.
  assert (Hd : read_at (Z.to_nat (Z.of_nat (length pre) + 76)) (Z.to_nat (Z.of_nat (length c))) C = c).
  { replace C with ((pre ++ enc_file h) ++ c ++ rest) by (unfold C; by rewrite <-!app_assoc).
    replace (Z.to_nat (_ + 76)) with (length (pre ++ enc_file h)) by (rewrite length_app, Hlh; lia).
    rewrite Nat2Z.id. apply read_at_app. }
  rewrite Hd, mseq_assoc.
  rewrite (mseq_run _ _ _ _ _ (open_excl_run _ _ Hbn Hbc)). set (s1 := set_fs _ s).
  assert (E1 : fs s1 !! b = Some (File [])) by (unfold s1, set_fs; cbn [fs]; apply lookup_insert_eq).
  rewrite mseq_assoc, (mseq_run _ _ _ _ _ (write_fd_run _ _ _ _ _ E1)).
  unfold mreturn at 1. unfold mseq at 1. cbn [negb].
  rewrite u32_small by lia. destruct (Z.eqb_spec (Z.of_nat (length pre) + 76 + Z.of_nat (length c)) (2 ^ 32 - 1)); [lia|].
  replace (Z.to_nat _) with (length (pre ++ enc_file h ++ c)) by (rewrite !length_app, Hlh; lia).
  assert (Ew : write_at 0 c [] = c) by (unfold write_at; simpl; by rewrite drop_nil, app_nil_r).
  rewrite Ew. unfold s1, set_fs; cbn [fs out]. by rewrite insert_insert_eq.
Qed.

Lemma extract_loop_run name l tail : forall s pre,
  Forall (fun b => fresh (fs s) b) l.*1 -> NoDup l.*1 ->
  (forall n, length (fhdr_junk n) = 76%nat) ->
  fs s !! name = Some (File (pre ++ body (Z.of_nat (length pre)) l ++ tail)) ->
  Z.of_nat (length pre) + Z.of_nat (length (body 0 l)) < 2 ^ 31 ->
  extract_loop can_create fhdr_junk name false (length l) (length pre) s =
    Ret (NoValue, set_fs (add_files l (fs s)) s).
Proof.
  induction l as [|[b c] l IH]; intros s pre Hfr Hnd Hj Hn Hlen; [simpl; by destruct s|].
  cbn [fmap list_fmap fst] in Hfr, Hnd.
  apply Forall_cons in Hfr as [Hf Hfr]. apply NoDup_cons in Hnd as [Hni Hnd].
  cbn [body] in Hn, Hlen. rewrite !length_app, length_enc_file in Hlen by (cbn [f_name]; apply length_strncpy_buf).
  assert (Hlh : length (enc_file (RdFile 76 (Z.of_nat (length pre) + 76) (Z.of_nat (length c)) (strncpy_buf b 64))) = 76%nat)
    by (apply length_enc_file, length_strncpy_buf).
  rewrite <-!app_assoc in Hn. cbn [length extract_loop].
  rewrite (mseq_run _ _ _ _ _ (extract_file_run _ _ _ _ _ _ _ Hf Hj Hn ltac:(lia))).
  destruct Hf as (_ & Hbn & _).
  assert (Hne : name <> b) by (intros ->; by rewrite Hn in Hbn).
  rewrite IH; [done| |done|done| |].
  - cbn [set_fs fs]. apply Forall_forall. intros b' Hb'. eapply Forall_forall in Hfr as (? & ? & ?); [|exact Hb'].
    split; [done|]. split; [|done]. rewrite lookup_insert_ne; [done|]. by intros ->.
  - cbn [set_fs fs]. rewrite lookup_insert_ne by done. rewrite Hn. do 2 f_equal.
    rewrite !length_app, Hlh, <-!app_assoc. do 4 f_equal. f_equal. lia.
  - rewrite !length_app, Hlh, (length_body 0 (0 + 76 + Z.of_nat (length c))). lia.
Qed.

Lemma length_zip_bn fl (cl : list (list Z)) : length fl = length cl -> length (zip (basename <$> fl) cl) = length fl.
Proof. intros E. rewrite length_zip_with, length_fmap. lia. Qed.

Lemma length_image l : length (image l) = (12 + length (body 0 l))%nat.
Proof. unfold image. rewrite length_app, (length_body 12 0). done. Qed.

Lemma body_count l z : (length l <= length (body z l))%nat.
Proof.
  revert z. induction l as [|[b c] r IH]; intros z; [done|]. cbn [body length].
  rewrite !length_app, length_enc_file by apply length_strncpy_buf.
  specialize (IH (z + 76 + Z.of_nat (length c))). lia.
Qed.

(** The target of create: a regular file, or a name a file may get. *)
Definition target_ok (f0 : files) (name old : list Z) : Prop :=
  f0 !! name = Some (File old) \/ (f0 !! name = None /\ can_create name = true /\ old = []).

Lemma open_wr_run name old s : target_ok (fs s) name old ->
  open_wr can_create name s = Ret (true, set_fs (<[name := File old]> (fs s)) s).
Proof.
  unfold open_wr. intros [E|(E & Hc & ->)]; rewrite E; [|by rewrite Hc].
  unfold set_fs. rewrite insert_id by done. by destruct s.
Qed.

(** Packing regular files writes the image over the front of the target. *)
Lemma create_run name fl cl s old :
  Forall2 (packable (fs s) name) fl cl ->
  target_ok (fs s) name old ->
  Z.of_nat (length (image (zip (basename <$> fl) cl))) < 2 ^ 31 ->
  create can_create name (Z.of_nat (length fl)) fl s =
    let i := image (zip (basename <$> fl) cl) in
    Ret (NoValue, set_fs (<[name := File (i ++ drop (length i) old)]> (fs s)) s).
Proof.
  intros HF Hn Hlen. pose proof (Forall2_length _ _ _ HF) as Hl.
  assert (Hz := length_zip_bn fl cl Hl). rewrite length_image in Hlen. cbn zeta. rewrite length_image.
  assert (Hb : (length (zip (basename <$> fl) cl) <= length (body 0 (zip (basename <$> fl) cl)))%nat).
  { apply body_count. }
  unfold create. rewrite (mseq_run _ _ _ _ _ (open_wr_run _ _ _ Hn)). cbn [negb].
  rewrite u32_small by lia. set (h := enc_header _). set (s0 := set_fs _ s).
  assert (Hn0 : fs s0 !! name = Some (File ([] ++ old))) by (unfold s0, set_fs; cbn [fs]; apply lookup_insert_eq).
  change 0%nat with (length (@nil Z)).
  rewrite (mseq_run _ _ _ _ _ (write_fd_run _ _ _ _ _ Hn0)), write_at_app.
  set (s1 := set_fs _ s0). change sizeof_rd_header_t with (Z.of_nat (length h)).
  rewrite (create_loop_run name fl cl s1 h (drop (length h) old)).
  - cbn zeta. unfold s1, s0, set_fs; cbn [fs out]. rewrite !insert_insert_eq. unfold image. rewrite Hz. fold h.
    change (Z.of_nat (length h)) with 12. rewrite drop_drop, (length_body 12 0), <-app_assoc.
    change (length h) with 12%nat. done.
  - eapply Forall2_impl; [exact HF|]. intros g d (Hg & Hgn & Hgo). split; [|done].
    unfold s1, s0, set_fs; cbn [fs]. by rewrite !lookup_insert_ne.
  - unfold s1, set_fs; cbn [fs]. apply lookup_insert_eq.
  - change (length h) with 12%nat. lia.
Qed.

(** Unpacking an image, whatever follows it in the file. *)
Lemma extract_run name l tail s :
  Forall (fun b => fresh (fs s) b) l.*1 -> NoDup l.*1 ->
  length hdr_junk = 12%nat -> (forall n, length (fhdr_junk n) = 76%nat) ->
  fs s !! name = Some (File (image l ++ tail)) ->
  Z.of_nat (length (image l)) < 2 ^ 31 ->
  extract can_create hdr_junk fhdr_junk name false s = Ret (NoValue, set_fs (add_files l (fs s)) s).
Proof.
  intros Hfr Hnd Hh Hj Hn Hlen. rewrite length_image in Hlen. pose proof (body_count l 0) as Hc.
  unfold extract. assert (E : content_of name s = Ret (Some (image l ++ tail), s))
    by (unfold content_of, mgets; by rewrite Hn).
  rewrite (mseq_run _ _ _ _ _ E). unfold image in *. set (h := enc_header _) in *.
  assert (Er : read_at 0 (Z.to_nat sizeof_rd_header_t) ((h ++ body 12 l) ++ tail) = h).
  { rewrite <-app_assoc. apply (read_at_app [] h). }
  rewrite Er, read_into_full by (by rewrite Hh). unfold h.
  rewrite dec_enc_header by (cbn [magic hdr_size num_files]; unfold RD_MAGIC; lia).
  cbn [magic hdr_size num_files]. rewrite Z.eqb_refl. cbn [negb].
  change (12 =? sizeof_rd_header_t) with true. cbn [negb]. rewrite Nat2Z.id.
  change (Z.to_nat sizeof_rd_header_t) with (length h).
  apply (extract_loop_run _ _ tail); [done..| |].
  - by rewrite <-app_assoc in Hn.
  - change (length h) with 12%nat. lia.
Qed.

Lemma add_files_ne l p f : p ∉ l.*1 -> add_files l f !! p = f !! p.
Proof.
  revert f. induction l as [|[b c] r IH]; intros f Hp; [done|]. simpl in *.
  apply not_elem_of_cons in Hp as [Hp Hr]. rewrite IH by done. by rewrite lookup_insert_ne.
Qed.

Lemma add_files_in l b c f : NoDup l.*1 -> (b, c) ∈ l -> add_files l f !! b = Some (File c).
Proof.
  revert f. induction l as [|[b' c'] r IH]; intros f Hnd Hin; [by apply elem_of_nil in Hin|]. simpl in *.
  apply NoDup_cons in Hnd as [Hni Hnd]. apply elem_of_cons in Hin as [[= -> ->]|Hin]; [|by apply IH].
  rewrite add_files_ne by done. apply lookup_insert_eq.
Qed.

(** C20: Packing and unpacking is the identity on files: when create is given
    regular files of pairwise different base names and the image stays below
    2 GB, it succeeds, also over an existing longer file; and extract of the
    result, in any directory where the names are free, creates exactly one
    file per argument, under its base name and with its content, and changes
    nothing else. *)
Theorem rd_round_trip name fl cl s old :
  Forall2 (packable (fs s) name) fl cl -> NoDup (basename <$> fl) ->
  target_ok (fs s) name old ->
  Z.of_nat (length (image (zip (basename <$> fl) cl))) < 2 ^ 31 ->
  length hdr_junk = 12%nat -> (forall n, length (fhdr_junk n) = 76%nat) ->
  exists s', create can_create name (Z.of_nat (length fl)) fl s = Ret (NoValue, s') /\
  forall t name', fs t !! name' = fs s' !! name -> Forall (fun b => fresh (fs t) b) (basename <$> fl) ->
  exists t', extract can_create hdr_junk fhdr_junk name' false t = Ret (NoValue, t') /\
    (forall i f c, fl !! i = Some f -> cl !! i = Some c -> fs t' !! basename f = Some (File c)) /\
    (forall p, p ∉ basename <$> fl -> fs t' !! p = fs t !! p).
Proof.
  intros HF Hnd Ht Hlen Hh Hj. eexists. split; [by apply (create_run name fl cl s old)|].
  intros t name' Hn Hfr. cbn zeta in Hn. unfold set_fs in Hn; cbn [fs] in Hn. rewrite lookup_insert_eq in Hn.
  assert (H1 : (zip (basename <$> fl) cl).*1 = basename <$> fl)
    by (apply fst_zip; rewrite length_fmap; by rewrite (Forall2_length _ _ _ HF)).
  eexists. split; [eapply extract_run; [by rewrite H1|by rewrite H1|done|done|done|done]|].
  unfold set_fs; cbn [fs]. split.
  - intros i f c Hf Hc. apply add_files_in; [by rewrite H1|]. apply (list_elem_of_lookup_2 _ i).
    apply lookup_zip_with_Some. exists (basename f), c. split; [done|]. by rewrite list_lookup_fmap, Hf.
  - intros p Hp. apply add_files_ne. by rewrite H1.
Qed.

(** The image as extract sees it, and the file header at offset [o] of it,
    with [m] files to go. *)
Definition image_of (s : host) (name : list Z) : list Z :=
  match fs s !! name with Some (File c) => c | _ => [] end.
Definition header_at (c : list Z) (m o : nat) : rd_file_t :=
  dec_file (read_into (fhdr_junk (Z.of_nat m)) (read_at o 76 c)).

(** A header the size check accepts, with a name of 64 bytes and no
    terminator. *)
Definition unterminated (c : list Z) (m o : nat) : Prop :=
  fhdr_size (header_at c m o) = 76 /\ cstring (f_name (header_at c m o)) = None.

(** From [f0] to [f1] every file and directory stayed as it was, and what is
    new is a file of the image, under its name and with its bytes, and there
    is none in test mode. *)
Definition adds (c : list Z) (test : bool) (f0 f1 : files) : Prop :=
  (forall p nd, f0 !! p = Some nd -> f1 !! p = Some nd) /\
  (forall p nd, f0 !! p = None -> f1 !! p = Some nd -> test = false /\ can_create p = true /\
     exists m o, let h := header_at c m o in
       fhdr_size h = 76 /\ cstring (f_name h) = Some p /\
       nd = File (read_at (Z.to_nat (f_start h)) (Z.to_nat (f_size h)) c)).

(** The turns of the loop: from [n] files to go, offset [o] and state [s]. *)
Inductive reached (name : list Z) (test : bool) : nat * nat * host -> nat * nat * host -> Prop :=
  | reached_start x : reached name test x x
  | reached_turn n o s o1 s1 y :
      extract_file can_create fhdr_junk name test (S n) o s = Ret (inr o1, s1) ->
      reached name test (n, o1, s1) y -> reached name test (S n, o, s) y.

Lemma adds_refl c test f : adds c test f f.
Proof. split; [done|]. intros p nd Hn E. by rewrite Hn in E. Qed.

Lemma adds_trans c test f g h : adds c test f g -> adds c test g h -> adds c test f h.
Proof.
  intros [K1 N1] [K2 N2]. split; [by eauto|]. intros p nd Hf Hh.
  destruct (g !! p) as [e|] eqn:Eg; [|by eapply N2].
  rewrite (K2 _ _ Eg) in Hh. injection Hh as ->. by eapply N1.
Qed.

(** A turn either ends with a status or an offset, and has at most added the
    file of its header, or stops at a name without a terminator. *)
Lemma extract_file_adds name test n o s c : fs s !! name = Some (File c) ->
  match extract_file can_create fhdr_junk name test n o s with
  | Ret (_, t) => adds c test (fs s) (fs t)
  | Fault a => a = 0 /\ unterminated c n o
  | _ => False
  end.
Proof.
  intros Hc. unfold extract_file. unfold mseq at 1. unfold content_of, mgets. rewrite Hc.
  change (Z.to_nat sizeof_rd_file_t) with 76%nat. fold (header_at c n o). set (h := header_at c n o).
  destruct (Z.eqb_spec (fhdr_size h) sizeof_rd_file_t) as [Hs|]; cbn [negb]; [|apply adds_refl].
  destruct (cstring (f_name h)) as [fn|] eqn:Ef; [|by split].
  set (fin := fun ok : bool => if negb ok then (mreturn (inl (Code ERR_OSCALL)) : M host (status + nat))
      else if u32 (f_start h + f_size h) =? 2 ^ 32 - 1 then mreturn (inl (Code ERR_OSCALL))
      else mreturn (inr (Z.to_nat (u32 (f_start h + f_size h))))).
  assert (K : forall ok u, adds c test (fs s) (fs u) ->
    match fin ok u with Ret (_, t) => adds c test (fs s) (fs t) | Fault a => a = 0 /\ unterminated c n o | _ => False end).
  { intros [] u Hu; unfold fin; cbn [negb]; [by destruct (_ =? _)|done]. }
  destruct test.
  - unfold print_entry, mmodify, mreturn, mseq. apply (K true). apply adds_refl.
  - unfold mreturn at 1. unfold mseq at 1. rewrite mseq_assoc. unfold open_excl. unfold mseq at 1.
    destruct (fs s !! fn) as [nd|] eqn:En; [apply (K false), adds_refl|].
    destruct (can_create fn) eqn:Ecc; [|apply (K false), adds_refl].
    set (s1 := set_fs _ s).
    assert (E1 : fs s1 !! fn = Some (File [])) by (unfold s1, set_fs; cbn [fs]; apply lookup_insert_eq).
    rewrite mseq_assoc, (mseq_run _ _ _ _ _ (write_fd_run _ _ _ _ _ E1)).
    unfold mreturn at 1. unfold mseq at 1. apply (K true). unfold s1, set_fs; cbn [fs]. rewrite insert_insert_eq.
    split.
    + intros p nd Hp. rewrite lookup_insert_ne; [done|congruence].
    + intros p nd Hp. destruct (decide (p = fn)) as [->|]; [|by rewrite lookup_insert_ne, Hp].
      rewrite lookup_insert_eq. intros [= <-]. split_and!; [done..|]. exists n, o. fold h. split_and!; [done..|].
      unfold write_at. simpl. by rewrite drop_nil, app_nil_r.
Qed.

Lemma extract_loop_adds name test c n : forall s o, fs s !! name = Some (File c) ->
  (exists r t, extract_loop can_create fhdr_junk name test n o s = Ret (r, t) /\ adds c test (fs s) (fs t)) \/
  (extract_loop can_create fhdr_junk name test n o s = Fault 0 /\
   exists m o' t, reached name test (n, o, s) (S m, o', t) /\ unterminated c (S m) o' /\ adds c test (fs s) (fs t)).
Proof.
  induction n as [|n IH]; intros s o Hc; [left; eexists _, _; split; [done|apply adds_refl]|].
  cbn [extract_loop]. pose proof (extract_file_adds name test (S n) o s c Hc) as Hf.
  unfold mseq. destruct (extract_file _ _ _ _ _ _ _) as [[r s1]| |a| |] eqn:E; [|done| |done..].
  - destruct r as [st|o1]; [left; by eexists _, _|].
    assert (Hc1 : fs s1 !! name = Some (File c)) by (by apply Hf).
    destruct (IH s1 o1 Hc1) as [(r & t & E1 & H1)|(E1 & m & o' & t & Hr & Hu & H1)]; rewrite E1.
    + left. eexists _, _. split; [done|]. by eapply adds_trans.
    + right. split; [done|]. exists m, o', t. split; [by eapply reached_turn|]. split; [done|]. by eapply adds_trans.
  - destruct Hf as [-> Hu]. right. split; [done|]. exists n, o, s. split; [apply reached_start|]. split; [done|apply adds_refl].
Qed.

(** C32: Whatever bytes the image holds, extract returns a status, unless one
    of the file headers it comes to has a name that is not terminated in its
    64 bytes, which is then read beyond the header.  In both cases no file
    that was there before is changed, on any error path or up to the read:
    every name that led to a file or a directory leads to the same one, and a
    new name is that of a header of the image, holds the bytes the header
    gives, and was not made in test mode. *)
Theorem extract_never_overwrites name test s :
  let c := image_of s name in
  let files0 := Z.to_nat (num_files (dec_header (read_into hdr_junk (read_at 0 12 c)))) in
  (exists r t, extract can_create hdr_junk fhdr_junk name test s = Ret (r, t) /\ adds c test (fs s) (fs t)) \/
  (extract can_create hdr_junk fhdr_junk name test s = Fault 0 /\
   exists m o t, reached name test (files0, 12%nat, s) (S m, o, t) /\ unterminated c (S m) o /\
     adds c test (fs s) (fs t)).
Proof.
  unfold image_of. unfold extract. unfold mseq. unfold content_of, mgets.
  destruct (fs s !! name) as [[|c]|] eqn:E; [left; eexists _, _; (split; [done|apply adds_refl])| |
    left; eexists _, _; (split; [done|apply adds_refl])].
  cbn zeta. change (Z.to_nat sizeof_rd_header_t) with 12%nat. set (h := dec_header _).
  destruct (negb (magic h =? _)); [left; eexists _, _; (split; [done|apply adds_refl])|].
  destruct (negb (hdr_size h =? _)); [left; eexists _, _; (split; [done|apply adds_refl])|].
  by apply extract_loop_adds.
Qed.

(** The errors extract reports before it touches anything: no such file
    or a directory is an error of the system call, a wrong magic number is
    ERR_NOIMAGE, a right one with another header size ERR_HDRSIZE; in each
    case the directory is as before and nothing is printed. *)
Theorem extract_rejects name test s c : fs s !! name = Some (File c) -> (12 <= length c)%nat ->
  (magic (dec_header (take 12 c)) <> RD_MAGIC ->
     extract can_create hdr_junk fhdr_junk name test s = Ret (Code ERR_NOIMAGE, s)) /\
  (magic (dec_header (take 12 c)) = RD_MAGIC -> hdr_size (dec_header (take 12 c)) <> 12 ->
     extract can_create hdr_junk fhdr_junk name test s = Ret (Code ERR_HDRSIZE, s)) /\
  (forall m, fs s !! m = None \/ fs s !! m = Some Dir ->
     extract can_create hdr_junk fhdr_junk m test s = Ret (Code ERR_OSCALL, s)).
Proof.
  intros Hn Hc.
  assert (Hr : forall j, dec_header (read_into j (read_at 0 (Z.to_nat sizeof_rd_header_t) c)) = dec_header (take 12 c)).
  { intros j. unfold read_at, read_into, dec_header. change (Z.to_nat sizeof_rd_header_t) with 12%nat. simpl drop.
    do 12 (destruct c as [|? c]; [simpl in Hc; lia|]). done. }
  unfold extract, mseq at 1 2, content_of, mgets. rewrite Hn, Hr. split_and!.
  - intros Hm. destruct (Z.eqb_spec (magic (dec_header (take 12 c))) RD_MAGIC); [done|]. done.
  - intros -> Hz. rewrite Z.eqb_refl. cbn [negb].
    destruct (Z.eqb_spec (hdr_size (dec_header (take 12 c))) sizeof_rd_header_t); [done|]. done.
  - intros m [E|E]; unfold mseq; by rewrite E.
Qed.
End rd_spec.

(** Two files packed over an older, longer file, and unpacked elsewhere. *)
Module RdDemo.
Definition n_image : list Z := [105].
Definition n_a : list Z := [100; 47; 97].
Definition n_b : list Z := [98].
Definition yes (_ : list Z) : bool := true.
Definition junk12 : list Z := replicate 12 7.
Definition junk76 (_ : Z) : list Z := replicate 76 9.
Definition host0 : host :=
  Host (<[n_image := File (replicate 400 1)]> (<[n_a := File [1; 2; 3]]> (<[n_b := File []]> ∅))) [].

(** The image holds the entries; the tail of the old file is still there. *)
Example create_keeps_tail :
  ret_val (create yes n_image 2 [n_a; n_b] host0) = Some NoValue /\
  fs (state_of (create yes n_image 2 [n_a; n_b] host0) host0) !! n_image =
    Some (File (image [([97], [1; 2; 3]); ([98], [])] ++ replicate 233 1)).
Proof. by vm_compute. Qed.

Definition image0 : list Z := image [([97], [1; 2; 3]); ([98], [])].
Definition elsewhere : host := Host (<[n_image := File (image0 ++ replicate 233 1)]> ∅) [].

Lemma rd_round_trip_witness :
  exists s', create yes n_image 2 [n_a; n_b] host0 = Ret (NoValue, s') /\
  (fs elsewhere !! n_image = fs s' !! n_image ->
   exists t', extract yes junk12 junk76 n_image false elsewhere = Ret (NoValue, t') /\
     fs t' !! [97] = Some (File [1; 2; 3])).
Proof.
  destruct (rd_round_trip yes junk12 junk76 n_image [n_a; n_b] [[1; 2; 3]; []] host0 (replicate 400 1))
    as (s' & Hc & He).
  - repeat constructor; by vm_compute.
  - by apply (bool_decide_unpack _); vm_compute.
  - left. by vm_compute.
  - by vm_compute.
  - done.
  - done.
  - exists s'. split; [exact Hc|]. intros Hn. destruct (He elsewhere n_image Hn) as (t' & Hx & Hin & _).
    + repeat constructor; by vm_compute.
    + exists t'. split; [exact Hx|]. by apply (Hin 0%nat n_a [1; 2; 3]).
Defined.

Definition broken : host := Host {[n_image := File (replicate 12 0)]} [].
Lemma extract_rejects_witness :
  magic (dec_header (take 12 (replicate 12 0))) <> RD_MAGIC /\
  extract yes junk12 junk76 n_image false broken = Ret (Code ERR_NOIMAGE, broken).
Proof.
  assert (Hm : magic (dec_header (take 12 (replicate 12 0))) <> RD_MAGIC) by (by vm_compute).
  split; [exact Hm|].
  by apply (extract_rejects yes junk12 junk76 n_image false broken (replicate 12 0)).
Defined.

(** The second header's name has no terminator: the first file is made, then
    the name is read beyond the header. *)
Definition no_end : list Z :=
  enc_header (RdHeader RD_MAGIC 12 2) ++ enc_file (RdFile 76 88 1 (strncpy_buf n_b 64)) ++ [5] ++
  enc_file (RdFile 76 165 0 (replicate 64 65)).
Example extract_reads_past_name :
  extract yes junk12 junk76 n_image false (Host {[n_image := File no_end]} []) = Fault 0 /\
  fs (state_of (extract_file yes junk76 n_image false 2 12 (Host {[n_image := File no_end]} []))
       (Host ∅ [])) !! n_b = Some (File [5]).
Proof. by vm_compute. Qed.

(** A header that says the next file ends at byte 2^32 - 1 of the image is
    taken for a failing seek. *)
Definition far : list Z :=
  enc_header (RdHeader RD_MAGIC 12 1) ++ enc_file (RdFile 76 (2 ^ 32 - 1) 0 (strncpy_buf n_b 64)).
Example extract_seek_misread :
  ret_val (extract yes junk12 junk76 n_image true (Host {[n_image := File far]} [])) = Some (Code ERR_OSCALL).
Proof. by vm_compute. Qed.
End RdDemo.
