(* ===== verification/Mboot.v ===== *)
(** * The multiboot loader's data and the kernel command line: mboot.c, cmd.c

    The loader leaves its structures in physical memory.  mboot.c maps each of
    them, one page at a time, into a window of the current address space and
    reads them there.  The services it calls of the physical and the virtual
    memory manager are the interface [BootEnv]. *)

From S2P Require Import Prelude.
From S2P Require Import Mem.
From S2P Require Import Cstring.
From S2P Require Import Alloc.
From S2P Require Import Heap.
From S2P Require Import HeapSpec.

Definition MBOOT_MAGIC : Z := 0x2BADB002.
Definition MBOOT_FL_CMDLINE : Z := 4.
Definition MBOOT_FL_MODS : Z := 8.
Definition MBOOT_FL_MEMMAP : Z := 64.
Definition MBOOT_MM_AVAILABLE : Z := 1.
Definition MBOOT_VTEMP_REG_START : Z := 0xA0000000.
Definition MBOOT_VTEMP_REG_END : Z := 0xA00F0000.
Definition MAX_CMD_ARGUMENTS : nat := 1024.
Definition MB_RD_MAGIC : Z := 0x44524452.

Definition CORE_VMA_X86_64_END : Z := 0xFFFFFFFF80000000 + 0x1000000.
Definition APIC_VIRTUAL : Z := CORE_VMA_X86_64_END.
Definition IOAPIC_VIRTUAL : Z := APIC_VIRTUAL + 0x1000.
Definition CGA_VIRTUAL : Z := IOAPIC_VIRTUAL + 0x1000 * 0x10.
Definition RM_VIRTUAL : Z := CGA_VIRTUAL + 0x1000.
Definition GDT_VIRTUAL : Z := RM_VIRTUAL + 0x110000.
Definition RD_VIRTUAL : Z := GDT_VIRTUAL + 0x1000.
Definition RD_VSZ : Z := 0x8000000.

(** Offsets in the packed structures. *)
Definition mbi_flags : Z := 0.
Definition mbi_cmdline : Z := 16.
Definition mbi_mods_cnt : Z := 20.
Definition mbi_mods_addr : Z := 24.
Definition mbi_mmap_len : Z := 44.
Definition mbi_mmap_addr : Z := 48.
Definition sizeof_mboot_info_t : Z := 96.
Definition mmap_size : Z := 0.
Definition mmap_addr : Z := 4.
Definition mmap_len : Z := 12.
Definition mmap_type : Z := 20.
Definition mod_start : Z := 0.
Definition mod_end : Z := 4.
Definition sizeof_mboot_mod_t : Z := 16.

Class BootEnv (St : Type) := {
  boot_ax : Z;
  boot_bx : Z;
  (** the static variable of mboot_find_free_page *)
  pg_temp : St -> Z;
  set_pg_temp : Z -> St -> St;
  (** vmem.c on the current space *)
  space_resolve : Z -> M St Z;
  space_map : Z -> Z -> Z -> M St bool;
  space_unmap : Z -> M St Z;
  glob_add : Z -> Z -> Z -> M St unit;
  (** pmem.c *)
  phys_reserve : Z -> Z -> M St bool;
  phys_add : Z -> Z -> M St unit;
  (** the array of cmd.c *)
  cmdline : St -> list Z;
  set_cmdline : list Z -> St -> St;
}.

Section mboot_c.
Context {St : Type} `{HasMem St} `{KHeapOps St} `{BootEnv St}.

Definition load32 := load (St := St) 4.

(** ** Temporary mappings *)

Fixpoint find_free_page_loop (fuel : nat) : M St unit :=
  match fuel with
  | O => mnofuel
  | S f =>
      t <- mgets pg_temp ;;
      r <- space_resolve t ;;
      if negb (r =? 0) && (t <? MBOOT_VTEMP_REG_END) then
        mmodify (set_pg_temp (u64 (t + PAGE_SIZE_4K))) ;;; find_free_page_loop f
      else mreturn tt
  end.

(** One step per page of the window and one to leave the loop. *)
Definition window_fuel : nat := Z.to_nat ((MBOOT_VTEMP_REG_END - MBOOT_VTEMP_REG_START) / PAGE_SIZE_4K) + 1.

Definition mboot_find_free_page : M St Z :=
  find_free_page_loop window_fuel ;;;
  t <- mgets pg_temp ;;
  mreturn (if MBOOT_VTEMP_REG_END <=? t then 0 else t).

Definition mboot_map (mbi_struct : Z) : M St Z :=
  vaddr <- mboot_find_free_page ;;
  let page := ALIGN_DN mbi_struct PAGE_SIZE_4K in
  let off := ALIGN_RST mbi_struct PAGE_SIZE_4K in
  if vaddr =? 0 then mreturn 0
  else
    ok <- space_map page vaddr 0 ;;
    if (ok : bool) then mreturn (u64 (vaddr + off)) else mreturn 0.

Definition mboot_unmap (p : Z) : M St unit := space_unmap p ;;; mreturn tt.

(** ** Physical memory *)

Fixpoint protect_mods (n : nat) (md : Z) : M St Z :=
  match n with
  | O => mreturn md
  | S n' =>
      a <- load32 (md + mod_start) ;;
      e <- load32 (md + mod_end) ;;
      phys_reserve (ALIGN_DN a PAGE_SIZE_4K) (u32 (e - a)) ;;;
      protect_mods n' (md + sizeof_mboot_mod_t)
  end.

Definition mboot_pmem_protect : M St unit :=
  if negb (boot_ax =? MBOOT_MAGIC) then mreturn tt
  else
    phys_reserve (ALIGN_DN boot_bx PAGE_SIZE_4K) sizeof_mboot_info_t ;;;
    mbi <- mboot_map boot_bx ;;
    fl <- load32 (mbi + mbi_flags) ;;
    (if Z.land fl MBOOT_FL_MEMMAP =? 0 then mreturn tt
     else
       a <- load32 (mbi + mbi_mmap_addr) ;;
       l <- load32 (mbi + mbi_mmap_len) ;;
       phys_reserve (ALIGN_DN a PAGE_SIZE_4K) l ;;; mreturn tt) ;;;
    (if Z.land fl MBOOT_FL_MODS =? 0 then mreturn tt
     else
       cnt <- load32 (mbi + mbi_mods_cnt) ;;
       if cnt =? 0 then mreturn tt
       else
         a <- load32 (mbi + mbi_mods_addr) ;;
         phys_reserve (ALIGN_DN a PAGE_SIZE_4K) (cnt * sizeof_mboot_mod_t) ;;;
         md <- mboot_map a ;;
         md' <- protect_mods (Z.to_nat cnt) md ;;
         mboot_unmap md') ;;;
    mboot_unmap mbi.

(** [for(mmap = mm; mmap < mm + mmap_len; mmap += mmap->size + 4)] *)
Fixpoint mmap_walk (fuel : nat) (top mmap : Z) : M St unit :=
  if top <=? mmap then mreturn tt
  else
    match fuel with
    | O => mnofuel
    | S f =>
        t <- load32 (mmap + mmap_type) ;;
        (if t =? MBOOT_MM_AVAILABLE then
           a <- load 8 (mmap + mmap_addr) ;;
           l <- load 8 (mmap + mmap_len) ;;
           phys_add a l
         else mreturn tt) ;;;
        sz <- load32 (mmap + mmap_size) ;;
        mmap_walk f top (mmap + sz + 4)
    end.

Definition mboot_pmem_init : M St unit :=
  if negb (boot_ax =? MBOOT_MAGIC) then mreturn tt
  else
    mbi <- mboot_map boot_bx ;;
    fl <- load32 (mbi + mbi_flags) ;;
    (if Z.land fl MBOOT_FL_MEMMAP =? 0 then mreturn tt
     else
       a <- load32 (mbi + mbi_mmap_addr) ;;
       mm <- mboot_map a ;;
       len <- load32 (mbi + mbi_mmap_len) ;;
       mmap_walk (Z.to_nat len) (mm + len) mm ;;;
       mboot_unmap mm) ;;;
    mboot_unmap mbi.

(** ** The RAM disk *)

(** [while(first_phys < last_phys)]; every turn moves on by a page. *)
Fixpoint map_rd (fuel : nat) (first_phys last_phys virt : Z) : M St unit :=
  if last_phys <=? first_phys then mreturn tt
  else
    match fuel with
    | O => mnofuel
    | S f =>
        ok <- space_map first_phys virt PG_GLOBAL ;;
        if negb ok then mfatal "cannot map %p to %p for rd"
        else
          glob_add first_phys virt PG_GLOBAL ;;;
          map_rd f (first_phys + PAGE_SIZE_4K) last_phys (virt + PAGE_SIZE_4K)
    end.

(** What is done of a module that starts with the magic number. *)
Definition found_rd (s e : Z) : M St Z :=
  let sz := u32 (e - s) in
  if RD_VSZ - PAGE_SIZE_4K <? sz then mfatal "rd too large to be mapped"
  else
    map_rd (Z.to_nat (RD_VSZ / PAGE_SIZE_4K)) (ALIGN_DN s PAGE_SIZE_4K) (ALIGN_DN (u32 (e + 4095)) PAGE_SIZE_4K) RD_VIRTUAL ;;;
    mreturn (RD_VIRTUAL + ALIGN_RST s PAGE_SIZE_4K).

Fixpoint find_rd_mods (n : nat) (md : Z) : M St (Z + Z) :=
  match n with
  | O => mreturn (inl md)
  | S n' =>
      s <- load32 (md + mod_start) ;;
      p <- mboot_map s ;;
      mg <- load32 p ;;
      if mg =? MB_RD_MAGIC then
        e <- load32 (md + mod_end) ;;
        r <- found_rd s e ;; mreturn (inr r)
      else
        mboot_unmap p ;;; find_rd_mods n' (md + sizeof_mboot_mod_t)
  end.

Definition mboot_find_rd : M St Z :=
  if negb (boot_ax =? MBOOT_MAGIC) then mreturn 0
  else
    mbi <- mboot_map boot_bx ;;
    fl <- load32 (mbi + mbi_flags) ;;
    let finish := mboot_unmap mbi ;;; mreturn 0 in
    if Z.land fl MBOOT_FL_MODS =? 0 then finish
    else
      cnt <- load32 (mbi + mbi_mods_cnt) ;;
      if cnt =? 0 then finish
      else
        a <- load32 (mbi + mbi_mods_addr) ;;
        md <- mboot_map a ;;
        r <- find_rd_mods (Z.to_nat cnt) md ;;
        match r with
        | inr p => mreturn p
        | inl md' => mboot_unmap md' ;;; finish
        end.

(** ** The command line: cmd.c *)

(** The loop over [current]: the first free element; past the end of the
    array the pointer leaves it. *)
Fixpoint first_zero (l : list Z) : option nat :=
  match l with
  | [] => None
  | x :: r => if x =? 0 then Some O else S <$> first_zero r
  end.

Definition cmd_add (fuel : nat) (argument : Z) : M St unit :=
  if argument =? 0 then mreturn tt
  else
    n <- strlen fuel argument ;;
    target <- kheap_alloc n ;;
    l <- mgets cmdline ;;
    match first_zero l with
    | Some i => mmodify (set_cmdline (<[i := target]> l))
    | None => mfault 0
    end.

Definition cmd_init (contributions : list (M St unit)) : M St unit :=
  mmodify (set_cmdline (replicate MAX_CMD_ARGUMENTS 0)) ;;;
  foldr (fun cb k => cb ;;; k) (mreturn tt) contributions.

Definition cmd_get : M St (list Z) := mgets cmdline.

Definition mboot_cmd_alloc (fuel : nat) (base len : Z) : M St unit :=
  tmp <- kheap_alloc (len + 1) ;;
  strncpy tmp base len ;;;
  store8 (tmp + len + 1) 0 ;;;
  t <- trim fuel tmp ;;
  cmd_add fuel t.

(** The loop over the characters; it ends with the start of the last part
    and the position of the terminator. *)
Fixpoint cmd_loop (emit : Z -> Z -> M St unit) (fuel : nat) (inQuotes : bool) (base walk : Z) : M St (Z * Z) :=
  match fuel with
  | O => mnofuel
  | S f =>
      c <- load8 walk ;;
      if c =? 0 then mreturn (base, walk)
      else if c =? 34 then cmd_loop emit f true base (walk + 1)
      else if isspace c && negb inQuotes then
        emit base (walk - base) ;;; cmd_loop emit f inQuotes walk (walk + 1)
      else cmd_loop emit f inQuotes base (walk + 1)
  end.

(** Splitting the line at [mc]: [emit] is [mboot_cmd_alloc]. *)
Definition cmd_split (emit : Z -> Z -> M St unit) (fuel : nat) (mc : Z) : M St unit :=
  c <- load8 mc ;;
  if c =? 0 then mreturn tt
  else
    r <- cmd_loop emit fuel false mc mc ;;
    let len := r.2 - r.1 in
    if len =? 0 then mreturn tt else emit r.1 len.

Definition mboot_cmd_init (fuel : nat) : M St unit :=
  if negb (boot_ax =? MBOOT_MAGIC) then mreturn tt
  else
    mbi <- mboot_map boot_bx ;;
    fl <- load32 (mbi + mbi_flags) ;;
    (if Z.land fl MBOOT_FL_CMDLINE =? 0 then mreturn tt
     else
       a <- load32 (mbi + mbi_cmdline) ;;
       mc <- mboot_map a ;;
       (if mc =? 0 then mreturn tt else cmd_split (mboot_cmd_alloc fuel) fuel mc) ;;;
       mboot_unmap mc) ;;;
    mboot_unmap mbi.
End mboot_c.

(** ** What the other components promise *)

(** Resolving changes nothing; registering memory leaves the window alone. *)
Class BootEnvLaws (St : Type) `{HasMem St} `{BootEnv St} := {
  resolved : St -> Z -> Z;
  resolve_law : forall v s, space_resolve v s = Ret (resolved s v, s);
  pg_temp_set : forall t s, pg_temp (set_pg_temp t s) = t;
  set_pg_temp_set : forall t t' s, set_pg_temp t (set_pg_temp t' s) = set_pg_temp t s;
  set_pg_temp_get : forall s, set_pg_temp (pg_temp s) s = s;
  resolved_set : forall t s, resolved (set_pg_temp t s) = resolved s;
  phys_add_law : forall a l s u s', phys_add a l s = Ret (u, s') ->
    agree (get_mem s) (get_mem s') MBOOT_VTEMP_REG_START (MBOOT_VTEMP_REG_END - MBOOT_VTEMP_REG_START);
}.

(** The memory map of the loader, as it lies in memory from [a] to [e]. *)
Record region := MRegion { r_size : Z; r_addr : Z; r_len : Z; r_type : Z }.

Fixpoint mmap_at (m : memory) (a e : Z) (l : list region) : Prop :=
  match l with
  | [] => e <= a
  | r :: l' =>
      a < e /\ mread 4 m (a + mmap_size) = Some (r_size r) /\ mread 8 m (a + mmap_addr) = Some (r_addr r) /\
      mread 8 m (a + mmap_len) = Some (r_len r) /\ mread 4 m (a + mmap_type) = Some (r_type r) /\
      mmap_at m (a + r_size r + 4) e l'
  end.

Definition available (l : list region) : list region := filter (fun r => r_type r = MBOOT_MM_AVAILABLE) l.

(** The parts of a command line: they follow one another without a gap, and
    the line is only cut at white space before its first quotation mark. *)
Fixpoint tiles (a e : Z) (l : list (Z * Z)) : Prop :=
  match l with
  | [] => a = e
  | (b, n) :: r => b = a /\ 0 <= n /\ tiles (a + n) e r
  end.

Definition good_cut (cs : list Z) (i : Z) : Prop :=
  exists c, cs !! Z.to_nat i = Some c /\ isspace c = true /\ 34 ∉ take (Z.to_nat i) cs.

Section mboot_proofs.
Context {St : Type} `{HasMem St} `{BootEnv St} `{!BootEnvLaws St}.

(** ** Temporary mappings *)

Lemma find_free_page_loop_run n : forall s t,
  pg_temp s = t -> t + PAGE_SIZE_4K * Z.of_nat n = MBOOT_VTEMP_REG_END -> MBOOT_VTEMP_REG_START <= t ->
  exists t', find_free_page_loop (n + 1) s = Ret (tt, set_pg_temp t' s) /\
    t <= t' <= MBOOT_VTEMP_REG_END /\ (t' - t) mod PAGE_SIZE_4K = 0 /\
    (t' < MBOOT_VTEMP_REG_END -> resolved s t' = 0) /\
    (forall u, t <= u < t' -> (u - t) mod PAGE_SIZE_4K = 0 -> resolved s u <> 0).
Proof.
  unfold PAGE_SIZE_4K, MBOOT_VTEMP_REG_END, MBOOT_VTEMP_REG_START.
  induction n as [|n IH]; intros s t Ht Hn Hs; cbn [Nat.add find_free_page_loop];
    unfold mgets; unfold mseq at 1; rewrite Ht;
    rewrite (mseq_run _ _ _ _ _ (resolve_law t s)); unfold MBOOT_VTEMP_REG_END, PAGE_SIZE_4K.
  - exists t. destruct (Z.ltb_spec t 0xA00F0000); [lia|]. rewrite andb_false_r.
    assert (E : set_pg_temp t s = s) by (rewrite <-Ht; apply set_pg_temp_get).
    rewrite E, Z.sub_diag. kauto.
  - destruct (Z.eqb_spec (resolved s t) 0) as [E0|E0].
    + simpl. exists t. assert (E : set_pg_temp t s = s) by (rewrite <-Ht; apply set_pg_temp_get).
      rewrite E, Z.sub_diag. kauto.
    + destruct (Z.ltb_spec t 0xA00F0000); [|lia]. cbn [negb andb].
      unfold mmodify; unfold mseq at 1. rewrite u64_small by lia.
      destruct (IH (set_pg_temp (t + 4096) s) (t + 4096)) as (t' & Hr & Hb & Hm & Hf & Ho); [|lia|lia|].
      { apply pg_temp_set. }
      exists t'. rewrite Hr, set_pg_temp_set, resolved_set in *.
      split; [done|]. split; [lia|]. split; [dlia|]. split; [done|].
      intros u Hu Hum. destruct (decide (u = t)) as [->|]; [done|]. apply Ho; [|dlia]. dlia.
Qed.

(** More fuel than needed does no harm. *)
Lemma find_free_page_fuel n m s u s' : (n <= m)%nat ->
  find_free_page_loop n s = Ret (u, s') -> find_free_page_loop m s = Ret (u, s').
Proof.
  revert m s. induction n as [|n IH]; intros m s Hle; [done|]. destruct m as [|m]; [lia|].
  cbn [find_free_page_loop]. unfold mgets, mseq, mmodify. rewrite resolve_law.
  destruct (_ && _); [|done]. apply IH. lia.
Qed.

(** The search for a page to map a structure at ends, does not change
    the state but for its static pointer, and returns the first free page of
    the window from the pointer on, or NULL when every one of them is taken. *)
Theorem mboot_find_free_page_first s :
  MBOOT_VTEMP_REG_START <= pg_temp s <= MBOOT_VTEMP_REG_END -> pg_temp s mod PAGE_SIZE_4K = 0 ->
  exists r t, mboot_find_free_page s = Ret (r, set_pg_temp t s) /\
    (r = t /\ pg_temp s <= t < MBOOT_VTEMP_REG_END /\ resolved s t = 0 \/ r = 0 /\ t = MBOOT_VTEMP_REG_END) /\
    (forall u, pg_temp s <= u < t -> u mod PAGE_SIZE_4K = 0 -> resolved s u <> 0).
Proof.
  intros Hr Ha. unfold mboot_find_free_page.
  set (n := Z.to_nat ((MBOOT_VTEMP_REG_END - pg_temp s) / PAGE_SIZE_4K)).
  destruct (find_free_page_loop_run n s (pg_temp s)) as (t & Hrun & Hb & Hm & Hf & Ho);
    [done|unfold n, MBOOT_VTEMP_REG_END, PAGE_SIZE_4K in *; dlia|lia|].
  assert (Hle : (n + 1 <= window_fuel)%nat).
  { unfold window_fuel, n, MBOOT_VTEMP_REG_END, MBOOT_VTEMP_REG_START, PAGE_SIZE_4K in *. dlia. }
  rewrite (mseq_run _ _ _ _ _ (find_free_page_fuel _ _ _ _ _ Hle Hrun)).
  unfold mgets; unfold mseq at 1. rewrite pg_temp_set.
  eexists _, t. split; [done|]. split.
  - destruct (Z.leb_spec MBOOT_VTEMP_REG_END t); [right|left]; kauto.
  - intros u Hu Hum. apply Ho; [done|]. unfold PAGE_SIZE_4K in *. dlia.
Qed.

(** ** The memory map *)

Definition run_adds (l : list region) : M St unit :=
  foldr (fun r k => phys_add (r_addr r) (r_len r) ;;; k) (mreturn tt) l.

Definition in_window (a e : Z) : Prop := MBOOT_VTEMP_REG_START <= a /\ e + 24 <= MBOOT_VTEMP_REG_END.

Lemma mmap_at_agree m m' l : forall a e,
  agree m m' MBOOT_VTEMP_REG_START (MBOOT_VTEMP_REG_END - MBOOT_VTEMP_REG_START) ->
  in_window a e -> Forall (fun r => 0 <= r_size r) l -> mmap_at m a e l -> mmap_at m' a e l.
Proof.
  unfold in_window, MBOOT_VTEMP_REG_START, MBOOT_VTEMP_REG_END.
  induction l as [|r l IH]; intros a e Ha Hw Hf; [done|]. apply Forall_cons in Hf as [Hsz Hf]. cbn [mmap_at].
  intros (Hlt & H1 & H2 & H3 & H4 & H5).
  unfold mmap_size, mmap_addr, mmap_len, mmap_type in *.
  split_and!; [done| | | | |apply IH; [done|lia|done|done]].
  all: erewrite mread_ext; [eassumption|]; eapply agree_weaken; [exact Ha|simpl; lia|simpl; lia].
Qed.

(** One turn of the loop. *)
Lemma mmap_walk_step f s e a r l : mmap_at (get_mem s) a e (r :: l) -> in_window a e ->
  mmap_walk (S f) e a s =
    ((if r_type r =? MBOOT_MM_AVAILABLE then phys_add (r_addr r) (r_len r) else mreturn tt) ;;;
     mmap_walk f e (a + r_size r + 4)) s.
Proof.
  intros (Hlt & H1 & H2 & H3 & H4 & _) Hw. cbn [mmap_walk]. destruct (Z.leb_spec e a); [lia|].
  rewrite (mseq_run _ _ _ _ _ (load_run _ _ _ _ H4)).
  destruct (r_type r =? MBOOT_MM_AVAILABLE).
  - rewrite mseq_assoc, (mseq_run _ _ _ _ _ (load_run _ _ _ _ H2)).
    rewrite mseq_assoc, (mseq_run _ _ _ _ _ (load_run _ _ _ _ H3)).
    unfold mseq at 1 3. destruct (phys_add (r_addr r) (r_len r) s) as [[u s']| | | |] eqn:E; [|done..].
    apply phys_add_law in E. unfold load32. erewrite mseq_run; [done|]. apply load_run.
    erewrite mread_ext; [eassumption|].
    unfold in_window, MBOOT_VTEMP_REG_START, MBOOT_VTEMP_REG_END, mmap_size in *.
    eapply agree_weaken; [exact E|simpl; lia|simpl; lia].
  - unfold mreturn. unfold mseq at 1 3. by rewrite (mseq_run _ _ _ _ _ (load_run _ _ _ _ H1)).
Qed.

(** C22: The walk over the loader's memory map registers exactly the regions
    marked available, each with its address and length, in the order of the
    map, and does nothing else; entries of any size are stepped over. *)
Theorem mmap_walk_adds_available l : forall fuel e a s,
  mmap_at (get_mem s) a e l -> in_window a e -> Forall (fun r => 0 <= r_size r) l ->
  (length l <= fuel)%nat ->
  mmap_walk fuel e a s = run_adds (available l) s.
Proof.
  induction l as [|r l IH]; intros fuel e a s Hm Hw Hf Hn.
  { simpl in Hm. destruct fuel; cbn [mmap_walk]; destruct (Z.leb_spec e a); (done || lia). }
  destruct fuel as [|f]; [simpl in Hn; lia|].
  rewrite (mmap_walk_step _ _ _ _ _ _ Hm Hw).
  pose proof Hm as (Hlt & _ & _ & _ & _ & Ht). apply Forall_cons in Hf as [Hsz Hf].
  assert (Hw' : in_window (a + r_size r + 4) e) by (unfold in_window in *; lia).
  unfold available. rewrite filter_cons. fold (available l). simpl in Hn.
  destruct (Z.eqb_spec (r_type r) MBOOT_MM_AVAILABLE).
  - rewrite decide_True by done. cbn [run_adds foldr]. fold (run_adds (available l)).
    unfold mseq. destruct (phys_add (r_addr r) (r_len r) s) as [[u s']| | | |] eqn:E; [|done..].
    apply phys_add_law in E. apply IH; [|done|done|lia]. eapply mmap_at_agree; eauto.
  - rewrite decide_False by done. unfold mreturn; unfold mseq. apply IH; [done..|lia].
Qed.

(** C33: Whatever bytes the memory map holds, its walk ends: with one step of
    fuel per byte of the map (what [mboot_pmem_init] gives it) it never runs
    out, as long as registering a region ends. *)
Theorem mmap_walk_ends : (forall a l s, phys_add a l s <> NoFuel) ->
  forall fuel top a s, top - a <= Z.of_nat fuel -> mmap_walk fuel top a s <> NoFuel.
Proof.
  intros Hadd. induction fuel as [|f IH]; intros top a s Hf; cbn [mmap_walk];
    destruct (Z.leb_spec top a); try done; try lia.
  assert (Hld : forall n x t, load n x t <> NoFuel).
  { intros n x t. unfold load. by destruct (mread _ _ _). }
  unfold load32, mseq.
  destruct (load 4 (a + mmap_type) s) as [[t s1]| | | |] eqn:E; [|done..|by apply Hld in E].
  set (c := if t =? _ then _ else _).
  destruct (c s1) as [[u s2]| | | |] eqn:Ec; [|done..|].
  - destruct (load 4 (a + mmap_size) s2) as [[sz s3]| | | |] eqn:E3; [|done..|by apply Hld in E3].
    apply IH. unfold load in E3. destruct (mread 4 (get_mem s2) (a + mmap_size)) as [v|] eqn:Ev; [|done].
    injection E3 as <- <-. apply mread_range in Ev. lia.
  - exfalso. revert Ec. unfold c. destruct (t =? _); [|done].
    destruct (load 8 (a + mmap_addr) s1) as [[x s3]| | | |] eqn:E3; [|done..|by apply Hld in E3].
    destruct (load 8 (a + mmap_len) s3) as [[y s4]| | | |] eqn:E4; [|done..|by apply Hld in E4].
    apply Hadd.
Qed.

(** ** The RAM disk *)

(** [n] pages from [p] on, mapped one behind the other from [v] on. *)
Fixpoint rd_pages (n : nat) (p v : Z) : list (Z * Z) :=
  match n with O => [] | S n' => (p, v) :: rd_pages n' (p + PAGE_SIZE_4K) (v + PAGE_SIZE_4K) end.

Definition run_maps (l : list (Z * Z)) : M St unit :=
  foldr (fun pv k =>
    ok <- space_map pv.1 pv.2 PG_GLOBAL ;;
    if negb ok then mfatal "cannot map %p to %p for rd" else glob_add pv.1 pv.2 PG_GLOBAL ;;; k) (mreturn tt) l.

Lemma map_rd_none fuel p l v s : l <= p -> map_rd fuel p l v s = Ret (tt, s).
Proof. intros Hl. destruct fuel; cbn [map_rd]; by rewrite (proj2 (Z.leb_le _ _) Hl). Qed.

Lemma map_rd_run n : forall fuel p v s, (n <= fuel)%nat ->
  map_rd fuel p (p + PAGE_SIZE_4K * Z.of_nat n) v s = run_maps (rd_pages n p v) s.
Proof.
  induction n as [|n IH]; intros fuel p v s Hn.
  { destruct fuel; cbn [map_rd]; destruct (Z.leb_spec (p + PAGE_SIZE_4K * Z.of_nat 0) p); (done || lia). }
  destruct fuel as [|f]; [lia|]. cbn [map_rd rd_pages run_maps foldr fst snd].
  destruct (Z.leb_spec (p + PAGE_SIZE_4K * Z.of_nat (S n)) p); [unfold PAGE_SIZE_4K in *; lia|].
  unfold mseq. destruct (space_map p v PG_GLOBAL s) as [[[|] s1]| | | |]; cbn [negb]; [|done..].
  destruct (glob_add p v PG_GLOBAL s1) as [[u s2]| | | |]; [|done..].
  replace (p + PAGE_SIZE_4K * Z.of_nat (S n)) with (p + PAGE_SIZE_4K + PAGE_SIZE_4K * Z.of_nat n) by lia.
  apply IH. lia.
Qed.

Lemma rd_pages_range n : forall p v q w, (q, w) ∈ rd_pages n p v ->
  v <= w /\ w + PAGE_SIZE_4K <= v + PAGE_SIZE_4K * Z.of_nat n /\ w - v = q - p.
Proof.
  unfold PAGE_SIZE_4K. induction n as [|n IH]; intros p v q w; cbn [rd_pages]; [by intros ?%elem_of_nil|].
  rewrite elem_of_cons. unfold PAGE_SIZE_4K. intros [[= -> ->]|Hin]; [lia|]. apply IH in Hin. lia.
Qed.

(** The pages between the aligned ends: none when the bounds are exchanged
    or the end is in the last page below 4 GB, whose alignment wraps. *)
Lemma rd_bounds a e : 0 <= a < 2 ^ 32 -> 0 <= e < 2 ^ 32 -> u32 (e - a) <= RD_VSZ - PAGE_SIZE_4K ->
  let n := Z.to_nat (ALIGN_DN (u32 (e + 4095)) PAGE_SIZE_4K / PAGE_SIZE_4K - a / PAGE_SIZE_4K) in
  PAGE_SIZE_4K * Z.of_nat n <= RD_VSZ /\
  (ALIGN_DN (u32 (e + 4095)) PAGE_SIZE_4K = ALIGN_DN a PAGE_SIZE_4K + PAGE_SIZE_4K * Z.of_nat n \/
   n = 0%nat /\ ALIGN_DN (u32 (e + 4095)) PAGE_SIZE_4K <= ALIGN_DN a PAGE_SIZE_4K) /\
  (a <= e -> e + 4095 < 2 ^ 32 -> a mod PAGE_SIZE_4K + (e - a) <= PAGE_SIZE_4K * Z.of_nat n) /\
  (e < a \/ 2 ^ 32 <= e + 4095 -> n = 0%nat).
Proof.
  intros Ha He Hsz n. unfold n; clear n. unfold RD_VSZ, PAGE_SIZE_4K, u32 in *. rewrite !ALIGN_DN_4096.
  split_and!; dlia.
Qed.

(** C34: The size check decides, for a module with any 32-bit bounds.  When
    the 32-bit difference of the bounds is above RD_VSZ less a page, the
    kernel stops with nothing mapped.  Otherwise the pages of the module are
    mapped in order from RD_VIRTUAL on, none of them behind the window's
    RD_VSZ bytes, and the pointer returned is the place of the image's first
    byte; every byte of the image is in one of the pages, provided the end is
    not before the start and not in the last page below 4 GB: for such bounds
    no page is mapped. *)
Theorem found_rd_fits a e s : 0 <= a < 2 ^ 32 -> 0 <= e < 2 ^ 32 ->
  (RD_VSZ - PAGE_SIZE_4K < u32 (e - a) -> found_rd a e s = Fatal "rd too large to be mapped") /\
  (u32 (e - a) <= RD_VSZ - PAGE_SIZE_4K ->
   exists n, found_rd a e s =
    (run_maps (rd_pages n (ALIGN_DN a PAGE_SIZE_4K) RD_VIRTUAL) ;;; mreturn (RD_VIRTUAL + a mod PAGE_SIZE_4K)) s /\
   (forall q w, (q, w) ∈ rd_pages n (ALIGN_DN a PAGE_SIZE_4K) RD_VIRTUAL ->
     RD_VIRTUAL <= w /\ w + PAGE_SIZE_4K <= RD_VIRTUAL + RD_VSZ /\ w - RD_VIRTUAL = q - ALIGN_DN a PAGE_SIZE_4K) /\
   (a <= e -> e + 4095 < 2 ^ 32 -> a mod PAGE_SIZE_4K + (e - a) <= PAGE_SIZE_4K * Z.of_nat n) /\
   (e < a \/ 2 ^ 32 <= e + 4095 -> n = 0%nat)).
Proof.
  intros Ha He. unfold found_rd. destruct (Z.ltb_spec (RD_VSZ - PAGE_SIZE_4K) (u32 (e - a))); (split; [try lia; done|try lia]).
  intros Hsz. destruct (rd_bounds a e Ha He Hsz) as (Hle & Hn & Hcov & Hno). rewrite ALIGN_RST_4096.
  set (n := Z.to_nat _) in Hle, Hn, Hcov, Hno. exists n. split_and!; [|intros q w Hin; apply rd_pages_range in Hin; lia|done..].
  unfold mseq. replace (map_rd _ _ _ _ s) with (run_maps (rd_pages n (ALIGN_DN a PAGE_SIZE_4K) RD_VIRTUAL) s); [done|].
  destruct Hn as [->|[-> Hn]].
  - symmetry. apply map_rd_run. unfold RD_VSZ, PAGE_SIZE_4K in *. dlia.
  - by rewrite map_rd_none.
Qed.

(** ** The command line *)

(** Where the line is cut: the parts behind one another, and the start of
    the last one.  [q]: a quotation mark was seen. *)
Fixpoint parts (q : bool) (base w : Z) (cs : list Z) : list (Z * Z) * Z :=
  match cs with
  | [] => ([], base)
  | c :: r =>
      if c =? 34 then parts true base (w + 1) r
      else if isspace c && negb q then
        let p := parts q w (w + 1) r in ((base, w - base) :: p.1, p.2)
      else parts q base (w + 1) r
  end.

Definition all_parts (mc : Z) (cs : list Z) : list (Z * Z) :=
  let p := parts false mc mc cs in
  let len := mc + Z.of_nat (length cs) - p.2 in
  p.1 ++ (if len =? 0 then [] else [(p.2, len)]).

Lemma parts_tile q base w cs : base <= w -> tiles base (parts q base w cs).2 (parts q base w cs).1 /\
  base <= (parts q base w cs).2 <= w + Z.of_nat (length cs).
Proof.
  revert q base w. induction cs as [|c r IH]; intros q base w Hb; [simpl; lia|]. cbn [parts length].
  destruct (c =? 34); [destruct (IH true base (w + 1)); [lia|]; split; [done|lia]|].
  destruct (isspace c && negb q); cbn [fst snd tiles].
  - destruct (IH q w (w + 1)) as [Ht Hr]; [lia|].
    split; [|lia]. split; [done|]. split; [lia|]. by replace (base + (w - base)) with w by lia.
  - destruct (IH q base (w + 1)); [lia|]. split; [done|lia].
Qed.

Lemma tiles_app a b e l l' : tiles a b l -> tiles b e l' -> tiles a e (l ++ l').
Proof.
  revert a. induction l as [|[x n] l IH]; intros a; cbn [tiles app]; [by intros ->|].
  intros (-> & Hn & Ht) Ht'. split; [done|]. split; [done|]. by apply IH.
Qed.

Lemma parts_cuts cs mc post : forall pre q base,
  cs = pre ++ post -> (q = false -> 34 ∉ pre) ->
  let p := parts q base (mc + Z.of_nat (length pre)) post in
  (p.2 <> base -> good_cut cs (p.2 - mc)) /\
  (forall b n, (b, n) ∈ p.1 -> b <> base -> good_cut cs (b - mc)).
Proof.
  induction post as [|c post IH]; intros pre q base Hcs Hq; cbn [parts]; [split; [done|by intros ? ? ?%elem_of_nil]|].
  assert (Hpre : cs = (pre ++ [c]) ++ post) by (by rewrite <-app_assoc).
  set (w := mc + Z.of_nat (length pre)).
  assert (Hl : w + 1 = mc + Z.of_nat (length (pre ++ [c]))) by (unfold w; rewrite length_app; simpl; lia).
  assert (Hq1 : c <> 34 -> q = false -> 34 ∉ pre ++ [c]).
  { intros Hne E. rewrite elem_of_app, list_elem_of_singleton. specialize (Hq E). intuition congruence. }
  destruct (Z.eqb_spec c 34) as [->|H34]; [rewrite Hl; by apply IH|].
  destruct (isspace c && negb q) eqn:Esp; [|rewrite Hl; apply IH; auto].
  apply andb_prop in Esp as [Hsp Hnq]. destruct q; [done|].
  assert (Hgw : good_cut cs (w - mc)).
  { exists c. unfold w. replace (Z.to_nat _) with (length pre) by lia.
    rewrite Hcs, list_lookup_middle by done. rewrite take_app_length. auto. }
  destruct (IH (pre ++ [c]) false w Hpre (Hq1 H34)) as [I1 I2]. rewrite <-Hl in I1, I2. cbn [fst snd]. split.
  - intros _. destruct (decide ((parts false w (w + 1) post).2 = w)) as [->|]; auto.
  - intros b n [[= -> ->]|Hin]%elem_of_cons Hne; [done|].
    destruct (decide (b = w)) as [->|]; [done|]. by apply (I2 b n).
Qed.

Section cutting.
Variable emit : Z -> Z -> M St unit.

Definition run_parts (l : list (Z * Z)) : M St unit :=
  foldr (fun p k => emit p.1 p.2 ;;; k) (mreturn tt) l.

Variables (mc : Z) (cs : list Z).
(** Storing an argument leaves the loader's line alone. *)
Definition keeps_line : Prop := forall b n s u s',
  emit b n s = Ret (u, s') -> agree (get_mem s) (get_mem s') mc (Z.of_nat (length cs) + 1).

Lemma cmd_loop_run (Hk : keeps_line) {B} (k : Z * Z -> M St B) post : forall pre q base fuel s,
  cs = pre ++ post -> cstr (get_mem s) mc cs -> (length post < fuel)%nat ->
  let w := mc + Z.of_nat (length pre) in
  (r <- cmd_loop emit fuel q base w ;; k r) s =
  (run_parts (parts q base w post).1 ;;; k ((parts q base w post).2, mc + Z.of_nat (length cs))) s.
Proof.
  induction post as [|c post IH]; intros pre q base fuel s Hcs Hs Hf w;
    (destruct fuel as [|f]; [simpl in Hf; lia|]); cbn [cmd_loop parts]; rewrite mseq_assoc.
  { rewrite app_nil_r in Hcs. unfold w. rewrite <-Hcs.
    by rewrite (mseq_run _ _ _ _ _ (load_char _ _ _ (cstr_end _ _ _ Hs) ltac:(lia))). }
  assert (Hc : cs !! length pre = Some c) by (by rewrite Hcs, list_lookup_middle).
  destruct (cstr_lookup _ _ _ _ _ Hs Hc) as [Hm Hr].
  assert (Hpre : cs = (pre ++ [c]) ++ post) by (by rewrite <-app_assoc).
  assert (Hl : w + 1 = mc + Z.of_nat (length (pre ++ [c]))) by (unfold w; rewrite length_app; simpl; lia).
  rewrite (mseq_run _ _ _ _ _ (load_char _ _ _ Hm ltac:(lia))).
  simpl in Hf. assert (Hf' : (length post < f)%nat) by lia.
  destruct (Z.eqb_spec c 0); [lia|].
  destruct (c =? 34); [rewrite Hl; by apply IH|].
  destruct (isspace c && negb q); [|rewrite Hl; by apply IH].
  cbn [fst snd run_parts foldr]. fold (run_parts (parts q w (w + 1) post).1). rewrite !mseq_assoc.
  unfold mseq at 1 3. destruct (emit base (w - base) s) as [[u s']| | | |] eqn:Ee; [|done..].
  rewrite Hl. apply IH; [done| |done]. eapply cstr_agree; [|exact Hs].
  exact (Hk _ _ _ _ _ Ee).
Qed.

Lemma run_parts_app l l' s : run_parts (l ++ l') s = (run_parts l ;;; run_parts l') s.
Proof.
  revert s. induction l as [|p l IH]; intros s; [done|]. cbn [app run_parts foldr].
  rewrite mseq_assoc. unfold mseq. destruct (emit p.1 p.2 s) as [[u s']| | | |]; [|done..]. apply IH.
Qed.

(** C37: The command line is handed on completely and in order: cutting it
    stores exactly the parts [all_parts] lists, one behind the other.  They
    tile the line from its first to its last byte, and it is cut only at white
    space before the first quotation mark. *)
Theorem cmd_split_parts fuel s : keeps_line -> cstr (get_mem s) mc cs -> (length cs < fuel)%nat ->
  cmd_split emit fuel mc s = run_parts (all_parts mc cs) s /\
  tiles mc (mc + Z.of_nat (length cs)) (all_parts mc cs) /\
  (forall b n, (b, n) ∈ all_parts mc cs -> b <> mc -> good_cut cs (b - mc)).
Proof.
  intros Hk Hs Hf. destruct (parts_tile false mc mc cs) as [Ht Hr]; [lia|].
  destruct (parts_cuts cs mc cs [] false mc eq_refl (fun _ => not_elem_of_nil 34)) as [C1 C2].
  simpl length in C1, C2. rewrite Z.add_0_r in C1, C2.
  unfold all_parts. set (len := mc + _ - _). split; [|split].
  - unfold cmd_split. rewrite (mseq_run _ _ _ _ _ (load_head _ _ _ Hs)).
    destruct (decide (cs = [])) as [E|E].
    { unfold len. rewrite E. simpl. by rewrite Z.add_0_r, Z.sub_diag. }
    assert (Hh : (default 0 (head cs) =? 0) = false).
    { clear -Hs E. destruct cs as [|c r]; [done|]. destruct Hs as (_ & Hc & _). simpl. by apply Z.eqb_neq; lia. }
    rewrite Hh.
    pose proof (cmd_loop_run Hk (fun r => let len := r.2 - r.1 in if len =? 0 then mreturn tt else emit r.1 len)
                  cs [] false mc fuel s eq_refl Hs Hf) as L.
    simpl length in L. cbn zeta in L. rewrite Z.add_0_r in L. rewrite L, run_parts_app. cbn [fst snd]. fold len.
    unfold mseq. destruct (run_parts _ s) as [[u s']| | | |]; [|done..].
    destruct (len =? 0); [done|]. cbn [run_parts foldr fst snd]. unfold mseq.
    destruct (emit _ len s') as [[[] s2]| | | |]; done.
  - eapply tiles_app; [exact Ht|]. destruct (Z.eqb_spec len 0); cbn [tiles]; unfold len in *; lia.
  - intros b n [Hin|Hin]%elem_of_app Hne; [by apply (C2 b n)|].
    destruct (len =? 0); [by apply elem_of_nil in Hin|]. apply list_elem_of_singleton in Hin as [= -> ->]. by apply C1.
Qed.
End cutting.
End mboot_proofs.

(** A machine with a loader's memory map, and what the command line code does
    to the kernel heap. *)
Module MbootDemo.
Export HeapDemo.

Record bst := Bst {
  core : hst;
  tmp_ptr : Z;
  cl : list Z;
  adds : list (Z * Z);
  pages : gmap Z Z;
  physm : memory;
}.
Definition set_core c s := Bst c (tmp_ptr s) (cl s) (adds s) (pages s) (physm s).

#[export] Program Instance bst_has_mem : HasMem bst := {|
  get_mem s := get_mem (core s);
  set_mem m s := set_core (set_mem m (core s)) s;
|}.
Next Obligation. done. Qed.
Next Obligation. by intros [[] ? ? ? ? ?]. Qed.
Next Obligation. done. Qed.

Definition on_core {A} (c : M hst A) : M bst A := fun s =>
  match c (core s) with
  | Ret (a, h) => Ret (a, set_core h s)
  | Fatal m => Fatal m
  | Fault a => Fault a
  | Deadlock => Deadlock
  | NoFuel => NoFuel
  end.

#[export] Instance bst_heap : KHeapOps bst := {|
  kheap_alloc n := on_core (heap_alloc 20 kheap n);
  kheap_free p := on_core (heap_free kheap p);
|}.

(** The bytes of the frame [p] appear at [v]. *)
Definition show (p v : Z) (ph m : memory) : memory :=
  map_fold (fun a b m => if (p <=? a) && (a <? p + 4096) then <[v + a - p := b]> m else m) m ph.

#[export] Instance bst_env : BootEnv bst := {|
  boot_ax := MBOOT_MAGIC;
  boot_bx := 0x1100;
  pg_temp := tmp_ptr;
  set_pg_temp t s := Bst (core s) t (cl s) (adds s) (pages s) (physm s);
  space_resolve v s := Ret (default 0 (pages s !! (v / 4096 * 4096)), s);
  space_map p v fl s :=
    if decide (is_Some (pages s !! v)) then Ret (false, s)
    else Ret (true, Bst (set_mem (show p v (physm s) (get_mem (core s))) (core s)) (tmp_ptr s) (cl s) (adds s)
                        (<[v := p]> (pages s)) (physm s));
  space_unmap v s :=
    Ret (default 0 (pages s !! (v / 4096 * 4096)),
         Bst (core s) (tmp_ptr s) (cl s) (adds s) (delete (v / 4096 * 4096) (pages s)) (physm s));
  glob_add p v fl := mreturn tt;
  phys_reserve a l := mreturn true;
  phys_add a l s := Ret (tt, Bst (core s) (tmp_ptr s) (cl s) (adds s ++ [(a, l)]) (pages s) (physm s));
  cmdline := cl;
  set_cmdline l s := Bst (core s) (tmp_ptr s) l (adds s) (pages s) (physm s);
|}.

#[export] Program Instance bst_laws : BootEnvLaws bst := {|
  resolved s v := default 0 (pages s !! (v / 4096 * 4096));
|}.
Solve All Obligations with (intros; simplify_eq/=; try (by destruct s); done).

(** The loader's structures: the info at 0x1100, a map of two regions at
    0x2000, the command line at 0x3000. *)
Definition wr (l : list (nat * Z * Z)) (m : memory) : memory := foldl (fun m x => mwrite x.1.1 m x.1.2 x.2) m l.
Definition boot_mem : memory := wr
  [(4%nat, 0x1100, 0x44); (4%nat, 0x1110, 0x3000); (4%nat, 0x112C, 48); (4%nat, 0x1130, 0x2000);
   (4%nat, 0x2000, 20); (8%nat, 0x2004, 0x100000); (8%nat, 0x200C, 0x700000); (4%nat, 0x2014, 1);
   (4%nat, 0x2018, 20); (8%nat, 0x201C, 0x800000); (8%nat, 0x2024, 0x1000); (4%nat, 0x202C, 2);
   (8%nat, 0x3000, 0x6766656463626120); (1%nat, 0x3008, 0)] ∅.
Definition bz : bst := Bst g1 MBOOT_VTEMP_REG_START (replicate 4 0) [] ∅ boot_mem.

(** The whole handler registers the one available region and gives back both
    of its temporary pages. *)
Example pmem_init_runs :
  adds (state_of (mboot_pmem_init bz) bz) = [(0x100000, 0x700000)] /\
  pages (state_of (mboot_pmem_init bz) bz) = ∅.
Proof. by vm_compute. Qed.

(** The line " abcdefg", mapped. *)
Definition line : list Z := [32; 97; 98; 99; 100; 101; 102; 103].
Definition bm : bst := state_of (mboot_map 0x3000 bz) bz.
Definition after7 : bst := state_of (mboot_cmd_alloc 100 MBOOT_VTEMP_REG_START 7 bm) bm.
Definition after6 : bst := state_of (mboot_cmd_alloc 100 MBOOT_VTEMP_REG_START 6 bm) bm.

(** The terminator is written one byte too far.  With 7 characters that byte
    is the first of the block's footer: the heap does not know the block any
    more.  With 6 characters it is padding. *)
Theorem mboot_cmd_alloc_overruns :
  ret_val (kheap_alloc 8 bm) = Some 65656 /\
  mread 8 (get_mem after7) (65656 + 8) = Some 0 /\
  ret_val (heap_validate kheap 65656 (core after7)) = Some false /\
  ret_val (heap_validate kheap 65656 (core after6)) = Some true.
Proof. by vm_compute. Qed.

(** The argument that is stored is a fresh block nothing was copied to: the
    trimmed text "abcdef" stays in the other block. *)
Theorem cmd_add_does_not_copy :
  head (cl after7) = Some 65680 /\
  mread 6 (get_mem after7) 65656 = Some 0x666564636261 /\
  mread 6 (get_mem after7) 65680 = Some 0.
Proof. by vm_compute. Qed.

Lemma mboot_find_free_page_first_witness :
  exists r t, mboot_find_free_page bm = Ret (r, set_pg_temp t bm) /\
    (r = t /\ pg_temp bm <= t < MBOOT_VTEMP_REG_END /\ resolved bm t = 0 \/ r = 0 /\ t = MBOOT_VTEMP_REG_END).
Proof.
  destruct (mboot_find_free_page_first bm) as (r & t & H1 & H2 & _).
  - by vm_compute.
  - by vm_compute.
  - exists r, t. split; [exact H1|exact H2].
Defined.

Definition mm_state : bst := state_of (mboot_map 0x2000 bz) bz.
Definition mm_list : list region := [MRegion 20 0x100000 0x700000 1; MRegion 20 0x800000 0x1000 2].
Lemma mmap_walk_adds_available_witness :
  mmap_walk 48 (MBOOT_VTEMP_REG_START + 48) MBOOT_VTEMP_REG_START mm_state =
  run_adds [MRegion 20 0x100000 0x700000 1] mm_state.
Proof.
  apply (mmap_walk_adds_available mm_list).
  - repeat split; by vm_compute.
  - split; by vm_compute.
  - repeat constructor; by vm_compute.
  - simpl. lia.
Defined.

Lemma mmap_walk_ends_witness :
  48 - 0 <= Z.of_nat 48 /\ mmap_walk 48 (0 + 48) 0 bz <> NoFuel.
Proof. split; [lia|]. apply mmap_walk_ends; [done|lia]. Defined.

Lemma found_rd_fits_witness :
  (exists n, found_rd 0x200010 0x203000 bz =
    (run_maps (rd_pages n (ALIGN_DN 0x200010 PAGE_SIZE_4K) RD_VIRTUAL) ;;;
     mreturn (RD_VIRTUAL + 0x200010 mod PAGE_SIZE_4K)) bz) /\
  found_rd 0x200000 (0x200000 + RD_VSZ) bz = Fatal "rd too large to be mapped".
Proof.
  split.
  - destruct (found_rd_fits 0x200010 0x203000 bz) as (_ & H); [lia|lia|].
    destruct H as (n & Hn & _); [by vm_compute|]. exists n. exact Hn.
  - apply (found_rd_fits 0x200000 (0x200000 + RD_VSZ) bz); by vm_compute.
Defined.

(** The end of a module in the last page below 4 GB: nothing is mapped, and
    the pointer to the window is returned all the same. *)
Lemma found_rd_end_wraps : found_rd 0xfff00000 0xfffff800 bz = Ret (RD_VIRTUAL, bz).
Proof.
  unfold found_rd. rewrite (proj2 (Z.ltb_ge (RD_VSZ - PAGE_SIZE_4K) _)) by (by vm_compute).
  unfold mseq. by rewrite map_rd_none by (by vm_compute).
Qed.

Lemma cmd_split_parts_witness :
  cmd_split (fun _ _ => mreturn tt) 20 MBOOT_VTEMP_REG_START bm =
    run_parts (fun _ _ => mreturn tt) (all_parts MBOOT_VTEMP_REG_START line) bm /\
  all_parts 0 line = [(0, 0); (0, 8)].
Proof.
  split; [|by vm_compute].
  destruct (cmd_split_parts (fun _ _ => mreturn tt) MBOOT_VTEMP_REG_START line 20 bm) as [Hr _].
  - intros b n s u s'. intros [= <- <-]. apply agree_refl.
  - repeat split; by vm_compute.
  - simpl. lia.
  - exact Hr.
Defined.
End MbootDemo.
