(* ===== verification/Clock.v ===== *)
(** * Time sources: rtc.c, tsc.c, lapic_tmr.c and msr.c

    The state is what the three drivers keep in static variables and the
    registers they write.  What the hardware answers is an input: a tick of
    the real time clock brings the counter values the handlers read during
    it.  Waiting for an interrupt consumes one tick of the list of ticks to
    come. *)

From S2P Require Import Prelude.

(** ** Model specific registers: msr.c *)

(** [v]: the value of the register; [rdmsr] gives its two halves. *)
Definition msr_read (v : Z) : Z := Z.lor (u32 (Z.shiftl (v / 2 ^ 32) 31)) (u32 v).

(** The value [wrmsr] leaves in the register. *)
Definition msr_write (value : Z) : Z := u32 (Z.shiftr value 31) * 2 ^ 32 + u32 value.

(** ** The time stamp counter: tsc.c *)

(** [rdtsc] leaves the high half of the counter in [rdx]; the code shifts and
    adds [rbx], which holds whatever the compiler left there. *)
Definition tsc_read (rbx counter : Z) : Z := Z.lor (u32 counter) (u64 (Z.shiftl rbx 31)).

(** [rdtscp] also gives the number of the processor. *)
Definition tsc_read_p (rbx counter cpuid : Z) : Z * Z := (tsc_read rbx counter, u32 cpuid).

Definition TICKS_INCR_2_HZ (ticks incr : Z) : Z := u64 (ticks * (1000000 / incr)).
Definition CALIBRATE_TURNS : Z := 8.

Record tsc_t := Tsc { tsc_hz : Z; ltsc : Z; tsc_avg : Z; tsc_turns : Z }.

(** The callback, with the reading it takes; whether it wants another tick. *)
Definition tsc_calibrate (incr tsc : Z) (t : tsc_t) : bool * tsc_t :=
  if ltsc t =? 0 then (true, Tsc (tsc_hz t) tsc (tsc_avg t) (u64 (tsc_turns t + 1)))
  else
    let hz := TICKS_INCR_2_HZ (u64 (tsc - ltsc t)) incr in
    let avg := if tsc_avg t =? 0 then hz else u64 (tsc_avg t + hz) / 2 in
    if tsc_turns t =? CALIBRATE_TURNS then (false, Tsc avg (ltsc t) avg (tsc_turns t))
    else (true, Tsc (tsc_hz t) tsc avg (u64 (tsc_turns t + 1))).

(** ** The timer of the local APIC: lapic_tmr.c *)

Definition CALIBRATE_COUNT : Z := 0xFFFFFFFF.
Definition IRQ_LAPIC_TIMER : Z := 0x24 - 1.

Record lapic_tmr_t := LapicTmr {
  lapic_hz : Z; l_turns : Z; l_avg : Z;
  master : Z;
  r_divide : Z; r_initial : Z; r_lvt : Z;
}.

(** [count]: what APIC_REG_CURRENT_COUNT reads. *)
Definition lapic_tmr_calibrate (incr count : Z) (l : lapic_tmr_t) : bool * lapic_tmr_t :=
  let again avg := (true, LapicTmr (lapic_hz l) (u64 (l_turns l + 1)) avg (master l) (r_divide l) CALIBRATE_COUNT (r_lvt l)) in
  if l_turns l =? 0 then again (l_avg l)
  else
    let hz := TICKS_INCR_2_HZ (u32 (CALIBRATE_COUNT - count)) incr in
    let avg := if l_avg l =? 0 then hz else u64 (l_avg l + hz) / 2 in
    if l_turns l =? CALIBRATE_TURNS then
      (false, LapicTmr avg (l_turns l) avg (master l) (r_divide l) (r_initial l) (r_lvt l))
    else again avg.

Definition lapic_tmr_sched (us : Z) (l : lapic_tmr_t) : bool * lapic_tmr_t :=
  let cnt := u64 (us * lapic_hz l) / 1000000 in
  (true, LapicTmr (lapic_hz l) (l_turns l) (l_avg l) (master l) (r_divide l) (u32 cnt) IRQ_LAPIC_TIMER).

(** ** The real time clock: rtc.c *)

Definition RTC_REG_STATE_A : Z := 0xA.
Definition RTC_REG_STATE_B : Z := 0xB.
Definition RTC_A_DIVIDER_32768 : Z := Z.shiftl 2 4.
Definition RTC_B_24_HRS : Z := 2.
Definition RTC_B_BINARY : Z := 4.
Definition RTC_B_INT_PERIODIC : Z := 64.
Definition RTC_RATE_8192HZ : Z := 3.
Definition RTC_RATE_128HZ : Z := 9.
Definition RTC_RATE_8HZ : Z := 13.
Definition RTC_RATE_2HZ : Z := 15.

Definition RTC_INCREMENT_US (x : Z) : Z := 1000000 / Z.shiftr 32768 (x - 1).

Inductive calibrate_cb := CalTsc | CalLapic.

Record clock := Clock {
  _systime : Z; rtc_bin : bool; rtc_24 : bool; _increment : Z;
  tsc_at_tick : Z; rtc_tsc_hz : Z;
  _calibrate : option calibrate_cb;
  tsc : tsc_t; ltmr : lapic_tmr_t;
  cmos : Z -> Z;
  eois : Z;
}.

(** What one tick finds: the registers the two readings of the counter see,
    and the current count of the timer. *)
Record tick := Tick { k_rbx : Z; k_counter : Z; k_rbx' : Z; k_counter' : Z; k_count : Z }.
Definition cal_reading (k : tick) : Z := tsc_read (k_rbx' k) (k_counter' k).

Definition outcmos (r v : Z) (c : clock) : clock :=
  Clock (_systime c) (rtc_bin c) (rtc_24 c) (_increment c) (tsc_at_tick c) (rtc_tsc_hz c) (_calibrate c) (tsc c)
        (ltmr c) (fun x => if x =? r then v else cmos c x) (eois c).
Definition set_calibrate cb (c : clock) : clock :=
  Clock (_systime c) (rtc_bin c) (rtc_24 c) (_increment c) (tsc_at_tick c) (rtc_tsc_hz c) cb (tsc c) (ltmr c) (cmos c) (eois c).
Definition set_increment i (c : clock) : clock :=
  Clock (_systime c) (rtc_bin c) (rtc_24 c) i (tsc_at_tick c) (rtc_tsc_hz c) (_calibrate c) (tsc c) (ltmr c) (cmos c) (eois c).
Definition set_ltmr l (c : clock) : clock :=
  Clock (_systime c) (rtc_bin c) (rtc_24 c) (_increment c) (tsc_at_tick c) (rtc_tsc_hz c) (_calibrate c) (tsc c) l (cmos c) (eois c).

Definition rtc_tick_handler (k : tick) : M clock bool := fun c =>
  let now := u64 (_systime c + _increment c) in
  let at_tick := tsc_read (k_rbx k) (k_counter k) in
  let done cb t l := Ret (true, Clock now (rtc_bin c) (rtc_24 c) (_increment c) at_tick (rtc_tsc_hz c) cb t l (cmos c) (eois c + 1)) in
  match _calibrate c with
  | Some CalTsc =>
      let r := tsc_calibrate (_increment c) (cal_reading k) (tsc c) in
      done (if r.1 then Some CalTsc else None) r.2 (ltmr c)
  | Some CalLapic =>
      let r := lapic_tmr_calibrate (_increment c) (k_count k) (ltmr c) in
      done (if r.1 then Some CalLapic else None) (tsc c) r.2
  | None => done None (tsc c) (ltmr c)
  end.

Definition rtc_set_rate (rate : Z) : M clock Z :=
  if (rate <? RTC_RATE_8192HZ) || (RTC_RATE_2HZ <? rate) then mfatal "RTC rate out of range"
  else
    old <- mgets (fun c => cmos c RTC_REG_STATE_A) ;;
    mmodify (outcmos RTC_REG_STATE_A (Z.lor RTC_A_DIVIDER_32768 rate)) ;;;
    mmodify (set_increment (u32 (RTC_INCREMENT_US rate))) ;;;
    mreturn (Z.land old 0xF).

Definition rtc_calibrate (cb : calibrate_cb) : M clock unit := mmodify (set_calibrate (Some cb)).

(** [current]: what the counter reads now. *)
Definition rtc_systime (current : Z) (c : clock) : Z :=
  let diff := s64 (current - tsc_at_tick c) in
  let us := if negb (rtc_tsc_hz c =? 0) && (0 <? diff) then u64 (s64 (diff * 1000000)) / rtc_tsc_hz c else 0 in
  u64 (_systime c + us).

(** [while(!hz) hlt;]: the ticks that are left when the wait is over. *)
Fixpoint wait_for (hz : clock -> Z) (ticks : list tick) : M clock (list tick) :=
  v <- mgets hz ;;
  if negb (v =? 0) then mreturn ticks
  else
    match ticks with
    | [] => mnofuel
    | k :: r => rtc_tick_handler k ;;; wait_for hz r
    end.

Definition tsc_init (intr_state : bool) (ticks : list tick) : M clock (list tick) :=
  if intr_state then mfatal "interrupts may not be enabled in tsc_init()!"
  else
    old_rate <- rtc_set_rate RTC_RATE_128HZ ;;
    rtc_calibrate CalTsc ;;;
    rest <- wait_for (fun c => tsc_hz (tsc c)) ticks ;;
    rtc_set_rate old_rate ;;;
    mreturn rest.

(** [intr_add] and [ioapic_enable] have been called in between. *)
Definition rtc_init (intr_state : bool) (ticks : list tick) : M clock (list tick) :=
  rtc_set_rate RTC_RATE_8HZ ;;;
  b <- mgets (fun c => cmos c RTC_REG_STATE_B) ;;
  mmodify (outcmos RTC_REG_STATE_B (Z.lor b RTC_B_INT_PERIODIC)) ;;;
  mmodify (fun c => Clock (_systime c) (negb (Z.land b RTC_B_BINARY =? 0)) (negb (Z.land b RTC_B_24_HRS =? 0))
                      (_increment c) (tsc_at_tick c) (rtc_tsc_hz c) (_calibrate c) (tsc c) (ltmr c) (cmos c) (eois c)) ;;;
  rest <- tsc_init intr_state ticks ;;
  mmodify (fun c => Clock (_systime c) (rtc_bin c) (rtc_24 c) (_increment c) (tsc_at_tick c) (tsc_hz (tsc c))
                      (_calibrate c) (tsc c) (ltmr c) (cmos c) (eois c)) ;;;
  mreturn rest.

Definition lapic_tmr_init (intr_state : bool) (m : Z) (ticks : list tick) : M clock (list tick) :=
  if intr_state then mfatal "interrupts may not be enabled in lapic_tmr_init()!"
  else
    mmodify (fun c => let l := ltmr c in
      set_ltmr (LapicTmr (lapic_hz l) (l_turns l) (l_avg l) m 0xB (r_initial l) (r_lvt l)) c) ;;;
    old_rate <- rtc_set_rate RTC_RATE_128HZ ;;
    rtc_calibrate CalLapic ;;;
    rest <- wait_for (fun c => lapic_hz (ltmr c)) ticks ;;
    rtc_set_rate old_rate ;;;
    mmodify (fun c => let l := ltmr c in
      set_ltmr (LapicTmr (lapic_hz l) (l_turns l) (l_avg l) (master l) (r_divide l) (r_initial l) IRQ_LAPIC_TIMER) c) ;;;
    mreturn rest.

(** The interrupt of the timer: the master callback, if there is one, then
    the end of the interrupt. *)
Definition lapic_tmr_handler (call_master : Z -> M clock unit) : M clock bool :=
  m <- mgets (fun c => master (ltmr c)) ;;
  (if m =? 0 then mreturn tt else call_master m) ;;;
  mmodify (fun c => Clock (_systime c) (rtc_bin c) (rtc_24 c) (_increment c) (tsc_at_tick c) (rtc_tsc_hz c)
                      (_calibrate c) (tsc c) (ltmr c) (cmos c) (eois c + 1)) ;;;
  mreturn true.

(** ** Model specific registers *)

(** msr_read returns the register exactly when it is below 2^32, and
    msr_write stores its argument exactly when the argument is below 2^31 or
    is one of the 2^31 highest: the shift by 31 instead of 32 bits loses or
    doubles the high half of every other value. *)
Theorem msr_exact v : 0 <= v < 2 ^ 64 ->
  (msr_read v = v <-> v < 2 ^ 32) /\
  (msr_write v = v <-> v < 2 ^ 31 \/ 2 ^ 64 - 2 ^ 31 <= v).
Proof.
  intros Hv. split.
  - unfold msr_read. split.
    + intros <-. apply (lor_bound _ _ 32); [lia|apply u32_range..].
    + intros Hs. rewrite Z.div_small by lia. rewrite Z.shiftl_0_l. change (u32 0) with 0. rewrite Z.lor_0_l. by apply u32_small; lia.
  - unfold msr_write, u32. rewrite Z.shiftr_div_pow2 by lia. split; [|intros [?|?]]; dlia.
Qed.

(** The high half of the counter never enters a reading. *)
Lemma tsc_read_low rbx c : tsc_read rbx c = tsc_read rbx (c mod 2 ^ 32).
Proof. unfold tsc_read, u32. by rewrite Z.mod_mod by lia. Qed.

(** ** Setting the rate *)

Lemma set_rate_run rate c : 3 <= rate <= 15 ->
  rtc_set_rate rate c =
    Ret (Z.land (cmos c RTC_REG_STATE_A) 0xF,
         set_increment (1000000 / 2 ^ (16 - rate)) (outcmos RTC_REG_STATE_A (32 + rate) c)).
Proof.
  intros Hr. unfold rtc_set_rate, RTC_RATE_8192HZ, RTC_RATE_2HZ.
  destruct (Z.ltb_spec rate 3); [lia|]. destruct (Z.ltb_spec 15 rate); [lia|]. cbn [orb].
  unfold mgets, mmodify, mseq, mreturn. do 2 f_equal.
  assert (E : Z.lor RTC_A_DIVIDER_32768 rate = 32 + rate) by (apply (lor_mul_pow2 1 rate 5); lia).
  rewrite E. f_equal. unfold RTC_INCREMENT_US.
  rewrite Z.shiftr_div_pow2 by lia. change 32768 with (2 ^ 15).
  replace (2 ^ 15 / 2 ^ (rate - 1)) with (2 ^ (16 - rate)).
  - apply u32_small. split; [apply Z.div_pos; [lia|apply Z.pow_pos_nonneg; lia]|].
    apply Z.div_lt_upper_bound; [apply Z.pow_pos_nonneg; lia|].
    assert (1 <= 2 ^ (16 - rate)) by (apply (Z.pow_le_mono_r 2 0); lia). lia.
  - rewrite <-Z.pow_sub_r by lia. f_equal. lia.
Qed.

(** Setting the rate stops the machine exactly for the codes the chip
    does not have; else the next tick adds the period of that rate in whole
    microseconds, and putting back the returned code restores the register
    and the increment the last setting had made. *)
Theorem rtc_set_rate_roundtrip r r' c : 0 <= r < 256 -> 3 <= r' <= 15 ->
  (r < 3 \/ 15 < r -> exists m, rtc_set_rate r c = Fatal m) /\
  (3 <= r <= 15 -> exists c1 c2,
     (rtc_set_rate r ;;; rtc_set_rate r') c = Ret (r, c1) /\ rtc_set_rate r c1 = Ret (r', c2) /\
     _increment c1 = 1000000 / 2 ^ (16 - r') /\ _increment c2 = 1000000 / 2 ^ (16 - r) /\
     cmos c2 RTC_REG_STATE_A = 32 + r).
Proof.
  intros Hr Hr'. split.
  - intros Ho. unfold rtc_set_rate, RTC_RATE_8192HZ, RTC_RATE_2HZ. eexists.
    destruct (Z.ltb_spec r 3), (Z.ltb_spec 15 r); first [lia|done].
  - intros Hin. assert (Hold : forall x, 3 <= x <= 15 -> Z.land (32 + x) 0xF = x).
    { intros x Hx. change 0xF with (Z.ones 4). rewrite Z.land_ones by lia. dlia. }
    rewrite (mseq_run _ _ _ _ _ (set_rate_run r c Hin)), set_rate_run by done.
    eexists _, _. split; [by simpl; rewrite Hold|]. rewrite set_rate_run by done.
    split; [by simpl; rewrite Hold|]. done.
Qed.

(** ** The system time *)

(** Between two ticks the system time never goes back, starts at the time
    of the tick and advances by the microseconds the counter measured: readings
    at [t1 <= t2] counts behind the tick give times in that order, each exact
    up to rounding down. *)
Theorem rtc_systime_monotone c d1 d2 : 0 <= d1 <= d2 -> d2 * 1000000 < 2 ^ 63 ->
  0 <= tsc_at_tick c < 2 ^ 64 -> 0 < rtc_tsc_hz c < 2 ^ 63 -> 0 <= _systime c < 2 ^ 63 ->
  let read d := u64 (tsc_at_tick c + d) in
  rtc_systime (read d1) c <= rtc_systime (read d2) c /\
  rtc_systime (read d1) c = _systime c + d1 * 1000000 / rtc_tsc_hz c.
Proof.
  intros Hd Hb Ht Hz Hs read.
  assert (E : forall d, 0 <= d -> d * 1000000 < 2 ^ 63 ->
              rtc_systime (read d) c = _systime c + d * 1000000 / rtc_tsc_hz c).
  { intros d H0 H1. unfold rtc_systime, read.
    assert (Eu : u64 (u64 (tsc_at_tick c + d) - tsc_at_tick c) = d).
    { unfold u64. rewrite Zminus_mod_idemp_l. replace (_ - _) with d by lia. apply Z.mod_small. lia. }
    assert (Es : s64 (u64 (tsc_at_tick c + d) - tsc_at_tick c) = d)
      by (unfold s64; rewrite Eu, decide_True by lia; done).
    rewrite Es. destruct (Z.eqb_spec (rtc_tsc_hz c) 0); [lia|]. cbn [negb andb].
    assert (Hq : d * 1000000 / rtc_tsc_hz c < 2 ^ 63).
    { apply Z.div_lt_upper_bound; [lia|]. nia. }
    destruct (Z.ltb_spec 0 d) as [Hp|Hp].
    - assert (Em : s64 (d * 1000000) = d * 1000000)
        by (unfold s64; rewrite u64_small by lia; rewrite decide_True by lia; done).
      rewrite Em, (u64_small (d * 1000000)) by lia. apply u64_small.
      assert (0 <= d * 1000000 / rtc_tsc_hz c) by (apply Z.div_pos; lia). lia.
    - replace d with 0 by lia. rewrite Z.div_0_l by lia. apply u64_small. lia. }
  rewrite !E by lia. split; [|done].
  assert (d1 * 1000000 / rtc_tsc_hz c <= d2 * 1000000 / rtc_tsc_hz c) by (apply Z.div_le_mono; lia). lia.
Qed.

(** ** Calibration *)

(** The state of the counter's calibration after [k] ticks of a counter that
    starts at [t0] and advances by [d] per tick. *)
Definition calibrating (t0 d : Z) (k : Z) (t : tsc_t) : Prop :=
  tsc_hz t = 0 /\ tsc_turns t = k /\ ltsc t = (if k =? 0 then 0 else t0 + d * (k - 1)) /\
  tsc_avg t = (if k <=? 1 then 0 else 128 * d).

Lemma tsc_calibrate_step t0 d k t : 0 < t0 -> 0 < d -> t0 + d * 8 < 2 ^ 64 -> 128 * d < 2 ^ 63 ->
  0 <= k < 8 -> calibrating t0 d k t ->
  exists t', tsc_calibrate 7812 (t0 + d * k) t = (true, t') /\ calibrating t0 d (k + 1) t'.
Proof.
  intros H0 Hd Hb Hm Hk (Ez & Ek & El & Ea). unfold tsc_calibrate. rewrite Ek.
  destruct (Z.eqb_spec k 0) as [->|Hk0].
  - rewrite El. eexists. split; [done|]. unfold calibrating; simpl. split; [done|]. split; [done|]. split; [lia|done].
  - rewrite El. destruct (Z.eqb_spec (t0 + d * (k - 1)) 0); [nia|].
    assert (Et : TICKS_INCR_2_HZ (u64 (t0 + d * k - (t0 + d * (k - 1)))) 7812 = 128 * d).
    { unfold TICKS_INCR_2_HZ. change (1000000 / 7812) with 128. replace (_ - _) with d by lia.
      rewrite (u64_small d) by lia. rewrite u64_small; lia. }
    rewrite Et. destruct (Z.eqb_spec k CALIBRATE_TURNS); [unfold CALIBRATE_TURNS in *; lia|].
    eexists. split; [done|]. unfold calibrating; simpl. split; [done|].
    destruct (Z.eqb_spec (k + 1) 0); [lia|]. destruct (Z.leb_spec (k + 1) 1); [lia|].
    split; [rewrite u64_small; lia|]. split; [f_equal; lia|]. rewrite Ea.
    destruct (Z.leb_spec k 1); [done|]. destruct (Z.eqb_spec (128 * d) 0); [lia|].
    rewrite u64_small by lia. dlia.
Qed.

Lemma tsc_calibrate_last t0 d t : 0 < t0 -> 0 < d -> t0 + d * 8 < 2 ^ 64 -> 128 * d < 2 ^ 63 ->
  calibrating t0 d 8 t ->
  exists t', tsc_calibrate 7812 (t0 + d * 8) t = (false, t') /\ tsc_hz t' = 128 * d.
Proof.
  intros H0 Hd Hb Hm (Ez & Ek & El & Ea). simpl in El, Ea. change (8 - 1) with 7 in El. unfold tsc_calibrate. rewrite Ek, El.
  destruct (Z.eqb_spec (t0 + d * 7) 0); [lia|].
  assert (Et : TICKS_INCR_2_HZ (u64 (t0 + d * 8 - (t0 + d * 7))) 7812 = 128 * d).
  { unfold TICKS_INCR_2_HZ. change (1000000 / 7812) with 128. replace (_ - _) with d by lia.
    rewrite (u64_small d) by lia. rewrite u64_small; lia. }
  rewrite Et, Ea. destruct (Z.eqb_spec (128 * d) 0); [lia|].
  eexists. split; [done|]. simpl. rewrite u64_small by lia. dlia.
Qed.

(** The wait of tsc_init, from the [k]-th of nine ticks on. *)
Lemma wait_calibrates t0 d rest : 0 < t0 -> 0 < d -> t0 + d * 8 < 2 ^ 64 -> 128 * d < 2 ^ 63 ->
  forall n k ticks c, (n + k = 9)%nat -> (0 < n)%nat -> length ticks = n ->
  (forall i x, ticks !! i = Some x -> cal_reading x = t0 + d * Z.of_nat (k + i)) ->
  _increment c = 7812 -> _calibrate c = Some CalTsc -> calibrating t0 d (Z.of_nat k) (tsc c) ->
  exists c', wait_for (fun c => tsc_hz (tsc c)) (ticks ++ rest) c = Ret (rest, c') /\
    tsc_hz (tsc c') = 128 * d /\ _calibrate c' = None /\ cmos c' = cmos c.
Proof.
  intros H0 Hd Hb Hm. induction n as [|n IH]; intros k ticks c Hnk Hn Hlen Hr Hi Hc Hcal; [lia|].
  destruct ticks as [|x ticks]; [done|]. simpl in Hlen.
  assert (Hx : cal_reading x = t0 + d * Z.of_nat k) by (rewrite (Hr 0%nat x eq_refl); f_equal; lia).
  cbn [app wait_for]. pose proof Hcal as (Ez & _). unfold mgets; unfold mseq at 1. rewrite Ez.
  cbn [Z.eqb negb]. unfold mseq at 1, rtc_tick_handler. rewrite Hc, Hx, Hi.
  destruct n as [|n].
  - assert (k = 8%nat) as -> by lia. destruct ticks; [|done].
    destruct (tsc_calibrate_last t0 d (tsc c)) as (t' & Et & Ehz); [done..|].
    change (Z.of_nat 8) with 8. rewrite Et. cbn [fst snd app]. cbn zeta.
    destruct rest as [|y rest]; cbn [wait_for]; unfold mgets; unfold mseq; cbn [tsc]; rewrite Ehz;
      (destruct (Z.eqb_spec (128 * d) 0); [lia|]); (eexists; split; [done|]; by split_and!).
  - destruct (tsc_calibrate_step t0 d (Z.of_nat k) (tsc c)) as (t' & Et & Hcal'); [done..|lia|done|].
    rewrite Et. cbn [fst snd]. cbn zeta.
    set (c1 := Clock _ _ _ _ _ _ _ _ _ _ _).
    destruct (IH (S k) ticks c1) as (c' & Hrun & Hh & Hn' & Hcm); [lia|lia|lia| |done|done| |].
    + intros i y Hy. rewrite (Hr (S i) y Hy). do 3 f_equal. lia.
    + simpl. by replace (Z.of_nat k + 1) with (Z.of_nat (S k)) in Hcal' by lia.
    + exists c'. auto.
Qed.

(** C35: The calibration of the time stamp counter ends: with interrupts off
    and a counter that advances by [d] per tick, tsc_init returns after exactly
    nine ticks of the 128 Hz clock, with a frequency of 128 times [d], no
    callback left behind and the clock back at the rate it had. *)
Theorem tsc_init_calibrates t0 d rate ticks rest c :
  0 < t0 -> 0 < d -> t0 + d * 8 < 2 ^ 64 -> 128 * d < 2 ^ 63 -> 3 <= rate <= 15 ->
  length ticks = 9%nat -> (forall i x, ticks !! i = Some x -> cal_reading x = t0 + d * Z.of_nat i) ->
  cmos c RTC_REG_STATE_A = 32 + rate -> tsc c = Tsc 0 0 0 0 ->
  exists c', tsc_init false (ticks ++ rest) c = Ret (rest, c') /\
    tsc_hz (tsc c') = 128 * d /\ _calibrate c' = None /\
    cmos c' RTC_REG_STATE_A = 32 + rate /\ _increment c' = 1000000 / 2 ^ (16 - rate).
Proof.
  intros H0 Hd Hb Hm Hrate Hlen Hr Hcm Ht. unfold tsc_init.
  rewrite (mseq_run _ _ _ _ _ (set_rate_run RTC_RATE_128HZ c ltac:(unfold RTC_RATE_128HZ; lia))).
  unfold rtc_calibrate, mmodify. unfold mseq at 1. set (c1 := set_calibrate _ _).
  destruct (wait_calibrates t0 d rest H0 Hd Hb Hm 9 0 ticks c1) as (c2 & Hrun & Hh & Hn & Hc2); try done; try lia.
  { unfold c1. simpl. rewrite Ht. by repeat split. }
  rewrite (mseq_run _ _ _ _ _ Hrun), Hcm.
  assert (Er : Z.land (32 + rate) 0xF = rate)
    by (change 0xF with (Z.ones 4); rewrite Z.land_ones by lia; dlia).
  rewrite Er, (mseq_run _ _ _ _ _ (set_rate_run rate c2 Hrate)). by eexists.
Qed.

(** ** Programming the timer *)

(** lapic_tmr_sched programs the count that the asked microseconds take at
    the calibrated rate, rounded down, as long as it fits the 32-bit register;
    a longer wait is cut to 32 bits, and a wait below one count stops the timer
    (count 0).  It never fails. *)
Theorem lapic_tmr_sched_count us l : 0 <= us -> 0 <= lapic_hz l -> us * lapic_hz l < 2 ^ 64 ->
  let cnt := us * lapic_hz l / 1000000 in
  exists l', lapic_tmr_sched us l = (true, l') /\ r_lvt l' = IRQ_LAPIC_TIMER /\ lapic_hz l' = lapic_hz l /\
    (cnt < 2 ^ 32 -> r_initial l' = cnt) /\ (2 ^ 32 <= cnt -> r_initial l' = cnt mod 2 ^ 32 /\ r_initial l' < cnt) /\
    (us * lapic_hz l < 1000000 <-> cnt = 0).
Proof.
  intros Hu Hz Hb cnt. assert (Hp : 0 <= us * lapic_hz l) by (apply Z.mul_nonneg_nonneg; lia).
  eexists. split; [done|]. simpl. rewrite u64_small by lia. fold cnt.
  assert (0 <= cnt) by (apply Z.div_pos; lia).
  split; [done|]. split; [done|]. split; [intros; apply u32_small; lia|]. split.
  - intros Hc. split; [done|]. pose proof (u32_range cnt). lia.
  - unfold cnt. generalize dependent (us * lapic_hz l). intros p **. subst cnt. dlia.
Qed.

Module ClockDemo.
Definition lt0 : lapic_tmr_t := LapicTmr 0 0 0 0 0 0 0.
Definition clk0 : clock := Clock 0 false false 0 0 0 None (Tsc 0 0 0 0) lt0 (fun r => if r =? 0xA then 45 else 2) 0.

(** A counter of 1 GHz, as seen every 1/128 second, in [rbx = 0]. *)
Definition ticks9 : list tick := (fun i : nat => Tick 0 0 0 (1000 + 7812500 * Z.of_nat i) 0) <$> seq 0 9.

Lemma tsc_init_calibrates_witness :
  exists c', tsc_init false (ticks9 ++ []) clk0 = Ret ([], c') /\ tsc_hz (tsc c') = 128 * 7812500.
Proof.
  destruct (tsc_init_calibrates 1000 7812500 13 ticks9 [] clk0) as (c' & H1 & H2 & _); [lia|lia|lia|lia|lia|reflexivity| |reflexivity|reflexivity|].
  - intros i x Hx. destruct i as [|[|[|[|[|[|[|[|[|i]]]]]]]]]; [injection Hx as <-; by vm_compute..|].
    by destruct i.
  - exists c'. split; [exact H1|exact H2].
Defined.

Lemma rtc_set_rate_roundtrip_witness : exists m, rtc_set_rate 2 clk0 = Fatal m.
Proof. destruct (rtc_set_rate_roundtrip 2 9 clk0) as [H _]; [lia|lia|]. apply H. lia. Defined.

Lemma msr_exact_witness : msr_read 0xFEE00900 = 0xFEE00900 /\ msr_write 0xFEE00900 <> 0xFEE00900.
Proof. destruct (msr_exact 0xFEE00900) as [H _]; [lia|]. split; [by apply H|by vm_compute]. Defined.

Definition clk1 : clock := Clock 500 false false 125000 77 1000000000 None (Tsc 0 0 0 0) lt0 (fun _ => 0) 0.
Lemma rtc_systime_monotone_witness :
  rtc_systime (u64 (77 + 4000)) clk1 = 500 + 4000 * 1000000 / 1000000000.
Proof. destruct (rtc_systime_monotone clk1 4000 9000) as [_ H]; simpl; try lia. exact H. Defined.

Lemma lapic_tmr_sched_count_witness :
  exists l', lapic_tmr_sched 5000000 (LapicTmr 1000000000 8 0 0 0xB 0 0) = (true, l') /\
    r_initial l' = 5000000000 mod 2 ^ 32.
Proof.
  destruct (lapic_tmr_sched_count 5000000 (LapicTmr 1000000000 8 0 0 0xB 0 0)) as (l' & H1 & _ & _ & _ & H2 & _);
    simpl; try lia.
  exists l'. split; [exact H1|]. apply H2. by vm_compute.
Defined.

(** A counter that wraps its low half between two ticks: the time goes on as
    if 2^64 counts had passed since the tick, that is, not at all. *)
Example systime_stalls_after_wrap :
  rtc_systime (tsc_read 0 (2 ^ 32 + 5)) (Clock 500 false false 125000 (tsc_read 0 (2 ^ 32 - 5)) 1000000000 None (Tsc 0 0 0 0) lt0 (fun _ => 0) 0) = 500.
Proof. by vm_compute. Qed.
End ClockDemo.
