(* ===== verification/Ksym.v ===== *)
(** * Symbols, stack traces and extension points: ksym.c and extp.c

    A trace is the list of its nodes in order (the operations of list.c on it
    are the ones KList verifies).  Frames are read from memory; whether a page
    is mapped is asked of the virtual memory manager, a parameter here. *)

From S2P Require Import Prelude.
From S2P Require Import Mem.
From S2P Require Import Alloc.
From S2P Require Import KList.

Definition KSYM_TRACE_MAX_LEN : Z := 256.
Definition INTR_MAGIC_FRAME : Z := 0x00900d900dc0ffee.

Record ksym_t := Ksym { addr : Z; size : Z; name : string }.
Record ksym_node_t := KsymNode { sym : option ksym_t; real_addr : Z }.

Definition intr_magic_frame : ksym_t := Ksym INTR_MAGIC_FRAME 0 " -- interrupt".
Definition stack_corruption : ksym_t := Ksym 0 0 " -- CORRUPTED STACK".

(** The flat table ends at the first entry with address 0. *)
Fixpoint ksym_get (table : list ksym_t) (a : Z) : option ksym_t :=
  match table with
  | [] => None
  | p :: r =>
      if addr p =? 0 then None
      else if (addr p <=? a) && (a <=? u64 (addr p + size p)) then Some p
      else ksym_get r a
  end.

(** ** Traces *)

Section trace.
Context {St : Type} `{HasMem St}.
Variable table : list ksym_t.
(** Whether vmem_resolve finds a mapping for the address. *)
Variable resolves : Z -> St -> bool.

(** The loop of ksym_trace; [trace] is what the list holds so far. *)
Fixpoint trace_loop (fuel : nat) (basep : Z) (trace : list ksym_node_t) : M St (list ksym_node_t) :=
  if basep =? 0 then mreturn trace
  else
    match fuel with
    | O => mnofuel
    | S f =>
        ok <- mgets (resolves basep) ;;
        if negb ok then mreturn (trace ++ [KsymNode (Some stack_corruption) basep])
        else
          b1 <- load64 (basep + 8) ;;
          r <- (if b1 =? INTR_MAGIC_FRAME then
                  b2 <- load64 (basep + 16) ;;
                  mreturn (trace ++ [KsymNode (Some intr_magic_frame) 0], b2)
                else mreturn (trace, b1)) ;;
          let trace' := r.1 ++ [KsymNode (ksym_get table r.2) r.2] in
          b0 <- load64 basep ;;
          if KSYM_TRACE_MAX_LEN <=? Z.of_nat (length trace') then mreturn trace'
          else trace_loop f b0 trace'
    end.

(** Every turn adds a node, so that many turns are enough. *)
Definition ksym_trace (bp : Z) : M St (list ksym_node_t) := trace_loop (Z.to_nat KSYM_TRACE_MAX_LEN) bp [].

(** ** Printing *)

Inductive line := LUnknown (a : Z) | LIntr | LSym (a : Z) (name : string) (off : Z).

Definition line_of (n : ksym_node_t) : line :=
  match sym n with
  | None => LUnknown (real_addr n)
  | Some s => if addr s =? INTR_MAGIC_FRAME then LIntr
              else LSym (real_addr n) (name s) (u64 (real_addr n - addr s))
  end.

(** [num] is a 16-bit counter. *)
Definition s16 (x : Z) : Z := if decide (u16 x < 2 ^ 15) then u16 x else u16 x - 2 ^ 16.

Fixpoint write_loop (limit num : Z) (trace : list ksym_node_t) : list line :=
  match trace with
  | [] => []
  | n :: r =>
      let num' := s16 (num + 1) in
      line_of n :: (if negb (limit =? -1) && (limit <=? num') then [] else write_loop limit num' r)
  end.

Definition ksym_write_trace_top (trace : list ksym_node_t) (limit : Z) : list line := write_loop limit 0 trace.
Definition ksym_write_trace (trace : list ksym_node_t) : list line := ksym_write_trace_top trace (-1).

(** ** Proofs *)

(** ksym_get finds the first symbol of the table whose bytes, or the byte
    behind them, hold the address, and reports none when no symbol before the
    end of the table does. *)
Theorem ksym_get_first a : (forall s, s ∈ table -> 0 < addr s /\ 0 <= size s /\ addr s + size s < 2 ^ 64) ->
  (forall s, ksym_get table a = Some s <->
     exists i, table !! i = Some s /\ addr s <= a <= addr s + size s /\
       forall j t, (j < i)%nat -> table !! j = Some t -> ~ (addr t <= a <= addr t + size t)) /\
  (ksym_get table a = None <-> forall s, s ∈ table -> ~ (addr s <= a <= addr s + size s)).
Proof.
  induction table as [|p r IH]; intros Hok.
  { split; [|split; [by intros _ s ?%elem_of_nil|done]]. intros s; split; [done|]. by intros (i & Hi & _). }
  destruct (Hok p) as (Hp & Hz & Hb); [by left|].
  destruct IH as [IHs IHn]; [intros s Hs; apply Hok; by right|]. cbn [ksym_get].
  destruct (Z.eqb_spec (addr p) 0); [lia|]. rewrite u64_small by lia.
  destruct (Z.leb_spec (addr p) a), (Z.leb_spec a (addr p + size p)); cbn [andb].
  { split.
    - intros s. split.
      + intros [= <-]. exists 0%nat. split; [done|]. split; [lia|]. intros j t Hj. lia.
      + intros ([|i] & Hi & Hr & Hf); [done|]. exfalso. eapply (Hf 0%nat p); [lia|done|lia].
    - split; [done|]. intros Hall. exfalso. apply (Hall p); [by left|lia]. }
  all: split; [intros s; rewrite IHs; split|rewrite IHn; split].
  all: try (intros (i & Hi & Hr & Hf); exists (S i); split; [done|]; split; [done|];
            intros [|j] t Hj Ht; [injection Ht as <-; lia|apply (Hf j); [lia|done]]).
  all: try (intros ([|i] & Hi & Hr & Hf); [injection Hi as <-; lia|];
            exists i; split; [done|]; split; [done|]; intros j t Hj Ht; apply (Hf (S j)); [lia|done]).
  all: try (intros Hall s [->|Hs]%elem_of_cons; [lia|by apply Hall]).
  all: intros Hall s Hs; apply Hall; by right.
Qed.

Lemma load_not_nofuel n a s : load n a s <> NoFuel.
Proof. unfold load. by destruct (mread _ _ _). Qed.

(** What a run of the loop can end with. *)
Definition bounded (o : outcome (list ksym_node_t * St)) : Prop :=
  match o with
  | Ret (t, _) => Z.of_nat (length t) <= KSYM_TRACE_MAX_LEN + 1
  | Fault _ => True
  | _ => False
  end.

Lemma bounded_load n a k s : (forall v, bounded (k v s)) -> bounded ((v <- load n a ;; k v) s).
Proof. intros Hk. unfold mseq, load. destruct (mread _ _ _); [apply Hk|done]. Qed.

Lemma trace_loop_bounded fuel : forall bp t s,
  KSYM_TRACE_MAX_LEN <= Z.of_nat (length t) + Z.of_nat fuel -> Z.of_nat (length t) < KSYM_TRACE_MAX_LEN ->
  bounded (trace_loop fuel bp t s).
Proof.
  induction fuel as [|f IH]; intros bp t s Hf Ht; cbn [trace_loop];
    (destruct (Z.eqb_spec bp 0); [simpl; lia|]); [lia|].
  unfold mgets. unfold mseq at 1. destruct (resolves bp s); cbn [negb].
  2: { simpl. rewrite length_app. simpl. lia. }
  apply bounded_load. intros b1.
  set (fin := fun (r : list ksym_node_t * Z) => _ : M St (list ksym_node_t)).
  assert (Hfin : forall u b, (length t <= length u <= length t + 1)%nat -> bounded (fin (u, b) s)).
  { intros u b Hu. unfold fin. cbn [fst snd]. apply bounded_load. intros b0.
    assert (Hl : length (u ++ [KsymNode (ksym_get table b) b]) = (length u + 1)%nat) by (by rewrite length_app).
    destruct (Z.leb_spec KSYM_TRACE_MAX_LEN (Z.of_nat (length (u ++ [KsymNode (ksym_get table b) b])))).
    - simpl. lia.
    - apply IH; lia. }
  destruct (b1 =? INTR_MAGIC_FRAME).
  - rewrite mseq_assoc. apply bounded_load. intros b2. unfold mseq, mreturn. apply Hfin. rewrite length_app. simpl. lia.
  - unfold mseq, mreturn. apply Hfin. lia.
Qed.

(** A stack trace ends for every memory, also when the saved frame
    pointers form a cycle, and has at most 257 nodes. *)
Theorem ksym_trace_ends bp s : bounded (ksym_trace bp s).
Proof. apply trace_loop_bounded; unfold KSYM_TRACE_MAX_LEN; simpl; lia. Qed.

(** The frames of a sound stack: each saved base pointer and return address,
    up to a frame pointer of 0. *)
Fixpoint frames (s : St) (bp : Z) (l : list Z) : Prop :=
  match l with
  | [] => bp = 0
  | ret :: r =>
      bp <> 0 /\ resolves bp s = true /\ mread 8 (get_mem s) (bp + 8) = Some ret /\ ret <> INTR_MAGIC_FRAME /\
      exists bp', mread 8 (get_mem s) bp = Some bp' /\ frames s bp' r
  end.

(** On a sound stack of fewer than 256 frames the trace lists the return
    addresses from the innermost frame to the outermost, each with the symbol
    ksym_get finds for it, and changes nothing. *)
Theorem ksym_trace_frames bp l s : frames s bp l -> (length l < 256)%nat ->
  ksym_trace bp s = Ret ((fun a => KsymNode (ksym_get table a) a) <$> l, s).
Proof.
  intros Hf Hl. unfold ksym_trace. change (Z.to_nat KSYM_TRACE_MAX_LEN) with 256%nat.
  rewrite <-(app_nil_l (_ <$> l)).
  assert (Hg : forall t fuel bp, frames s bp l -> (length t + length l < 256)%nat -> (length l < fuel)%nat ->
    trace_loop fuel bp t s = Ret (t ++ ((fun a => KsymNode (ksym_get table a) a) <$> l), s)).
  2: { apply Hg; [done|simpl; lia|lia]. }
  clear Hf Hl bp. induction l as [|a r IH]; intros t fuel bp Hf Hl Hfu.
  { simpl in Hf. subst bp. simpl. rewrite app_nil_r. by destruct fuel. }
  destruct Hf as (Hb & Hres & H1 & Hm & bp' & H0 & Hf). destruct fuel as [|f]; [simpl in Hfu; lia|]. cbn [trace_loop].
  destruct (Z.eqb_spec bp 0); [done|]. unfold mgets. unfold mseq at 1. rewrite Hres. cbn [negb].
  rewrite (mseq_run _ _ _ _ _ (load_run _ _ _ _ H1)).
  destruct (Z.eqb_spec a INTR_MAGIC_FRAME); [done|]. unfold mreturn at 1. unfold mseq at 1. cbn [fst snd].
  rewrite (mseq_run _ _ _ _ _ (load_run _ _ _ _ H0)). cbn [length] in Hl, Hfu.
  destruct (Z.leb_spec KSYM_TRACE_MAX_LEN (Z.of_nat (length (t ++ [KsymNode (ksym_get table a) a]))));
    [unfold KSYM_TRACE_MAX_LEN in *; rewrite length_app in *; simpl in *; lia|].
  rewrite IH; [|done|rewrite length_app; simpl; lia|lia]. by rewrite <-app_assoc.
Qed.

Lemma write_loop_length trace : forall limit num,
  0 <= num -> num + Z.of_nat (length trace) < 2 ^ 15 ->
  length (write_loop limit num trace) =
    if decide (limit = -1) then length trace
    else Nat.min (length trace) (Nat.max 1 (Z.to_nat (limit - num))).
Proof.
  induction trace as [|n r IH]; intros limit num Hn Hl; [by destruct (decide _)|]. cbn [length] in Hl. cbn [write_loop length].
  assert (Es : s16 (num + 1) = num + 1)
    by (unfold s16, u16; rewrite Z.mod_small, decide_True by lia; done).
  rewrite Es. destruct (Z.eqb_spec limit (-1)) as [->|Hne]; cbn [negb andb].
  { rewrite IH by lia. by rewrite !decide_True. }
  rewrite decide_False by done.
  destruct (Z.leb_spec limit (num + 1)); cbn [length].
  - lia.
  - rewrite IH by lia. rewrite decide_False by done. lia.
Qed.
End trace.

(** ** Releasing a trace: the nodes on the heap, then the list itself *)

Section release.
Context {St : Type} `{HasMem St} `{KHeapOps St}.

Fixpoint delete_nodes (fuel : nat) (node : Z) : M St unit :=
  match fuel with
  | O => mnofuel
  | S f =>
      if node =? 0 then mreturn tt
      else
        n <- load64 (node + node_data) ;;
        (if n =? 0 then mreturn tt else kheap_free n) ;;;
        next <- load64 (node + node_next) ;;
        delete_nodes f next
  end.

Definition ksym_delete (fuel : nat) (trace : Z) : M St unit :=
  b <- list_begin trace ;;
  delete_nodes fuel b ;;;
  list_delete fuel trace ;;;
  mreturn tt.
End release.

(** ** Extension points: extp.c *)

Section extp.
Context {St : Type}.
Record extension_point_t := Extp { ext_tag : list Z; ext_func : M St unit; ext_descr : list Z }.

(** The section [.extp]: pointers, up to its end or the first NULL.
    [tag = None] is a NULL tag: every extension. *)
Fixpoint extp_iterate (section : list (option extension_point_t)) (tag : option (list Z))
    (callback : extension_point_t -> M St unit) : M St unit :=
  match section with
  | Some e :: r =>
      (if match tag with None => true | Some t => bool_decide (ext_tag e = t) end then callback e else mreturn tt) ;;;
      extp_iterate r tag callback
  | _ => mreturn tt
  end.

(** The extensions before the first NULL. *)
Fixpoint installed (section : list (option extension_point_t)) : list extension_point_t :=
  match section with Some e :: r => e :: installed r | _ => [] end.

(** Iterating an extension point runs the callback of exactly the
    installed extensions with the tag, once each and in the order the linker
    laid them out. *)
Theorem extp_iterate_filters section tag callback s :
  extp_iterate section (Some tag) callback s =
  foldr (fun e k => callback e ;;; k) (mreturn tt) (filter (fun e => ext_tag e = tag) (installed section)) s.
Proof.
  revert s. induction section as [|[e|] r IH]; intros s; [done| |done]. cbn [extp_iterate installed].
  rewrite filter_cons. case_bool_decide as E.
  - rewrite decide_True by done. cbn [foldr]. unfold mseq. destruct (callback e s) as [[u s']| | | |]; [apply IH|done..].
  - rewrite decide_False by done. unfold mreturn, mseq. apply IH.
Qed.
End extp.

Module KsymDemo.
Definition tab : list ksym_t := [Ksym 0x1000 0x20 "first"; Ksym 0x1020 0x10 "second"; Ksym 0 0 ""].

(** The bound is inclusive: the entry of a function that directly follows
    another one is attributed to the other one. *)
Theorem ksym_get_blames_predecessor :
  ksym_get tab 0x1020 = Some (Ksym 0x1000 0x20 "first") /\ ksym_get tab 0x1021 = Some (Ksym 0x1020 0x10 "second").
Proof. done. Qed.

Definition tab2 : list ksym_t := [Ksym 0x1000 0x20 "first"; Ksym 0x1020 0x10 "second"].
Lemma ksym_get_first_witness :
  ksym_get tab2 0x1021 = Some (Ksym 0x1020 0x10 "second") <->
     exists i, tab2 !! i = Some (Ksym 0x1020 0x10 "second") /\ 0x1020 <= 0x1021 <= 0x1020 + 0x10 /\
       forall j t, (j < i)%nat -> tab2 !! j = Some t -> ~ (addr t <= 0x1021 <= addr t + size t).
Proof.
  destruct (ksym_get_first tab2 0x1021) as [H _].
  - intros s [->|[->|Hn]%elem_of_cons]%elem_of_cons; [simpl; lia|simpl; lia|by apply elem_of_nil in Hn].
  - exact (H (Ksym 0x1020 0x10 "second")).
Defined.

(** Two frames; and a frame that is its own caller. *)
Definition stack2 : memory :=
  mwrite 8 (mwrite 8 (mwrite 8 (mwrite 8 ∅ 0x8000 0x8100) 0x8008 0x1005) 0x8100 0) 0x8108 0x1025.
Definition all_mapped (_ : Z) (_ : memory) : bool := true.

Lemma ksym_trace_frames_witness :
  ksym_trace tab2 all_mapped 0x8000 stack2 =
    Ret ([KsymNode (Some (Ksym 0x1000 0x20 "first")) 0x1005; KsymNode (Some (Ksym 0x1020 0x10 "second")) 0x1025], stack2).
Proof.
  refine (ksym_trace_frames tab2 all_mapped 0x8000 [0x1005; 0x1025] stack2 _ _).
  - split; [done|]. split; [done|]. split; [by vm_compute|]. split; [done|]. exists 0x8100. split; [by vm_compute|].
    split; [done|]. split; [done|]. split; [by vm_compute|]. split; [done|]. exists 0. split; [by vm_compute|done].
  - simpl. lia.
Defined.

Definition cyclic : memory := mwrite 8 (mwrite 8 ∅ 0x8000 0x8000) 0x8008 0x1005.
Example cycle_is_cut : (length <$> ret_val (ksym_trace tab2 all_mapped 0x8000 cyclic)) = Some 256%nat.
Proof. by vm_compute. Qed.
End KsymDemo.
