(* ===== verification/Path.v ===== *)
(** * Paths: path.c

    A [path_t] and its components lie on the heap it was created with.  The
    separator is the string "/", at an address of the kernel's data. *)

From S2P Require Import Prelude.
From S2P Require Import Mem.
From S2P Require Import Cstring.
From S2P Require Import Alloc.
From S2P Require Import Heap.
From S2P Require Import HeapSpec.

Definition path_heap : Z := 0.
Definition path_count : Z := 8.
Definition path_components : Z := 16.
Definition sizeof_path_t : Z := 24.

Section path_c.
Context {St : Type} `{HasMem St} `{KHeapOps St}.
(** The address of PATH_SEPERATOR, and of the heap. *)
Variables sep heap : Z.

(** [while((comp = strstr(comp, sep)) != NULL) { ++count; comp += sep_len; }] *)
Fixpoint count_loop (fuel : nat) (comp sep_len count : Z) : M St Z :=
  match fuel with
  | O => mnofuel
  | S f =>
      c <- strstr fuel comp sep ;;
      if c =? 0 then mreturn count else count_loop f (c + sep_len) sep_len (u64 (count + 1))
  end.

Fixpoint cut_loop (fuel : nat) (path comp sep_len count : Z) : M St unit :=
  match fuel with
  | O => mnofuel
  | S f =>
      c <- strstr fuel comp sep ;;
      if c =? 0 then mreturn tt
      else
        let comp := c + sep_len in
        next <- strstr fuel comp sep ;;
        comp_len <- (if next =? 0 then strlen fuel comp else mreturn (u64 (next - comp))) ;;
        buf <- kheap_alloc (comp_len + 1) ;;
        strncpy buf comp comp_len ;;;
        store8 (buf + comp_len) 0 ;;;
        comps <- load64 (path + path_components) ;;
        store64 (comps + 8 * count) buf ;;;
        cut_loop f path comp sep_len (count + 1)
  end.

Definition path_create (fuel : nat) (p : Z) : M St Z :=
  sep_len <- strlen fuel sep ;;
  if p =? 0 then mreturn 0
  else
    c <- strncmp p sep sep_len ;;
    if negb (c =? 0) then mreturn 0
    else
      path <- kheap_alloc sizeof_path_t ;;
      store64 (path + path_heap) heap ;;;
      count <- count_loop fuel p sep_len 0 ;;
      store64 (path + path_count) count ;;;
      comps <- kheap_alloc (8 * count) ;;
      store64 (path + path_components) comps ;;;
      cut_loop fuel path p sep_len 0 ;;;
      mreturn path.

(** The sum of the lengths of the components from number [i] on. *)
Fixpoint sum_loop (fuel : nat) (n : nat) (comps i len : Z) : M St Z :=
  match n with
  | O => mreturn len
  | S n' =>
      c <- load64 (comps + 8 * i) ;;
      l <- strlen fuel c ;;
      sum_loop fuel n' comps (i + 1) (u64 (len + l))
  end.

Fixpoint join_loop (fuel : nat) (n : nat) (comps result i pos sep_len : Z) : M St Z :=
  match n with
  | O => mreturn pos
  | S n' =>
      strncpy (result + pos) sep sep_len ;;;
      let pos := pos + sep_len in
      c <- load64 (comps + 8 * i) ;;
      comp_len <- strlen fuel c ;;
      strncpy (result + pos) c comp_len ;;;
      join_loop fuel n' comps result (i + 1) (pos + comp_len) sep_len
  end.

(** The buffer is allocated before the separators and the terminator are
    counted in. *)
Definition path_string (fuel : nat) (path : Z) : M St Z :=
  sep_len <- strlen fuel sep ;;
  if path =? 0 then mreturn 0
  else
    count <- load64 (path + path_count) ;;
    comps <- load64 (path + path_components) ;;
    if (0 <? count) && (comps =? 0) then mreturn 0
    else
      len <- sum_loop fuel (Z.to_nat count) comps 0 0 ;;
      result <- kheap_alloc len ;;
      pos <- join_loop fuel (Z.to_nat count) comps result 0 0 sep_len ;;
      store8 (result + pos) 0 ;;;
      mreturn result.
End path_c.

(** "/bin/sh" on the kernel heap of HeapDemo; the string and the separator lie
    below the heap. *)
Module PathDemo.
Export HeapDemo.
#[export] Instance hst_kheap : KHeapOps hst := kheap_ops 20.

Definition text : memory := place 32 [47; 0] (place 256 [47; 98; 105; 110; 47; 115; 104; 0] ∅).
Definition pz : hst := set_mem (text ∪ get_mem g1) g1.
Definition created : outcome (Z * hst) := path_create 32 64 20 256 pz.
Definition pst : hst := state_of created pz.
Definition joined : outcome (Z * hst) := path_string 32 20 65656 pst.

Fixpoint bytes_at (n : nat) (m : memory) (a : Z) : list (option Z) :=
  match n with O => [] | S n' => m !! a :: bytes_at n' m (a + 1) end.

(** Cutting the path gives its two components, each terminated. *)
Example path_create_cuts :
  ret_val created = Some 65656 /\ mread 8 (get_mem pst) (65656 + path_count) = Some 2 /\
  (c ← mread 8 (get_mem pst) (65656 + path_components); b ← mread 8 (get_mem pst) c; Some (bytes_at 4 (get_mem pst) b))
    = Some [Some 98; Some 105; Some 110; Some 0].
Proof. by vm_compute. Qed.

(** Joining them writes 8 bytes into a block for 5: the text is right, but a
    path whose text is one byte longer destroys the footer of the block. *)
Example path_string_joins :
  (fun r => bytes_at 8 (get_mem (state_of joined pst)) r) <$> ret_val joined =
    Some (Some <$> [47; 98; 105; 110; 47; 115; 104; 0]).
Proof. by vm_compute. Qed.

Definition text2 : memory := place 32 [47; 0] (place 256 [47; 97; 47; 98; 47; 99; 47; 100; 0] ∅).
Definition pz2 : hst := set_mem (text2 ∪ get_mem g1) g1.
Definition pst2 : hst := state_of (path_create 32 64 20 256 pz2) pz2.
Definition joined2 : outcome (Z * hst) := path_string 32 20 65656 pst2.

(** The path "/a/b/c/d": the block has room for 8 of the 9 bytes written, and
    the heap does not know it any more. *)
Theorem path_string_overruns :
  (fun r => ret_val (heap_validate kheap r (state_of joined2 pst2))) <$> ret_val joined2 = Some (Some false) /\
  (fun r => bytes_at 9 (get_mem (state_of joined2 pst2)) r) <$> ret_val joined2 =
    Some (Some <$> [47; 97; 47; 98; 47; 99; 47; 100; 0]).
Proof. by vm_compute. Qed.
End PathDemo.
