(* ===== verification/Trap.v ===== *)
(** * System calls and page faults, from the gate to the handler

    Composes the interrupt gates of Intr, the threads and run queues of Sched
    and the stack allocators of Stka: the handlers sched.c, thread.c, log.c and
    pgflt.c install, run through [intr_dispatch].  The interrupted context is
    the argument [c] of each handler ([state->ctx]). *)

From S2P Require Import Prelude.
From S2P Require Import KList.
From S2P Require Import Sched.
From S2P Require Import Intr.
From S2P Require Import Stka.

(** The registers a system call uses, per context. *)
Record sysregs := Regs { g_rax : Z; g_rdi : Z; g_rsi : Z; g_rdx : Z }.

Record machine := Machine {
  ker : kernel;
  regs : gmap Z sysregs;
  stkas : gmap Z stka;
  written : list (Z * list Z);    (** calls of log writers: writer and message *)
}.
Definition set_ker k m := Machine k (regs m) (stkas m) (written m).
Definition set_regs r m := Machine (ker m) r (stkas m) (written m).
Definition set_stkas a m := Machine (ker m) (regs m) a (written m).

Definition on_ker {A} (op : M kernel A) : M machine A := fun m =>
  match op (ker m) with
  | Ret (a, k) => Ret (a, set_ker k m)
  | Fatal e => Fatal e
  | Fault a => Fault a
  | Deadlock => Deadlock
  | NoFuel => NoFuel
  end.

Definition SysSchedule : Z := 0.
Definition SysYield : Z := 1.
Definition SysThrExit : Z := 2.
Definition SysLog : Z := 3.

Definition with_syscall n t := Thread (Sched.id t) (t_state t) (priority t) (t_stka t) (t_stack t) (parent t) (context t) n (preempt_at t).

Section handlers.
(** What a handler that returns nothing leaves in the result register. *)
Variable junk : Z.
(** [log_write] with a level and the address of a format (see Log). *)
Variable log_write : Z -> Z -> M machine unit.

Definition regs_at (c : Z) : M machine sysregs := fun m =>
  match regs m !! c with Some r => Ret (r, m) | None => Fault c end.

Definition sysc_call (c : Z) (handler : Z -> Z -> Z -> M machine Z) : M machine Z :=
  x <- on_ker (ctx_at c) ;;
  let thr := c_thread x in
  if thr =? 0 then mfatal "no thread associated with execution context!"
  else
    t <- on_ker (thr_at thr) ;;
    on_ker (thr_upd thr (with_syscall (u8 (syscall t + 1)))) ;;;
    r <- regs_at c ;;
    res <- handler (u32 (g_rdi r)) (g_rsi r) (g_rdx r) ;;
    r' <- regs_at c ;;
    mmodify (fun m => set_regs (<[c := Regs res (g_rdi r') (g_rsi r') (g_rdx r')]> (regs m)) m) ;;;
    t' <- on_ker (thr_at thr) ;;
    on_ker (thr_upd thr (with_syscall (u8 (syscall t' - 1)))) ;;;
    mreturn res.

(** A function without arguments and result, passed as a handler. *)
Definition void_handler (op : M kernel unit) (_ _ _ : Z) : M machine Z := on_ker op ;;; mreturn junk.

Definition sched_syscall_handler (c : Z) : M machine bool :=
  r <- regs_at c ;;
  if u32 (g_rdi r) =? SysSchedule then sysc_call c (void_handler sched_schedule) ;;; mreturn true
  else if u32 (g_rdi r) =? SysYield then sysc_call c (void_handler sched_yield) ;;; mreturn true
  else mreturn false.

Definition thr_syscall_handler (c : Z) : M machine bool :=
  r <- regs_at c ;;
  if u32 (g_rdi r) =? SysThrExit then sysc_call c (void_handler thr_exit_current) ;;; mreturn true
  else mreturn false.

Definition log_handle_write_syscall (_ level str : Z) : M machine Z := log_write (u32 level) str ;;; mreturn 0.

Definition log_syscall_handler (c : Z) : M machine bool :=
  r <- regs_at c ;;
  if u32 (g_rdi r) =? SysLog then sysc_call c log_handle_write_syscall ;;; mreturn true
  else mreturn false.

(** The addresses of the handlers, and the calls through them. *)
Definition h_log : Z := 0x100.
Definition h_thr : Z := 0x200.
Definition h_sched : Z := 0x300.

Definition call (c : Z) (h : Z) : M machine bool :=
  if h =? h_log then log_syscall_handler c
  else if h =? h_thr then thr_syscall_handler c
  else if h =? h_sched then sched_syscall_handler c
  else mfault h.

(** The order of boot(): sysc_init, then log_init, thr_init and sched_init. *)
Definition install : M gate_table unit :=
  sysc_init ;;;
  intr_add SYSC_INTERRUPT h_log ;;;
  intr_add SYSC_INTERRUPT h_thr ;;;
  intr_add SYSC_INTERRUPT h_sched.

(** ** Page faults: pgflt.c *)

Definition ERRC_TRANS_AVAILABLE : Z := 1.

Definition stka_at (a : Z) : M machine stka := fun m =>
  match stkas m !! a with Some x => Ret (x, m) | None => Fault a end.

(** [stka_pgflt] of the allocator at [a] on a stack the allocator at [owner]
    handed out: the descriptor of the stack is one object, whoever grows it. *)
Definition grow_foreign (map_ok : Z -> bool) (a owner stk fault : Z) : M machine bool :=
  own <- stka_at owner ;;
  al <- stka_at a ;;
  match stks own !! stk with
  | None => mfault stk
  | Some x => fun m =>
      match stka_pgflt map_ok stk fault (set_stks (<[stk := x]> (stks al)) al) with
      | Ret (ok, al') =>
          let x' := default x (stks al' !! stk) in
          let al'' := set_stks (stks al) al' in
          let m1 := set_stkas (<[a := al'']> (stkas m)) m in
          Ret (ok, set_stkas (alter (fun o => set_stks (<[stk := x']> (stks o)) o) owner (stkas m1)) m1)
      | Fatal e => Fatal e
      | Fault f => Fault f
      | Deadlock => Deadlock
      | NoFuel => NoFuel
      end
  end.

Definition pgflt_handler (map_ok : Z -> bool) (c code cr2 : Z) : M machine bool :=
  x <- on_ker (ctx_at c) ;;
  let thr := c_thread x in
  if thr =? 0 then mfatal "no thread associated with current execution context!"
  else
    t <- on_ker (thr_at thr) ;;
    p <- on_ker (prc_at (parent t)) ;;
    if negb (Z.land code ERRC_TRANS_AVAILABLE =? 0) then mfatal "unknwon error when accessing present page"
    else
      own <- stka_at (t_stka t) ;;
      match stks own !! t_stack t with
      | None => mfault (t_stack t)
      | Some stk =>
          ok <- (if (guard stk <=? cr2) && (cr2 <=? top stk)
                 then grow_foreign map_ok (p_stka p) (t_stka t) (t_stack t) cr2
                 else mreturn false) ;;
          if (ok : bool) then mreturn true
          else on_ker (thr_abort thr) ;;; mreturn true
      end.

(** ** The gate of system calls *)

Lemma install_table : exists g,
  install intr_init = Ret (tt, g) /\ g !! Z.to_nat SYSC_INTERRUPT = Some (Gate GateModeMultiHandler (HList (Alist [h_log; h_thr; h_sched] 3 true))).
Proof. eexists. split; [vm_compute; reflexivity|done]. Qed.

(** What each system call does. *)
Definition syscall_spec (c n : Z) : M machine unit :=
  if n =? SysLog then sysc_call c log_handle_write_syscall ;;; mreturn tt
  else if n =? SysThrExit then sysc_call c (void_handler thr_exit_current) ;;; mreturn tt
  else if n =? SysSchedule then sysc_call c (void_handler sched_schedule) ;;; mreturn tt
  else if n =? SysYield then sysc_call c (void_handler sched_yield) ;;; mreturn tt
  else mreturn tt.

Lemma regs_run c r m : regs m !! c = Some r -> regs_at c m = Ret (r, m).
Proof. intros E. unfold regs_at. by rewrite E. Qed.

(** A handler that takes the call ends the walk over the list. *)
Lemma call_taken c h r m (op : M machine Z) rest :
  h <> 0 -> call c h m = (op ;;; mreturn true) m ->
  (b <- dispatch_list (call c) false (h :: rest) ;; if (b : bool) then mreturn tt else mreturn r) m = (op ;;; mreturn tt) m.
Proof.
  intros Hh Hc. cbn [dispatch_list]. destruct (Z.eqb_spec h 0); [done|]. rewrite mseq_assoc.
  unfold mseq at 1. rewrite Hc. unfold mseq. destruct (op m) as [[a m']| | | |]; done.
Qed.

(** A handler that declines it leaves the machine and the rest of the list. *)
Lemma call_declined c h m rest (k : bool -> M machine unit) :
  h <> 0 -> call c h m = Ret (false, m) ->
  (b <- dispatch_list (call c) false (h :: rest) ;; k b) m = (b <- dispatch_list (call c) false rest ;; k b) m.
Proof.
  intros Hh Hc. cbn [dispatch_list]. destruct (Z.eqb_spec h 0); [done|]. rewrite mseq_assoc. unfold mseq at 1. by rewrite Hc.
Qed.

(** Dispatch through the gate of system calls is the table of services. *)
Lemma sysc_dispatch g c r m : install intr_init = Ret (tt, g) -> regs m !! c = Some r ->
  intr_dispatch (call c) g SYSC_INTERRUPT m = syscall_spec c (u32 (g_rdi r)) m.
Proof.
  intros Hg Hr. destruct install_table as (g' & Hg' & Ht). rewrite Hg in Hg'. injection Hg' as <-.
  unfold intr_dispatch. change (MAX_INTR <=? SYSC_INTERRUPT) with false. cbv iota. rewrite Ht.
  unfold dispatch_gate. cbn [mode h items].
  change (has_mode GateModeMultiHandler GateModeMultiHandler) with true.
  change (has_mode GateModeMultiHandler GateModeNotifyAll) with false. cbv iota.
  change (SYSC_INTERRUPT =? SYSC_INTERRUPT) with true. cbv iota.
  set (n := u32 (g_rdi r)). unfold syscall_spec.
  assert (El : call c h_log m = if n =? SysLog then (sysc_call c log_handle_write_syscall ;;; mreturn true) m else Ret (false, m)).
  { unfold call. change (h_log =? h_log) with true. cbv iota. unfold log_syscall_handler.
    rewrite (mseq_run _ _ _ _ _ (regs_run _ _ _ Hr)). fold n. by destruct (n =? SysLog). }
  assert (Et : call c h_thr m = if n =? SysThrExit then (sysc_call c (void_handler thr_exit_current) ;;; mreturn true) m else Ret (false, m)).
  { unfold call. change (h_thr =? h_log) with false. change (h_thr =? h_thr) with true. cbv iota. unfold thr_syscall_handler.
    rewrite (mseq_run _ _ _ _ _ (regs_run _ _ _ Hr)). fold n. by destruct (n =? SysThrExit). }
  assert (Es : call c h_sched m = if n =? SysSchedule then (sysc_call c (void_handler sched_schedule) ;;; mreturn true) m
                                  else if n =? SysYield then (sysc_call c (void_handler sched_yield) ;;; mreturn true) m else Ret (false, m)).
  { unfold call. change (h_sched =? h_log) with false. change (h_sched =? h_thr) with false.
    change (h_sched =? h_sched) with true. cbv iota. unfold sched_syscall_handler.
    rewrite (mseq_run _ _ _ _ _ (regs_run _ _ _ Hr)). fold n. by destruct (n =? SysSchedule), (n =? SysYield). }
  destruct (n =? SysLog); [apply (call_taken c h_log tt); done|]. rewrite call_declined by done.
  destruct (n =? SysThrExit); [apply (call_taken c h_thr tt); done|]. rewrite call_declined by done.
  destruct (n =? SysSchedule); [apply (call_taken c h_sched tt); done|].
  destruct (n =? SysYield); [apply (call_taken c h_sched tt); done|].
  rewrite call_declined by done. done.
Qed.

(** C21: After boot has installed its handlers, the system call interrupt runs
    exactly the service the number in rdi names, and nothing for a number no
    handler knows: dispatch through the gate equals the table of services, on
    every outcome of the service. *)
Theorem syscall_reaches_service g c r m : install intr_init = Ret (tt, g) -> regs m !! c = Some r ->
  intr_dispatch (call c) g SYSC_INTERRUPT m = syscall_spec c (u32 (g_rdi r)) m.
Proof. apply sysc_dispatch. Qed.

(** ** Page faults *)

(** The stacks after the allocator [B] at [a] answered with [B'] for a stack of
    the allocator at [owner], whose record is [y] now: the pages are those of
    [a], the record stays with [owner]. *)
Definition grown_stkas (m : machine) (a owner stk : Z) (B B' : stka) (y : stack_t) : gmap Z stka :=
  alter (fun o => set_stks (<[stk := y]> (stks o)) o) owner (<[a := set_stks (stks B) B']> (stkas m)).

Lemma grow_foreign_run map_ok a owner stk cr2 m A B x :
  stkas m !! owner = Some A -> stkas m !! a = Some B -> stks A !! stk = Some x ->
  exists ok B' y, stka_pgflt map_ok stk cr2 (set_stks (<[stk := x]> (stks B)) B) = Ret (ok, B') /\
    stks B' = <[stk := y]> (stks B) /\
    grow_foreign map_ok a owner stk cr2 m = Ret (ok, set_stkas (grown_stkas m a owner stk B B' y) m).
Proof.
  intros HA HB Hs.
  destruct (stka_pgflt_one map_ok stk x cr2 (set_stks (<[stk := x]> (stks B)) B)) as (ok & B' & y & Hgrow & Hy).
  { cbn [stks set_stks]. apply lookup_insert_eq. }
  cbn [stks set_stks] in Hy. rewrite insert_insert_eq in Hy. exists ok, B', y. split; [done|]. split; [done|].
  assert (E1 : stka_at owner m = Ret (A, m)) by (unfold stka_at; by rewrite HA).
  assert (E2 : stka_at a m = Ret (B, m)) by (unfold stka_at; by rewrite HB).
  unfold grow_foreign. rewrite (mseq_run _ _ _ _ _ E1), (mseq_run _ _ _ _ _ E2), Hs, Hgrow, Hy, lookup_insert_eq. done.
Qed.

(** C31: Every branch of the page fault handler, for threads whose stack comes
    from the allocator of their process and for threads whose stack comes from
    another one (the kernel's): without a thread, or on a present page, the
    machine stops; a fault outside the stack's range aborts the thread and
    touches nothing else; for a fault in the range the allocator of the
    process is asked to grow the thread's stack, and always answers: when it
    grew the stack the handler returns to the thread, else the thread is
    aborted; in both cases the pages of that allocator and the record of the
    stack, which its owner keeps, are the only other things that changed. *)
Theorem pgflt_handler_branches map_ok c code cr2 m x : contexts (ker m) !! c = Some x ->
  (c_thread x = 0 -> exists e, pgflt_handler map_ok c code cr2 m = Fatal e) /\
  (forall t p A B stk, c_thread x <> 0 -> threads (ker m) !! c_thread x = Some t -> processes (ker m) !! parent t = Some p ->
    stkas m !! t_stka t = Some A -> stkas m !! p_stka p = Some B -> stks A !! t_stack t = Some stk ->
    (Z.land code 1 <> 0 -> exists e, pgflt_handler map_ok c code cr2 m = Fatal e) /\
    (Z.land code 1 = 0 -> cr2 < guard stk \/ top stk < cr2 ->
       pgflt_handler map_ok c code cr2 m = (on_ker (thr_abort (c_thread x)) ;;; mreturn true) m) /\
    (Z.land code 1 = 0 -> guard stk <= cr2 <= top stk ->
       exists ok B' y, stka_pgflt map_ok (t_stack t) cr2 (set_stks (<[t_stack t := stk]> (stks B)) B) = Ret (ok, B') /\
       stks B' = <[t_stack t := y]> (stks B) /\
       let m' := set_stkas (grown_stkas m (p_stka p) (t_stka t) (t_stack t) B B' y) m in
       (p_stka p = t_stka t -> stkas m' = <[t_stka t := B']> (stkas m)) /\
       pgflt_handler map_ok c code cr2 m =
         if (ok : bool) then Ret (true, m') else (on_ker (thr_abort (c_thread x)) ;;; mreturn true) m')).
Proof.
  intros Hc. assert (E0 : on_ker (ctx_at c) m = Ret (x, m)).
  { unfold on_ker, ctx_at. rewrite Hc. by destruct m. }
  split.
  { intros Hz. unfold pgflt_handler. rewrite (mseq_run _ _ _ _ _ E0), Hz. by eexists. }
  intros t p A B stk Hne Ht Hp HA HB Hs.
  assert (E1 : on_ker (thr_at (c_thread x)) m = Ret (t, m)) by (unfold on_ker, thr_at; rewrite Ht; by destruct m).
  assert (E2 : on_ker (prc_at (parent t)) m = Ret (p, m)) by (unfold on_ker, prc_at; rewrite Hp; by destruct m).
  assert (E3 : stka_at (t_stka t) m = Ret (A, m)) by (unfold stka_at; by rewrite HA).
  assert (Hrun : pgflt_handler map_ok c code cr2 m =
    (if negb (Z.land code 1 =? 0) then mfatal "unknwon error when accessing present page"
     else ok <- (if (guard stk <=? cr2) && (cr2 <=? top stk)
                 then grow_foreign map_ok (p_stka p) (t_stka t) (t_stack t) cr2 else mreturn false) ;;
          if (ok : bool) then mreturn true else on_ker (thr_abort (c_thread x)) ;;; mreturn true) m).
  { unfold pgflt_handler. rewrite (mseq_run _ _ _ _ _ E0). destruct (Z.eqb_spec (c_thread x) 0); [done|].
    rewrite (mseq_run _ _ _ _ _ E1), (mseq_run _ _ _ _ _ E2).
    change ERRC_TRANS_AVAILABLE with 1. destruct (negb (Z.land code 1 =? 0)); [done|]. rewrite (mseq_run _ _ _ _ _ E3), Hs. done. }
  rewrite Hrun. split_and!.
  - intros Hb. destruct (Z.eqb_spec (Z.land code 1) 0); [done|]. by eexists.
  - intros -> Hout. cbn [negb Z.eqb].
    assert (Hr : (guard stk <=? cr2) && (cr2 <=? top stk) = false).
    { destruct (Z.leb_spec (guard stk) cr2), (Z.leb_spec cr2 (top stk)); (done || lia). }
    by rewrite Hr.
  - intros -> Hin. cbn [negb Z.eqb].
    destruct (grow_foreign_run map_ok (p_stka p) (t_stka t) (t_stack t) cr2 m A B stk HA HB Hs) as (ok & B' & y & Hgrow & Hy & Hg).
    exists ok, B', y. split; [done|]. split; [done|]. split.
    { intros He. cbn [stkas set_stkas]. unfold grown_stkas. rewrite He, alter_insert_eq. f_equal. cbn [set_stks stks]. rewrite <- Hy. by destruct B'. }
    assert (Hr : (guard stk <=? cr2) && (cr2 <=? top stk) = true)
      by (destruct (Z.leb_spec (guard stk) cr2), (Z.leb_spec cr2 (top stk)); (done || lia)).
    rewrite Hr, (mseq_run _ _ _ _ _ Hg). by destruct ok.
Qed.
End handlers.

(** A user thread with a growing stack, and a kernel thread whose stack comes
    from another allocator than its process has. *)
Module TrapDemo.
Definition ustka : stka := StkaDemo.u0.
Definition kstka : stka := Stka (Desc 0x100000 0x400000 7 2 true false) 0x2ff000 (Alist [8] 1 true) 0
  {[ 8 := Stack 0x400000 0x3fe000 0x300000 ]} ∅.
Definition thr (t c a : Z) (p : Z) : thread_t := Thread t Runnable PrioKernel a 8 p c 0 100.
Definition ctx (t : Z) : thr_context_t := Ctx 0 0 0 0 0 0 0 t.
Definition ker0 : kernel := Kernel
  {[ 10 := thr 10 20 900 500; 11 := thr 11 21 901 500 ]}
  {[ 20 := ctx 10; 21 := ctx 11; 22 := ctx 0 ]}
  {[ 500 := Process 1 4096 PrioKernel 0 2 al_new 900 ]}
  [None; None; None; None; None; None; Some (Alist [11] 1 true)] 0 20 4096 200.
Definition m0 : machine := Machine ker0 {[ 20 := Regs 0 SysYield 0 0; 21 := Regs 0 77 0 0 ]} {[ 900 := ustka; 901 := kstka ]} [].
Definition no_log (_ _ : Z) : M machine unit := mreturn tt.
Definition table : gate_table := state_of (install intr_init) intr_init.

Lemma syscall_reaches_service_witness :
  install intr_init = Ret (tt, table) /\
  intr_dispatch (call 7 no_log 20) table SYSC_INTERRUPT m0 = syscall_spec 7 no_log 20 SysYield m0.
Proof.
  assert (Hi : install intr_init = Ret (tt, table)) by (vm_compute; reflexivity).
  split; [exact Hi|]. exact (syscall_reaches_service 7 no_log table 20 (Regs 0 SysYield 0 0) m0 Hi eq_refl).
Defined.

(** The yielding thread is queued again and the other one runs. *)
Example yield_switches :
  (fun m => (cur (ker m), t_state <$> threads (ker m) !! 10, syscall <$> threads (ker m) !! 10))
    (state_of (intr_dispatch (call 7 no_log 20) table SYSC_INTERRUPT m0) m0) = (11, Some Runnable, Some 0).
Proof. by vm_compute. Qed.

(** The user thread, whose stack is of its process's allocator, and the kernel
    thread, whose stack is not. *)
Lemma pgflt_handler_branches_witness :
  (exists m', pgflt_handler StkaDemo.all_ok 20 2 0x3fc123 m0 = Ret (true, m') /\ ker m' = ker m0) /\
  (exists m', pgflt_handler StkaDemo.all_ok 21 2 0x3fc123 m0 = Ret (true, m') /\ ker m' = ker m0).
Proof.
  split.
  - destruct (pgflt_handler_branches StkaDemo.all_ok 20 2 0x3fc123 m0 (ctx 10) eq_refl) as [_ H].
    destruct (H (thr 10 20 900 500) (Process 1 4096 PrioKernel 0 2 al_new 900) ustka ustka (Stack 0x400000 0x3fe000 0x300000)
      ltac:(discriminate) eq_refl eq_refl eq_refl eq_refl eq_refl) as (_ & _ & Hg).
    destruct Hg as (ok & B' & y & H1 & _ & _ & H2); [reflexivity|simpl; lia|].
    apply (f_equal ret_val) in H1. vm_compute in H1. injection H1 as <-. eexists. split; [exact H2|reflexivity].
  - destruct (pgflt_handler_branches StkaDemo.all_ok 21 2 0x3fc123 m0 (ctx 11) eq_refl) as [_ H].
    destruct (H (thr 11 21 901 500) (Process 1 4096 PrioKernel 0 2 al_new 900) kstka ustka (Stack 0x400000 0x3fe000 0x300000)
      ltac:(discriminate) eq_refl eq_refl eq_refl eq_refl eq_refl) as (_ & _ & Hg).
    destruct Hg as (ok & B' & y & H1 & _ & _ & H2); [reflexivity|simpl; lia|].
    apply (f_equal ret_val) in H1. vm_compute in H1. injection H1 as <-. eexists. split; [exact H2|reflexivity].
Defined.

(** The handler grows a stack with the allocator of the process, whichever
    allocator it came from: the stack of the kernel thread 11 gets its pages
    from the process's allocator, with the process's flags. *)
Theorem pgflt_grows_from_process :
  let m' := state_of (pgflt_handler StkaDemo.all_ok 21 2 0x3fc123 m0) m0 in
  ((fun a => bool_decide (0x3fc000 ∈ pgs a)) <$> stkas m' !! 900) = Some true /\
  ((fun a => bool_decide (0x3fc000 ∈ pgs a)) <$> stkas m' !! 901) = Some false /\
  ((fun a => mapped <$> stks a !! 8) <$> stkas m' !! 901) = Some (Some 0x3fc000).
Proof. by vm_compute. Qed.
End TrapDemo.
