(* ===== verification/Process.v ===== *)
(** * The life of processes and threads: process.c and thr_delete

    The parts of process.c and thread.c that allocate and release, on the
    threads, processes and stack allocators of Trap.  What an allocation
    returns is an argument (0 for NULL), and so is the result of heap_init;
    [released] lists what was given back, in order, and [stale] the objects
    written to after they were freed. *)

From S2P Require Import Prelude.
From S2P Require Import KList.
From S2P Require Import Heap.
From S2P Require Import Sched.
From S2P Require Import Stka.
From S2P Require Import Trap.

Definition SHEAP_START : Z := 0x700000000000.
Definition SHEAP_END : Z := 0x800000000000.

Inductive res := RBlock (p : Z) | RList (p : Z) | RHeap (p : Z) | RStka (p : Z) | RSpace (p : Z).

Record prcs := Prcs { pm : machine; current : Z; released : list res; stale : list Z }.
Definition pk (s : prcs) : kernel := ker (pm s).
Definition set_pm m s := Prcs m (current s) (released s) (stale s).
Definition set_pk k s := set_pm (set_ker k (pm s)) s.

Definition on_pk {A} (op : M kernel A) : M prcs A := fun s =>
  match op (pk s) with
  | Ret (a, k) => Ret (a, set_pk k s)
  | Fatal e => Fatal e
  | Fault a => Fault a
  | Deadlock => Deadlock
  | NoFuel => NoFuel
  end.

(** An operation of the stack allocator at [a]. *)
Definition on_stka {A} (a : Z) (op : M stka A) : M prcs A := fun s =>
  match stkas (pm s) !! a with
  | None => Fault a
  | Some x =>
      match op x with
      | Ret (r, x') => Ret (r, set_pm (set_stkas (<[a := x']> (stkas (pm s))) (pm s)) s)
      | Fatal e => Fatal e
      | Fault f => Fault f
      | Deadlock => Deadlock
      | NoFuel => NoFuel
      end
  end.

Definition release (rs : list res) : M prcs unit :=
  mmodify (fun s => Prcs (pm s) (current s) (released s ++ rs) (stale s)).

(** The allocator at [a] is freed by [stka_delete], which then still writes
    its lock. *)
Definition delete_stka (a : Z) : M prcs unit :=
  on_stka a stka_delete ;;;
  release [RStka a] ;;;
  mmodify (fun s => Prcs (set_stkas (delete a (stkas (pm s))) (pm s)) (current s) (released s) (stale s ++ [a])).

(** ** process.c *)

(** The stacks of a process. *)
Definition prc_desc (space : Z) : stack_allocator_desc_t :=
  Desc SHEAP_START SHEAP_END space (Z.lor PG_WRITABLE PG_USER) false false.

(** [prc], [threads] and [stka] are what kheap_alloc and list_new return for
    the process, its thread list and its stack allocator, [heap_ok] what
    heap_init returns.  stka_new writes to its block without looking at it. *)
Definition prc_new (prc threads stka : Z) (heap_ok : bool) (space : Z) (prio : priority_t) : M prcs Z :=
  if prc =? 0 then mreturn 0
  else if space =? 0 then release [RBlock prc] ;;; mreturn 0
  else if threads =? 0 then release [RBlock prc] ;;; mreturn 0
  else
    old <- on_pk (mgets cr3) ;;
    on_pk (spc_switch space) ;;;
    if negb heap_ok then release [RList threads; RBlock prc] ;;; mreturn 0
    else if stka =? 0 then mfault 0
    else
      mmodify (fun s => set_pm (set_stkas (<[stka := stka_new (prc_desc space)]> (stkas (pm s))) (pm s)) s) ;;;
      id <- mgets current ;;
      mmodify (fun s => Prcs (set_ker (set_processes (<[prc := Process id space prio 0 0 al_new stka]> (processes (pk s))) (pk s)) (pm s))
                             (u64 (id + 1)) (released s) (stale s)) ;;;
      on_pk (spc_switch old) ;;;
      mreturn prc.

(** Nothing keeps the lock from being written after the block is freed. *)
Definition prc_destroy (prc : Z) : M prcs Z :=
  if prc =? 0 then mreturn 0
  else
    on_pk (prc_lock prc) ;;;
    p <- on_pk (prc_at prc) ;;
    if 0 <? asize (p_threads p) then mfatal "trying to destroy process with threads!"
    else
      delete_stka (p_stka p) ;;;
      release [RHeap prc; RSpace (p_space p); RList prc; RBlock prc] ;;;
      on_pk (mmodify (fun k => set_processes (delete prc (processes k)) k)) ;;;
      mmodify (fun s => Prcs (pm s) (current s) (released s) (stale s ++ [prc])) ;;;
      mreturn 0.

(** ** thread.c *)

(** The thread is read before it is compared with NULL; the run queues are not
    looked at. *)
Definition thr_delete (thr : Z) : M prcs Z :=
  t <- on_pk (thr_at thr) ;;
  (if context t =? 0 then mreturn tt
   else release [RBlock (context t)] ;;;
        on_pk (mmodify (fun k => set_contexts (delete (context t) (contexts k)) k))) ;;;
  (if t_stack t =? 0 then mreturn tt
   else on_stka (t_stka t) (stka_free (t_stack t)) ;;; release [RBlock (t_stack t)]) ;;;
  release [RBlock thr] ;;;
  on_pk (mmodify (fun k => set_threads (delete thr (threads k)) k)) ;;;
  mreturn 0.

(** ** Creating a process *)

Lemma on_pk_switch sp s : on_pk (spc_switch sp) s = Ret (tt, set_pk (set_cr3 sp (pk s)) s).
Proof.
  destruct s as [[k r a w] c re st]. unfold on_pk, spc_switch, pk. simpl.
  destruct (Z.eqb_spec sp (cr3 k)) as [->|]; [by destruct k|done].
Qed.

Lemma on_pk_gets {A} (f : kernel -> A) s : on_pk (mgets f) s = Ret (f (pk s), s).
Proof. by destruct s as [[k r a w] c re st]. Qed.

(** A process that is created gets the next id, is recorded with the
    space, priority, empty thread list and a fresh stack allocator for this
    space, and leaves the address space that was active; when it is not, NULL
    is returned, no process is recorded and everything allocated for it is
    given back. *)
Theorem prc_new_result prc threads stka heap_ok space prio s :
  (prc <> 0 /\ space <> 0 /\ threads <> 0 /\ heap_ok = true /\ stka <> 0 ->
     exists s', prc_new prc threads stka heap_ok space prio s = Ret (prc, s') /\
       processes (pk s') = <[prc := Process (current s) space prio 0 0 al_new stka]> (processes (pk s)) /\
       stkas (pm s') = <[stka := stka_new (prc_desc space)]> (stkas (pm s)) /\
       current s' = u64 (current s + 1) /\ cr3 (pk s') = cr3 (pk s) /\ released s' = released s) /\
  (prc = 0 \/ space = 0 \/ threads = 0 \/ heap_ok = false ->
     exists s', prc_new prc threads stka heap_ok space prio s = Ret (0, s') /\
       processes (pk s') = processes (pk s) /\ stkas (pm s') = stkas (pm s) /\ current s' = current s /\
       (prc <> 0 -> RBlock prc ∈ released s') /\
       (prc <> 0 -> space <> 0 -> threads <> 0 -> RList threads ∈ released s')).
Proof.
  unfold prc_new. split.
  - intros (Hp & Hs & Ht & -> & Ha).
    destruct (Z.eqb_spec prc 0); [done|]. destruct (Z.eqb_spec space 0); [done|]. destruct (Z.eqb_spec threads 0); [done|].
    destruct (Z.eqb_spec stka 0); [done|].
    rewrite (mseq_run _ _ _ _ _ (on_pk_gets cr3 s)), (mseq_run _ _ _ _ _ (on_pk_switch _ _)). cbn [negb].
    unfold mmodify, mgets. unfold mseq at 1 2 3. rewrite (mseq_run _ _ _ _ _ (on_pk_switch _ _)).
    eexists. split; [done|]. by split_and!.
  - intros Hf. destruct (Z.eqb_spec prc 0); [eexists; split; [done|]; by split_and!|].
    destruct (Z.eqb_spec space 0).
    { eexists. split; [done|]. simpl. split_and!; [done..|intros _; set_solver|done]. }
    destruct (Z.eqb_spec threads 0).
    { eexists. split; [done|]. simpl. split_and!; [done..|intros _; set_solver|done]. }
    rewrite (mseq_run _ _ _ _ _ (on_pk_gets cr3 s)), (mseq_run _ _ _ _ _ (on_pk_switch _ _)).
    destruct heap_ok; [naive_solver|]. cbn [negb].
    eexists. split; [done|]. simpl. split_and!; [done..|intros _; set_solver|intros _ _ _; set_solver].
Qed.

(** When the heap cannot be set up, the caller goes on in the address space of
    the process that was not created; without memory for the stack allocator
    it writes through NULL, before prc_new looks at the result. *)
Theorem prc_new_failure_stays_in_space prc threads stka space prio s :
  prc <> 0 -> space <> 0 -> threads <> 0 ->
  (exists s', prc_new prc threads stka false space prio s = Ret (0, s') /\ cr3 (pk s') = space) /\
  prc_new prc threads 0 true space prio s = Fault 0.
Proof.
  intros Hp Hs Ht. unfold prc_new.
  destruct (Z.eqb_spec prc 0); [done|]. destruct (Z.eqb_spec space 0); [done|]. destruct (Z.eqb_spec threads 0); [done|].
  rewrite !(mseq_run _ _ _ _ _ (on_pk_gets cr3 s)), !(mseq_run _ _ _ _ _ (on_pk_switch _ _)). cbn [negb].
  split; [by eexists|done].
Qed.

(** The process with its lock taken. *)
Definition locked (prc : Z) (p : process_t) (s : prcs) : prcs :=
  set_pk (set_processes (<[prc := with_plock 1 p]> (processes (pk s))) (pk s)) s.

Lemma prc_lock_run prc p s : processes (pk s) !! prc = Some p -> p_lock p = 0 ->
  on_pk (prc_lock prc) s = Ret (tt, locked prc p s).
Proof.
  intros Hp Hl. unfold on_pk, prc_lock, prc_upd, mseq, prc_at. rewrite Hp, Hl. cbn [Z.eqb]. by rewrite Hp.
Qed.

Lemma locked_at prc p s : on_pk (prc_at prc) (locked prc p s) = Ret (with_plock 1 p, locked prc p s).
Proof. unfold on_pk, prc_at, locked, pk. simpl. rewrite lookup_insert_eq. done. Qed.

Lemma delete_stka_run a A s : stkas (pm s) !! a = Some A -> lock A = 0 -> stka_listed A ->
  delete_stka a s = Ret (tt, Prcs (set_stkas (delete a (stkas (pm s))) (pm s)) (current s) (released s ++ [RStka a]) (stale s ++ [a])).
Proof.
  intros Ha Hl Hw. destruct (stka_delete_run A Hl Hw) as (A' & Hrun & _).
  unfold delete_stka, on_stka, release, mmodify. unfold mseq at 1. rewrite Ha, Hrun. unfold mseq. simpl.
  by rewrite delete_insert_eq.
Qed.

(** A process is only destroyed when it has no threads and its lock is
    free: with threads the machine stops, with the lock taken the call does not
    return; else the process and its stack allocator, with all stacks, are
    gone, and allocator, heap, address space, thread list and block are given
    back in this order; the locks of both are written after that. *)
Theorem prc_destroy_releases prc p A s : prc <> 0 -> processes (pk s) !! prc = Some p ->
  stkas (pm s) !! p_stka p = Some A -> lock A = 0 -> stka_listed A ->
  (p_lock p <> 0 -> prc_destroy prc s = Deadlock) /\
  (p_lock p = 0 -> 0 < asize (p_threads p) -> exists e, prc_destroy prc s = Fatal e) /\
  (p_lock p = 0 -> asize (p_threads p) <= 0 ->
     exists s', prc_destroy prc s = Ret (0, s') /\ processes (pk s') = delete prc (processes (pk s)) /\
       stkas (pm s') = delete (p_stka p) (stkas (pm s)) /\
       released s' = released s ++ [RStka (p_stka p); RHeap prc; RSpace (p_space p); RList prc; RBlock prc] /\
       stale s' = stale s ++ [p_stka p; prc]).
Proof.
  intros Hne Hp HA HlA HwA. unfold prc_destroy. destruct (Z.eqb_spec prc 0); [done|].
  split_and!.
  - intros Hl. unfold on_pk at 1, prc_lock. unfold mseq, prc_at. rewrite Hp. by destruct (Z.eqb_spec (p_lock p) 0).
  - intros Hl Hs. rewrite (mseq_run _ _ _ _ _ (prc_lock_run _ _ _ Hp Hl)), (mseq_run _ _ _ _ _ (locked_at _ _ _)). simpl.
    destruct (Z.ltb_spec 0 (asize (p_threads p))); [by eexists|lia].
  - intros Hl Hs. rewrite (mseq_run _ _ _ _ _ (prc_lock_run _ _ _ Hp Hl)), (mseq_run _ _ _ _ _ (locked_at _ _ _)). simpl.
    destruct (Z.ltb_spec 0 (asize (p_threads p))); [lia|].
    rewrite (mseq_run _ _ _ _ _ (delete_stka_run (p_stka p) A (locked prc p s) HA HlA HwA)).
    eexists. split; [done|]. simpl. unfold pk. simpl. rewrite <-!app_assoc. by rewrite delete_insert_eq.
Qed.

Module ProcessDemo.
Definition pm0 : machine := Machine SchedDemo.k0 ∅ {[ 0 := StkaDemo.u0; 900 := StkaDemo.u0 ]} [].
Definition ps0 : prcs := Prcs pm0 1 [] [].

Lemma prc_new_result_witness :
  exists s', prc_new 600 608 616 true 8192 PrioNormal ps0 = Ret (600, s') /\ current s' = u64 2.
Proof.
  destruct (prc_new_result 600 608 616 true 8192 PrioNormal ps0) as [H _].
  destruct H as (s' & H1 & _ & _ & H2 & _); [repeat split; discriminate|]. exists s'. split; [exact H1|exact H2].
Defined.

Lemma prc_new_failure_stays_in_space_witness :
  exists s', prc_new 600 608 616 false 8192 PrioNormal ps0 = Ret (0, s') /\ cr3 (pk s') = 8192.
Proof.
  apply (prc_new_failure_stays_in_space 600 608 616 8192 PrioNormal ps0); discriminate.
Defined.

Lemma u0_listed : stka_listed StkaDemo.u0.
Proof.
  split; [apply NoDup_singleton|]. intros p. simpl. rewrite list_elem_of_singleton, lookup_singleton_is_Some. by split.
Qed.

Lemma stka_delete_frees_witness :
  exists s', stka_delete StkaDemo.u0 = Ret (tt, s') /\ stks s' = ∅ /\ 0x3fe000 ∉ pgs s'.
Proof.
  destruct (stka_delete_frees StkaDemo.u0 eq_refl u0_listed) as (s' & H1 & _ & H2 & _ & H3).
  exists s'. split; [exact H1|]. split; [exact H2|].
  exact (H3 8 (Stack 0x400000 0x3fe000 0x300000) eq_refl 0 ltac:(lia) ltac:(simpl; lia)).
Defined.

Lemma prc_destroy_releases_witness : exists s', prc_destroy 500 ps0 = Ret (0, s') /\ stale s' = [0; 500].
Proof.
  destruct (prc_destroy_releases 500 (Process 0 4096 PrioKernel 0 2 al_new 0) StkaDemo.u0 ps0) as (_ & _ & H);
    [discriminate|reflexivity|reflexivity|reflexivity|exact u0_listed|].
  destruct H as (s' & H1 & _ & _ & _ & H2); [reflexivity|simpl; lia|]. exists s'. split; [exact H1|exact H2].
Defined.

(** A deleted thread stays in the run queue, where the scheduler will read it. *)
Theorem thr_delete_leaves_queue :
  let s := state_of (thr_delete 11 ps0) ps0 in
  threads (pk s) !! 11 = None /\ flat (queues (pk s)) = [11] /\
  sched_schedule (set_sched_lock 0 (pk s)) = Fault 11.
Proof. by vm_compute. Qed.
End ProcessDemo.
