(* ===== verification/BootSeq.v ===== *)
(** * The boot sequence: processes and threads of tachyon.c

    The part of boot() and boot_next() that makes the core process, the
    initial thread and the threads that are started, with the operations of
    the processes, the scheduler and the timers, up to sched_start.  What the
    allocations return is an argument. *)

From S2P Require Import Prelude.
From S2P Require Import KList.
From S2P Require Import Sched.
From S2P Require Import Tmr.
From S2P Require Import RoundRobin.
From S2P Require Import Start.
From S2P Require Import Stka.
From S2P Require Import Trap.
From S2P Require Import Process.

(** ** States that grow *)

(** [k'] has everything [k] has, and the same queues, processor and space. *)
Record extends (k k' : kernel) : Prop := {
  ext_queues : queues k' = queues k;
  ext_cpu : cpu_ctx k' = cpu_ctx k;
  ext_cr3 : cr3 k' = cr3 k;
  ext_lock : sched_lock k' = sched_lock k;
  ext_threads : threads k ⊆ threads k';
  ext_contexts : contexts k ⊆ contexts k';
  ext_processes : forall p x, processes k !! p = Some x -> exists x', processes k' !! p = Some x' /\ p_space x' = p_space x;
}.

Lemma extends_trans k1 k2 k3 : extends k1 k2 -> extends k2 k3 -> extends k1 k3.
Proof.
  intros [] []. constructor; try congruence; try (by etransitivity).
  intros p x Hx. destruct (ext_processes0 p x Hx) as (x' & Hx' & <-). by apply ext_processes1.
Qed.

Lemma extends_wf k k' : sched_wf k -> extends k k' -> sched_wf k' /\ cur k' = cur k.
Proof.
  intros Hwf [Hq Hc H3 _ Ht Hx Hp]. destruct (wf_cur k Hwf) as [Hc0 _].
  assert (cur k' = cur k) as Hcur.
  { destruct (cur_ctx k Hc0) as (c & Hcc & <-). unfold cur. rewrite Hc. by erewrite lookup_weaken. }
  split; [|done]. destruct Hwf as [W1 W2 W3 W4 W5 (y & p & Hy & Hyp & Hs)]. unfold population in *.
  constructor; unfold population; rewrite ?Hq, ?Hcur; try done.
  - intros i t Hin. destruct (W3 i t Hin) as (x & Hxt & Hi). exists x. split; [by eapply lookup_weaken|done].
  - intros t Hin. destruct (W4 t Hin) as [Ht0 (x & c & q & Hxt & Hct & Hcc & Hqt)]. split; [done|].
    destruct (Hp _ _ Hqt) as (q' & Hq' & _). exists x, c, q'. split_and!; try done; by eapply lookup_weaken.
  - destruct (Hp _ _ Hyp) as (p' & Hp' & Hsp). exists y, p'. split_and!; [by eapply lookup_weaken|done|congruence].
Qed.

Lemma in_queue k i t : sched_wf k -> t ∈ qitems (default None (queues k !! i)) -> exists x, threads k !! t = Some x.
Proof. intros Hwf Ht. destruct (sw_prio _ Hwf _ _ Ht) as (x & Hx & _). by exists x. Qed.

Lemma extends_ready k k' i t : sched_wf k -> extends k k' -> t ∈ qitems (default None (queues k !! i)) -> ready k' t <-> ready k t.
Proof.
  intros Hwf E Ht. destruct (in_queue k i t Hwf Ht) as (x & Hx). unfold ready. rewrite Hx.
  by rewrite (lookup_weaken _ _ _ _ Hx (ext_threads _ _ E)).
Qed.
Lemma filter_iff_in (P Q : Z -> Prop) `{forall u, Decision (P u)} `{forall u, Decision (Q u)} (l : list Z) :
  (forall u, u ∈ l -> P u <-> Q u) -> filter P l = filter Q l.
Proof.
  induction l as [|u l IH]; intros Hl; [done|]. rewrite !filter_cons, IH by (intros; apply Hl; by right).
  destruct (decide (P u)) as [Hp|Hp], (decide (Q u)) as [Hq|Hq]; try done; exfalso; apply Hl in Hp || apply Hl in Hq; try (by left); done.
Qed.
Lemma extends_waiting p l k k' : waiting p l k -> extends k k' -> waiting p l k'.
Proof.
  intros [Hwf Hlk Hq Htop] E. destruct (extends_wf k k' Hwf E) as [Hwf' _]. unfold queue_of in *. constructor; try done.
  - by rewrite (ext_lock _ _ E).
  - unfold queue_of. rewrite (ext_queues _ _ E), <- Hq. apply filter_iff_in. intros u Hu. by eapply extends_ready.
  - intros h u Hh Hu Hr. rewrite (ext_queues _ _ E) in Hu. apply (Htop h u Hh Hu). by apply (extends_ready k k' h u Hwf E Hu).
Qed.

(** ** New threads *)

Lemma prc_upd_run prc f p k : processes k !! prc = Some p ->
  prc_upd prc f k = Ret (tt, set_processes (<[prc := f p]> (processes k)) k).
Proof. intros Hp. unfold prc_upd. by rewrite (mseq_run _ _ _ _ _ (prc_at_run k prc p Hp)). Qed.
Lemma prc_next_tid_run prc p k : processes k !! prc = Some p -> p_lock p = 0 ->
  prc_next_tid prc k = Ret (ctid p, set_processes (<[prc := with_ctid (u64 (ctid p + 1)) p]> (processes k)) k).
Proof.
  intros Hp Hl. unfold prc_next_tid, prc_lock, prc_unlock.
  rewrite mseq_assoc, (mseq_run _ _ _ _ _ (prc_at_run k prc p Hp)), Hl. cbn [Z.eqb].
  rewrite (mseq_run _ _ _ _ _ (prc_upd_run prc _ p k Hp)). set (k1 := set_processes _ k).
  assert (processes k1 !! prc = Some (with_plock 1 p)) as H1 by apply lookup_insert_eq.
  rewrite (mseq_run _ _ _ _ _ (prc_at_run k1 prc _ H1)), (mseq_run _ _ _ _ _ (prc_upd_run prc _ _ k1 H1)). set (k2 := set_processes _ k1).
  assert (processes k2 !! prc = Some (with_ctid (u64 (ctid p + 1)) (with_plock 1 p))) as H2 by apply lookup_insert_eq.
  rewrite (mseq_run _ _ _ _ _ (prc_upd_run prc _ _ k2 H2)). unfold k2, k1, set_processes. cbn [processes]. rewrite !insert_insert_eq.
  replace (with_plock 0 (with_ctid (u64 (ctid p + 1)) (with_plock 1 p))) with (with_ctid (u64 (ctid p + 1)) p); [done|].
  destruct p. cbn in *. by rewrite Hl.
Qed.

(** The records thr_create makes, and the process with its counter up. *)
Definition new_thread (p : process_t) (prc ctx stk stka : Z) : thread_t := Thread (ctid p) Runnable (p_priority p) stka stk prc ctx 0 0.
Definition new_context (iso : thread_isolation_t) (tramp entry top thr : Z) : thr_context_t :=
  match iso with
  | IsolationKernel => Ctx GDT_KDATA64 GDT_KCODE64 tramp entry FL_IF (u64 (top - 16)) 0 thr
  | IsolationUser => Ctx (Z.lor GDT_UDATA64 RING_USERSPACE) (Z.lor GDT_UCODE64 RING_USERSPACE) tramp entry FL_IF (u64 (top - 16)) 0 thr
  end.
Definition new_stka (iso : thread_isolation_t) (kstka : Z) (p : process_t) : Z :=
  match iso with IsolationKernel => kstka | IsolationUser => p_stka p end.
Definition counted (p : process_t) : process_t := with_ctid (u64 (ctid p + 1)) p.

Lemma thr_create_run thr ctx stk top kstka tramp prc entry iso p k :
  thr <> 0 -> ctx <> 0 -> processes k !! prc = Some p -> p_lock p = 0 -> threads k !! thr = None -> contexts k !! ctx = None ->
  exists k', thr_create thr ctx (Some (stk, top)) kstka tramp prc entry iso k = Ret (thr, k') /\ extends k k' /\ Sched.now k' = Sched.now k /\
    threads k' = <[thr := new_thread p prc ctx stk (new_stka iso kstka p)]> (threads k) /\
    contexts k' = <[ctx := new_context iso tramp entry top thr]> (contexts k) /\
    processes k' = <[prc := counted p]> (processes k).
Proof.
  intros Ht Hc Hp Hl Hfr Hfc. unfold thr_create. rewrite (proj2 (Z.eqb_neq _ _) Ht), (proj2 (Z.eqb_neq _ _) Hc).
  set (k1 := set_processes (<[prc := with_ctid (u64 (ctid p + 1)) p]> (processes k)) k).
  assert (prc_at prc k1 = Ret (with_ctid (u64 (ctid p + 1)) p, k1)) as Hp1 by (apply prc_at_run; cbn; by rewrite lookup_insert_eq).
  assert (forall q x, processes k !! q = Some x -> exists x', processes k1 !! q = Some x' /\ p_space x' = p_space x) as Hpr.
  { intros q x Hq. cbn. destruct (decide (q = prc)) as [->|]; [rewrite lookup_insert_eq|rewrite lookup_insert_ne by done; by exists x].
    eexists. split; [done|]. cbn. congruence. }
  destruct iso; rewrite (mseq_run _ _ _ _ _ (prc_next_tid_run prc p k Hp Hl)); fold k1; rewrite (mseq_run _ _ _ _ _ Hp1);
    eexists; (split; [reflexivity|]); (split; [|done]); constructor; try done; cbn; by apply insert_subseteq.
Qed.

(** Putting a thread that is nowhere yet into its queue. *)
Definition added (k : kernel) (t : Z) (i : nat) : kernel :=
  set_sched_lock 0 (set_queues (<[i := Some (al_add t (old_queue (queues k) i))]> (queues k)) k).

Lemma old_queue_items k i : sched_wf k -> items (old_queue (queues k) i) = qitems (default None (queues k !! i)) /\ attached (old_queue (queues k) i) = true.
Proof.
  intros Hwf. unfold old_queue. destruct (queues k !! i) as [[q|]|] eqn:E; [|done..]. split; [done|by apply (sw_att _ Hwf i)].
Qed.
Lemma sched_add_run t x k : sched_lock k = 0 -> threads k !! t = Some x -> sched_add t k = Ret (tt, added k t (prio_num (priority x))).
Proof.
  intros Hl Hx. unfold sched_add, sched_spl_lock. unfold mseq at 1. rewrite Hl. cbn [Z.eqb]. unfold sched_add_unlocked.
  by rewrite mseq_assoc, (mseq_run _ _ _ _ _ (thr_at_run (set_sched_lock 1 k) t x Hx)).
Qed.
Lemma added_queue k t i j : sched_wf k -> (i < PrioMaxPrio)%nat ->
  qitems (default None (queues (added k t i) !! j)) = qitems (default None (queues k !! j)) ++ (if decide (j = i) then [t] else []).
Proof.
  intros Hwf Hi. destruct (old_queue_items k i Hwf) as [Hit Hat]. cbn [added queues set_sched_lock set_queues].
  rewrite qitems_insert by (by rewrite (sw_len _ Hwf)). destruct (decide (j = i)) as [->|]; [|by rewrite app_nil_r].
  cbn [qitems al_add items]. by rewrite Hat, Hit.
Qed.
Lemma added_population k t i : sched_wf k -> (i < PrioMaxPrio)%nat -> population (added k t i) ≡ₚ t :: population k.
Proof.
  intros Hwf Hi. destruct (old_queue_items k i Hwf) as [Hit Hat]. unfold population. change (cur (added k t i)) with (cur k).
  cbn [added queues set_sched_lock set_queues]. rewrite flat_insert by (by rewrite (sw_len _ Hwf)).
  destruct (lookup_lt_is_Some_2 (queues k) i) as [q Hq]; [by rewrite (sw_len _ Hwf)|].
  rewrite (flat_split (queues k) i q Hq). cbn [qitems al_add items]. rewrite Hat, Hit, Hq. cbn [default from_option id]. solve_Permutation.
Qed.
Lemma added_wf k t x : sched_wf k -> t ∉ population k -> thr_ok k t -> threads k !! t = Some x -> sched_wf (added k t (prio_num (priority x))).
Proof.
  intros Hwf Hn Hok Hx. pose proof (prio_lt (priority x)) as Hi. pose proof (added_population k t _ Hwf Hi) as Hpop.
  destruct Hwf as [W1 W2 W3 W4 W5 W6] eqn:E. clear E. constructor.
  - cbn. by rewrite length_insert.
  - intros j q. cbn. destruct (decide (j = prio_num (priority x))) as [->|].
    + rewrite list_lookup_insert_eq by (by rewrite W1). intros [= <-]. by apply old_queue_items.
    + rewrite list_lookup_insert_ne by done. apply W2.
  - intros j u Hu. rewrite added_queue in Hu by done. apply elem_of_app in Hu as [Hu|Hu]; [by apply W3|].
    destruct (decide (j = prio_num (priority x))) as [->|]; [|by apply elem_of_nil in Hu]. apply list_elem_of_singleton in Hu as ->. by exists x.
  - intros u Hu. rewrite Hpop in Hu. apply elem_of_cons in Hu as [->|Hu]; [done|by apply W4].
  - rewrite Hpop. by apply NoDup_cons.
  - done.
Qed.

Lemma sched_add_waiting p l k t x : waiting p l k -> t ∉ population k -> thr_ok k t -> threads k !! t = Some x ->
  (prio_num (priority x) <= prio_num p)%nat -> t_state x = Runnable ->
  exists k', sched_add t k = Ret (tt, k') /\ waiting p (if decide (priority x = p) then l ++ [t] else l) k' /\
    k' = added k t (prio_num (priority x)).
Proof.
  intros W Hn Hok Hx Hle Hst. pose proof W as [Hwf Hlk Hq Htop]. pose proof (prio_lt (priority x)) as Hi.
  exists (added k t (prio_num (priority x))). split; [by apply sched_add_run|]. split; [|done]. constructor; [by apply added_wf|done| |].
  - unfold queue_of in *. rewrite added_queue by done.
    rewrite (list_filter_iff (ready (added k t (prio_num (priority x)))) (ready k)) by done. rewrite filter_app, Hq. destruct (decide (prio_num p = prio_num (priority x))) as [He|He].
    + rewrite decide_True by (destruct p, (priority x); done). rewrite filter_cons_True; [done|]. unfold ready. by rewrite Hx.
    + rewrite decide_False by congruence. by rewrite app_nil_r.
  - intros h u Hh Hu. change (ready (added k t (prio_num (priority x)))) with (ready k). rewrite added_queue in Hu by done.
    rewrite decide_False, app_nil_r in Hu by lia. by eapply Htop.
Qed.

(** ** tachyon.c *)

(** What the allocations of a thread and of a process return, and the
    addresses of the routines threads start in. *)
Record thr_mem := ThrMem { tm_thr : Z; tm_ctx : Z; tm_stack : option (Z * Z) }.
Record prc_mem := PrcMem { pm_prc : Z; pm_list : Z; pm_stka : Z; pm_heap : bool }.
Record syms := Syms { kstka : Z; trampoline : Z; idle_thread : Z; test_thr : Z; test_thr2 : Z }.

Section boot.
Variable y : syms.

Definition create (t : thr_mem) (prc entry : Z) (iso : thread_isolation_t) : M prcs Z :=
  on_pk (thr_create (tm_thr t) (tm_ctx t) (tm_stack t) (kstka y) (trampoline y) prc entry iso).
Definition new_process (p : prc_mem) (space : Z) (prio : priority_t) : M prcs Z :=
  prc_new (pm_prc p) (pm_list p) (pm_stka p) (pm_heap p) space prio.

(** The end of boot(): sched_init, the core process in the current space and
    the initial thread, which takes over. *)
Definition boot_core (intr_state : bool) (p : prc_mem) (t : thr_mem) : M prcs (Z * Z) :=
  on_pk (sched_init intr_state) ;;;
  space <- on_pk (mgets cr3) ;;
  core <- new_process p space PrioKernel ;;
  if core =? 0 then mfatal "failed to create core process"
  else
    init <- create t core 0 IsolationKernel ;;
    on_pk (thr_upd init (with_tstate Runnable)) ;;;
    on_pk (thr_switch init) ;;;
    mreturn (core, init).

(** The threads of boot_next(): [for(size_t i = 0; i < 2; ++i)] *)
Fixpoint boot_threads (ts : list thr_mem) (core : Z) : M prcs unit :=
  match ts with
  | [] => mreturn tt
  | t :: r => thr <- create t core (test_thr y) IsolationKernel ;; on_pk (sched_add thr) ;;; boot_threads r core
  end.

(** boot_next(): the idle thread, the threads above, and a process with a
    thread in user mode in a new space; then the initial thread has ended. *)
Definition boot_next (core init : Z) (idle : thr_mem) (ts : list thr_mem) (space : Z) (up : prc_mem) (ut : thr_mem) : M prcs unit :=
  on_pk (idle_init (tm_thr idle) (tm_ctx idle) (tm_stack idle) (kstka y) (trampoline y) core (idle_thread y)) ;;;
  boot_threads ts core ;;;
  uproc <- new_process up space PrioNormal ;;
  thr <- create ut uproc (test_thr2 y) IsolationUser ;;
  on_pk (thr_upd thr (with_prio PrioKernel)) ;;;
  on_pk (sched_add thr) ;;;
  on_pk (thr_upd init (with_tstate Exited)).

Definition boot (intr_state : bool) (p : prc_mem) (t idle : thr_mem) (ts : list thr_mem) (space : Z) (up : prc_mem) (ut : thr_mem) : M prcs unit :=
  r <- boot_core intr_state p t ;; boot_next (fst r) (snd r) idle ts space up ut.
End boot.

(** ** What the boot sequence leaves behind *)

Lemma on_pk_run {A} (op : M kernel A) s a k : op (pk s) = Ret (a, k) -> on_pk op s = Ret (a, set_pk k s).
Proof. intros H. unfold on_pk. by rewrite H. Qed.
Lemma pk_set k s : pk (set_pk k s) = k.
Proof. done. Qed.
Lemma thr_upd_run t f x k : threads k !! t = Some x -> thr_upd t f k = Ret (tt, set_threads (<[t := f x]> (threads k)) k).
Proof. intros Hx. unfold thr_upd. by rewrite (mseq_run _ _ _ _ _ (thr_at_run k t x Hx)). Qed.

(** A boot in progress: [l] wait with the priority of the kernel and [di] with
    that of the idle thread, the initial thread runs, the core process [P] is
    usable. *)
Record booting (core : Z) (P : process_t) (init : Z) (di l : list Z) (k : kernel) : Prop := {
  bt_wait : waiting PrioKernel l k;
  bt_idle : queue_of PrioIdle k = di;
  bt_cur : cur k = init;
  bt_init : exists x, threads k !! init = Some x /\ priority x = PrioKernel;
  bt_core : processes k !! core = Some P /\ p_lock P = 0 /\ p_priority P = PrioKernel;
}.

(** The blocks of a thread that is still to be created. *)
Definition unused (t : thr_mem) (k : kernel) : Prop := threads k !! tm_thr t = None /\ contexts k !! tm_ctx t = None.
Definition prc_usable (p : prc_mem) : Prop := pm_prc p <> 0 /\ pm_list p <> 0 /\ pm_stka p <> 0 /\ pm_heap p = true.
Definition usable (t : thr_mem) : Prop := tm_thr t <> 0 /\ tm_ctx t <> 0 /\ is_Some (tm_stack t).
Definition apart (t u : thr_mem) : Prop := tm_thr t <> tm_thr u /\ tm_ctx t <> tm_ctx u.

(** The blocks that were unused are, but for those of [t]. *)
Definition grown (t : thr_mem) (k k' : kernel) : Prop := forall u, apart t u -> unused u k -> unused u k'.

(** [k'] is [k] with the thread [x] of [t] in the process [prc], which was [p]
    before; it is in no queue yet. *)
Record made (t : thr_mem) (prc : Z) (p : process_t) (x : thread_t) (c : thr_context_t) (k k' : kernel) : Prop := {
  md_ext : extends k k';
  md_thr : threads k' = <[tm_thr t := x]> (threads k);
  md_ctx : contexts k' = <[tm_ctx t := c]> (contexts k);
  md_prc : processes k' = <[prc := counted p]> (processes k);
  md_new : t_state x = Runnable /\ context x = tm_ctx t /\ c_thread c = tm_thr t /\ parent x = prc;
}.

Lemma create_made t iso entry kst tr prc p k stk top : usable t -> unused t k -> processes k !! prc = Some p -> p_lock p = 0 -> tm_stack t = Some (stk, top) ->
  exists k', thr_create (tm_thr t) (tm_ctx t) (tm_stack t) kst tr prc entry iso k = Ret (tm_thr t, k') /\
    made t prc p (new_thread p prc (tm_ctx t) stk (new_stka iso kst p)) (new_context iso tr entry top (tm_thr t)) k k'.
Proof.
  intros (Ht & Hc & _) [Hu1 Hu2] Hp Hl ->.
  destruct (thr_create_run (tm_thr t) (tm_ctx t) stk top kst tr prc entry iso p k Ht Hc Hp Hl Hu1 Hu2) as (k' & Hr & E & _ & T & C & P).
  exists k'. split; [done|]. constructor; try done. split_and!; [done..|by destruct iso|done].
Qed.
Lemma made_prio t prc p x c q k k1 : unused t k -> made t prc p x c k k1 ->
  exists k2, thr_upd (tm_thr t) (with_prio q) k1 = Ret (tt, k2) /\ made t prc p (with_prio q x) c k k2.
Proof.
  intros [Hu _] [[] T C P (Hst & Hcx & Hct & Hpa)].
  assert (threads k1 !! tm_thr t = Some x) as Hx by (by rewrite T, lookup_insert_eq).
  eexists. split; [by apply thr_upd_run|]. rewrite T, insert_insert_eq. constructor; [constructor; try done|done..].
  by apply insert_subseteq.
Qed.

(** Queueing the thread. *)
Lemma made_add core P init di l t prc p x c k k1 : booting core P init di l k -> usable t -> unused t k ->
  processes k !! prc = Some p -> made t prc p x c k k1 ->
  exists k2, sched_add (tm_thr t) k1 = Ret (tt, k2) /\
    booting core (if decide (prc = core) then counted P else P) init
      (if decide (priority x = PrioIdle) then di ++ [tm_thr t] else di) (if decide (priority x = PrioKernel) then l ++ [tm_thr t] else l) k2 /\
    grown t k k2 /\ threads k2 = threads k1 /\ contexts k2 = contexts k1 /\ processes k2 = processes k1.
Proof.
  intros [W Hdi Hcur (xi & Hxi & Hpi) (Hpc & Hpl & Hpp)] (Ht & Hc & _) [Hu1 Hu2] Hprc [E T C Pr (Hst & Hcx & Hct & Hpa)].
  pose proof (extends_waiting _ _ _ _ W E) as W1. destruct (extends_wf _ _ (wait_wf _ _ _ W) E) as [_ Hcur1].
  assert (threads k1 !! tm_thr t = Some x) as Hx by (by rewrite T, lookup_insert_eq).
  destruct (sched_add_waiting PrioKernel l k1 (tm_thr t) x) as (k2 & Hr & W2 & ->); try done.
  - unfold population. rewrite (ext_queues _ _ E), Hcur1. intros Hin. destruct (sw_ok _ (wait_wf _ _ _ W) _ Hin) as [_ (y & _ & _ & Hy & _)]. congruence.
  - split; [done|]. exists x, c, (counted p). by rewrite Hcx, C, Hpa, Pr, !lookup_insert_eq.
  - destruct (priority x); cbn; lia.
  - exists (added k1 (tm_thr t) (prio_num (priority x))). split; [done|]. split; [|split; [|done]].
    + constructor; [done| |by rewrite <- Hcur, <- Hcur1| |].
      * unfold queue_of in *. rewrite added_queue by (apply (wait_wf _ _ _ W1) || apply prio_lt). rewrite (ext_queues _ _ E), Hdi.
        destruct (priority x); cbn; rewrite ?app_nil_r; done.
      * exists xi. split; [|done]. cbn [added threads set_sched_lock set_queues]. by apply (lookup_weaken _ _ _ _ Hxi (ext_threads _ _ E)).
      * cbn [added processes set_sched_lock set_queues]. rewrite Pr. destruct (decide (prc = core)) as [->|].
        -- rewrite lookup_insert_eq. simplify_eq. done.
        -- by rewrite lookup_insert_ne.
    + intros u [Ha1 Ha2] [Hn1 Hn2]. unfold unused. cbn [added threads contexts set_sched_lock set_queues]. by rewrite T, C, !lookup_insert_ne.
Qed.

(** ** The steps on the state of the processes *)

Section run.
Variable y : syms.

Lemma create_thr_run t iso entry prc p s stk top :
  usable t -> unused t (pk s) -> processes (pk s) !! prc = Some p -> p_lock p = 0 -> tm_stack t = Some (stk, top) ->
  exists k', create y t prc entry iso s = Ret (tm_thr t, set_pk k' s) /\
    made t prc p (new_thread p prc (tm_ctx t) stk (new_stka iso (kstka y) p)) (new_context iso (trampoline y) entry top (tm_thr t)) (pk s) k'.
Proof.
  intros Ht Hu Hp Hl Hst. destruct (create_made t iso entry (kstka y) (trampoline y) prc p (pk s) stk top Ht Hu Hp Hl Hst) as (k' & Hr & Hm).
  exists k'. split; [|done]. by apply on_pk_run.
Qed.

Lemma new_process_run pm0 space prio s : pm_prc pm0 <> 0 -> pm_list pm0 <> 0 -> pm_stka pm0 <> 0 -> pm_heap pm0 = true -> space <> 0 ->
  exists s', new_process pm0 space prio s = Ret (pm_prc pm0, s') /\ current s' = u64 (current s + 1) /\
    pk s' = set_processes (<[pm_prc pm0 := Process (current s) space prio 0 0 al_new (pm_stka pm0)]> (processes (pk s))) (pk s).
Proof.
  intros H1 H2 H3 H4 H5. unfold new_process, prc_new.
  rewrite (proj2 (Z.eqb_neq _ _) H1), (proj2 (Z.eqb_neq _ _) H2), (proj2 (Z.eqb_neq _ _) H3), (proj2 (Z.eqb_neq _ _) H5), H4.
  rewrite (mseq_run _ _ _ _ _ (on_pk_gets cr3 s)), (mseq_run _ _ _ _ _ (on_pk_switch _ _)). cbn [negb].
  unfold mmodify, mgets. unfold mseq at 1 2 3. rewrite (mseq_run _ _ _ _ _ (on_pk_switch _ _)).
  eexists. split; [done|]. split; [done|]. by destruct s as [[[] r a w] c re st].
Qed.

(** A state in which one thread runs and none is queued. *)
Lemma alone_booting core pr t x c k :
  queues k = replicate PrioMaxPrio None -> sched_lock k = 0 -> t <> 0 -> threads k !! t = Some x -> contexts k !! context x = Some c ->
  c_thread c = t -> cpu_ctx k = context x -> parent x = core -> processes k !! core = Some pr -> p_space pr = cr3 k -> p_lock pr = 0 ->
  p_priority pr = PrioKernel -> priority x = PrioKernel -> booting core pr t [] [] k.
Proof.
  intros Hq Hlk Ht Hx Hc Hct Hcpu Hpa Hpr Hsp Hpl Hpp Hpx.
  assert (cur k = t) as Hcur by (unfold cur; by rewrite Hcpu, Hc).
  assert (forall i, qitems (default None (queues k !! i)) = []) as Hno.
  { intros i. rewrite Hq. destruct (replicate PrioMaxPrio None !! i) as [q|] eqn:E; [|done]. by apply lookup_replicate in E as [-> _]. }
  assert (population k = [t]) as Hpop by (unfold population; by rewrite Hcur, Hq).
  constructor; [|unfold queue_of; by rewrite Hno|done|by exists x|done]. constructor; [|done|unfold queue_of; by rewrite Hno|].
  - constructor.
    + by rewrite Hq.
    + intros i q Hi. rewrite Hq in Hi. by apply lookup_replicate in Hi as [? _].
    + intros i u Hu. rewrite Hno in Hu. by apply elem_of_nil in Hu.
    + rewrite Hpop. intros u ->%list_elem_of_singleton. split; [done|]. exists x, c, pr. by rewrite Hpa.
    + rewrite Hpop. apply NoDup_singleton.
    + exists x, pr. by rewrite Hcur, Hpa.
  - intros h u _ Hu. rewrite Hno in Hu. by apply elem_of_nil in Hu.
Qed.

(** thr_switch from the context the processor starts with. *)
Lemma thr_switch_first t x c k : threads k !! t = Some x -> contexts k !! cpu_ctx k = Some c -> c_thread c = 0 ->
  thr_switch t k = Ret (t, set_cpu_ctx (context x) k).
Proof.
  intros Hx Hc H0. unfold thr_switch, thr_ctx_get, mgets. unfold mseq at 1.
  rewrite (mseq_run _ _ _ _ _ (thr_at_run k t x Hx)). unfold thr_ctx_set, mmodify. unfold mseq at 1.
  unfold ctx_at. unfold mseq at 1. cbn [contexts set_cpu_ctx]. by rewrite Hc, H0.
Qed.

(** The thread of [m] as it was made, now in state [st]: its record, and its
    context with the routine it starts in. *)
Definition stands (k : kernel) (m : thr_mem) (tid : Z) (st : thread_state_t) (q : priority_t) (prc stka entry : Z) (iso : thread_isolation_t) : Prop :=
  exists stk top, tm_stack m = Some (stk, top) /\
    threads k !! tm_thr m = Some (Thread tid st q stka stk prc (tm_ctx m) 0 0) /\
    contexts k !! tm_ctx m = Some (new_context iso (trampoline y) entry top (tm_thr m)).

Lemma stands_weaken k k' m tid st q prc stka entry iso :
  stands k m tid st q prc stka entry iso -> threads k ⊆ threads k' -> contexts k ⊆ contexts k' -> stands k' m tid st q prc stka entry iso.
Proof. intros (stk & top & Hs & Ht & Hc) Hts Hcs. exists stk, top. split_and!; [done|by eapply lookup_weaken..]. Qed.
Lemma made_stands m prc p x c k k' tid q stka stk top entry iso :
  made m prc p x c k k' -> tm_stack m = Some (stk, top) -> x = Thread tid Runnable q stka stk prc (tm_ctx m) 0 0 ->
  c = new_context iso (trampoline y) entry top (tm_thr m) -> stands k' m tid Runnable q prc stka entry iso.
Proof. intros [_ T C _ _] Hs -> ->. exists stk, top. by rewrite T, C, !lookup_insert_eq. Qed.
Lemma made_sub m prc p x c k k' : unused m k -> made m prc p x c k k' -> threads k ⊆ threads k' /\ contexts k ⊆ contexts k'.
Proof. intros [Hu1 Hu2] M. rewrite (md_thr _ _ _ _ _ _ _ M), (md_ctx _ _ _ _ _ _ _ M). split; by apply insert_subseteq. Qed.

(** The core process, with [n] threads made in it. *)
Definition core_process (p : prc_mem) (pid space n : Z) : process_t := Process pid space PrioKernel 0 (u64 n) al_new (pm_stka p).
Lemma counted_core p pid space n : counted (core_process p pid space n) = core_process p pid space (n + 1).
Proof. unfold counted, core_process, with_ctid. cbn. unfold u64. by rewrite Zplus_mod_idemp_l. Qed.

(** boot() ends with the initial thread running alone. *)
Lemma boot_core_run p t s0 c :
  cr3 (pk s0) <> 0 -> contexts (pk s0) !! cpu_ctx (pk s0) = Some c -> c_thread c = 0 ->
  pm_prc p <> 0 -> pm_list p <> 0 -> pm_stka p <> 0 -> pm_heap p = true -> usable t -> unused t (pk s0) ->
  exists s', boot_core y false p t s0 = Ret ((pm_prc p, tm_thr t), s') /\
    booting (pm_prc p) (core_process p (current s0) (cr3 (pk s0)) 1) (tm_thr t) [] [] (pk s') /\ grown t (pk s0) (pk s') /\
    current s' = u64 (current s0 + 1) /\ stands (pk s') t 0 Runnable PrioKernel (pm_prc p) (kstka y) 0 IsolationKernel /\
    forall u, u <> pm_prc p -> processes (pk s0) !! u = None -> processes (pk s') !! u = None.
Proof.
  intros H3 Hc Hc0 P1 P2 P3 P4 Hus Hun. pose proof Hus as (Ht & Htc & [[stk top] Hstk]). pose proof Hun as [Hu1 Hu2]. unfold boot_core.
  rewrite (mseq_run _ _ _ _ _ (on_pk_run (sched_init false) s0 _ _ eq_refl)). set (s := set_pk _ s0).
  change (cr3 (pk s0)) with (cr3 (pk s)) in H3 |- *. change (contexts (pk s0)) with (contexts (pk s)) in Hc, Hu2.
  change (cpu_ctx (pk s0)) with (cpu_ctx (pk s)) in Hc. change (threads (pk s0)) with (threads (pk s)) in Hu1.
  change (processes (pk s0)) with (processes (pk s)). change (grown t (pk s0)) with (grown t (pk s)).
  rewrite (mseq_run _ _ _ _ _ (on_pk_gets cr3 s)).
  destruct (new_process_run p (cr3 (pk s)) PrioKernel s P1 P2 P3 P4 H3) as (s1 & Hs1 & Hcu & Hk1).
  rewrite (mseq_run _ _ _ _ _ Hs1), (proj2 (Z.eqb_neq _ _) P1). change (Process _ _ _ _ _ _ _) with (core_process p (current s0) (cr3 (pk s)) 0) in Hk1.
  set (pr := core_process p (current s0) (cr3 (pk s)) 0) in *. assert (unused t (pk s1)) as Hun1 by (by rewrite Hk1).
  destruct (create_thr_run t IsolationKernel 0 (pm_prc p) pr s1 stk top Hus Hun1) as (k2 & Hr2 & M);
    [rewrite Hk1; apply lookup_insert_eq|done..|].
  rewrite (mseq_run _ _ _ _ _ Hr2). pose proof M as [E T C P _]. set (x := new_thread _ _ _ _ _) in *.
  assert (threads k2 !! tm_thr t = Some x) as Hx by (by rewrite T, lookup_insert_eq).
  assert (thr_upd (tm_thr t) (with_tstate Runnable) k2 = Ret (tt, k2)) as Hup.
  { rewrite (thr_upd_run _ _ x) by done. do 2 f_equal. change (with_tstate Runnable x) with x. rewrite insert_id by done. by destruct k2. }
  rewrite (mseq_run _ _ _ _ _ (on_pk_run _ (set_pk k2 s1) _ _ Hup)).
  assert (cpu_ctx k2 = cpu_ctx (pk s)) as Hcpu by (by rewrite (ext_cpu _ _ E), Hk1).
  assert (tm_ctx t <> cpu_ctx (pk s)) as Hne by (intros He; rewrite He in Hu2; congruence).
  assert (contexts (pk s1) = contexts (pk s)) as Hcs by (by rewrite Hk1).
  assert (thr_switch (tm_thr t) k2 = Ret (tm_thr t, set_cpu_ctx (tm_ctx t) k2)) as Hsw.
  { apply (thr_switch_first _ x c); [done| |done]. by rewrite C, Hcpu, lookup_insert_ne, Hcs. }
  rewrite (mseq_run _ _ _ _ _ (on_pk_run _ (set_pk k2 (set_pk k2 s1)) _ _ Hsw)).
  eexists. split; [reflexivity|]. rewrite pk_set. split; [|split; [|split; [exact Hcu|split]]].
  - replace (core_process p (current s0) (cr3 (pk s)) 1) with (counted pr) by (unfold pr; by rewrite counted_core).
    apply (alone_booting (pm_prc p) (counted pr) (tm_thr t) x (new_context IsolationKernel (trampoline y) 0 top (tm_thr t))); try done.
    + cbn [set_cpu_ctx queues]. by rewrite (ext_queues _ _ E), Hk1.
    + cbn [set_cpu_ctx sched_lock]. by rewrite (ext_lock _ _ E), Hk1.
    + cbn [set_cpu_ctx contexts]. by rewrite C, lookup_insert_eq.
    + cbn [set_cpu_ctx processes]. by rewrite P, lookup_insert_eq.
    + cbn [set_cpu_ctx cr3]. by rewrite (ext_cr3 _ _ E), Hk1.
  - intros u [Ha1 Ha2] [Hn1 Hn2]. split; cbn [set_cpu_ctx threads contexts]; [rewrite T|rewrite C]; rewrite lookup_insert_ne, Hk1 by done; done.
  - by eapply (made_stands _ _ _ _ _ _ k2).
  - intros u Hu Hn. cbn [set_cpu_ctx processes]. rewrite P, lookup_insert_ne, Hk1 by done. cbn [set_processes processes]. by rewrite lookup_insert_ne.
Qed.

(** What a step of the boot leaves as it was: threads and contexts, and the
    processes but [core]. *)
Record kept_but (core : Z) (k k' : kernel) : Prop := {
  kb_threads : threads k ⊆ threads k';
  kb_contexts : contexts k ⊆ contexts k';
  kb_processes : forall u, u <> core -> processes k' !! u = processes k !! u;
}.
Lemma kept_but_trans core k1 k2 k3 : kept_but core k1 k2 -> kept_but core k2 k3 -> kept_but core k1 k3.
Proof. intros [] []. constructor; try (by etransitivity). intros u Hu. by rewrite kb_processes1, kb_processes0. Qed.
Lemma made_kept prc m p x c k k1 k2 : unused m k -> made m prc p x c k k1 ->
  threads k2 = threads k1 -> contexts k2 = contexts k1 -> processes k2 = processes k1 -> kept_but prc k k2.
Proof.
  intros Hu M T C P. destruct (made_sub _ _ _ _ _ _ _ Hu M). constructor; rewrite ?T, ?C, ?P; [done..|].
  intros u Hne. rewrite (md_prc _ _ _ _ _ _ _ M). by rewrite lookup_insert_ne.
Qed.

(** The loop of boot_next(). *)
Lemma boot_threads_run p pid space init di ts : forall l n s, booting (pm_prc p) (core_process p pid space n) init di l (pk s) ->
  Forall usable ts -> ForallOrdPairs apart ts -> Forall (fun t => unused t (pk s)) ts ->
  exists k', boot_threads y ts (pm_prc p) s = Ret (tt, set_pk k' s) /\
    booting (pm_prc p) (core_process p pid space (n + Z.of_nat (length ts))) init di (l ++ map tm_thr ts) k' /\ kept_but (pm_prc p) (pk s) k' /\
    (forall i m, ts !! i = Some m -> stands k' m (u64 (n + Z.of_nat i)) Runnable PrioKernel (pm_prc p) (kstka y) (test_thr y) IsolationKernel) /\
    forall u, Forall (fun t => apart t u) ts -> unused u (pk s) -> unused u k'.
Proof.
  induction ts as [|t ts IH]; intros l n s B Hus Hap Hun.
  - exists (pk s). rewrite app_nil_r, Z.add_0_r. split_and!; try done. by destruct s as [[] ].
  - apply Forall_cons in Hus as [Ht Hus]. apply Forall_cons in Hun as [Hn Hun]. inversion Hap as [|? ? Ha Hap']; subst.
    destruct (bt_core _ _ _ _ _ _ B) as (Hp & Hl & Hpp). pose proof Ht as (_ & _ & [[stk top] Hstk]).
    destruct (create_thr_run t IsolationKernel (test_thr y) (pm_prc p) _ s stk top Ht Hn Hp Hl Hstk) as (k1 & Hr1 & M1).
    destruct (made_add _ _ init di l t (pm_prc p) _ _ _ (pk s) k1 B Ht Hn Hp M1) as (k2 & Hr2 & B2 & G2 & T2 & C2 & P2).
    rewrite (decide_True (P := pm_prc p = pm_prc p)), counted_core, decide_False, decide_True in B2 by done.
    destruct (IH (l ++ [tm_thr t]) (n + 1) (set_pk k2 (set_pk k1 s))) as (k' & Hr & B' & K' & S' & G'); [done|done|done| |].
    { apply Forall_forall. intros u Hu. apply G2; [by eapply (proj1 (Forall_forall _ _) Ha)|by eapply (proj1 (Forall_forall _ _) Hun)]. }
    exists k'. split_and!.
    + cbn [boot_threads]. by rewrite (mseq_run _ _ _ _ _ Hr1), (mseq_run _ _ _ _ _ (on_pk_run _ (set_pk k1 s) _ _ Hr2)).
    + cbn [map length]. rewrite <- app_assoc in B'. replace (n + Z.of_nat (S (length ts))) with (n + 1 + Z.of_nat (length ts)) by lia. exact B'.
    + eapply kept_but_trans; [by eapply made_kept|exact K'].
    + intros [|i] m Hm; [|replace (n + Z.of_nat (S i)) with (n + 1 + Z.of_nat i) by lia; by apply S'].
      injection Hm as <-. rewrite Z.add_0_r. eapply stands_weaken; [|apply K'|apply K']. eapply (stands_weaken k1).
      * by eapply made_stands.
      * cbn. by rewrite T2.
      * cbn. by rewrite C2.
    + intros u Hau Hu. apply Forall_cons in Hau as [Hau1 Hau2]. apply G'; [done|]. by apply G2.
Qed.

Lemma process_booting core P init di l k prc pr : booting core P init di l k -> processes k !! prc = None ->
  booting core P init di l (set_processes (<[prc := pr]> (processes k)) k).
Proof.
  intros [W Hdi Hcur Hi (Hpc & Hpl & Hpp)] Hn. set (k' := set_processes _ k).
  assert (forall u pu, processes k !! u = Some pu -> processes k' !! u = Some pu) as Hk.
  { intros u pu Hu. cbn. rewrite lookup_insert_ne by congruence. done. }
  assert (extends k k') as E by (constructor; try done; intros u pu Hu; exists pu; split; [by apply Hk|done]).
  constructor; [by eapply extends_waiting|done..|]. split; [by apply Hk|done].
Qed.

(** The initial thread ends; it is in no queue. *)
Lemma exit_init core P init di l k : booting core P init di l k ->
  exists k' x, thr_upd init (with_tstate Exited) k = Ret (tt, k') /\ waiting PrioKernel l k' /\ cur k' = init /\ queue_of PrioIdle k' = di /\
    threads k !! init = Some x /\ priority x = PrioKernel /\
    threads k' = <[init := with_tstate Exited x]> (threads k) /\ contexts k' = contexts k /\ processes k' = processes k.
Proof.
  intros [[Hwf Hlk Hq Htop] Hdi Hcur (x & Hx & Hpx) _].
  destruct (thr_upd_wf k init (with_tstate Exited) x Hwf Hx eq_refl eq_refl eq_refl) as (k' & Hr & Hwf' & Hcur' & _ & Hq' & Hl' & _ & T).
  rewrite (thr_upd_run _ _ x k Hx) in Hr. injection Hr as <-.
  eexists _, x. split; [by apply thr_upd_run|]. split_and!; try done.
  assert (forall i u, u ∈ qitems (default None (queues k !! i)) -> ready (set_threads (<[init := with_tstate Exited x]> (threads k)) k) u <-> ready k u) as Hrd.
  { intros i u Hu. unfold ready. rewrite T, lookup_insert_ne; [done|]. intros <-. pose proof (sw_nodup _ Hwf) as Hnd.
    unfold population in Hnd. rewrite Hcur in Hnd. apply NoDup_cons in Hnd as [Hn _]. apply Hn. apply elem_of_flat.
    destruct (queues k !! i) as [q|] eqn:E; [by exists i, q|by apply elem_of_nil in Hu]. }
  constructor; [done|done| |].
  - unfold queue_of in *. rewrite Hq', <- Hq. apply filter_iff_in. intros u Hu. by eapply Hrd.
  - intros h u Hh Hu Hr'. rewrite Hq' in Hu. apply (Htop h u Hh Hu). by apply (Hrd h).
Qed.

Lemma pairs_snoc ts u : ForallOrdPairs apart (ts ++ [u]) -> ForallOrdPairs apart ts /\ Forall (fun t => apart t u) ts.
Proof.
  induction ts as [|t ts IH]; intros H; [by split; constructor|]. inversion H as [|? ? Ha Hp]; subst.
  apply Forall_app in Ha as [Ha [Hu _]%Forall_cons]. destruct (IH Hp). split; by constructor.
Qed.

(** What boot_next() has made by sched_start: the core process with all
    kernel threads counted, the process in user mode, and every thread with its
    record and its context; the idle thread is the only one of its priority
    that waits, and the initial thread has ended. *)
Record booted (p : prc_mem) (t idle : thr_mem) (ts : list thr_mem) (space : Z) (up : prc_mem) (ut : thr_mem) (s s' : prcs) : Prop := {
  bd_core : processes (pk s') !! pm_prc p = Some (core_process p (current s) (cr3 (pk s)) (2 + Z.of_nat (length ts)));
  bd_user : processes (pk s') !! pm_prc up = Some (Process (u64 (current s + 1)) space PrioNormal 0 1 al_new (pm_stka up));
  bd_init : stands (pk s') t 0 Exited PrioKernel (pm_prc p) (kstka y) 0 IsolationKernel;
  bd_idle : stands (pk s') idle 1 Runnable PrioIdle (pm_prc p) (kstka y) (idle_thread y) IsolationKernel;
  bd_idle_queue : queue_of PrioIdle (pk s') = [tm_thr idle];
  bd_threads : forall i m, ts !! i = Some m ->
    stands (pk s') m (u64 (2 + Z.of_nat i)) Runnable PrioKernel (pm_prc p) (kstka y) (test_thr y) IsolationKernel;
  bd_user_thread : stands (pk s') ut 0 Runnable PrioKernel (pm_prc up) (pm_stka up) (test_thr2 y) IsolationUser;
}.

(** idle_init(). *)
Lemma idle_init_run p pid space init idle s : let core := pm_prc p in
  booting core (core_process p pid space 1) init [] [] (pk s) -> usable idle -> unused idle (pk s) ->
  exists k', idle_init (tm_thr idle) (tm_ctx idle) (tm_stack idle) (kstka y) (trampoline y) core (idle_thread y) (pk s) = Ret (tt, k') /\
    booting core (core_process p pid space 2) init [tm_thr idle] [] k' /\ kept_but core (pk s) k' /\ grown idle (pk s) k' /\
    stands k' idle 1 Runnable PrioIdle core (kstka y) (idle_thread y) IsolationKernel.
Proof.
  intros core B Hi Ni. destruct (bt_core _ _ _ _ _ _ B) as (Hp & Hl & Hpp). pose proof Hi as (_ & _ & [[stk top] Hstk]).
  destruct (create_made idle IsolationKernel (idle_thread y) (kstka y) (trampoline y) core _ (pk s) stk top Hi Ni Hp Hl Hstk) as (k1 & Hr1 & M1).
  destruct (made_prio idle _ _ _ _ PrioIdle (pk s) k1 Ni M1) as (k2 & Hr2 & M2).
  destruct (made_add core _ init [] [] idle core _ _ _ (pk s) k2 B Hi Ni Hp M2) as (k3 & Hr3 & B3 & G3 & T3 & C3 & P3).
  rewrite (decide_True (P := core = core)), counted_core, decide_True, decide_False in B3 by done.
  exists k3. split_and!; [|done|by eapply made_kept|done|].
  - unfold idle_init. by rewrite (mseq_run _ _ _ _ _ Hr1), (mseq_run _ _ _ _ _ Hr2).
  - eapply (stands_weaken k2); [by eapply made_stands|by rewrite T3|by rewrite C3].
Qed.

(** The process in user mode and its thread. *)
Lemma user_run core P init di l up ut space s :
  booting core P init di l (pk s) -> usable ut -> unused ut (pk s) -> prc_usable up -> space <> 0 -> processes (pk s) !! pm_prc up = None ->
  exists k' s1, new_process up space PrioNormal s = Ret (pm_prc up, s1) /\
    (thr <- create y ut (pm_prc up) (test_thr2 y) IsolationUser ;; on_pk (thr_upd thr (with_prio PrioKernel)) ;;; on_pk (sched_add thr)) s1 = Ret (tt, set_pk k' s1) /\
    booting core P init di (l ++ [tm_thr ut]) k' /\ kept_but (pm_prc up) (pk s) k' /\
    processes k' !! pm_prc up = Some (Process (current s) space PrioNormal 0 1 al_new (pm_stka up)) /\
    stands k' ut 0 Runnable PrioKernel (pm_prc up) (pm_stka up) (test_thr2 y) IsolationUser.
Proof.
  intros B Hut Nu (U1 & U2 & U3 & U4) U5 Hup. pose proof Hut as (_ & _ & [[stk top] Hstk]).
  destruct (new_process_run up space PrioNormal s U1 U2 U3 U4 U5) as (s1 & Hr1 & _ & Hk1). set (up0 := Process _ _ _ _ _ _ _) in Hk1.
  assert (booting core P init di l (pk s1)) as B1 by (rewrite Hk1; by apply process_booting).
  assert (unused ut (pk s1)) as Nu1 by (by rewrite Hk1).
  assert (pm_prc up <> core) as Hne by (intros He; rewrite He in Hup; destruct (bt_core _ _ _ _ _ _ B); congruence).
  assert (processes (pk s1) !! pm_prc up = Some up0) as Hp1 by (rewrite Hk1; apply lookup_insert_eq).
  destruct (create_thr_run ut IsolationUser (test_thr2 y) (pm_prc up) up0 s1 stk top Hut Nu1) as (k2 & Hr2 & M2); [done..|].
  destruct (made_prio ut _ _ _ _ PrioKernel (pk s1) k2 Nu1 M2) as (k3 & Hr3 & M3).
  destruct (made_add core P init di l ut _ _ _ _ (pk s1) k3 B1 Hut Nu1 Hp1 M3) as (k4 & Hr4 & B4 & _ & T4 & C4 & P4).
  rewrite (decide_False (P := pm_prc up = core)), decide_False, decide_True in B4 by done.
  exists k4, s1. split; [done|]. split.
  { by rewrite (mseq_run _ _ _ _ _ Hr2), (mseq_run _ _ _ _ _ (on_pk_run _ (set_pk k2 s1) _ _ Hr3)), (on_pk_run _ (set_pk k3 (set_pk k2 s1)) _ _ Hr4). }
  split; [done|]. split; [|split].
  - eapply (kept_but_trans _ _ (pk s1)); [|by eapply made_kept]. rewrite Hk1. constructor; [done..|]. intros u Hu. cbn. by rewrite lookup_insert_ne.
  - rewrite P4, (md_prc _ _ _ _ _ _ _ M3). apply lookup_insert_eq.
  - eapply (stands_weaken k3); [by eapply made_stands|by rewrite T4|by rewrite C4].
Qed.

(** boot_next() up to sched_start: the threads wait in the order they were
    made, and the initial thread has ended. *)
Lemma boot_next_run p t idle ts space up ut s0 s :
  let core := pm_prc p in let init := tm_thr t in
  booting core (core_process p (current s0) (cr3 (pk s0)) 1) init [] [] (pk s) -> current s = u64 (current s0 + 1) ->
  stands (pk s) t 0 Runnable PrioKernel core (kstka y) 0 IsolationKernel ->
  Forall usable (idle :: ts ++ [ut]) -> ForallOrdPairs apart (idle :: ts ++ [ut]) ->
  Forall (fun t => unused t (pk s)) (idle :: ts ++ [ut]) -> Forall (apart t) (idle :: ts ++ [ut]) ->
  prc_usable up -> space <> 0 -> processes (pk s) !! pm_prc up = None ->
  exists s', boot_next y core init idle ts space up ut s = Ret (tt, s') /\
    waiting PrioKernel (map tm_thr ts ++ [tm_thr ut]) (pk s') /\ cur (pk s') = init /\ booted p t idle ts space up ut s0 s'.
Proof.
  intros core init B Hcu Hst Hus Hap Hun Hat Hup0 U5 Hup.
  apply Forall_cons in Hus as [Hi Hus]. apply Forall_app in Hus as [Hts [Hut _]%Forall_cons].
  apply Forall_cons in Hun as [Ni Nn]. inversion Hap as [|? ? Ai Hap']; subst. apply pairs_snoc in Hap' as [Hap' Hau].
  destruct (idle_init_run p _ _ init idle s B Hi Ni) as (k3 & Hidle & B3 & K3 & G3 & S3).
  assert (Forall (fun t => unused t k3) (ts ++ [ut])) as Nn3.
  { apply Forall_forall. intros u Hu. apply G3; [by eapply (proj1 (Forall_forall _ _) Ai)|by eapply (proj1 (Forall_forall _ _) Nn)]. }
  apply Forall_app in Nn3 as [Nt3 [Nu3 _]%Forall_cons].
  assert (pm_prc up <> core) as Hne by (intros He; rewrite He in Hup; destruct (bt_core _ _ _ _ _ _ B); congruence).
  destruct (boot_threads_run p (current s0) (cr3 (pk s0)) init [tm_thr idle] ts [] 2 (set_pk k3 s)) as (k4 & Hr4 & B4 & K4 & S4 & G4); [done..|].
  set (s4 := set_pk k4 (set_pk k3 s)). assert (unused ut (pk s4)) as Nu4 by (by apply G4).
  assert (processes (pk s4) !! pm_prc up = None) as Hup4 by (rewrite (kb_processes _ _ _ K4) by done; by rewrite pk_set, (kb_processes _ _ _ K3)).
  destruct (user_run core _ init _ _ up ut space s4 B4 Hut Nu4 Hup0 U5 Hup4) as (k8 & s5 & Hr5 & Hr8 & B8 & K8 & P8 & S8).
  destruct (exit_init core _ init _ _ k8 B8) as (k9 & x & Hr9 & W9 & Hcur9 & Hid9 & Hx & Hpx & T9 & C9 & P9).
  assert (kept_but core (pk s) k4) as K34 by (by eapply kept_but_trans).
  assert (forall m tid st q prc stka entry iso, apart t m -> stands k8 m tid st q prc stka entry iso -> stands k9 m tid st q prc stka entry iso) as Hkeep.
  { intros m tid st q prc stka entry iso [Ha _] (stk & top & Hs & Ht & Hc). exists stk, top. rewrite T9, C9, lookup_insert_ne by done. done. }
  apply Forall_cons in Hat as [Hai Hat]. apply Forall_app in Hat as [Hats [Hatu _]%Forall_cons].
  exists (set_pk k9 (set_pk k8 s5)). split; [|split; [exact W9|split; [exact Hcur9|constructor]]].
  - unfold boot_next. rewrite (mseq_run _ _ _ _ _ (on_pk_run _ _ _ _ Hidle)), (mseq_run _ _ _ _ _ Hr4). fold s4. rewrite (mseq_run _ _ _ _ _ Hr5).
    unfold mseq in Hr8 |- *. repeat case_match; try discriminate Hr8. simplify_eq.
    by rewrite (on_pk_run _ (set_pk k8 s5) _ _ Hr9).
  - rewrite pk_set, P9, (kb_processes _ _ _ K8) by done. exact (proj1 (bt_core _ _ _ _ _ _ B4)).
  - rewrite pk_set, P9, P8. change (current s4) with (current s). by rewrite Hcu.
  - rewrite pk_set. destruct Hst as (stk & top & Hs & Ht & Hc). exists stk, top. split; [done|].
    assert (threads k8 !! tm_thr t = Some (Thread 0 Runnable PrioKernel (kstka y) stk core (tm_ctx t) 0 0)) as Ht8
      by (eapply lookup_weaken; [exact Ht|]; transitivity (threads k4); [apply K34|apply K8]).
    rewrite T9, C9. fold init in Ht8 |- *. rewrite Hx in Ht8. injection Ht8 as ->. rewrite lookup_insert_eq. split; [done|].
    eapply lookup_weaken; [exact Hc|]. transitivity (contexts k4); [apply K34|apply K8].
  - apply Hkeep; [done|]. eapply stands_weaken; [exact S3| |]; (etransitivity; [apply K4|apply K8]).
  - done.
  - intros i m Hm. apply Hkeep; [by eapply (proj1 (Forall_lookup _ _) Hats)|]. eapply stands_weaken; [by apply S4|apply K8..].
  - by apply Hkeep.
Qed.
End run.

(** What boot() has set up before sched_init: an address space and the context
    cpu_bsp_init made, which belongs to no thread. *)
Record initial (k : kernel) : Prop := {
  in_cr3 : cr3 k <> 0;
  in_ctx : exists c, contexts k !! cpu_ctx k = Some c /\ c_thread c = 0;
}.

(** C7: The boot sequence brings up every thread it creates.  From the state
    cpu_bsp_init leaves, with interrupts disabled, when the allocations succeed
    with blocks that are apart from each other, boot() and boot_next() make the
    core process, the process in user mode, the initial thread (ended), the
    idle thread (alone in the queue of its priority), the kernel threads [ts]
    and the thread [ut] in user mode, each with its number, process, priority,
    stack, segments and the routine it starts in; sched_start then arms the
    heartbeat, programs the generator for one time slice and enables
    interrupts, and the tick [i + 1] (each a time slice or more after the last)
    finds thread [i] of [ts ++ ut] on the processor. *)
Theorem boot_runs_threads y p t idle ts space up ut s tm addr block fuel l1 u l2 ns :
  initial (pk s) -> prc_usable p -> prc_usable up -> space <> 0 ->
  processes (pk s) !! pm_prc up = None -> pm_prc up <> pm_prc p ->
  Forall usable (t :: idle :: ts ++ [ut]) -> ForallOrdPairs apart (t :: idle :: ts ++ [ut]) ->
  Forall (fun m => unused m (pk s)) (t :: idle :: ts ++ [ut]) ->
  items (tlist tm) = [] -> attached (tlist tm) = true -> 0 <= Tmr.now tm -> Tmr.now tm + SCHED_TIMESLICE_US < 2 ^ 63 ->
  addr <> 0 -> block <> 0 -> (0 < fuel)%nat ->
  ts ++ [ut] = l1 ++ u :: l2 -> length ns = S (length l1) -> slices (Tmr.now tm) ns ->
  exists s' m' m'', boot y false p t idle ts space up ut s = Ret (tt, s') /\ booted y p t idle ts space up ut s s' /\
    sched_start addr block fuel (Start.Machine tm (pk s') false) = Ret (tt, m') /\ m_if m' = true /\
    programmed (m_timers m') = programmed tm ++ [SCHED_TIMESLICE_US] /\
    ticks addr fuel ns m' = Ret (tt, m'') /\ cur (m_kernel m'') = tm_thr u.
Proof.
  intros [H3 (c & Hc & Hc0)] (P1 & P2 & P3 & P4) Hup0 Hsp Hup Hne Hus Hap Hun Tl Ta T0 Tb Ha Hb Hf Hl Hn Hs.
  apply Forall_cons in Hus as [Ht Hus]. apply Forall_cons in Hun as [Nt Nn]. inversion Hap as [|? ? At Hap']; subst.
  destruct (boot_core_run y p t s c) as (s1 & Hr1 & B1 & G1 & Hcu & S1 & Q1); [done..|].
  destruct (boot_next_run y p t idle ts space up ut s s1) as (s2 & Hr2 & W2 & Hcur & Hbd); try done; [|by apply Q1|].
  { apply Forall_forall. intros v Hv. apply G1; [by eapply (proj1 (Forall_forall _ _) At)|by eapply (proj1 (Forall_forall _ _) Nn)]. }
  destruct (bd_init _ _ _ _ _ _ _ _ _ _ Hbd) as (stk & top & _ & Hx & _).
  destruct (sched_start_runs_all addr block fuel Ha Hb Hf (Start.Machine tm (pk s2) false) PrioKernel (tm_thr t)
    (Thread 0 Exited PrioKernel (kstka y) stk (pm_prc p) (tm_ctx t) 0 0)
    (map tm_thr ts ++ [tm_thr ut]) (map tm_thr l1) (tm_thr u) (map tm_thr l2) ns) as (m' & m'' & Hm); try done.
  - change [tm_thr ut] with (map tm_thr [ut]). rewrite <- map_app, Hl. by rewrite map_app.
  - by rewrite length_map.
  - exists s2, m', m''. split; [|split; [exact Hbd|exact Hm]]. unfold boot. by rewrite (mseq_run _ _ _ _ _ Hr1).
Qed.

Module BootSeqDemo.
(** One context, nothing else yet. *)
Definition kb : kernel := Kernel ∅ {[ 16 := Ctx 0 0 0 0 0 0 0 0 ]} ∅ [] 0 16 4096 0.
Definition sb : prcs := Prcs (Trap.Machine kb ∅ ∅ []) 0 [] [].
Definition mem (a : Z) : thr_mem := ThrMem a (a + 8) (Some (a + 16, 0x10000)).
Definition yb : syms := Syms 1 2 3 4 5.
Definition tb : timers := Timers ∅ al_new 200 [] [].

(** The second kernel thread runs with the second tick, the one in user mode
    with the third. *)
Lemma boot_runs_threads_witness : exists s' m' m'',
  boot yb false (PrcMem 600 601 602 true) (mem 1000) (mem 1100) [mem 1200; mem 1300] 8192 (PrcMem 610 611 612 true) (mem 1400) sb = Ret (tt, s') /\
  sched_start 1 64 1 (Start.Machine tb (pk s') false) = Ret (tt, m') /\
  ticks 1 1 [6000; 12000; 18000] m' = Ret (tt, m'') /\ cur (m_kernel m'') = 1400 /\ queue_of PrioIdle (pk s') = [1100].
Proof.
  destruct (boot_runs_threads yb (PrcMem 600 601 602 true) (mem 1000) (mem 1100) [mem 1200; mem 1300] 8192 (PrcMem 610 611 612 true) (mem 1400)
    sb tb 1 64 1 [mem 1200; mem 1300] (mem 1400) [] [6000; 12000; 18000]) as (s' & m' & m'' & H1 & Hb & H2 & _ & _ & H3 & H4).
  - constructor; [discriminate|]. exists (Ctx 0 0 0 0 0 0 0 0). split; reflexivity.
  - repeat split; discriminate.
  - repeat split; discriminate.
  - discriminate.
  - reflexivity.
  - discriminate.
  - repeat constructor; try discriminate; eexists; reflexivity.
  - repeat constructor; discriminate.
  - repeat constructor.
  - reflexivity.
  - reflexivity.
  - vm_compute; discriminate.
  - reflexivity.
  - discriminate.
  - discriminate.
  - lia.
  - reflexivity.
  - reflexivity.
  - vm_compute. repeat split; discriminate.
  - exists s', m', m''. split_and!; try assumption. apply Hb.
Defined.
End BootSeqDemo.
