(* ===== verification/Life.v ===== *)
(** * How threads end: uapi.c and the scheduler

    The trampoline every thread starts in, the system call that ends it, and
    what the threads that are left can do afterwards. *)

From S2P Require Import Prelude.
From S2P Require Import KList.
From S2P Require Import Sched.
From S2P Require Import RoundRobin.
From S2P Require Import Intr.
From S2P Require Import Stka.
From S2P Require Import Trap.
From S2P Require Import BootSeq.

(** ** uapi.c *)

Section uapi.
Variable junk : Z.
Variable log_write : Z -> Z -> M machine unit.
(** The gates as boot has set them up. *)
Variable g : gate_table.

(** The interrupt is taken in the current context [c]; when the handler has
    switched to another one, the code behind the interrupt does not go on
    ([None]). *)
Definition uapi_sysc_call (num p0 p1 : Z) : M machine (option Z) :=
  c <- on_ker thr_ctx_get ;;
  r <- regs_at c ;;
  mmodify (fun m => set_regs (<[c := Regs (g_rax r) num p0 p1]> (regs m)) m) ;;;
  intr_dispatch (call junk log_write c) g SYSC_INTERRUPT ;;;
  c' <- on_ker thr_ctx_get ;;
  if c' =? c then r' <- regs_at c ;; mreturn (Some (g_rax r')) else mreturn None.

(** [entry] is the code of the thread. *)
Definition uapi_thr_trampoline (entry : M machine unit) : M machine (option Z) :=
  entry ;;; uapi_sysc_call SysThrExit 0 0.
End uapi.

(** ** What the threads can do *)

(** A running system between two operations. *)
Record live (k : kernel) : Prop := {
  lv_wf : sched_wf k;
  lv_lock : sched_lock k = 0;
  lv_run : running k;
}.

(** The operations on threads: a tick, a thread that yields, exits or is
    aborted, a new thread, a thread that enters its queue. *)
Inductive kstep : kernel -> kernel -> Prop :=
| step_beat n k k' : sched_schedule (at_time n k) = Ret (tt, k') -> kstep k k'
| step_yield k k' : sched_yield k = Ret (tt, k') -> kstep k k'
| step_exit k k' : thr_exit_current k = Ret (tt, k') -> kstep k k'
| step_abort k k' : thr_abort (cur k) k = Ret (tt, k') -> kstep k k'
| step_create thr ctx stack kst tr prc entry iso k r k' :
    threads k !! thr = None -> contexts k !! ctx = None ->
    thr_create thr ctx stack kst tr prc entry iso k = Ret (r, k') -> kstep k k'
| step_add t k k' : t ∉ population k -> thr_ok k t -> sched_add t k = Ret (tt, k') -> kstep k k'.

(** A thread that exited or was aborted. *)
Definition over (x : thread_t) : Prop := t_state x = Exited \/ t_state x = Aborting.
Definition ended (c : Z) (k : kernel) : Prop := exists x, threads k !! c = Some x /\ over x.

Lemma ended_kept c k k' : states_kept k k' -> ended c k -> ended c k'.
Proof.
  intros Hk (x & Hx & Ho). destruct (Hk c x Hx) as (x' & Hx' & Hs). exists x'. split; [done|]. unfold over in *.
  destruct Hs as [->|[Hs _]]; [done|]. rewrite Hs in Ho. naive_solver.
Qed.
Lemma ended_not_current c k : running k -> ended c k -> cur k <> c.
Proof. intros (x & Hx & Hr) (y & Hy & Ho) He. rewrite He in Hx. simplify_eq. destruct Ho; congruence. Qed.

(** sched_schedule by the running thread, whatever its state. *)
Lemma schedule_live c k k' : sched_wf k -> sched_lock k = 0 -> sched_schedule k = Ret (tt, k') ->
  live k' /\ (ended c k -> ended c k').
Proof.
  intros Hwf Hlk Hs. pose proof (sched_schedule_ok k Hwf Hlk) as Hok. unfold wpf in Hok. rewrite Hs in Hok.
  destruct Hok as (? & ? & _ & ? & Hk). split; [by constructor|]. by apply ended_kept.
Qed.

(** The running thread [cur k] changes its own state. *)
Lemma change_current f x k : live k -> threads k !! cur k = Some x ->
  context (f x) = context x -> parent (f x) = parent x -> priority (f x) = priority x ->
  exists k1, thr_upd (cur k) f k = Ret (tt, k1) /\ sched_wf k1 /\ sched_lock k1 = 0 /\ cur k1 = cur k /\
    queues k1 = queues k /\ threads k1 = <[cur k := f x]> (threads k) /\ forall c, ended c k -> ended c k1.
Proof.
  intros [Hwf Hlk Hr] Hx E1 E2 E3. destruct (thr_upd_wf k (cur k) f x Hwf Hx E1 E2 E3) as (k1 & Hu & Hwf1 & Hc1 & _ & Hq1 & Hl1 & _ & T1).
  exists k1. split_and!; try done; [congruence|]. intros c He. pose proof (ended_not_current c k Hr He) as Hne.
  destruct He as (y & Hy & Ho). exists y. by rewrite T1, lookup_insert_ne.
Qed.

(** ... and gives way. *)
Lemma change_schedule f x k k' c : live k -> threads k !! cur k = Some x ->
  context (f x) = context x -> parent (f x) = parent x -> priority (f x) = priority x ->
  (thr_upd (cur k) f ;;; sched_schedule) k = Ret (tt, k') -> live k' /\ (ended c k -> ended c k').
Proof.
  intros L Hx E1 E2 E3 Hs. destruct (change_current f x k L Hx E1 E2 E3) as (k1 & Hu & Hwf1 & Hl1 & _ & _ & _ & He).
  rewrite (mseq_run _ _ _ _ _ Hu) in Hs. destruct (schedule_live c k1 k' Hwf1 Hl1 Hs). split; [done|]. intros H'. auto.
Qed.

Lemma extends_live k k' : live k -> extends k k' -> live k' /\ forall c, ended c k -> ended c k'.
Proof.
  intros [Hwf Hlk (x & Hx & Hr)] E. destruct (extends_wf k k' Hwf E) as [Hwf' Hcur]. split.
  - constructor; [done|by rewrite (ext_lock _ _ E)|]. exists x. rewrite Hcur. split; [|done]. by apply (lookup_weaken _ _ _ _ Hx (ext_threads _ _ E)).
  - intros c (y & Hy & Ho). exists y. split; [|done]. by apply (lookup_weaken _ _ _ _ Hy (ext_threads _ _ E)).
Qed.

Lemma create_extends thr ctx stack kst tr prc entry iso k r k' :
  threads k !! thr = None -> contexts k !! ctx = None ->
  thr_create thr ctx stack kst tr prc entry iso k = Ret (r, k') -> extends k k'.
Proof.
  intros Ht Hc Hr. unfold thr_create in Hr. destruct (Z.eqb_spec thr 0) as [|Ht0].
  { injection Hr as _ <-. constructor; try done. intros p x Hx. by exists x. }
  destruct (processes k !! prc) as [p|] eqn:Hp; [|by unfold prc_next_tid, prc_lock, prc_at, mseq in Hr; rewrite Hp in Hr].
  destruct (decide (p_lock p = 0)) as [Hl|Hl].
  2: { unfold prc_next_tid, prc_lock, prc_at, mseq in Hr. rewrite Hp in Hr. by rewrite (proj2 (Z.eqb_neq _ _) Hl) in Hr. }
  rewrite (mseq_run _ _ _ _ _ (prc_next_tid_run prc p k Hp Hl)) in Hr. unfold mseq at 1, prc_at at 1 in Hr.
  cbn [processes set_processes] in Hr. rewrite lookup_insert_eq in Hr.
  destruct (Z.eqb_spec ctx 0) as [|Hc0]; [done|]. destruct stack as [[stk top]|]; [|done].
  destruct (thr_create_run thr ctx stk top kst tr prc entry iso p k Ht0 Hc0 Hp Hl Ht Hc) as (k2 & Hr2 & E & _).
  unfold thr_create in Hr2. rewrite (proj2 (Z.eqb_neq _ _) Ht0), (mseq_run _ _ _ _ _ (prc_next_tid_run prc p k Hp Hl)) in Hr2.
  unfold mseq at 1, prc_at at 1 in Hr2. cbn [processes set_processes] in Hr2. rewrite lookup_insert_eq, (proj2 (Z.eqb_neq _ _) Hc0) in Hr2.
  rewrite Hr2 in Hr. by injection Hr as _ <-.
Qed.

Lemma added_live k t x : live k -> t ∉ population k -> thr_ok k t -> threads k !! t = Some x -> live (added k t (prio_num (priority x))).
Proof. intros [Hwf Hlk Hr] Hn Hok Hx. constructor; [by apply added_wf|done|done]. Qed.

(** Every operation leaves a running system, and the ended threads ended. *)
Lemma kstep_live c k k' : live k -> kstep k k' -> live k' /\ (ended c k -> ended c k').
Proof.
  intros L Hs. pose proof L as [Hwf Hlk (x & Hx & Hr)]. destruct (wf_cur k Hwf) as [Hc0 _].
  destruct Hs as [n k k' Hs|k k' Hs|k k' Hs|k k' Hs|thr ctx stack kst tr prc entry iso k r k' Hft Hfc Hs|t k k' Hn Hok Hs].
  - eapply (schedule_live c (at_time n k)); [by destruct Hwf|done|done].
  - unfold sched_yield in Hs. rewrite (mseq_run _ _ _ _ _ (thr_current_run k Hc0)) in Hs. by eapply (change_schedule (with_tstate Yielded)).
  - unfold thr_exit_current in Hs. rewrite (mseq_run _ _ _ _ _ (thr_current_run k Hc0)) in Hs. by eapply (change_schedule (with_tstate Exited)).
  - unfold thr_abort in Hs.
    destruct (change_current (with_tstate Aborting) x k L Hx) as (k1 & Hu & Hwf1 & Hl1 & _ & _ & _ & He); [done..|].
    rewrite (mseq_run _ _ _ _ _ Hu) in Hs. unfold mseq, thr_at, prc_at in Hs.
    destruct (threads k1 !! cur k) as [y|]; [|done]. destruct (processes k1 !! parent y) as [p|]; [|done].
    destruct (p_id p =? 0); [done|]. destruct (schedule_live c k1 k' Hwf1 Hl1 Hs). split; [done|]. intros H'. auto.
  - apply create_extends in Hs; [|done..]. destruct (extends_live k k' L Hs). auto.
  - pose proof Hok as [_ (y & _ & _ & Hy & _)]. rewrite (sched_add_run t y k Hlk Hy) in Hs. injection Hs as <-.
    split; [by apply added_live|done].
Qed.

(** An ended thread never runs again. *)
Lemma ended_never_runs c k k' : live k -> ended c k -> rtc kstep k k' -> cur k' <> c /\ live k'.
Proof.
  intros L E Hs. induction Hs as [k|k k1 k' H1 Hs IH].
  - split; [|done]. by apply ended_not_current; [apply L|].
  - destruct (kstep_live c k k1 L H1) as [L1 E1]. auto.
Qed.

(** ** The end of a thread *)

(** A queued thread that can run is found. *)
Lemma choose_ready k u : sched_wf k -> u ∈ flat (queues k) -> ready k u ->
  exists t x q p, sched_choose k = Ret (Some t, k) /\ cur k <> t /\ threads k !! t = Some x /\ processes k !! parent x = Some p /\
    queues k !! prio_num (priority x) = Some (Some q).
Proof.
  intros Hwf Hu Hr. destruct (sched_choose_total (prio_num PrioKernel) k Hwf) as [r Hch].
  pose proof Hch as [_ Hs]%sched_choose_loop_spec. destruct r as [t|].
  - destruct Hs as (j & l1 & l2 & x & _ & Hq & _ & Hx & _). assert (t ∈ flat (queues k)) as Htf.
    { apply elem_of_flat. destruct (queues k !! j) as [q|] eqn:Hqj; simpl in Hq; [|by destruct l1]. exists j, q. split; [done|]. rewrite Hq. set_solver. }
    destruct (flat_in_queue k t Hwf Htf) as (x0 & q & Hx0 & Hq0 & _). assert (x0 = x) as -> by congruence.
    destruct (sw_ok _ Hwf t) as [_ (x1 & _ & p & Hx1 & _ & _ & Hp)]; [by right|]. assert (x1 = x) as -> by congruence.
    exists t, x, q, p. split_and!; try done. intros He. pose proof (sw_nodup _ Hwf) as Hnd. unfold population in Hnd.
    rewrite He in Hnd. by apply NoDup_cons in Hnd as [Hn _].
  - apply ready_iff in Hr as (y & Hy & Hst). destruct (sw_ok _ Hwf u) as [Hu0 _]; [by right|].
    apply elem_of_flat in Hu as (h & q & Hh & Hq). exfalso. eapply (Hs h u y); [|by rewrite Hh|done|done|done].
    apply lookup_lt_Some in Hh. rewrite (sw_len _ Hwf) in Hh. unfold PrioMaxPrio in Hh. simpl. lia.
Qed.

(** The running thread exits: another one runs, in its own context. *)
Lemma exit_switches k u : live k -> u ∈ flat (queues k) -> ready k u ->
  exists k', thr_exit_current k = Ret (tt, k') /\ live k' /\ ended (cur k) k' /\ contexts k' = contexts k.
Proof.
  intros L Hu Hr. pose proof L as [Hwf Hlk (x & Hx & Hrx)]. destruct (wf_cur k Hwf) as [Hc0 _].
  destruct (change_current (with_tstate Exited) x k L Hx) as (k1 & Hup & Hwf1 & Hl1 & Hc1 & Hq1 & T1 & _); [done..|].
  assert (cur k <> u) as Hne.
  { intros <-. pose proof (sw_nodup _ Hwf) as Hnd. by apply NoDup_cons in Hnd as [Hn _]. }
  assert (contexts k1 = contexts k) as Hcx1 by (rewrite (thr_upd_run _ _ x) in Hup by done; by injection Hup as <-).
  assert (threads k1 !! cur k = Some (with_tstate Exited x)) as Hx1 by (by rewrite T1, lookup_insert_eq).
  destruct (choose_ready k1 u Hwf1) as (t & xt & q & p & Hch & Hct & Hxt & Hp & Hq); [by rewrite Hq1|unfold ready; by rewrite T1, lookup_insert_ne|].
  rewrite Hc1 in Hct.
  pose proof (schedule_takes (Sched.now k1) k1 (cur k) t (with_tstate Exited x) xt q p Hwf1 Hl1 Hc1 Hx1 ltac:(done) ltac:(done) Hch Hct Hxt Hp Hq) as Hs.
  replace (at_time (Sched.now k1) k1) with k1 in Hs by (by destruct k1).
  destruct (schedule_live (cur k) k1 _ Hwf1 Hl1 Hs) as [L' E']. eexists. split_and!; [|exact L'|apply E'|].
  - unfold thr_exit_current. rewrite (mseq_run _ _ _ _ _ (thr_current_run k Hc0)). unfold thr_exit. by rewrite (mseq_run _ _ _ _ _ Hup).
  - exists (with_tstate Exited x). split; [done|by left].
  - done.
Qed.

(** A change to a thread that the scheduler does not see. *)
Lemma upd_live t f x k : live k -> threads k !! t = Some x ->
  context (f x) = context x -> parent (f x) = parent x -> priority (f x) = priority x -> t_state (f x) = t_state x ->
  exists k1, thr_upd t f k = Ret (tt, k1) /\ live k1 /\ cur k1 = cur k /\ queues k1 = queues k /\ contexts k1 = contexts k /\
    cpu_ctx k1 = cpu_ctx k /\ states_kept k k1 /\ forall u, ready k1 u <-> ready k u.
Proof.
  intros [Hwf Hlk (y & Hy & Hr)] Hx E1 E2 E3 E4. destruct (thr_upd_wf k t f x Hwf Hx E1 E2 E3) as (k1 & Hu & Hwf1 & Hc1 & _ & Hq1 & Hl1 & _ & T1).
  assert (states_kept k k1) as Hk by (eapply states_kept_upd; [exact Hx|exact T1|by left]).
  exists k1. assert (k1 = set_threads (<[t := f x]> (threads k)) k) as Hk1 by (rewrite (thr_upd_run _ _ x) in Hu by done; by injection Hu as <-).
  split_and!; try done; try (by rewrite Hk1).
  - constructor; [done|congruence|]. destruct (Hk _ _ Hy) as (y' & Hy' & Hs). exists y'. rewrite Hc1. split; [done|]. rewrite Hr in Hs. naive_solver.
  - intros u. unfold ready. rewrite T1. destruct (decide (u = t)) as [->|]; [by rewrite lookup_insert_eq, Hx, E4|by rewrite lookup_insert_ne].
Qed.

Lemma on_ker_run {A} (op : M kernel A) m a k : op (ker m) = Ret (a, k) -> on_ker op m = Ret (a, set_ker k m).
Proof. intros H. unfold on_ker. by rewrite H. Qed.

(** The frame of every system call: what [sysc_call] adds to its handler. *)
Lemma sysc_call_run c h m cx x r k1 res m2 r2 y k3 : contexts (ker m) !! c = Some cx -> c_thread cx <> 0 ->
  threads (ker m) !! c_thread cx = Some x -> regs m !! c = Some r ->
  thr_upd (c_thread cx) (with_syscall (u8 (syscall x + 1))) (ker m) = Ret (tt, k1) ->
  h (u32 (g_rdi r)) (g_rsi r) (g_rdx r) (set_ker k1 m) = Ret (res, m2) ->
  regs m2 !! c = Some r2 -> threads (ker m2) !! c_thread cx = Some y ->
  thr_upd (c_thread cx) (with_syscall (u8 (syscall y - 1))) (ker m2) = Ret (tt, k3) ->
  sysc_call c h m = Ret (res, set_ker k3 (set_regs (<[c := Regs res (g_rdi r2) (g_rsi r2) (g_rdx r2)]> (regs m2)) m2)).
Proof.
  intros Hcx Hc0 Hx Hr H1 Hh Hr2 Hy H3. unfold sysc_call.
  assert (on_ker (ctx_at c) m = Ret (cx, m)) as E0 by (rewrite (on_ker_run _ _ cx (ker m)) by (by apply ctx_at_run); by destruct m).
  assert (on_ker (thr_at (c_thread cx)) m = Ret (x, m)) as E1 by (rewrite (on_ker_run _ _ x (ker m)) by (by apply thr_at_run); by destruct m).
  rewrite (mseq_run _ _ _ _ _ E0). cbv zeta. rewrite (proj2 (Z.eqb_neq _ _) Hc0), (mseq_run _ _ _ _ _ E1).
  rewrite (mseq_run _ _ _ _ _ (on_ker_run _ _ _ _ H1)), (mseq_run _ _ _ _ _ (regs_run c r (set_ker k1 m) Hr)).
  rewrite (mseq_run _ _ _ _ _ Hh), (mseq_run _ _ _ _ _ (regs_run c r2 m2 Hr2)). unfold mmodify. unfold mseq at 1.
  set (m3 := set_regs _ m2).
  assert (on_ker (thr_at (c_thread cx)) m3 = Ret (y, m3)) as E3
    by (rewrite (on_ker_run _ m3 y (ker m3)) by (by apply thr_at_run); by destruct m2).
  by rewrite (mseq_run _ _ _ _ _ E3), (mseq_run _ _ _ _ _ (on_ker_run _ m3 _ _ H3)).
Qed.

(** The system call SysThrExit in the context of the running thread. *)
Lemma sysc_exit junk c m r u : live (ker m) -> cpu_ctx (ker m) = c -> regs m !! c = Some r -> u ∈ flat (queues (ker m)) -> ready (ker m) u ->
  exists m' res, sysc_call c (void_handler junk thr_exit_current) m = Ret (res, m') /\ live (ker m') /\ ended (cur (ker m)) (ker m') /\
    cpu_ctx (ker m') <> c /\ is_Some (regs m' !! c) /\ written m' = written m.
Proof.
  intros L Hcpu Hreg Hu Hr. pose proof L as [Hwf _ (x & Hx & _)]. destruct (wf_cur _ Hwf) as [Hc0 _].
  destruct (cur_ctx _ Hc0) as (cx & Hcx & Hct). rewrite Hcpu in Hcx. set (t := cur (ker m)) in *.
  destruct (upd_live t (with_syscall (u8 (syscall x + 1))) x (ker m) L Hx) as (k1 & Hr1 & L1 & C1 & Q1 & X1 & P1 & _ & R1); [done..|].
  destruct (exit_switches k1 u L1) as (k2 & Hr2 & L2 & E2 & X2); [by rewrite Q1|by apply R1|]. rewrite C1 in E2. fold t in E2.
  pose proof E2 as (y & Hy & _).
  destruct (upd_live t (with_syscall (u8 (syscall y - 1))) y k2 L2 Hy) as (k3 & Hr3 & L3 & C3 & _ & X3 & P3 & K3 & _); [done..|].
  pose proof (ended_kept _ _ _ K3 E2) as E3.
  set (m1 := set_ker k1 m). set (m2 := set_ker k2 m1).
  assert (void_handler junk thr_exit_current (u32 (g_rdi r)) (g_rsi r) (g_rdx r) m1 = Ret (junk, m2)) as H1
    by (unfold void_handler; by rewrite (mseq_run _ _ _ _ _ (on_ker_run _ m1 _ _ Hr2))).
  rewrite <-Hct in Hc0, Hx, Hr1, Hy, Hr3.
  rewrite (sysc_call_run c _ m cx x r k1 junk m2 r y k3 Hcx Hc0 Hx Hreg Hr1 H1 Hreg Hy Hr3).
  eexists _, junk. split_and!; [reflexivity|exact L3|exact E3| |cbn; rewrite lookup_insert_eq; by eexists|done].
  cbn [ker set_ker]. intros He. apply (ended_not_current _ _ (lv_run _ L3) E3). unfold cur. by rewrite He, X3, X2, X1, Hcx.
Qed.

(** The system call SysLog there: the caller goes on, with the message
    written. *)
Lemma sysc_log log_write c m r w : live (ker m) -> cpu_ctx (ker m) = c -> regs m !! c = Some r ->
  (forall m1, log_write (u32 (g_rsi r)) (g_rdx r) m1 = Ret (tt, Machine (ker m1) (regs m1) (stkas m1) (written m1 ++ w))) ->
  exists m', sysc_call c (log_handle_write_syscall log_write) m = Ret (0, m') /\ live (ker m') /\ cur (ker m') = cur (ker m) /\
    cpu_ctx (ker m') = c /\ queues (ker m') = queues (ker m) /\ (forall u, ready (ker m') u <-> ready (ker m) u) /\
    (exists r', regs m' !! c = Some r' /\ g_rax r' = 0) /\ written m' = written m ++ w.
Proof.
  intros L Hcpu Hreg Hlog. pose proof L as [Hwf _ (x & Hx & _)]. destruct (wf_cur _ Hwf) as [Hc0 _].
  destruct (cur_ctx _ Hc0) as (cx & Hcx & Hct). rewrite Hcpu in Hcx. set (t := cur (ker m)) in *.
  destruct (upd_live t (with_syscall (u8 (syscall x + 1))) x (ker m) L Hx) as (k1 & Hr1 & L1 & C1 & Q1 & X1 & P1 & _ & R1); [done..|].
  pose proof (lv_run _ L1) as (y & Hy & _). rewrite C1 in Hy. fold t in Hy.
  destruct (upd_live t (with_syscall (u8 (syscall y - 1))) y k1 L1 Hy) as (k3 & Hr3 & L3 & C3 & Q3 & X3 & P3 & _ & R3); [done..|].
  set (m1 := set_ker k1 m). set (m2 := Machine (ker m1) (regs m1) (stkas m1) (written m1 ++ w)).
  assert (log_handle_write_syscall log_write (u32 (g_rdi r)) (g_rsi r) (g_rdx r) m1 = Ret (0, m2)) as H1
    by (unfold log_handle_write_syscall; by rewrite (mseq_run _ _ _ _ _ (Hlog m1))).
  rewrite <-Hct in Hc0, Hx, Hr1, Hy, Hr3.
  rewrite (sysc_call_run c _ m cx x r k1 0 m2 r y k3 Hcx Hc0 Hx Hreg Hr1 H1 Hreg Hy Hr3).
  eexists. split_and!; [reflexivity|exact L3| | | | |cbn; rewrite lookup_insert_eq; by eexists|done]; cbn [ker set_ker].
  - by rewrite C3, C1.
  - by rewrite P3, P1.
  - by rewrite Q3, Q1.
  - intros u. rewrite R3. apply R1.
Qed.

(** The interrupt of a system call, in terms of its service. *)
Lemma uapi_call_run junk log_write g num p0 p1 m r m' : install intr_init = Ret (tt, g) -> regs m !! cpu_ctx (ker m) = Some r ->
  syscall_spec junk log_write (cpu_ctx (ker m)) (u32 num) (set_regs (<[cpu_ctx (ker m) := Regs (g_rax r) num p0 p1]> (regs m)) m) = Ret (tt, m') ->
  uapi_sysc_call junk log_write g num p0 p1 m =
    (if cpu_ctx (ker m') =? cpu_ctx (ker m) then r' <- regs_at (cpu_ctx (ker m)) ;; mreturn (Some (g_rax r')) else mreturn None) m'.
Proof.
  intros Hg Hr Hs. set (c := cpu_ctx (ker m)) in *. unfold uapi_sysc_call.
  assert (forall m, on_ker thr_ctx_get m = Ret (cpu_ctx (ker m), m)) as Hget by (intros []; done).
  rewrite (mseq_run _ _ _ _ _ (Hget m)). fold c. rewrite (mseq_run _ _ _ _ _ (regs_run c r m Hr)). unfold mmodify. unfold mseq at 1.
  set (m1 := set_regs _ m) in *.
  assert (regs m1 !! c = Some (Regs (g_rax r) num p0 p1)) as Hr1 by (cbn; by rewrite lookup_insert_eq).
  assert (intr_dispatch (call junk log_write c) g SYSC_INTERRUPT m1 = Ret (tt, m')) as Hd
    by (rewrite (sysc_dispatch junk log_write g c _ m1 Hg Hr1); exact Hs).
  by rewrite (mseq_run _ _ _ _ _ Hd), (mseq_run _ _ _ _ _ (Hget m')).
Qed.

(** SysThrExit from the code of the running thread. *)
Lemma uapi_exit junk log_write g p0 p1 m u : install intr_init = Ret (tt, g) -> live (ker m) -> is_Some (regs m !! cpu_ctx (ker m)) ->
  u ∈ flat (queues (ker m)) -> ready (ker m) u ->
  exists m', uapi_sysc_call junk log_write g SysThrExit p0 p1 m = Ret (None, m') /\ live (ker m') /\ ended (cur (ker m)) (ker m') /\
    written m' = written m.
Proof.
  intros Hg L [r Hr] Hu Hru. set (c := cpu_ctx (ker m)) in *.
  set (m1 := set_regs (<[c := Regs (g_rax r) SysThrExit p0 p1]> (regs m)) m).
  assert (regs m1 !! c = Some (Regs (g_rax r) SysThrExit p0 p1)) as Hr1 by (cbn; by rewrite lookup_insert_eq).
  destruct (sysc_exit junk c m1 _ u L eq_refl Hr1 Hu Hru) as (m' & res & Hs & L' & E' & Hne & _ & W').
  exists m'. split; [|done].
  rewrite (uapi_call_run junk log_write g SysThrExit p0 p1 m r m' Hg Hr).
  - fold c. by rewrite (proj2 (Z.eqb_neq _ _) Hne).
  - change (syscall_spec junk log_write c SysThrExit m1 = Ret (tt, m')). unfold syscall_spec.
    change (SysThrExit =? SysLog) with false. change (SysThrExit =? SysThrExit) with true. cbv iota. by rewrite (mseq_run _ _ _ _ _ Hs).
Qed.

(** C9: The end of a thread is final.  When the code of a thread returns to
    the trampoline, and some other thread can run, the system call made for it
    ends the thread and switches away, so that nothing behind the call is
    reached; and no matter what the other threads do from then on (ticks,
    yielding, exiting, being aborted, creating and queueing threads), the
    thread is never on the processor again. *)
Theorem thread_end_is_final junk log_write g entry m0 m u :
  install intr_init = Ret (tt, g) -> entry m0 = Ret (tt, m) -> live (ker m) -> is_Some (regs m !! cpu_ctx (ker m)) ->
  u ∈ flat (queues (ker m)) -> ready (ker m) u ->
  exists m', uapi_thr_trampoline junk log_write g entry m0 = Ret (None, m') /\ live (ker m') /\
    forall k', rtc kstep (ker m') k' -> cur k' <> cur (ker m) /\ live k'.
Proof.
  intros Hg He L Hr Hu Hru. destruct (uapi_exit junk log_write g 0 0 m u Hg L Hr Hu Hru) as (m' & Hs & L' & E' & _).
  exists m'. split_and!; [|done|intros k' Hk'; by eapply ended_never_runs].
  unfold uapi_thr_trampoline. by rewrite (mseq_run _ _ _ _ _ He).
Qed.

Module LifeDemo.
Import RoundRobinDemo.
Definition m3 : machine := Machine k3 {[ 20 := Regs 0 0 0 0 ]} ∅ [].
Definition table3 : gate_table := state_of (install intr_init) intr_init.

(** Thread 10 returns from its code; 11 runs, and 10 never again. *)
Lemma thread_end_is_final_witness : exists m',
  uapi_thr_trampoline 0 (fun _ _ => mreturn tt) table3 (mreturn tt) m3 = Ret (None, m') /\
  forall k', rtc kstep (ker m') k' -> cur k' <> 10.
Proof.
  destruct (thread_end_is_final 0 (fun _ _ => mreturn tt) table3 (mreturn tt) m3 m3 11) as (m' & H1 & _ & H2).
  - vm_compute. reflexivity.
  - reflexivity.
  - destruct k3_ring as [[Hwf Hlk _ _] _ (x & Hx & _ & Hs & _)]. constructor; [exact Hwf|exact Hlk|]. exists x. exact (conj Hx Hs).
  - eexists. reflexivity.
  - left.
  - reflexivity.
  - exists m'. split; [exact H1|]. intros k' Hk. exact (proj1 (H2 k' Hk)).
Defined.
End LifeDemo.
