(* ===== verification/TestThreads.v ===== *)
(** * The test threads of tachyon.c

    [test_thr2] runs in user mode and only makes system calls, through
    uapi_sysc_call; [test_thr] runs in the kernel and prints the time for ten
    seconds.  A call that switched to another thread does not come back: the
    rest of the program is skipped. *)

From S2P Require Import Prelude.
From S2P Require Import KList.
From S2P Require Import Sched.
From S2P Require Import RoundRobin.
From S2P Require Import Intr.
From S2P Require Import Tmr.
From S2P Require Import Stka.
From S2P Require Import Trap.
From S2P Require Import Log.
From S2P Require Import Life.

(** ** test_thr2 *)

(** Code that goes on only while its thread keeps the processor. *)
Definition ubind {A B} (c : M machine (option A)) (k : A -> M machine (option B)) : M machine (option B) :=
  r <- c ;; match r with Some a => k a | None => mreturn None end.

Section test_thr2.
Variable junk : Z.
Variable log_write : Z -> Z -> M machine unit.
Variable g : gate_table.
(** The addresses of the messages. *)
Variables hello quitting still_here : Z.

Definition uapi_syscall (num p0 p1 : Z) : M machine (option Z) := uapi_sysc_call junk log_write g num p0 p1.

(** [for(int i = 0; i < 1000; ++i)], [n] turns to go. *)
Fixpoint hello_loop (n : nat) : M machine (option unit) :=
  match n with
  | O => mreturn (Some tt)
  | S n' => ubind (uapi_syscall SysLog (level_num LInfo) hello) (fun _ => hello_loop n')
  end.

Definition test_thr2 : M machine (option unit) :=
  ubind (hello_loop 1000) (fun _ =>
  ubind (uapi_syscall SysLog (level_num LInfo) quitting) (fun _ =>
  ubind (uapi_syscall SysThrExit 0 0) (fun _ =>
  ubind (uapi_syscall SysLog (level_num LError) still_here) (fun _ =>
  mreturn (Some tt))))).
End test_thr2.

(** [log_write] of log.c behind the system call: the level is a number of the
    enumeration (for any other no writer is called), the format comes without
    arguments, and the writers are called in turn.  [str_at] reads the string
    at an address, without its terminator. *)
Definition level_of (n : Z) : option log_level_t :=
  List.find (fun l => level_num l =? n) [LFatal; LError; LWarning; LInfo; LDebug; LTrace].

Definition log_kernel (str_at : Z -> list Z) (ds : list log_destination_t) (level str : Z) : M machine unit := fun m =>
  let '(lvl, dests) := match level_of level with Some l => (l, ds) | None => (LTrace, []) end in
  match Log.log_write str_at lvl (str_at str ++ [0]) [] dests with
  | Ret calls => Ret (tt, Machine (ker m) (regs m) (stkas m) (written m ++ calls))
  | Fatal e => Fatal e
  | Fault a => Fault a
  | Deadlock => Deadlock
  | NoFuel => NoFuel
  end.

(** The destinations a message of level [l] goes to. *)
Definition delivered (ds : list log_destination_t) (l : log_level_t) (msg : list Z) : list (Z * list Z) :=
  (fun d => (writer d, msg)) <$> List.filter (fun d => negb (writer d =? 0) && (level_num l <=? level_num (level d))) ds.

(** A text log_write passes on as it is. *)
Definition short_text (s : list Z) : Prop := plain s /\ Z.of_nat (length s) <= MAX_LOG_WRITE_BUFFER.

Lemma log_kernel_text str_at ds l a m : short_text (str_at a) ->
  log_kernel str_at ds (level_num l) a m =
    Ret (tt, Machine (ker m) (regs m) (stkas m) (written m ++ delivered ds l (str_at a))).
Proof.
  intros [Hp Hlen]. unfold log_kernel. assert (level_of (level_num l) = Some l) as -> by (by destruct l).
  unfold Log.log_write.
  destruct (log_plain_message str_at MAX_LOG_WRITE_BUFFER (str_at a) [] Hp ltac:(done)) as (msg & -> & -> & _).
  rewrite take_ge; [done|]. unfold MAX_LOG_WRITE_BUFFER in *. lia.
Qed.

(** The thread [t] runs, in the context [c], and [u] could. *)
Record runs (t c u : Z) (m : machine) : Prop := {
  ru_live : live (ker m);
  ru_cur : cur (ker m) = t;
  ru_ctx : cpu_ctx (ker m) = c;
  ru_regs : is_Some (regs m !! c);
  ru_queued : u ∈ flat (queues (ker m));
  ru_ready : ready (ker m) u;
}.

Section output.
Variable junk : Z.
Variable g : gate_table.
Hypothesis installed : install intr_init = Ret (tt, g).
Variable str_at : Z -> list Z.
Variable ds : list log_destination_t.

(** A message from user mode: the thread goes on. *)
Lemma uapi_log l str t c u m : short_text (str_at str) -> runs t c u m ->
  exists m', uapi_sysc_call junk (log_kernel str_at ds) g SysLog (level_num l) str m = Ret (Some 0, m') /\ runs t c u m' /\
    written m' = written m ++ delivered ds l (str_at str).
Proof.
  intros Htxt [L Hcur Hctx [r Hr] Hq Hrd]. subst c.
  set (m1 := set_regs (<[cpu_ctx (ker m) := Regs (g_rax r) SysLog (level_num l) str]> (regs m)) m).
  assert (regs m1 !! cpu_ctx (ker m) = Some (Regs (g_rax r) SysLog (level_num l) str)) as Hr1 by (cbn; by rewrite lookup_insert_eq).
  destruct (sysc_log (log_kernel str_at ds) (cpu_ctx (ker m)) m1 _ (delivered ds l (str_at str)) L eq_refl Hr1) as (m' & Hs & L' & C' & P' & Q' & R' & (r' & Hr' & Hax) & W'); [intros m2; cbn [g_rsi g_rdx]; replace (u32 (level_num l)) with (level_num l) by (by destruct l); by apply log_kernel_text|].
  exists m'. split; [|split; [|exact W']].
  - rewrite (uapi_call_run junk (log_kernel str_at ds) g SysLog (level_num l) str m r m' installed Hr).
    + rewrite P', Z.eqb_refl, (mseq_run _ _ _ _ _ (regs_run _ _ _ Hr')), Hax. done.
    + change (syscall_spec junk (log_kernel str_at ds) (cpu_ctx (ker m)) SysLog m1 = Ret (tt, m')). unfold syscall_spec.
      change (SysLog =? SysLog) with true. cbv iota. by rewrite (mseq_run _ _ _ _ _ Hs).
  - constructor; [done|by rewrite C'|done|by exists r'|by rewrite Q'|by apply R'].
Qed.

Lemma ubind_some {A B} (c : M machine (option A)) (k : A -> M machine (option B)) a m m' :
  c m = Ret (Some a, m') -> ubind c k m = k a m'.
Proof. intros H. unfold ubind. by rewrite (mseq_run _ _ _ _ _ H). Qed.

Lemma hello_loop_run hello n t c u m : short_text (str_at hello) -> runs t c u m ->
  exists m', hello_loop junk (log_kernel str_at ds) g hello n m = Ret (Some tt, m') /\ runs t c u m' /\
    written m' = written m ++ mjoin (replicate n (delivered ds LInfo (str_at hello))).
Proof.
  intros Htxt. revert m. induction n as [|n IH]; intros m Hm; cbn [hello_loop].
  - exists m. by rewrite app_nil_r.
  - destruct (uapi_log LInfo hello t c u m Htxt Hm) as (m1 & H1 & R1 & W1). rewrite (ubind_some _ _ _ _ _ H1).
    destruct (IH m1 R1) as (m' & -> & R' & W'). exists m'. split; [done|]. split; [done|]. by rewrite W', W1, <-app_assoc.
Qed.

(** C10: The thread in user mode does what it says.  Run through the gate of
    system calls with log.c behind it, test_thr2 has its greeting delivered a
    thousand times and its farewell once, to every log writer whose level
    admits them and in this order; its exit gives the processor to another
    thread, its last message is never written, and whatever the other threads
    do afterwards it never runs again. *)
Theorem test_thr2_output hello quitting still t c u m : short_text (str_at hello) -> short_text (str_at quitting) -> runs t c u m ->
  exists m', test_thr2 junk (log_kernel str_at ds) g hello quitting still m = Ret (None, m') /\
    written m' = written m ++ mjoin (replicate 1000 (delivered ds LInfo (str_at hello))) ++ delivered ds LInfo (str_at quitting) /\
    live (ker m') /\ forall k, rtc kstep (ker m') k -> cur k <> t.
Proof.
  intros Hh Hq Hm. unfold test_thr2.
  destruct (hello_loop_run hello 1000 t c u m Hh Hm) as (m1 & H1 & R1 & W1). rewrite (ubind_some _ _ _ _ _ H1).
  destruct (uapi_log LInfo quitting t c u m1 Hq R1) as (m2 & H2 & R2 & W2). rewrite (ubind_some _ _ _ _ _ H2).
  destruct R2 as [L2 C2 X2 Hr2 Q2 Rd2]. rewrite <-X2 in Hr2.
  destruct (uapi_exit junk (log_kernel str_at ds) g 0 0 m2 u installed L2 Hr2 Q2 Rd2) as (m' & Hs & L' & E' & W').
  exists m'. split; [unfold ubind at 1; by rewrite (mseq_run _ _ _ _ _ Hs)|].
  split; [by rewrite W', W2, W1, <-app_assoc|]. split; [done|]. intros k Hk. rewrite C2 in E'. by eapply ended_never_runs.
Qed.
End output.

(** ** test_thr *)

Definition stopAfter : Z := 10 * 1000 * 1000.

(** [readings] are what systime() answers in turn.  A turn reads the clock for
    the test, for the message, and in systime_stall.  Gives the times printed
    and the readings left, or [None] when the readings do not suffice. *)
Fixpoint test_thr_loop (fuel : nat) (end_ : Z) (readings : list Z) : option (list Z * list Z) :=
  match fuel, readings with
  | S f, r :: rs =>
      if r <=? end_ then
        match rs with
        | t :: rs1 =>
            match systime_stall 10000 rs1 with
            | Some n =>
                match test_thr_loop f end_ (drop (S n) rs1) with
                | Some (ts, rest) => Some (t :: ts, rest)
                | None => None
                end
            | None => None
            end
        | [] => None
        end
      else Some ([], rs)
  | _, _ => None
  end.

Definition test_thr (readings : list Z) : option (list Z * list Z) :=
  match readings with
  | start :: rs => test_thr_loop (length rs) (u64 (start + stopAfter)) rs
  | [] => None
  end.

(** Readings after [p] of a clock that does not go back and is read at least
    every [d] microseconds. *)
Fixpoint paced (d p : Z) (l : list Z) : Prop :=
  match l with [] => True | r :: l' => p <= r <= p + d /\ paced d r l' end.

(** The readings go on beyond [b]. *)
Definition reaches (b : Z) (l : list Z) : Prop := exists x, x ∈ l /\ b < x.

Lemma reaches_tail b r l : reaches b (r :: l) -> r <= b -> reaches b l.
Proof. intros (x & [->|Hx]%elem_of_cons & Hb) Hr; [lia|]. by exists x. Qed.

Lemma stall_paced e d p b l : 0 <= d -> paced d p l -> p < e -> e + d <= b -> reaches b l ->
  exists n r l', stall_loop e l = Some n /\ drop n l = l' /\ e <= r <= e + d /\ paced d r l' /\ reaches b l' /\
    (length l' < length l)%nat.
Proof.
  intros Hd. revert p. induction l as [|r l IH]; intros p Hp Hpe Heb Hr; [destruct Hr as (x & Hx & _); by apply elem_of_nil in Hx|].
  destruct Hp as [Hr1 Hp]. cbn [stall_loop]. destruct (Z.ltb_spec r e) as [Hlt|Hge].
  - destruct (IH r Hp Hlt Heb) as (n & r' & l' & -> & Hdr & ? & ? & ? & ?); [by apply (reaches_tail b r); [|lia]|].
    exists (S n), r', l'. simpl. split_and!; try done; lia.
  - exists 1%nat, r, l. split_and!; try done; [lia|by apply (reaches_tail b r); [|lia]|simpl; lia].
Qed.

(** Times at least [s] apart. *)
Fixpoint spaced (s lo : Z) (ts : list Z) : Prop :=
  match ts with [] => True | t :: ts' => lo <= t /\ spaced s (t + s) ts' end.

Lemma spaced_weaken s lo lo' ts : lo' <= lo -> spaced s lo ts -> spaced s lo' ts.
Proof. destruct ts; simpl; [done|]. intros ? [? ?]. split; [lia|done]. Qed.

Lemma test_thr_loop_ends d b e f p l : 0 <= d -> 0 <= p -> b < 2 ^ 63 -> paced d p l -> reaches b l -> e + 10000 + 3 * d <= b ->
  (length l <= f)%nat ->
  exists ts rest, test_thr_loop f e l = Some (ts, rest) /\ spaced 10000 p ts /\
    10000 * Z.of_nat (length ts) <= Z.max 0 (e - p + 10000).
Proof.
  intros Hd. revert p l. induction f as [|f IH]; intros p l Hp Hb Hpl Hr He Hf.
  { destruct l; [|simpl in Hf; lia]. destruct Hr as (x & Hx & _). by apply elem_of_nil in Hx. }
  destruct l as [|r rs]; [destruct Hr as (x & Hx & _); by apply elem_of_nil in Hx|]. destruct Hpl as [Hr1 Hpl]. cbn [test_thr_loop].
  destruct (Z.leb_spec r e) as [Hle|Hgt]; [|exists [], rs; split; [done|]; split; [done|]; simpl; lia].
  apply reaches_tail in Hr; [|lia].
  destruct rs as [|t rs]; [destruct Hr as (x & Hx & _); by apply elem_of_nil in Hx|]. destruct Hpl as [Ht Hpl]. apply reaches_tail in Hr; [|lia].
  destruct rs as [|s rs]; [destruct Hr as (x & Hx & _); by apply elem_of_nil in Hx|]. destruct Hpl as [Hs Hpl]. apply reaches_tail in Hr; [|lia].
  unfold systime_stall. rewrite u64_small by lia.
  destruct (stall_paced (s + 10000) d s b rs Hd Hpl) as (n & q & l' & -> & Hdr & Hq & Hpl' & Hr' & Hlen); [lia|lia|done|].
  cbn [drop]. rewrite Hdr. simpl in Hf.
  destruct (IH q l') as (ts & rest & -> & Hsp & Hln); [lia|lia|done|done|lia|lia|].
  exists (t :: ts), rest. split; [done|]. split.
  - split; [lia|]. eapply spaced_weaken; [|exact Hsp]. lia.
  - cbn [length]. lia.
Qed.

(** The kernel's test thread ends: on a clock that does not go back and that
    is read at least every [d] microseconds, once the readings pass ten
    seconds (with the last turn) it returns, and it has printed at most 1001
    lines, at least ten milliseconds apart. *)
Theorem test_thr_ends d start rs : 0 <= d -> 0 <= start -> paced d start rs ->
  start + stopAfter + 10000 + 3 * d < 2 ^ 63 -> reaches (start + stopAfter + 10000 + 3 * d) rs ->
  exists ts rest, test_thr (start :: rs) = Some (ts, rest) /\ (length ts <= 1001)%nat /\ spaced 10000 start ts.
Proof.
  intros Hd Hs Hp Hb Hr. unfold test_thr. unfold stopAfter in *. rewrite u64_small by lia.
  destruct (test_thr_loop_ends d (start + 10 * 1000 * 1000 + 10000 + 3 * d) (start + 10 * 1000 * 1000) (length rs) start rs)
    as (ts & rest & -> & Hsp & Hln); [done..|lia|lia|].
  exists ts, rest. split; [done|]. split; [lia|done].
Qed.

Module TestThreadsDemo.
Import LifeDemo RoundRobinDemo.

(** "hi" at 0x100 and "bye" elsewhere; a writer at 7 that wants everything and
    one at 8 that wants errors. *)
Definition text (a : Z) : list Z := if a =? 0x100 then [104; 105] else [98; 121; 101].
Definition writers : list log_destination_t := [Dest 7 LTrace []; Dest 8 LError []; no_dest].

Lemma text_short a : short_text (text a).
Proof. unfold text. destruct (a =? 0x100); (split; [by repeat constructor|done]). Qed.

(** Thread 10 runs test_thr2, and 11 waits. *)
Lemma test_thr2_output_witness : exists m',
  test_thr2 0 (log_kernel text writers) table3 0x100 0x200 0x300 m3 = Ret (None, m') /\
  written m' = replicate 1000 (7, [104; 105]) ++ [(7, [98; 121; 101])] /\ forall k, rtc kstep (ker m') k -> cur k <> 10.
Proof.
  destruct (test_thr2_output 0 table3 ltac:(vm_compute; reflexivity) text writers 0x100 0x200 0x300 10 20 11 m3
    (text_short _) (text_short _)) as (m' & H1 & H2 & _ & H3).
  - constructor; [|reflexivity|reflexivity|eexists; reflexivity|left|reflexivity].
    destruct k3_ring as [[Hwf Hlk _ _] _ (x & Hx & _ & Hs & _)]. constructor; [exact Hwf|exact Hlk|]. exists x. exact (conj Hx Hs).
  - exists m'. split; [exact H1|]. split; [rewrite H2; vm_compute; reflexivity|exact H3].
Defined.

(** A clock read every 5 ms: a line every 25 ms. *)
Example test_thr_lines :
  (length <$> (fst <$> test_thr ((fun i => 5000 * Z.of_nat i) <$> seq 0 2010))) = Some 400%nat.
Proof. by vm_compute. Qed.
End TestThreadsDemo.
