(* ===== verification/Apic.v ===== *)
(** * Interrupt controllers: lapic.c and ioapic.c

    The registers of the two controllers as maps from register numbers to the
    value last written; a register that was never written reads as the value
    given by the hardware.  Reserving and mapping the register page answers
    with given results. *)

From S2P Require Import Prelude.
From S2P Require Import Clock.

Definition IRQ_NUM (x : Z) : Z := 0x24 + x.
Definition IRQ_SPURIOUS : Z := IRQ_NUM (-3).
Definition IRQ_ERROR : Z := IRQ_NUM (-2).
Definition APIC_GLOBAL_ENABLE : Z := Z.shiftl 1 11.
Definition APIC_BSP : Z := Z.shiftl 1 8.
Definition APIC_REG_ID : Z := 0x20.
Definition APIC_REG_TPR : Z := 0x80.
Definition APIC_REG_EOI : Z := 0xb0.
Definition APIC_REG_SV : Z := 0xf0.
Definition APIC_REG_ERROR_STATUS : Z := 0x280.
Definition APIC_REG_LVT_LINT0 : Z := 0x350.
Definition APIC_REG_LVT_LINT1 : Z := 0x360.
Definition APIC_REG_LVT_ERROR : Z := 0x370.
Definition APIC_SV_ENABLE : Z := Z.shiftl 1 8.
Definition APIC_DM_NMI : Z := 4.
Definition APIC_DM_EXT : Z := 7.
Definition APIC_VSZ : Z := 0x1000.

(** ** The local APIC *)

Record lapic := Lapic {
  apic_base : Z;                 (** the register IA32_APIC_BASE *)
  apic_mapping : Z;              (** what APIC_VIRTUAL resolves to, or 0 *)
  lregs : gmap Z Z;
  gates : list (Z * Z);          (** handlers installed: gate and function *)
  reserves : list (Z * Z);
}.
Definition h_spurious : Z := 1.
Definition h_error : Z := 2.

Section lapic_c.
(** What an untouched register reads, and what pmem_reserve and vmem_map answer. *)
Variable hw : Z -> Z.
Variables reserve_ok map_ok : bool.

Definition APIC_REG (r : Z) (s : lapic) : Z := default (hw r) (lregs s !! r).
Definition put_reg (r v : Z) (s : lapic) : lapic :=
  Lapic (apic_base s) (apic_mapping s) (<[r := u32 v]> (lregs s)) (gates s) (reserves s).
Definition put_gate (num f : Z) (s : lapic) : lapic :=
  Lapic (apic_base s) (apic_mapping s) (lregs s) (gates s ++ [(num, f)]) (reserves s).
Definition set_reg (r v : Z) : M lapic unit := mmodify (put_reg r v).
Definition add_gate (num f : Z) : M lapic unit := mmodify (put_gate num f).

Definition lapic_phys (s : lapic) : Z := Z.land (msr_read (apic_base s)) (Z.lnot 0xFFF).
Definition lapic_is_enabled (s : lapic) : bool :=
  negb (Z.land (msr_read (apic_base s)) APIC_GLOBAL_ENABLE =? 0) && negb (Z.land (APIC_REG APIC_REG_SV s) APIC_SV_ENABLE =? 0).
Definition lapic_is_bsp (s : lapic) : bool := negb (Z.land (msr_read (apic_base s)) APIC_BSP =? 0).
Definition lapic_cpuid (s : lapic) : Z := Z.shiftr (APIC_REG APIC_REG_ID s) 24.
Definition lapic_eoi : M lapic unit := set_reg APIC_REG_EOI 0.

(** The page of the registers; another processor may have mapped it. *)
Definition lapic_map : M lapic unit :=
  mapping <- mgets apic_mapping ;;
  phys <- mgets lapic_phys ;;
  if negb (mapping =? 0) && negb (mapping =? phys) then mfatal "local apic virtual mapping not available!"
  else if mapping =? 0 then
    mmodify (fun s => Lapic (apic_base s) (apic_mapping s) (lregs s) (gates s) (reserves s ++ [(phys, APIC_VSZ)])) ;;;
    if negb reserve_ok then mfatal "failed to reserve physical APIC region"
    else if negb map_ok then mfatal "failed to map APIC memory"
    else mmodify (fun s => Lapic (apic_base s) phys (lregs s) (gates s) (reserves s))
  else mreturn tt.

Definition lapic_program : M lapic unit :=
  add_gate IRQ_SPURIOUS h_spurious ;;;
  add_gate IRQ_ERROR h_error ;;;
  set_reg APIC_REG_SV (Z.lor IRQ_SPURIOUS APIC_SV_ENABLE) ;;;
  set_reg APIC_REG_LVT_ERROR IRQ_ERROR ;;;
  set_reg APIC_REG_LVT_LINT0 (Z.shiftl APIC_DM_EXT 8) ;;;
  set_reg APIC_REG_LVT_LINT1 (Z.shiftl APIC_DM_NMI 8) ;;;
  set_reg APIC_REG_ERROR_STATUS 0 ;;;
  set_reg APIC_REG_ERROR_STATUS 0 ;;;
  set_reg APIC_REG_TPR 0 ;;;
  set_reg APIC_REG_EOI 0 ;;;
  set_reg APIC_REG_TPR 0.

Definition lapic_init (intr_state : bool) : M lapic unit :=
  if intr_state then mfatal "interrupts may not be enabled in lapic_init()"
  else
    lapic_map ;;;
    lapic_program ;;;
    en <- mgets lapic_is_enabled ;;
    if negb en then mfatal "failed to enable the local APIC on CPU %d" else mreturn tt.

(** Writing registers one after the other. *)
Definition put_regs (l : list (Z * Z)) (s : lapic) : lapic := foldl (fun s rv => put_reg rv.1 rv.2 s) s l.

Lemma put_regs_kept l s : apic_base (put_regs l s) = apic_base s /\ apic_mapping (put_regs l s) = apic_mapping s /\
  reserves (put_regs l s) = reserves s /\ gates (put_regs l s) = gates s.
Proof. revert s. induction l as [|rv l IH]; intros s; [done|]. simpl. by destruct (IH (put_reg rv.1 rv.2 s)) as (-> & -> & -> & ->). Qed.

Lemma put_regs_other r l s : r ∉ l.*1 -> lregs (put_regs l s) !! r = lregs s !! r.
Proof.
  revert s. induction l as [|rv l IH]; intros s Hr; [done|]. simpl in *. apply not_elem_of_cons in Hr as [Hr Hl].
  rewrite IH by done. simpl. by rewrite lookup_insert_ne.
Qed.

Lemma put_regs_last r v l s : r ∉ l.*1 -> lregs (put_regs l (put_reg r v s)) !! r = Some (u32 v).
Proof. intros Hr. rewrite put_regs_other by done. simpl. apply lookup_insert_eq. Qed.

Definition after_sv : list (Z * Z) :=
  [(APIC_REG_LVT_ERROR, IRQ_ERROR); (APIC_REG_LVT_LINT0, Z.shiftl APIC_DM_EXT 8);
   (APIC_REG_LVT_LINT1, Z.shiftl APIC_DM_NMI 8); (APIC_REG_ERROR_STATUS, 0); (APIC_REG_ERROR_STATUS, 0);
   (APIC_REG_TPR, 0); (APIC_REG_EOI, 0); (APIC_REG_TPR, 0)].

Lemma lapic_program_run s : exists s', lapic_program s = Ret (tt, s') /\
  apic_base s' = apic_base s /\ apic_mapping s' = apic_mapping s /\ reserves s' = reserves s /\
  gates s' = gates s ++ [(IRQ_SPURIOUS, h_spurious); (IRQ_ERROR, h_error)] /\
  lregs s' !! APIC_REG_SV = Some 0x121 /\ lregs s' !! APIC_REG_ID = lregs s !! APIC_REG_ID.
Proof.
  set (s1 := put_gate IRQ_ERROR h_error (put_gate IRQ_SPURIOUS h_spurious s)).
  set (s2 := put_reg APIC_REG_SV (Z.lor IRQ_SPURIOUS APIC_SV_ENABLE) s1).
  exists (put_regs after_sv s2). split; [reflexivity|].
  destruct (put_regs_kept after_sv s2) as (-> & -> & -> & ->). split; [done|]. split; [done|]. split; [done|].
  split; [by simpl; rewrite <-app_assoc|]. split.
  - unfold s2. rewrite put_regs_last; [done|]. apply (bool_decide_unpack _). by vm_compute.
  - rewrite put_regs_other; [|apply (bool_decide_unpack _); by vm_compute]. unfold s2. simpl. by rewrite lookup_insert_ne.
Qed.

(** Every way lapic_init ends: with a controller enabled in its base
    register and a register page that is unmapped and can be reserved and
    mapped, or is mapped to the right frame already, it returns with the page
    mapped, the controller enabled under the same id and both handlers
    installed; else, or with interrupts on, the machine stops. *)
Theorem lapic_init_outcome s :
  let good := (apic_mapping s = 0 /\ reserve_ok = true /\ map_ok = true \/ apic_mapping s <> 0 /\ apic_mapping s = lapic_phys s) /\
              Z.land (msr_read (apic_base s)) APIC_GLOBAL_ENABLE <> 0 in
  (exists e, lapic_init true s = Fatal e) /\
  (good -> exists s', lapic_init false s = Ret (tt, s') /\ lapic_is_enabled s' = true /\ apic_mapping s' = lapic_phys s /\
             gates s' = gates s ++ [(IRQ_SPURIOUS, h_spurious); (IRQ_ERROR, h_error)] /\ lapic_cpuid s' = lapic_cpuid s) /\
  (~ good -> exists e, lapic_init false s = Fatal e).
Proof.
  intros good. split; [by eexists|].
  assert (Hmap : (exists s1, lapic_map s = Ret (tt, s1) /\ apic_base s1 = apic_base s /\ apic_mapping s1 = lapic_phys s /\ gates s1 = gates s /\ lregs s1 = lregs s /\
      (apic_mapping s = 0 /\ reserve_ok = true /\ map_ok = true \/ apic_mapping s <> 0 /\ apic_mapping s = lapic_phys s)) \/
    (exists e, lapic_map s = Fatal e) /\
      ~ (apic_mapping s = 0 /\ reserve_ok = true /\ map_ok = true \/ apic_mapping s <> 0 /\ apic_mapping s = lapic_phys s)).
  { unfold lapic_map, mgets, mmodify, mseq. destruct (Z.eqb_spec (apic_mapping s) 0) as [E|E]; cbn [negb andb].
    - destruct reserve_ok, map_ok; cbn [negb]; [left; eexists; split; [done|]; repeat split; auto|right..];
        (split; [by eexists|]; naive_solver).
    - destruct (Z.eqb_spec (apic_mapping s) (lapic_phys s)) as [E'|E']; cbn [negb].
      + left. exists s. split; [done|]. split; [done|]. split; [done|]. split; [done|]. split; [done|]. by right.
      + right. split; [by eexists|]. naive_solver. }
  destruct Hmap as [(s1 & Hr & Hb & Hm & Hg & Hl & Hok)|[[e He] Hno]].
  - destruct (lapic_program_run s1) as (s2 & Hp & Hb2 & Hm2 & _ & Hg2 & Hsv & Hid).
    assert (Een : lapic_is_enabled s2 = negb (Z.land (msr_read (apic_base s)) APIC_GLOBAL_ENABLE =? 0)).
    { unfold lapic_is_enabled, APIC_REG. rewrite Hsv, Hb2, Hb. cbn [default]. by rewrite andb_true_r. }
    unfold lapic_init. rewrite (mseq_run _ _ _ _ _ Hr), (mseq_run _ _ _ _ _ Hp). unfold mgets, mseq. rewrite Een.
    destruct (Z.eqb_spec (Z.land (msr_read (apic_base s)) APIC_GLOBAL_ENABLE) 0) as [E|E]; cbn [negb].
    + split; [by intros [_ ?]|]. intros _. by eexists.
    + split; [|intros Hn; exfalso; apply Hn; by split]. intros _. exists s2.
      split; [done|]. split; [done|]. split; [congruence|]. split; [by rewrite Hg2, Hg|].
      unfold lapic_cpuid, APIC_REG. by rewrite Hid, Hl.
  - unfold lapic_init. unfold mseq at 1 4. rewrite He. split; [by intros [? _]|]. intros _. by eexists.
Qed.
End lapic_c.

(** ** The I/O APIC *)

Definition IOAPIC_BASE : Z := 0xFEC00000.
Definition IOAPIC_VSZ : Z := 0x1000.
Definition IOAPIC_REG_VER : Z := 1.
Definition IOAPIC_REG_TABLE : Z := 0x10.
Definition IOAPIC_INT_MASKED : Z := Z.shiftl 1 16.
Definition IOAPIC_MAX_REDIR (v : Z) : Z := Z.land (Z.shiftr v 16) 0xFF.

(** The register file behind the select and the window register. *)
Record ioapic_t := IoApic { regsel : Z; iowin : gmap Z Z }.

Definition ioapic_write (reg data : Z) : M ioapic_t unit :=
  mmodify (fun s => IoApic (u32 reg) (<[u32 reg := u32 data]> (iowin s))).
Definition ioapic_read (reg : Z) : M ioapic_t Z :=
  mmodify (fun s => IoApic (u32 reg) (iowin s)) ;;;
  mgets (fun s => default 0 (iowin s !! regsel s)).

Definition mask_entry (i : Z) : M ioapic_t unit :=
  ioapic_write (IOAPIC_REG_TABLE + 2 * i) (Z.lor IOAPIC_INT_MASKED (IRQ_NUM i)) ;;;
  ioapic_write (IOAPIC_REG_TABLE + (2 * i + 1)) 0.

(** [for(i = 0; i <= max; ++i)], [n] entries from [i] on. *)
Fixpoint mask_loop (n : nat) (i : Z) : M ioapic_t unit :=
  match n with O => mreturn tt | S n' => mask_entry i ;;; mask_loop n' (i + 1) end.

Definition ioapic_init (reserve_ok map_ok : bool) : M ioapic_t unit :=
  if negb reserve_ok then mfatal "failed to reserve physical I/O APIC memory!"
  else if negb map_ok then mfatal "failed to map I/O APIC memory!"
  else
    ioapic_read 0 ;;;
    vreg <- ioapic_read IOAPIC_REG_VER ;;
    mask_loop (S (Z.to_nat (IOAPIC_MAX_REDIR vreg))) 0.

Definition ioapic_enable (num cpuid : Z) : M ioapic_t unit :=
  ioapic_write (IOAPIC_REG_TABLE + 2 * num) (IRQ_NUM num) ;;;
  ioapic_write (IOAPIC_REG_TABLE + (2 * num + 1)) (Z.shiftl cpuid 24).

Definition ioapic_disable (num cpuid : Z) : M ioapic_t unit := mask_entry num.

(** The redirection entry of input [i]: its two halves. *)
Definition redirection (i : Z) (s : ioapic_t) : option Z * option Z :=
  (iowin s !! (IOAPIC_REG_TABLE + 2 * i), iowin s !! (IOAPIC_REG_TABLE + (2 * i + 1))).

Definition masked (i : Z) : option Z * option Z := (Some (Z.lor IOAPIC_INT_MASKED (IRQ_NUM i)), Some 0).

Lemma ioapic_write_run reg data s : 0 <= reg < 2 ^ 32 -> 0 <= data < 2 ^ 32 ->
  ioapic_write reg data s = Ret (tt, IoApic reg (<[reg := data]> (iowin s))).
Proof. intros Hr Hd. unfold ioapic_write, mmodify. by rewrite !u32_small. Qed.

Lemma masked_range i : 0 <= i < 256 -> 0 <= Z.lor IOAPIC_INT_MASKED (IRQ_NUM i) < 2 ^ 32.
Proof. intros Hi. apply (lor_bound _ _ 32); [lia|by vm_compute|unfold IRQ_NUM; lia]. Qed.

Lemma mask_entry_run i s : 0 <= i < 256 -> exists s', mask_entry i s = Ret (tt, s') /\
  redirection i s' = masked i /\
  (forall j, j <> i -> redirection j s' = redirection j s) /\ (forall r, r < IOAPIC_REG_TABLE -> iowin s' !! r = iowin s !! r).
Proof.
  intros Hi. pose proof (masked_range i Hi) as Hm. unfold mask_entry, IOAPIC_REG_TABLE in *.
  rewrite (mseq_run _ _ _ _ _ (ioapic_write_run (0x10 + 2 * i) _ s ltac:(lia) Hm)), ioapic_write_run by lia.
  eexists. split; [done|]. unfold redirection, IOAPIC_REG_TABLE; simpl. split; [|split].
  - rewrite lookup_insert_ne by lia. by rewrite !lookup_insert_eq.
  - intros j Hj. by rewrite !lookup_insert_ne by lia.
  - intros r Hr. by rewrite !lookup_insert_ne by lia.
Qed.

Lemma mask_loop_run n : forall i s, 0 <= i -> i + Z.of_nat n <= 256 -> exists s', mask_loop n i s = Ret (tt, s') /\
  (forall j, i <= j < i + Z.of_nat n -> redirection j s' = masked j) /\
  (forall j, j < i \/ i + Z.of_nat n <= j -> redirection j s' = redirection j s).
Proof.
  induction n as [|n IH]; intros i s Hi Hn; cbn [mask_loop].
  { exists s. split; [done|]. split; [lia|done]. }
  destruct (mask_entry_run i s) as (s1 & H1 & Hm & Ho & _); [lia|].
  destruct (IH (i + 1) s1) as (s2 & H2 & Hm2 & Ho2); [lia|lia|].
  rewrite (mseq_run _ _ _ _ _ H1), H2. exists s2. split; [done|]. split.
  - intros j Hj. destruct (decide (j = i)) as [->|]; [rewrite Ho2 by lia; done|]. apply Hm2. lia.
  - intros j Hj. rewrite Ho2 by lia. apply Ho. lia.
Qed.

(** ioapic_init masks every redirection entry the controller has, each
    with the vector of its input and no destination, and no other one; and
    after that enabling an input for a processor and disabling it again leaves
    its entry masked, with the entries of all other inputs untouched. *)
Theorem ioapic_init_masks s v : iowin s !! IOAPIC_REG_VER = Some v -> 0 <= v ->
  exists s', ioapic_init true true s = Ret (tt, s') /\
  (forall i, 0 <= i <= IOAPIC_MAX_REDIR v -> redirection i s' = masked i) /\
  (forall i, IOAPIC_MAX_REDIR v < i -> redirection i s' = redirection i s) /\
  forall num cpu, 0 <= num < 256 -> 0 <= cpu < 256 -> exists s1 s2,
    ioapic_enable num cpu s' = Ret (tt, s1) /\ ioapic_disable num cpu s1 = Ret (tt, s2) /\
    redirection num s1 = (Some (IRQ_NUM num), Some (Z.shiftl cpu 24)) /\ redirection num s2 = masked num /\
    forall j, j <> num -> redirection j s2 = redirection j s'.
Proof.
  intros Hv H0. unfold ioapic_init, ioapic_read, mmodify, mgets. cbn [negb]. unfold mseq at 1 2 3 4. cbn [regsel iowin].
  change (u32 IOAPIC_REG_VER) with IOAPIC_REG_VER. rewrite Hv. cbn [default].
  assert (Hm : 0 <= IOAPIC_MAX_REDIR v < 256).
  { unfold IOAPIC_MAX_REDIR. change 0xFF with (Z.ones 8). rewrite Z.land_ones by lia. apply Z.mod_pos_bound. lia. }
  destruct (mask_loop_run (S (Z.to_nat (IOAPIC_MAX_REDIR v))) 0 (IoApic IOAPIC_REG_VER (iowin s))) as (s' & Hr & Hin & Hout); [lia|lia|].
  exists s'. split; [exact Hr|]. split; [intros i Hi; apply Hin; lia|]. split; [intros i Hi; rewrite Hout by lia; done|].
  intros num cpu Hn Hc. unfold ioapic_enable, IOAPIC_REG_TABLE.
  assert (Hs : 0 <= Z.shiftl cpu 24 < 2 ^ 32) by (rewrite Z.shiftl_mul_pow2 by lia; lia).
  rewrite (mseq_run _ _ _ _ _ (ioapic_write_run (0x10 + 2 * num) (IRQ_NUM num) s' ltac:(lia) ltac:(unfold IRQ_NUM; lia))).
  rewrite ioapic_write_run by lia. set (s1 := IoApic _ _).
  destruct (mask_entry_run num s1 Hn) as (s2 & H2 & Hm2 & Ho2 & _).
  exists s1, s2. split; [done|]. split; [exact H2|]. split; [|split; [exact Hm2|]].
  - unfold redirection, IOAPIC_REG_TABLE; simpl. rewrite lookup_insert_ne by lia. by rewrite !lookup_insert_eq.
  - intros j Hj. rewrite Ho2 by done. unfold redirection, IOAPIC_REG_TABLE; simpl. by rewrite !lookup_insert_ne by lia.
Qed.

Module ApicDemo.
Definition io0 : ioapic_t := IoApic 0 {[ 1 := 0x170011 ]}.
Lemma ioapic_init_masks_witness :
  exists s', ioapic_init true true io0 = Ret (tt, s') /\ redirection 23 s' = masked 23.
Proof.
  destruct (ioapic_init_masks io0 0x170011) as (s' & H1 & H2 & _); [reflexivity|lia|].
  exists s'. split; [exact H1|]. apply H2. by vm_compute.
Defined.

Definition la0 : lapic := Lapic 0xFEE00900 0 ∅ [] [].
Lemma lapic_init_outcome_witness : exists s', lapic_init (fun _ => 0) true true false la0 = Ret (tt, s') /\ lapic_is_enabled (fun _ => 0) s' = true.
Proof.
  destruct (lapic_init_outcome (fun _ => 0) true true la0) as (_ & H & _).
  destruct H as (s' & H1 & H2 & _); [split; [left; repeat split|vm_compute; discriminate]|].
  exists s'. split; [exact H1|exact H2].
Defined.

Example lapic_boots : ret_val (lapic_init (fun _ => 0) true true false la0) = Some tt.
Proof. by vm_compute. Qed.
End ApicDemo.
