(* ===== verification/CpuInit.v ===== *)
(** * Bringing a processor up: cpu_init of cpu.c

    The composition of the segments and stacks (Gdt, Stka), the local APIC
    (Apic) and the locals on the kernel heap (Cpu).  What physical memory, the
    page tables, the kernel heap and the cpuid instruction answer is given by
    an environment. *)

From S2P Require Import Prelude.
From S2P Require Import Mem.
From S2P Require Import KList.
From S2P Require Import Heap.
From S2P Require Import HeapSpec.
From S2P Require Import Sched.
From S2P Require Import Stka.
From S2P Require Import Gdt.
From S2P Require Import Cpu.
From S2P Require Import Apic.

Record cpu_env := CpuEnv {
  stk_map : Z -> bool;            (** vmem_map for the page of a stack *)
  gdt_page : Z; gdt_map : bool;   (** the frame of the table, and mapping it *)
  e_space : Z;                    (** spc_current() *)
  tss_block : Z;                  (** kheap_alloc for the task state *)
  stk1 : Z; stk2 : Z; stk3 : Z;   (** kheap_alloc for three stacks *)
  apic_hw : Z -> Z;               (** registers of the local APIC *)
  apic_reserve : bool; apic_map : bool;
  cpuid : Z -> cpuid_leaf_t;
  dummy_context : Z;
}.

(** What cpu_init prints: family, model, stepping, extended family and model,
    and the name. *)
Definition cpu_report : Type := Z * Z * Z * Z * Z * option (list Z).

Section cpu_init_c.
Context {St : Type} `{HasHeaps St} `{HasGlobMap St} `{HeapEnv St}.

Record processor := Processor {
  p_cpu : cpu; p_lapic : lapic; p_mem : St; p_cpus : cpus; p_lck : Z }.

Definition on_cpu {A} : M cpu A -> M processor A :=
  mzoom p_cpu (fun c p => Processor c (p_lapic p) (p_mem p) (p_cpus p) (p_lck p)).
Definition on_lapic {A} : M lapic A -> M processor A :=
  mzoom p_lapic (fun l p => Processor (p_cpu p) l (p_mem p) (p_cpus p) (p_lck p)).
Definition on_mem {A} : M St A -> M processor A :=
  mzoom p_mem (fun m p => Processor (p_cpu p) (p_lapic p) m (p_cpus p) (p_lck p)).
Definition set_cpus (c : cpus) (p : processor) : processor :=
  Processor (p_cpu p) (p_lapic p) (p_mem p) c (p_lck p).

Variable e : cpu_env.

Definition report : cpu_report :=
  let l := cpuid e 1 in
  (CPUID_01H_V_FAMILY l, CPUID_01H_V_MODEL l, CPUID_01H_V_STEPPING l, CPUID_01H_V_EX_FAMILY l, CPUID_01H_V_EX_MODEL l,
   cpu_name (cpuid e)).

Definition cpu_init (fuel : nat) (intr_state : bool) : M processor cpu_report :=
  if intr_state then mfatal "interrupts shall not be enabled in cpu_init!"
  else
    on_cpu (cpu_segments (stk_map e) (gdt_map e) (e_space e) (gdt_page e) (tss_block e) (stk1 e) (stk2 e) (stk3 e)) ;;;
    on_lapic (lapic_init (apic_hw e) (apic_reserve e) (apic_map e) intr_state) ;;;
    id <- mgets (fun p => lapic_cpuid (apic_hw e) (p_lapic p)) ;;
    c <- mgets p_cpus ;;
    c' <- on_mem (cpu_init_locals (dummy_context e) fuel id c) ;;
    mmodify (set_cpus c') ;;;
    mreturn report.

Definition cpu_bsp_init (fuel : nat) (intr_state : bool) : M processor cpu_report :=
  mmodify (fun p => Processor (p_cpu p) (p_lapic p) (p_mem p) (p_cpus p) 0) ;;;
  r <- cpu_init fuel intr_state ;;
  mmodify (fun p => set_cpus (Cpus (cpumaxid (p_cpus p)) (cpulcl (p_cpus p)) true) p) ;;;
  mreturn r.
End cpu_init_c.
Arguments processor : clear implicits.

(** ** What the processor finds *)

(** The selector names a present, flat 64-bit segment of type [ty] in [g],
    and asks for the privilege level the segment has. *)
Definition segment (g : gdt) (sel ty ring : Z) : Prop :=
  sel mod 8 = ring /\ exists w, raw_gdt g !! Z.to_nat (sel / 8) = Some w /\ describes w 0 0xFFFFFFFF ty ring true false.

Definition CODE : Z := Z.lor GDT_TYPE_CODE GDT_TYPE_CODE_READ_ENABLE.
Definition ring_of (i : thread_isolation_t) : Z :=
  match i with IsolationKernel => RING_KERNEL | IsolationUser => RING_USERSPACE end.

(** The table as the code after cpu_init relies on it, with the task state at
    [tss] and three stacks that begin at [n]. *)
Record segments_ready (tss n : Z) (c : cpu) : Prop := {
  sr_lock : gdt_lock (c_gdt c) = 0;
  sr_kcode : segment (c_gdt c) GDT_KCODE64 CODE RING_KERNEL;
  sr_kdata : segment (c_gdt c) GDT_KDATA64 GDT_TYPE_DATA_WRITE_ENABLE RING_KERNEL;
  sr_ucode : segment (c_gdt c) (Z.lor GDT_UCODE64 RING_USERSPACE) CODE RING_USERSPACE;
  sr_udata : segment (c_gdt c) (Z.lor GDT_UDATA64 RING_USERSPACE) GDT_TYPE_DATA_WRITE_ENABLE RING_USERSPACE;
  sr_tss : exists w x, raw_gdt (c_gdt c) !! Z.to_nat (GDT_KTSS / 8) = Some w /\
    raw_gdt (c_gdt c) !! Z.to_nat (GDT_KTSS / 8 + 1) = Some x /\ desc_base64 w x = tss /\ desc_type w = GDT_TYPE_TSS;
  sr_ist : exists x, c_tss c !! tss = Some x /\ ist x !! IST_FAULT_STACK = Some n /\
    ist x !! IST_SYSC_STACK = Some (n - 0x5000) /\ ist x !! IST_LLHW_STACK = Some (n - 0xA000);
}.

(** The kernel's stack allocator, made by the first processor. *)
Definition kstack (space : Z) (c : cpu) : stka := default (stka_new (kstack_desc space)) (kstack_allocator c).

(** Room for [n] more fixed stacks. *)
Record kstack_room (n : Z) (k : stka) : Prop := {
  kr_lock : lock k = 0;
  kr_fixed : fixed (desc k) = true;
  kr_bottom : 0 < bottom (desc k) /\ bottom (desc k) + 0x5000 * n <= next_stk k;
  kr_next : STK_GUARDSIZE + 0x5000 * n <= next_stk k < 2 ^ 64;
}.

Lemma kstack_room_boot space : kstack_room 3 (stka_new (kstack_desc space)).
Proof. by constructor. Qed.

(** ** Stacks *)

Lemma new_ist_run map_ok p n k c : 0 <= n -> kstack_allocator c = Some k -> kstack_room (n + 1) k ->
  exists k', new_ist map_ok p c = Ret (next_stk k, Gdt.Cpu (c_gdt c) (Some k') (c_tss c)) /\
    kstack_room n k' /\ next_stk k' = next_stk k - 0x5000.
Proof.
  intros Hn Hk [Hl Hf Hb Hx].
  unfold STK_GUARDSIZE, STK_PAGESIZE in *.
  destruct (stka_alloc_run map_ok p k Hl) as (m & pg & Hrun & _);
    [unfold STK_INITSIZE, STK_PAGESIZE; lia|unfold STK_GUARDSIZE, STK_PAGESIZE; lia|].
  unfold stk_room in Hrun. rewrite Hf in Hrun. unfold STK_FIXEDSIZE, STK_PAGESIZE in Hrun.
  eexists. unfold new_ist, Gdt.on_stka, mseq at 1. rewrite Hk, Hrun. cbn [kstack_allocator].
  unfold mseq, stk_at. cbn [stks kstack_allocator]. rewrite lookup_insert_eq. split; [reflexivity|].
  split; [|simpl; lia].
  constructor; cbn [lock desc next_stk]; try done; unfold STK_GUARDSIZE, STK_PAGESIZE; lia.
Qed.

Lemma tss_init_run map_ok space tss p1 p2 p3 c : kstack_room 3 (kstack space c) ->
  let n := next_stk (kstack space c) in
  exists k, kstack_room 0 k /\ next_stk k = n - 0xF000 /\
    tss_init map_ok space tss p1 p2 p3 c =
      on_gdt (dyngdt_set GDT_KTSS tss sizeof_tss_t GDT_TYPE_TSS RING_USERSPACE true true)
        (Gdt.Cpu (c_gdt c) (Some k) (<[tss := Tss (rsp tss_zero) [0; n; n - 0x5000; n - 0xA000; 0; 0; 0; 0] 0]> (c_tss c))).
Proof.
  intros Hr n. unfold tss_init.
  set (c0 := Gdt.Cpu (c_gdt c) (Some (kstack space c)) (c_tss c)).
  rewrite (mseq_run _ _ _ tt c0) by (unfold mmodify, c0, kstack; destruct c as [g [k|] t]; done).
  destruct (new_ist_run map_ok p1 2 (kstack space c) c0) as (k1 & R1 & Hk1 & E1); [lia|done|done|].
  rewrite (mseq_run _ _ _ _ _ R1).
  destruct (new_ist_run map_ok p2 1 k1 (Gdt.Cpu (c_gdt c0) (Some k1) (c_tss c0))) as (k2 & R2 & Hk2 & E2); [lia|done|done|].
  rewrite (mseq_run _ _ _ _ _ R2).
  destruct (new_ist_run map_ok p3 0 k2 (Gdt.Cpu (c_gdt c0) (Some k2) (c_tss c0))) as (k3 & R3 & Hk3 & E3); [lia|done|done|].
  cbn [c_gdt c_tss] in *. rewrite (mseq_run _ _ _ _ _ R3). exists k3. split; [done|]. split; [unfold n; lia|].
  unfold mmodify, mseq at 1. cbn [c_gdt c_tss kstack_allocator c0]. fold n in E1.
  by replace (next_stk k2) with (n - 0xA000) by lia; rewrite E1.
Qed.

(** ** The table *)

(** [dyngdt_set] of a flat segment, on the state of the processor. *)
Lemma on_gdt_segment sel ty dp c : gdt_lock (c_gdt c) <> 0 -> length (raw_gdt (c_gdt c)) = 512%nat -> 0 <= sel < 0xFF8 ->
  0 <= ty < 16 -> 0 <= dp < 4 ->
  exists w, describes w 0 0xFFFFFFFF ty dp true false /\
    on_gdt (dyngdt_set sel 0 0xFFFFFFFF ty dp true false) c =
      Ret (tt, Gdt.Cpu (Gdt (<[Z.to_nat (sel / 8) := w]> (raw_gdt (c_gdt c))) (gdt_lock (c_gdt c))) (kstack_allocator c) (c_tss c)).
Proof.
  intros Hl Hn Hs Ht Hd.
  destruct (dyngdt_set_run sel 0 0xFFFFFFFF ty dp true false (c_gdt c) Hl Hn Hs) as (w & x & Hw & _ & Hrun); [lia..|].
  exists w. split; [done|]. unfold on_gdt. by rewrite Hrun.
Qed.

Lemma on_gdt_tss tss c : gdt_lock (c_gdt c) <> 0 -> length (raw_gdt (c_gdt c)) = 512%nat -> 0 <= tss < 2 ^ 64 ->
  exists w x, describes w tss sizeof_tss_t GDT_TYPE_TSS RING_USERSPACE true true /\ desc_base64 w x = tss /\
    on_gdt (dyngdt_set GDT_KTSS tss sizeof_tss_t GDT_TYPE_TSS RING_USERSPACE true true) c =
      Ret (tt, Gdt.Cpu (Gdt (<[6%nat := x]> (<[5%nat := w]> (raw_gdt (c_gdt c)))) (gdt_lock (c_gdt c))) (kstack_allocator c) (c_tss c)).
Proof.
  intros Hl Hn Ht.
  destruct (dyngdt_set_run GDT_KTSS tss sizeof_tss_t GDT_TYPE_TSS RING_USERSPACE true true (c_gdt c) Hl Hn)
    as (w & x & Hw & Hx & Hrun); [done|done|done|done|done|].
  exists w, x. split; [done|]. split; [done|]. unfold on_gdt. by rewrite Hrun.
Qed.

(** The table dyngdt_init_and_lock clears, with the entries cpu_init makes. *)
Definition gdt_of (w3 w4 w5 x5 w7 w8 : Z) : list Z :=
  <[6%nat := x5]> (<[5%nat := w5]> (<[8%nat := w8]> (<[7%nat := w7]> (<[4%nat := w4]> (<[3%nat := w3]>
    (replicate (Z.to_nat GDT_WORDS) 0)))))).

Lemma gdt_of_lookup w3 w4 w5 x5 w7 w8 :
  gdt_of w3 w4 w5 x5 w7 w8 !! 3%nat = Some w3 /\ gdt_of w3 w4 w5 x5 w7 w8 !! 4%nat = Some w4 /\
  gdt_of w3 w4 w5 x5 w7 w8 !! 5%nat = Some w5 /\ gdt_of w3 w4 w5 x5 w7 w8 !! 6%nat = Some x5 /\
  gdt_of w3 w4 w5 x5 w7 w8 !! 7%nat = Some w7 /\ gdt_of w3 w4 w5 x5 w7 w8 !! 8%nat = Some w8.
Proof. by repeat split. Qed.

(** One call of dyngdt_set on the way through cpu_init. *)
Ltac seg_step sel ty dp w D :=
  match goal with |- context [mseq (on_gdt (dyngdt_set sel _ _ _ _ _ _)) _ ?s] =>
    let R := fresh in destruct (on_gdt_segment sel ty dp s) as (w & D & R); [done..|];
    rewrite (mseq_run _ _ _ _ _ R); clear R; cbn [c_gdt c_tss kstack_allocator raw_gdt gdt_lock]
  end.

Lemma cpu_segments_run map_ok space pa tss p1 p2 p3 c :
  gdt_lock (c_gdt c) = 0 -> pa <> 0 -> 0 <= tss < 2 ^ 64 -> kstack_room 3 (kstack space c) ->
  exists c', cpu_segments map_ok true space pa tss p1 p2 p3 c = Ret ((0x1000, pa), c') /\
    segments_ready tss (next_stk (kstack space c)) c' /\
    kstack_room 0 (kstack space c') /\ next_stk (kstack space c') = next_stk (kstack space c) - 0xF000.
Proof.
  intros Hl Hpa Ht Hk. unfold cpu_segments. fold CODE.
  set (g0 := Gdt (replicate (Z.to_nat GDT_WORDS) 0) 1).
  rewrite (mseq_run _ _ _ tt (Gdt.Cpu g0 (kstack_allocator c) (c_tss c)))
    by (unfold on_gdt, dyngdt_init_and_lock; rewrite Hl, (proj2 (Z.eqb_neq _ _) Hpa); reflexivity).
  seg_step GDT_KCODE64 CODE RING_KERNEL w3 D3. seg_step GDT_KDATA64 GDT_TYPE_DATA_WRITE_ENABLE RING_KERNEL w4 D4.
  seg_step GDT_UCODE64 CODE RING_USERSPACE w7 D7. seg_step GDT_UDATA64 GDT_TYPE_DATA_WRITE_ENABLE RING_USERSPACE w8 D8.
  match goal with |- context [mseq (tss_init _ _ _ _ _ _) _ ?s] =>
    destruct (tss_init_run map_ok space tss p1 p2 p3 s Hk) as (k & Hk0 & En & Rt) end.
  unfold mseq at 1. rewrite Rt. clear Rt.
  match goal with |- context [on_gdt (dyngdt_set GDT_KTSS _ _ _ _ _ _) ?s] =>
    destruct (on_gdt_tss tss s) as (w5 & x5 & D5 & E5 & R5); [done..|] end.
  rewrite R5. clear R5. cbn [c_gdt c_tss kstack_allocator raw_gdt gdt_lock].
  set (n := next_stk (kstack space c)).
  eexists. split; [reflexivity|]. split; [|split; [exact Hk0|exact En]].
  destruct (gdt_of_lookup w3 w4 w5 x5 w7 w8) as (L3 & L4 & L5 & L6 & L7 & L8).
  constructor; cbn [c_gdt c_tss raw_gdt gdt_lock]; try (split; [done|]; eexists; split; [eassumption|assumption]).
  - done.
  - exists w5, x5. split; [exact L5|]. split; [exact L6|]. split; [done|]. apply D5.
  - eexists. rewrite lookup_insert_eq. by repeat split.
Qed.

(** ** The locals *)

Section locals.
Context {St : Type} `{HasHeaps St} `{HasGlobMap St} `{HeapEnv St}.

Lemma cpu_init_locals_slot ctx fuel id c (h : St) c' h' : 0 <= ctx < 2 ^ 64 ->
  cpu_init_locals ctx fuel id c h = Ret (c', h') ->
  cpuinit c' = cpuinit c /\ cpumaxid c' = Z.max (cpumaxid c) id /\
  mread 8 (get_mem h') (cpulcl c' + sizeof_cpu_locals_t * id) = Some ctx.
Proof.
  intros Hc. unfold cpu_init_locals.
  unfold mseq at 1. destruct (heap_realloc _ _ _ _ h) as [[lcl h1]| | | |]; try discriminate.
  unfold mseq at 1. destruct (memset _ _ _ h1) as [[u h2]| | | |]; try discriminate.
  unfold mseq, store64, store. destruct (mappedb _ _ _); try discriminate. set (h3 := set_mem _ h2).
  assert (Hr : mread 8 (get_mem h3) (lcl + sizeof_cpu_locals_t * id) = Some ctx)
    by (unfold h3; rewrite get_set_mem; by apply mread_mwrite_eq).
  clearbody h3. intros [= <- <-]. cbn [cpuinit cpumaxid cpulcl]. split; [done|]. split; [|done].
  unfold max32. destruct (Z.ltb_spec id (cpumaxid c)); lia.
Qed.
End locals.

(** ** Threads on the segments *)

(** The segments a thread made by thr_create is to be started on. *)
Definition thread_segments (g : gdt) (i : thread_isolation_t) (x : thr_context_t) : Prop :=
  segment g (c_cs x) CODE (ring_of i) /\ segment g (c_ss x) GDT_TYPE_DATA_WRITE_ENABLE (ring_of i).

Lemma thr_create_segments tss n c thr ctx stack kstka tramp prc entry i k t k' :
  segments_ready tss n c -> thr_create thr ctx stack kstka tramp prc entry i k = Ret (t, k') -> t <> 0 ->
  exists x, contexts k' !! ctx = Some x /\ thread_segments (c_gdt c) i x.
Proof.
  intros Hr. unfold thr_create. destruct (thr =? 0); [unfold mreturn; congruence|].
  unfold mseq at 1. destruct (prc_next_tid prc k) as [[tid k1]| | | |]; try discriminate.
  unfold mseq at 1. destruct (prc_at prc k1) as [[p k2]| | | |]; try discriminate.
  destruct (ctx =? 0); [discriminate|]. destruct stack as [[stk top]|]; [|discriminate].
  destruct i; unfold mseq, mmodify, mreturn; intros [= <- <-] _; cbn [contexts set_threads set_contexts];
    rewrite lookup_insert_eq; (eexists; split; [reflexivity|]); split; apply Hr.
Qed.

(** ** cpu_init *)

Section ready.
Context {St : Type} `{HasHeaps St} `{HasGlobMap St} `{HeapEnv St}.
Variable e : cpu_env.

(** A local APIC that lapic_init can enable. *)
Definition apic_good (l : lapic) : Prop :=
  (apic_mapping l = 0 /\ apic_reserve e = true /\ apic_map e = true \/ apic_mapping l <> 0 /\ apic_mapping l = lapic_phys l) /\
  Z.land (Clock.msr_read (apic_base l)) APIC_GLOBAL_ENABLE <> 0.

(** What the environment has to answer for the segments to be set up. *)
Record segments_good (c : cpu) : Prop := {
  sg_lock : gdt_lock (c_gdt c) = 0;
  sg_page : gdt_page e <> 0 /\ gdt_map e = true;
  sg_tss : 0 <= tss_block e < 2 ^ 64;
  sg_room : kstack_room 3 (kstack (e_space e) c);
}.

Lemma on_cpu_segments (p : processor St) : segments_good (p_cpu p) ->
  exists c, on_cpu (cpu_segments (stk_map e) (gdt_map e) (e_space e) (gdt_page e) (tss_block e) (stk1 e) (stk2 e) (stk3 e)) p =
      Ret ((0x1000, gdt_page e), Processor c (p_lapic p) (p_mem p) (p_cpus p) (p_lck p)) /\
    segments_ready (tss_block e) (next_stk (kstack (e_space e) (p_cpu p))) c.
Proof.
  intros [Hl [Hp Hm] Ht Hr]. rewrite Hm.
  destruct (cpu_segments_run (stk_map e) (e_space e) (gdt_page e) (tss_block e) (stk1 e) (stk2 e) (stk3 e) (p_cpu p) Hl Hp Ht Hr)
    as (c & Hrun & Hc & _).
  exists c. split; [|done]. unfold on_cpu. by rewrite (mzoom_run _ _ _ _ _ _ Hrun).
Qed.

Definition my_id (p : processor St) : Z := lapic_cpuid (apic_hw e) (p_lapic p).

(** The whole of cpu_init, when every part of it succeeds. *)
Lemma cpu_init_run fuel (p : processor St) c' h' : segments_good (p_cpu p) -> apic_good (p_lapic p) ->
  cpu_init_locals (dummy_context e) fuel (my_id p) (p_cpus p) (p_mem p) = Ret (c', h') ->
  exists c l, cpu_init e fuel false p = Ret (report e, Processor c l h' c' (p_lck p)) /\
    segments_ready (tss_block e) (next_stk (kstack (e_space e) (p_cpu p))) c /\
    lapic_is_enabled (apic_hw e) l = true /\ lapic_cpuid (apic_hw e) l = my_id p /\
    gates l = gates (p_lapic p) ++ [(IRQ_SPURIOUS, h_spurious); (IRQ_ERROR, h_error)].
Proof.
  intros Hs Ha Hloc. unfold cpu_init. destruct (on_cpu_segments p Hs) as (c & Rc & Hc).
  rewrite (mseq_run _ _ _ _ _ Rc).
  destruct (lapic_init_outcome (apic_hw e) (apic_reserve e) (apic_map e) (p_lapic p)) as (_ & Hg & _).
  destruct (Hg Ha) as (l & Rl & En & _ & Gl & Il).
  rewrite (mseq_run _ _ _ tt (Processor c l (p_mem p) (p_cpus p) (p_lck p))) by (unfold on_lapic; by erewrite mzoom_run).
  exists c, l. unfold mgets, mseq at 1, mseq at 1. cbn [p_lapic p_cpus]. rewrite Il. fold (my_id p).
  rewrite (mseq_run _ _ _ c' (Processor c l h' (p_cpus p) (p_lck p))) by (unfold on_mem; by erewrite mzoom_run).
  split; [reflexivity|]. split; [exact Hc|]. split_and!; [exact En|done|exact Gl].
Qed.

(** C11: The boot processor is ready for threads.  With interrupts off, the lock
    of the descriptor table free, a frame for the table, room for three kernel
    stacks, a local APIC that can be enabled and memory for the locals,
    cpu_bsp_init returns, the table's lock is free again, the task register
    names the new task state with three interrupt stacks apart from each
    other, the APIC is enabled with its two handlers, cpu_locals of this
    processor holds the dummy context, and any thread thr_create makes from
    then on has selectors of present flat segments with the privilege of its
    isolation. *)
Theorem cpu_bsp_init_ready fuel (p : processor St) :
  let n := next_stk (kstack (e_space e) (p_cpu p)) in
  segments_good (p_cpu p) -> apic_good (p_lapic p) -> 0 <= dummy_context e < 2 ^ 64 ->
  wp (cpu_init_locals (dummy_context e) fuel (my_id p) (p_cpus p)) (fun _ _ => True) (p_mem p) ->
  wp (cpu_bsp_init e fuel false) (fun _ p' =>
    segments_ready (tss_block e) n (p_cpu p') /\ lapic_is_enabled (apic_hw e) (p_lapic p') = true /\
    gates (p_lapic p') = gates (p_lapic p) ++ [(IRQ_SPURIOUS, h_spurious); (IRQ_ERROR, h_error)] /\
    cpu_current_id (lapic_cpuid (apic_hw e) (p_lapic p')) (p_cpus p') = my_id p /\
    (exists a, (forall dummy, cpu_locals dummy (p_cpus p') (my_id p) = Ret a) /\
       mread 8 (get_mem (p_mem p')) a = Some (dummy_context e)) /\
    (forall thr ctx stack kstka tramp prc entry i k t k',
       thr_create thr ctx stack kstka tramp prc entry i k = Ret (t, k') -> t <> 0 ->
       exists x, contexts k' !! ctx = Some x /\ thread_segments (c_gdt (p_cpu p')) i x)) p.
Proof.
  intros n Hs Ha Hd Hw. unfold wp in Hw.
  destruct (cpu_init_locals _ _ _ _ _) as [[c' h']| | | |] eqn:Hloc; try done.
  destruct (cpu_init_locals_slot _ _ _ _ _ _ _ Hd Hloc) as (_ & Hmax & Hslot).
  destruct (cpu_init_run fuel (Processor (p_cpu p) (p_lapic p) (p_mem p) (p_cpus p) 0) c' h' Hs Ha Hloc)
    as (c & l & Hrun & Hc & En & Il & Gl).
  unfold wp, cpu_bsp_init. unfold mmodify at 1, mseq at 1. rewrite (mseq_run _ _ _ _ _ Hrun).
  unfold mmodify, mseq, mreturn. cbn [p_cpu p_lapic p_mem p_cpus set_cpus cpu_current_id cpuinit].
  split; [done|]. split; [done|]. split; [done|]. split; [done|]. split.
  - eexists. split; [|exact Hslot]. intros dummy. unfold cpu_locals. cbn [negb cpuinit cpumaxid cpulcl].
    rewrite Hmax. destruct (Z.ltb_spec (Z.max (cpumaxid (p_cpus p)) (my_id p)) (my_id p)); [lia|done].
  - intros. by eapply thr_create_segments.
Qed.

(** Every way the first half of cpu_init stops the machine: interrupts on, the
    table locked, no frame for it or no place to map it, or an APIC that
    cannot be enabled. *)
Theorem cpu_init_stops fuel (p : processor St) :
  (exists m, cpu_init e fuel true p = Fatal m) /\
  (gdt_lock (c_gdt (p_cpu p)) <> 0 -> cpu_init e fuel false p = Deadlock) /\
  (gdt_lock (c_gdt (p_cpu p)) = 0 -> gdt_page e = 0 \/ gdt_map e = false -> exists m, cpu_init e fuel false p = Fatal m) /\
  (segments_good (p_cpu p) -> ~ apic_good (p_lapic p) -> exists m, cpu_init e fuel false p = Fatal m).
Proof.
  split; [by eexists|]. split_and!.
  - intros Hl. unfold cpu_init, mseq at 1, on_cpu, mzoom, cpu_segments, mseq at 1, on_gdt, dyngdt_init_and_lock.
    by rewrite (proj2 (Z.eqb_neq _ _) Hl).
  - intros Hl Hor. unfold cpu_init, mseq at 1, on_cpu, mzoom, cpu_segments, mseq at 1, on_gdt, dyngdt_init_and_lock.
    rewrite Hl. cbn [negb Z.eqb]. destruct (Z.eqb_spec (gdt_page e) 0); [by eexists|].
    destruct Hor as [?| ->]; [done|]. by eexists.
  - intros Hs Ha. unfold cpu_init. destruct (on_cpu_segments p Hs) as (c & Rc & _). rewrite (mseq_run _ _ _ _ _ Rc).
    destruct (lapic_init_outcome (apic_hw e) (apic_reserve e) (apic_map e) (p_lapic p)) as (_ & _ & Hb).
    destruct (Hb Ha) as (m & Hm). exists m. unfold mseq at 1, on_lapic, mzoom. cbn [p_lapic]. by rewrite Hm.
Qed.
End ready.

Module CpuInitDemo.
Export CpuDemo.

Definition e0 : cpu_env := CpuEnv (fun _ => true) 0x5000 true 0x1000 0xFFFFFF0000001230 8 16 24 (fun _ => 0) true true
  (fun _ => Leaf 0x000306A9 0 0 0) 0x7000.
Definition p0 : processor hst := Processor GdtDemo.boot_cpu ApicDemo.la0 g1 cpus0 1.

Lemma e0_good : segments_good e0 (p_cpu p0) /\ apic_good e0 (p_lapic p0).
Proof.
  split; [constructor; [done|done|done|apply kstack_room_boot]|].
  split; [by left|vm_compute; discriminate].
Qed.

Lemma cpu_bsp_init_ready_witness :
  wp (cpu_bsp_init e0 20 false) (fun _ p' =>
    segments_ready 0xFFFFFF0000001230 KSHEAP_END (p_cpu p') /\ lapic_is_enabled (apic_hw e0) (p_lapic p') = true) p0.
Proof.
  destruct e0_good as [Hs Ha].
  eapply wp_mono.
  - apply (cpu_bsp_init_ready e0 20 p0 Hs Ha); [by vm_compute|]. by vm_compute.
  - intros r p' (H1 & H2 & _). by split.
Defined.

(** What the boot processor reports. *)
Example boot_report : ret_val (cpu_bsp_init e0 20 false p0) = Some (6, 10, 9, 0, 3, None).
Proof. by vm_compute. Qed.
End CpuInitDemo.
