(* ===== verification/Gates.v ===== *)
(** * The interrupt gates after boot

    boot() and boot_next() of tachyon.c call the initialisations that install
    interrupt handlers: system calls, page faults, the local APIC, the clock
    and the timer.  This file replays them in their order on the gate table of
    Intr and says what every interrupt reaches afterwards. *)

From S2P Require Import Prelude.
From S2P Require Import KList.
From S2P Require Import Intr.
From S2P Require Import Trap.
From S2P Require Import Clock.
From S2P Require Import Apic.

Definition EX_PAGE_FAULT : Z := 14.
Definition IRQ_RTC : Z := IRQ_NUM 8.

(** The addresses of the handlers that Trap and Apic do not name. *)
Definition h_pgflt : Z := 0x400.
Definition h_rtc : Z := 0x500.
Definition h_tmr : Z := 0x600.

Definition pgflt_init : M gate_table unit := intr_add EX_PAGE_FAULT h_pgflt.
Definition log_init : M gate_table unit := intr_add SYSC_INTERRUPT h_log.
Definition thr_init : M gate_table unit := intr_add SYSC_INTERRUPT h_thr.
(** The gate of sched_init; its queues are in Sched. *)
Definition sched_init_gate : M gate_table unit := intr_add SYSC_INTERRUPT h_sched.
(** The gates lapic_init, rtc_init and lapic_tmr_init ask for. *)
Definition lapic_gates : M gate_table unit := intr_add IRQ_SPURIOUS h_spurious ;;; intr_add IRQ_ERROR h_error.
Definition rtc_gate : M gate_table unit := intr_add IRQ_RTC h_rtc.
Definition lapic_tmr_gate : M gate_table unit := intr_add IRQ_LAPIC_TIMER h_tmr.

Definition boot_gates : M gate_table unit :=
  sysc_init ;;; pgflt_init ;;; lapic_gates ;;; log_init ;;; thr_init ;;; sched_init_gate ;;; rtc_gate ;;; lapic_tmr_gate.

Definition booted_table : gate_table := state_of (boot_gates intr_init) intr_init.

Section reference.
Context {W : Type}.
Variable call : Z -> M W bool.

(** The interrupts that have one handler. *)
Definition single_handlers : list (Z * Z) :=
  [(EX_PAGE_FAULT, h_pgflt); (IRQ_SPURIOUS, h_spurious); (IRQ_ERROR, h_error); (IRQ_LAPIC_TIMER, h_tmr); (IRQ_RTC, h_rtc)].

Definition handler_of (num : Z) : option Z := snd <$> find (fun x => x.1 =? num) single_handlers.

(** What an interrupt is to run. *)
Definition boot_service (num : Z) : M W unit :=
  if num =? SYSC_INTERRUPT then dispatch_list call false [h_log; h_thr; h_sched] ;;; mreturn tt
  else match handler_of num with
       | Some f => r <- call f ;; if (r : bool) then mreturn tt else mfatal "unhandled interrupt"
       | None => if MAX_INTR <=? num then mfatal "gate not available" else mfatal "unhandled interrupt"
       end.

(** The gate an interrupt has after boot. *)
Definition gate_of (num : Z) : intr_gate_desc_t :=
  if num =? SYSC_INTERRUPT then Gate GateModeMultiHandler (HList (Alist [h_log; h_thr; h_sched] 3 true))
  else match handler_of num with Some f => Gate 0 (HHandler f) | None => Gate 0 HNull end.
End reference.

Lemma boot_gates_run : boot_gates intr_init = Ret (tt, booted_table).
Proof. by vm_compute. Qed.

Lemma booted_table_gates : booted_table = (fun i => gate_of (Z.of_nat i)) <$> seq 0 60.
Proof. by vm_compute. Qed.

Lemma booted_gate num : 0 <= num < MAX_INTR -> booted_table !! Z.to_nat num = Some (gate_of num).
Proof.
  unfold MAX_INTR. intros H. rewrite booted_table_gates, list_lookup_fmap, lookup_seq_lt by lia. simpl. f_equal. f_equal. lia.
Qed.

Lemma handler_of_known num f : handler_of num = Some f -> num < MAX_INTR /\ f <> 0.
Proof.
  unfold handler_of. intros (x & Hx & ->)%fmap_Some. apply List.find_some in Hx as [Hin Heq].
  apply Z.eqb_eq in Heq as <-. by repeat destruct Hin as [<-|Hin].
Qed.

(** After boot every interrupt reaches what it is meant for: the gate of
    system calls its three handlers in turn, the page fault, the spurious and
    the error interrupt of the APIC, the timer and the clock their own
    handlers, and any other interrupt stops the machine, as does one whose
    handler declines it.  Dispatch equals this table for every number, every
    behaviour of the handlers and every state. *)
Theorem boot_interrupts {W : Type} (call : Z -> M W bool) num m : 0 <= num ->
  exists g, boot_gates intr_init = Ret (tt, g) /\ intr_dispatch call g num m = boot_service call num m.
Proof.
  intros Hn. exists booted_table. split; [apply boot_gates_run|]. unfold intr_dispatch, boot_service.
  destruct (Z.leb_spec MAX_INTR num) as [Hm|Hm].
  { destruct (handler_of num) as [f|] eqn:E; [|destruct (Z.eqb_spec num SYSC_INTERRUPT) as [->|]; done].
    apply handler_of_known in E. lia. }
  rewrite booted_gate by done. unfold gate_of.
  destruct (Z.eqb_spec num SYSC_INTERRUPT) as [->|Hs].
  - unfold dispatch_gate. cbn [mode h items]. unfold mseq.
    change (has_mode GateModeMultiHandler GateModeMultiHandler) with true.
    change (has_mode GateModeMultiHandler GateModeNotifyAll) with false. cbv iota.
    by destruct (dispatch_list _ _ _ m) as [[[] m']| | | |].
  - destruct (handler_of num) as [f|] eqn:E; unfold dispatch_gate; cbn [mode h];
      change (has_mode 0 GateModeMultiHandler) with false; cbv iota; [|done].
    rewrite (proj2 (Z.eqb_neq _ _) (proj2 (handler_of_known _ _ E))). done.
Qed.

(** The gate of system calls is the one Trap is about. *)
Lemma booted_sysc_gate g : install intr_init = Ret (tt, g) ->
  booted_table !! Z.to_nat SYSC_INTERRUPT = g !! Z.to_nat SYSC_INTERRUPT.
Proof. intros Hg. destruct install_table as (g' & Hg' & E). rewrite Hg in Hg'. injection Hg' as <-. rewrite E. by vm_compute. Qed.

Module GatesDemo.
(** The clock's handler takes its interrupt, and nothing else does. *)
Lemma boot_interrupts_witness : exists g, boot_gates intr_init = Ret (tt, g) /\
  intr_dispatch (fun f => mmodify (fun l => l ++ [f]) ;;; mreturn true) g 44 [] = Ret (tt, [h_rtc]).
Proof.
  destruct (boot_interrupts (fun f => mmodify (fun l => l ++ [f]) ;;; mreturn true) 44 [] ltac:(lia)) as (g & H1 & H2).
  exists g. split; [exact H1|]. rewrite H2. reflexivity.
Defined.
End GatesDemo.
