(* ===== verification/Boot.v ===== *)
(** * Small drivers and boot helpers: serial.c, bss.c, uapi.c, vfs.c, rd.c

    Port output is the list of (port, value) pairs; mappings are the list of
    (physical, virtual) pairs in the order they are made. *)

From S2P Require Import Prelude.
From S2P Require Import Mem.
From S2P Require Import Heap.
From S2P Require Import Mboot.

(** ** serial.c *)

Definition PORT_COM1 : Z := 0x3F8.

Definition serial_port_init (port : Z) : list (Z * Z) :=
  [(port + 1, 0x00); (port + 3, 0x80); (port + 0, 0x03); (port + 1, 0x00);
   (port + 3, 0x03); (port + 2, 0xC7); (port + 4, 0x0B)].

(** [while((inb(port + 5) & 0x20) == 0);]: the answers of the line status
    register to come; what is left of them when the port is ready. *)
Fixpoint serial_wait (lsr : list Z) : outcome (list Z) :=
  match lsr with
  | [] => NoFuel
  | x :: r => if Z.land x 0x20 =? 0 then serial_wait r else Ret r
  end.

Fixpoint serial_write (buf : list Z) (port : Z) (lsr : list Z) : outcome (list (Z * Z)) :=
  match buf with
  | [] => Ret []
  | c :: r =>
      match serial_wait lsr with
      | Ret lsr' => match serial_write r port lsr' with
                    | Ret o => Ret ((port, u8 c) :: o)
                    | e => e
                    end
      | Fatal m => Fatal m
      | Fault a => Fault a
      | Deadlock => Deadlock
      | NoFuel => NoFuel
      end
  end.

(** The log writer stops at the terminator. *)
Fixpoint until_nul (str : list Z) : list Z :=
  match str with [] => [] | c :: r => if c =? 0 then [] else c :: until_nul r end.
Definition serial_log_com1 (str : list Z) (lsr : list Z) : outcome (list (Z * Z)) :=
  serial_write (until_nul str) PORT_COM1 lsr.

(** The port can take a byte. *)
Definition ready (x : Z) : Prop := Z.land x 0x20 <> 0.
#[export] Instance ready_dec x : Decision (ready x).
Proof. unfold ready. apply _. Defined.

(** The serial line gets every byte of the buffer, in order and once, as
    soon as the port reports ready often enough; busy answers in between only
    delay it. *)
Theorem serial_write_sends buf port lsr : (length buf <= length (filter ready lsr))%nat ->
  serial_write buf port lsr = Ret ((fun c => (port, u8 c)) <$> buf).
Proof.
  assert (Hw : forall l, (0 < length (filter ready l))%nat -> exists r,
    serial_wait l = Ret r /\ length (filter ready l) = S (length (filter ready r))).
  { induction l as [|x l IH]; [simpl; lia|]. rewrite filter_cons. cbn [serial_wait].
    destruct (Z.eqb_spec (Z.land x 0x20) 0) as [E|E].
    - rewrite decide_False by (by intros Hx). apply IH.
    - rewrite decide_True by done. intros _. by exists l. }
  revert lsr. induction buf as [|c r IH]; intros lsr Hl; [done|]. cbn [serial_write length] in *.
  destruct (Hw lsr) as (l' & -> & E); [lia|]. rewrite IH by lia. done.
Qed.

(** ** bss.c *)

Section bss.
Context {St : Type} `{HasMem St}.

(** [while(pstart < pend) *pstart++ = 0;], [n] words. *)
Fixpoint bss_loop (n : nat) (p : Z) : M St unit :=
  match n with O => mreturn tt | S n' => store64 p 0 ;;; bss_loop n' (p + 8) end.
Definition bss_init (start_ end_ : Z) : M St unit := bss_loop (Z.to_nat ((end_ - start_ + 7) / 8)) start_.

Lemma mwrite_zero n : forall m a i, a <= i < a + Z.of_nat n -> mwrite n m a 0 !! i = Some 0.
Proof.
  induction n as [|n IH]; intros m a i Hi; [lia|]. cbn [mwrite]. change (0 / 256) with 0. change (u8 0) with 0.
  destruct (decide (i = a)) as [->|]; [apply lookup_insert_eq|]. rewrite lookup_insert_ne by done. apply IH. lia.
Qed.

Lemma bss_loop_run n : forall p s, mapped (get_mem s) p (8 * Z.of_nat n) ->
  exists m, bss_loop n p s = Ret (tt, set_mem m s) /\
    (forall i, p <= i < p + 8 * Z.of_nat n -> m !! i = Some 0) /\
    (forall i, i < p \/ p + 8 * Z.of_nat n <= i -> m !! i = get_mem s !! i).
Proof.
  induction n as [|n IH]; intros p s Hm; cbn [bss_loop].
  { exists (get_mem s). rewrite set_get_mem. split; [done|]. split; [lia|done]. }
  assert (Hm8 : mapped (get_mem s) p 8) by (eapply mapped_weaken; [exact Hm|lia|lia]).
  unfold store64. rewrite (mseq_run _ _ _ _ _ (store_run 8 p 0 s Hm8)).
  destruct (IH (p + 8) (set_mem (mwrite 8 (get_mem s) p 0) s)) as (m & Hr & Hz & Ho).
  { rewrite get_set_mem. apply mapped_mwrite. eapply mapped_weaken; [exact Hm|lia|lia]. }
  rewrite Hr, set_set_mem. exists m. split; [done|]. rewrite get_set_mem in Ho. split.
  - intros i Hi. destruct (decide (p + 8 <= i)); [apply Hz; lia|]. rewrite Ho by lia.
    apply mwrite_zero. simpl. lia.
  - intros i Hi. rewrite Ho by lia. apply mwrite_ne. simpl. lia.
Qed.
End bss.

(** ** uapi.c *)

(** The pointers are [uintptr_t*]: adding PAGE_SIZE_4K moves them on by eight
    pages. *)
Definition uapi_step : Z := PAGE_SIZE_4K * 8.

Fixpoint uapi_map_from_to (fuel : nat) (sv sp ev ep : Z) : option (list (Z * Z)) :=
  match fuel with
  | O => None
  | S f => if (sv <? ev) && (sp <? ep)
           then (fun l => (sp, sv) :: l) <$> uapi_map_from_to f (sv + uapi_step) (sp + uapi_step) ev ep
           else Some []
  end.

(** The section of code, then that of data; [vma] and [lma] give the addresses
    the linker has placed them at. *)
Record section_t := Sect { vma : Z; evma : Z; lma : Z; elma : Z }.
Definition uapi_init (fuel : nat) (code data : section_t) : option (list (Z * Z)) :=
  match uapi_map_from_to fuel (vma code) (lma code) (evma code) (elma code),
        uapi_map_from_to fuel (vma data) (lma data) (evma data) (elma data) with
  | Some c, Some d => Some (c ++ d)
  | _, _ => None
  end.

(** The loops end: one turn per eight pages, and one to see the end. *)
Lemma uapi_map_ends n : forall sv sp ev ep, ev - sv <= uapi_step * Z.of_nat n -> is_Some (uapi_map_from_to (S n) sv sp ev ep).
Proof.
  unfold uapi_step, PAGE_SIZE_4K. induction n as [|n IH]; intros sv sp ev ep H; cbn [uapi_map_from_to].
  - destruct (Z.ltb_spec sv ev); [lia|]. by eexists.
  - destruct ((sv <? ev) && (sp <? ep)); [|by eexists]. apply fmap_is_Some, IH. unfold uapi_step, PAGE_SIZE_4K. lia.
Qed.
Lemma uapi_init_ends n code data : evma code - vma code <= uapi_step * Z.of_nat n -> evma data - vma data <= uapi_step * Z.of_nat n ->
  is_Some (uapi_init (S n) code data).
Proof.
  intros Hc Hd. unfold uapi_init. destruct (uapi_map_ends n (vma code) (lma code) _ (elma code) Hc) as [c ->].
  destruct (uapi_map_ends n (vma data) (lma data) _ (elma data) Hd) as [d ->]. by eexists.
Qed.

(** Of the pages of a region only every eighth is mapped. *)
Theorem uapi_skips_pages (fuel : nat) sv sp n l : 0 <= n ->
  uapi_map_from_to fuel sv sp (sv + PAGE_SIZE_4K * n) (sp + PAGE_SIZE_4K * n) = Some l ->
  forall j, (sp + PAGE_SIZE_4K * j, sv + PAGE_SIZE_4K * j) ∈ l <-> 0 <= j < n /\ j mod 8 = 0.
Proof.
  unfold uapi_step, PAGE_SIZE_4K.
  revert sv sp n l. induction fuel as [|f IH]; intros sv sp n l Hn; [done|]. cbn [uapi_map_from_to].
  unfold uapi_step, PAGE_SIZE_4K.
  destruct (Z.ltb_spec sv (sv + 4096 * n)), (Z.ltb_spec sp (sp + 4096 * n)); cbn [andb]; try lia.
  2: { intros [= <-] j. split; [by intros ?%elem_of_nil|lia]. }
  destruct (uapi_map_from_to f (sv + 4096 * 8) (sp + 4096 * 8) (sv + 4096 * n) (sp + 4096 * n)) as [l'|] eqn:E; [|done].
  intros [= <-] j. rewrite elem_of_cons.
  destruct (decide (n <= 8)).
  - assert (l' = []) as ->.
    { destruct f; [done|]. cbn [uapi_map_from_to] in E.
      destruct (Z.ltb_spec (sv + 4096 * 8) (sv + 4096 * n)); [lia|]. cbn [andb] in E. by injection E. }
    split; [intros [[= E1]|?%elem_of_nil]; [|done]; assert (j = 0) as -> by lia; split; [lia|done]|].
    intros [Hj Hm]. left. assert (j = 0) as -> by dlia. by rewrite Z.mul_0_r, !Z.add_0_r.
  - replace (sv + 4096 * n) with (sv + 4096 * 8 + 4096 * (n - 8)) in E by lia.
    replace (sp + 4096 * n) with (sp + 4096 * 8 + 4096 * (n - 8)) in E by lia.
    specialize (IH _ _ (n - 8) l' ltac:(lia) E (j - 8)). unfold PAGE_SIZE_4K in IH.
    replace (sp + 4096 * 8 + 4096 * (j - 8)) with (sp + 4096 * j) in IH by lia.
    replace (sv + 4096 * 8 + 4096 * (j - 8)) with (sv + 4096 * j) in IH by lia.
    rewrite IH. split.
    + intros [[= E1]|[Hj Hm]]; [assert (j = 0) as -> by lia; split; [lia|done]|]. split; [lia|dlia].
    + intros [Hj Hm]. destruct (decide (j = 0)) as [->|]; [left; by rewrite Z.mul_0_r, !Z.add_0_r|]. right. split; [dlia|dlia].
Qed.

(** ** vfs.c and rd.c: what exists of the file system *)

Definition ERR_UNKNOWN : Z := -1.
Definition vfs_mount (path ops : Z) : bool := false.
Definition vfs_unmount (path : Z) : bool := false.
Definition vfs_list (path : Z) : Z := 0.
Definition vfs_open (path : Z) : Z := 0.
Definition vfs_read (handle buffer len : Z) : Z := ERR_UNKNOWN.
Definition vfs_write (handle buffer len : Z) : Z := ERR_UNKNOWN.
Definition vfs_seek (handle offset whence : Z) : Z := ERR_UNKNOWN.
Definition vfs_mkdir (path : Z) : bool := false.

(** The RAM disk is looked for and, when found, mounted with no operation. *)
Definition rd_init {St} (find : M St Z) (path_create : M St Z) (rd_ops : Z) : M St (Z * bool) :=
  rd <- find ;;
  if rd =? 0 then mreturn (0, false)
  else p <- path_create ;; mreturn (rd, vfs_mount p rd_ops).

Module BootDemo.
Lemma serial_write_sends_witness :
  serial_write [104; 105] PORT_COM1 [0; 0x60; 0; 0x60] = Ret [(PORT_COM1, 104); (PORT_COM1, 105)].
Proof. exact (serial_write_sends [104; 105] PORT_COM1 [0; 0x60; 0; 0x60] ltac:(vm_compute; lia)). Defined.

Lemma uapi_skips_pages_witness : exists l,
  uapi_map_from_to 4 0x400000 0x200000 (0x400000 + PAGE_SIZE_4K * 3) (0x200000 + PAGE_SIZE_4K * 3) = Some l /\
  ~ (0x200000 + PAGE_SIZE_4K * 1, 0x400000 + PAGE_SIZE_4K * 1) ∈ l.
Proof.
  exists [(0x200000, 0x400000)]. split; [reflexivity|].
  rewrite (uapi_skips_pages 4 0x400000 0x200000 3 [(0x200000, 0x400000)]); [|lia|reflexivity].
  intros [_ H]. discriminate.
Defined.
End BootDemo.
