(* ===== verification/VmemDump.v ===== *)
(** * Dumping an address space: the end of vmem_mgmt.c

    The dump functions walk all four levels of paging structures through the
    mapspace and print a line per present entry.  A line is a value here; the
    format strings are those of the source. *)

From S2P Require Import Prelude.
From S2P Require Import Heap.
From S2P Require Import Vmem.

(** Index, virtual address where there is one, frame and flags. *)
Inductive dline :=
| DPml4 (i a fl : Z)
| DPdpt (i a fl : Z)
| DPage1G (i v a fl : Z)
| DPd (i a fl : Z)
| DPage2M (i v a fl : Z)
| DPage4K (i v a fl : Z).

Section dump.
Context {P : Type} `{PagePool P}.

(** [for(e = 0; e < 512; ++e)] over a mapped table, [n] entries left. *)
Fixpoint dump_loop (n : nat) (i tab : Z) (f : Z -> Z -> M (vm P) (list dline)) : M (vm P) (list dline) :=
  match n with
  | O => mreturn []
  | S n' =>
      e <- pload tab i ;;
      l <- (if has e PG_PRESENT then f i e else mreturn []) ;;
      r <- dump_loop n' (i + 1) tab f ;;
      mreturn (l ++ r)
  end.

Definition dump_table (phys : Z) (f : Z -> Z -> M (vm P) (list dline)) : M (vm P) (list dline) :=
  t <- vmem_mgmt_map phys ;;
  if t =? 0 then mreturn []
  else
    l <- dump_loop 512 0 t f ;;
    vmem_mgmt_unmap t ;;;
    mreturn l.

Definition vmem_mgmt_dump_pt (virt_addr pt_ptr : Z) : M (vm P) (list dline) :=
  dump_table (Z.land pt_ptr VM_ENTRY_FLAG_MASK) (fun pte page =>
    mreturn [DPage4K pte (Z.lor virt_addr (Z.shiftl pte 12)) (Z.land page VM_ENTRY_FLAG_MASK) (VM_FLAGS page)]).

Definition vmem_mgmt_dump_pd (parent_virt_addr pd_ptr : Z) : M (vm P) (list dline) :=
  dump_table (Z.land pd_ptr VM_ENTRY_FLAG_MASK) (fun pde pt_ptr =>
    let virt_addr := Z.lor parent_virt_addr (Z.shiftl pde 21) in
    let a := Z.land pt_ptr VM_ENTRY_FLAG_MASK in
    if has pt_ptr PG_LARGE then mreturn [DPage2M pde virt_addr a (VM_FLAGS pt_ptr)]
    else l <- vmem_mgmt_dump_pt virt_addr pt_ptr ;; mreturn (DPd pde a (VM_FLAGS pt_ptr) :: l)).

Definition vmem_mgmt_dump_pdpt (parent_virt_addr pdpt_ptr : Z) : M (vm P) (list dline) :=
  dump_table (Z.land pdpt_ptr VM_ENTRY_FLAG_MASK) (fun pdpte pd_ptr =>
    let virt_addr := Z.lor parent_virt_addr (Z.shiftl pdpte 30) in
    let a := Z.land pd_ptr VM_ENTRY_FLAG_MASK in
    if has pd_ptr PG_LARGE then mreturn [DPage1G pdpte virt_addr a (VM_FLAGS pd_ptr)]
    else l <- vmem_mgmt_dump_pd virt_addr pd_ptr ;; mreturn (DPdpt pdpte a (VM_FLAGS pd_ptr) :: l)).

Definition vmem_mgmt_dump_spc (space : Z) : M (vm P) (list dline) :=
  dump_table space (fun pml4e pdpt_ptr =>
    let v := Z.shiftl pml4e 39 in
    let virt_addr := if Z.land (Z.shiftr v 47) 1 =? 0 then v else Z.lor v 0xffff000000000000 in
    l <- vmem_mgmt_dump_pdpt virt_addr pdpt_ptr ;;
    mreturn (DPml4 pml4e (Z.land pdpt_ptr VM_ENTRY_FLAG_MASK) (VM_FLAGS pdpt_ptr) :: l)).

(** ** The listing, read off physical memory *)

Definition listing (w : Z -> Z) (a : Z) (f : Z -> Z -> list dline) : list dline :=
  concat ((fun k : nat => let e := w (a + 8 * Z.of_nat k) in
                          if has e PG_PRESENT then f (Z.of_nat k) e else []) <$> seq 0 512).

Definition list_pt (w : Z -> Z) (v e : Z) : list dline :=
  listing w (frame e) (fun i x => [DPage4K i (Z.lor v (Z.shiftl i 12)) (frame x) (VM_FLAGS x)]).
Definition list_pd (w : Z -> Z) (v e : Z) : list dline :=
  listing w (frame e) (fun i x => let v := Z.lor v (Z.shiftl i 21) in
    if has x PG_LARGE then [DPage2M i v (frame x) (VM_FLAGS x)] else DPd i (frame x) (VM_FLAGS x) :: list_pt w v x).
Definition list_pdpt (w : Z -> Z) (v e : Z) : list dline :=
  listing w (frame e) (fun i x => let v := Z.lor v (Z.shiftl i 30) in
    if has x PG_LARGE then [DPage1G i v (frame x) (VM_FLAGS x)] else DPdpt i (frame x) (VM_FLAGS x) :: list_pd w v x).
Definition list_spc (w : Z -> Z) (spc : Z) : list dline :=
  listing w spc (fun i x => let v := Z.shiftl i 39 in
    DPml4 i (frame x) (VM_FLAGS x) ::
    list_pdpt w (if Z.land (Z.shiftr v 47) 1 =? 0 then v else Z.lor v 0xffff000000000000) x).

(** ** Refinement *)

Abbreviation st l p g := (Vm (cell <$> l) p g : vm P).

Lemma dump_loop_run l (j : nat) a p g f fs : a mod 4096 = 0 -> l !! j = Some (Some a) ->
  (forall i e, f i e (st l p g) = Ret (fs i e, st l p g)) ->
  forall n (i : nat), dump_loop n (Z.of_nat i) (VM_PS_TADDR (Z.of_nat j)) f (st l p g) =
    Ret (concat ((fun k : nat => let e := pw p (a + 8 * Z.of_nat k) in
                                 if has e PG_PRESENT then fs (Z.of_nat k) e else []) <$> seq i n), st l p g).
Proof.
  intros Ha Hj Hf. induction n as [|n IH]; intros i; [done|]. cbn [dump_loop].
  rewrite (mseq_run _ _ _ _ _ (pload_run l j a (Z.of_nat i) p g Ha Hj)).
  assert (E : (if has (pw p (a + 8 * Z.of_nat i)) PG_PRESENT then f (Z.of_nat i) (pw p (a + 8 * Z.of_nat i)) else mreturn []) (st l p g)
    = Ret (if has (pw p (a + 8 * Z.of_nat i)) PG_PRESENT then fs (Z.of_nat i) (pw p (a + 8 * Z.of_nat i)) else [], st l p g))
    by (destruct (has _ _); [apply Hf|done]).
  rewrite (mseq_run _ _ _ _ _ E). replace (Z.of_nat i + 1) with (Z.of_nat (S i)) by lia.
  rewrite (mseq_run _ _ _ _ _ (IH (S i))). done.
Qed.

Lemma dump_table_run l (i : nat) a p g f fs : a mod 4096 = 0 -> first_none l = Some i -> (i < 10)%nat ->
  (forall k e, f k e (st (<[i := Some a]> l) p g) = Ret (fs k e, st (<[i := Some a]> l) p g)) ->
  dump_table a f (st l p g) = Ret (listing (pw p) a fs, st l p g).
Proof.
  intros Ha Hl Hi Hf. unfold dump_table. rewrite (mseq_run _ _ _ _ _ (map_run l i a p g Ha Hl Hi)).
  destruct (Z.eqb_spec (VM_PS_TADDR (Z.of_nat i)) 0) as [E|_]; [by apply TADDR_pos in E; [|lia]|].
  pose proof (first_none_lookup _ _ Hl) as Hn.
  assert (Hj : (<[i := Some a]> l) !! i = Some (Some a)) by (apply list_lookup_insert_eq; by eapply lookup_lt_Some).
  rewrite (mseq_run _ _ _ _ _ (dump_loop_run _ i a p g f fs Ha Hj Hf 512 0)).
  rewrite (mseq_run _ _ _ _ _ (unmap_run _ i p g Hi)). rewrite list_insert_insert_eq, list_insert_id; done.
Qed.

Lemma dump_pt_run l (i : nat) v e p g : first_none l = Some i -> (i < 10)%nat ->
  vmem_mgmt_dump_pt v e (st l p g) = Ret (list_pt (pw p) v e, st l p g).
Proof. intros Hl Hi. apply (dump_table_run l i); [apply frame_aligned|done|done|done]. Qed.

Lemma dump_pd_run l (i j : nat) v e p g : first_none l = Some i -> (i < 10)%nat ->
  (forall a, first_none (<[i := Some a]> l) = Some j) -> (j < 10)%nat ->
  vmem_mgmt_dump_pd v e (st l p g) = Ret (list_pd (pw p) v e, st l p g).
Proof.
  intros Hl Hi Hj Hj'. apply (dump_table_run l i); [apply frame_aligned|done|done|].
  intros k x. destruct (has x PG_LARGE); [done|]. by rewrite (mseq_run _ _ _ _ _ (dump_pt_run _ j _ _ _ _ (Hj _) Hj')).
Qed.

Lemma dump_pdpt_run a v e p g :
  vmem_mgmt_dump_pdpt v e (st (<[0%nat := Some a]> idle) p g) = Ret (list_pdpt (pw p) v e, st (<[0%nat := Some a]> idle) p g).
Proof.
  apply (dump_table_run _ 1); [apply frame_aligned|done|lia|].
  intros k x. destruct (has x PG_LARGE); [done|].
  erewrite mseq_run; [done|]. apply (dump_pd_run _ 2 3); [done|lia|done|lia].
Qed.

(** Dumping an address space, for any contents of physical memory, prints
    exactly the listing of its present entries, level by level and in order,
    changes nothing and gives every slot of the mapspace back: the walk never
    needs more than the four slots it gets. *)
Theorem vmem_mgmt_dump_lists (space : Z) (s : vm P) : slots_free s -> space mod 4096 = 0 ->
  vmem_mgmt_dump_spc space s = Ret (list_spc (pw (ph s)) space, s).
Proof.
  destruct s as [ms p g]. unfold slots_free; cbn [ps_mapspace ph]. intros -> Ha.
  change (replicate 10 0) with (cell <$> idle).
  apply (dump_table_run idle 0); [done|done|lia|].
  intros k x. by rewrite (mseq_run _ _ _ _ _ (dump_pdpt_run _ _ _ _ _)).
Qed.
End dump.

Module VmemDumpDemo.
Export VmemDemo.
Lemma vmem_mgmt_dump_lists_witness :
  vmem_mgmt_dump_spc spc0 s1 = Ret (list_spc w1 spc0, s1).
Proof. apply (vmem_mgmt_dump_lists spc0 s1); reflexivity. Defined.
End VmemDumpDemo.
