(* ===== verification/Rme.v ===== *)
(** * The real mode emulator: contrib/rme2

    The state of the emulated processor, its memory and the decoder.  The
    general registers are 32-bit values in the order of the structure, which
    is the order of their encoding; the segment registers are in the order of
    theirs.  A pointer the decoder hands out leads to a register, a segment
    register or a byte of the window of low memory that rm.c maps.

    A handler of an instruction ends like the C code: it goes on, or returns
    an error code from RME_Int_DoOpcode ([Rc]).  A signed overflow or a shift
    by the width and more is what the processor does: it wraps, and the count
    is taken modulo 32. *)

From S2P Require Import Prelude.

Definition RM_VSZ : Z := 0x110000.
Definition RME_BLOCK_SIZE : Z := RM_VSZ.
Definition RME_MAGIC_IP : Z := 0xFFFF.
Definition RME_MAGIC_CS : Z := 0xFFFF.

Definition RME_ERR_OK : Z := 0.
Definition RME_ERR_INVAL : Z := 1.
Definition RME_ERR_BADMEM : Z := 2.
Definition RME_ERR_UNDEFOPCODE : Z := 3.
Definition RME_ERR_DIVERR : Z := 4.
Definition RME_ERR_BUG : Z := 5.

Definition FLAG_DEFAULT : Z := 0x2.
Definition FLAG_CF : Z := 0x001.
Definition FLAG_PF : Z := 0x004.
Definition FLAG_AF : Z := 0x010.
Definition FLAG_ZF : Z := 0x040.
Definition FLAG_SF : Z := 0x080.
Definition FLAG_IF : Z := 0x200.
Definition FLAG_DF : Z := 0x400.
Definition FLAG_OF : Z := 0x800.

(** Indices of the general registers and of the segment registers. *)
Definition AX : nat := 0.
Definition CX : nat := 1.
Definition DX : nat := 2.
Definition BX : nat := 3.
Definition SP : nat := 4.
Definition BP : nat := 5.
Definition SI : nat := 6.
Definition DI : nat := 7.
Definition SREG_ES : nat := 0.
Definition SREG_CS : nat := 1.
Definition SREG_SS : nat := 2.
Definition SREG_DS : nat := 3.

(** What reaches the ports of the machine: width in bytes, port and value. *)
Inductive io_event := In (w port v : Z) | Out (w port v : Z).

Record tRME_State := RmeState {
  gpr : list Z;
  sreg : list Z;
  IP : Z;
  Flags : Z;
  Memory0 : Z;
  wmem : gmap Z Z;
  InstrNum : Z;
  OverrideSegment : Z;
  bOverrideOperand : bool;
  bOverrideAddress : bool;
  IPOffset : Z;
  io : list io_event;
}.

Definition set_gpr x s := RmeState x (sreg s) (IP s) (Flags s) (Memory0 s) (wmem s) (InstrNum s) (OverrideSegment s) (bOverrideOperand s) (bOverrideAddress s) (IPOffset s) (io s).
Definition set_sreg x s := RmeState (gpr s) x (IP s) (Flags s) (Memory0 s) (wmem s) (InstrNum s) (OverrideSegment s) (bOverrideOperand s) (bOverrideAddress s) (IPOffset s) (io s).
Definition set_IP x s := RmeState (gpr s) (sreg s) (u16 x) (Flags s) (Memory0 s) (wmem s) (InstrNum s) (OverrideSegment s) (bOverrideOperand s) (bOverrideAddress s) (IPOffset s) (io s).
Definition set_Flags x s := RmeState (gpr s) (sreg s) (IP s) (u16 x) (Memory0 s) (wmem s) (InstrNum s) (OverrideSegment s) (bOverrideOperand s) (bOverrideAddress s) (IPOffset s) (io s).
Definition set_wmem x s := RmeState (gpr s) (sreg s) (IP s) (Flags s) (Memory0 s) x (InstrNum s) (OverrideSegment s) (bOverrideOperand s) (bOverrideAddress s) (IPOffset s) (io s).
Definition set_decoder n seg op ad off s := RmeState (gpr s) (sreg s) (IP s) (Flags s) (Memory0 s) (wmem s) n seg op ad off (io s).
Definition set_IPOffset x s := set_decoder (InstrNum s) (OverrideSegment s) (bOverrideOperand s) (bOverrideAddress s) x s.
Definition set_io x s := RmeState (gpr s) (sreg s) (IP s) (Flags s) (Memory0 s) (wmem s) (InstrNum s) (OverrideSegment s) (bOverrideOperand s) (bOverrideAddress s) (IPOffset s) x.

(** The members of a register's union: the double word, the word, and the low
    and the high byte of the word. *)
Definition rD (r : nat) (s : tRME_State) : Z := default 0 (gpr s !! r).
Definition rW (r : nat) (s : tRME_State) : Z := u16 (rD r s).
Definition rL (r : nat) (s : tRME_State) : Z := u8 (rD r s).
Definition rH (r : nat) (s : tRME_State) : Z := u8 (rD r s / 2 ^ 8).
Definition put_D r v s := set_gpr (<[r := u32 v]> (gpr s)) s.
Definition put_W r v s := set_gpr (<[r := rD r s - rW r s + u16 v]> (gpr s)) s.
Definition put_L r v s := set_gpr (<[r := rD r s - rL r s + u8 v]> (gpr s)) s.
Definition put_H r v s := set_gpr (<[r := rD r s + (u8 v - rH r s) * 2 ^ 8]> (gpr s)) s.
Definition sg (k : nat) (s : tRME_State) : Z := default 0 (sreg s !! k).
Definition put_sg k v s := set_sreg (<[k := u16 v]> (sreg s)) s.

(** [n] bytes of the window from [off] on. *)
Fixpoint peek (n : nat) (off : Z) (m : gmap Z Z) : Z :=
  match n with O => 0 | S n' => default 0 (m !! off) + 2 ^ 8 * peek n' (off + 1) m end.
Fixpoint poke (n : nat) (off v : Z) (m : gmap Z Z) : gmap Z Z :=
  match n with O => m | S n' => poke n' (off + 1) (v / 2 ^ 8) (<[off := u8 v]> m) end.

(** ** Handlers that may return early *)

Inductive step (A : Type) := Go (a : A) | Rc (code : Z).
Arguments Go {A} a.
Arguments Rc {A} code.

Definition R (A : Type) : Type := M tRME_State (step A).

Definition rret {A} (a : A) : R A := mreturn (Go a).
Definition rfail {A} (code : Z) : R A := mreturn (Rc code).
Definition rbind {A B} (c : R A) (k : A -> R B) : R B :=
  r <- c ;; match r with Go a => k a | Rc e => mreturn (Rc e) end.
Definition rgets {A} (f : tRME_State -> A) : R A := fun s => Ret (Go (f s), s).
Definition rmod (f : tRME_State -> tRME_State) : R unit := fun s => Ret (Go tt, f s).

Notation "x <~ c ;; k" := (rbind c (fun x => k))
  (at level 100, c at next level, right associativity) : kernel_scope.
Notation "c ;~ k" := (rbind c (fun _ => k))
  (at level 100, right associativity) : kernel_scope.

(** ** Pointers *)

(** A byte register, the word (or double word) of a register, its upper half,
    a segment register, a byte of the window, NULL, an unset variable. *)
Inductive ptr :=
| PB (r : nat) (high : bool)
| PW (r : nat)
| PUp (r : nat)
| PS (k : nat)
| PM (off : Z)
| PNull
| PUnset.

Definition wild {A} : R A := mfault (-1).

(** An access of [n] bytes at offset [off] of the window. *)
Definition in_window (n : nat) (off : Z) : bool := (0 <=? off) && (off + Z.of_nat n <=? RM_VSZ).
Definition ld_mem (n : nat) (off : Z) : R Z := fun s =>
  if in_window n off then Ret (Go (peek n off (wmem s)), s) else Fault (Memory0 s + off).
Definition st_mem (n : nat) (off v : Z) : R unit := fun s =>
  if in_window n off then Ret (Go tt, set_wmem (poke n off v (wmem s)) s) else Fault (Memory0 s + off).

(** [*p] for a pointer to one, two and four bytes.  The upper half of a
    register is followed by the next register, that of DI by SS. *)
Definition ld8 (p : ptr) : R Z :=
  match p with
  | PB r false => rgets (rL r)
  | PB r true => rgets (rH r)
  | PM off => ld_mem 1 off
  | PNull => mfault 0
  | _ => wild
  end.
Definition ld16 (p : ptr) : R Z :=
  match p with
  | PW r => rgets (rW r)
  | PUp r => rgets (fun s => rD r s / 2 ^ 16)
  | PS k => rgets (sg k)
  | PM off => ld_mem 2 off
  | PNull => mfault 0
  | _ => wild
  end.
Definition ld32 (p : ptr) : R Z :=
  match p with
  | PW r => rgets (rD r)
  | PUp r => rgets (fun s => rD r s / 2 ^ 16 + 2 ^ 16 * (if decide (r = DI) then sg SREG_SS s else rW (S r) s))
  | PM off => ld_mem 4 off
  | PNull => mfault 0
  | _ => wild
  end.
Definition st8 (p : ptr) (v : Z) : R unit :=
  match p with
  | PB r false => rmod (put_L r v)
  | PB r true => rmod (put_H r v)
  | PM off => st_mem 1 off v
  | PNull => mfault 0
  | _ => wild
  end.
Definition st16 (p : ptr) (v : Z) : R unit :=
  match p with
  | PW r => rmod (put_W r v)
  | PS k => rmod (put_sg k v)
  | PM off => st_mem 2 off v
  | PNull => mfault 0
  | _ => wild
  end.
Definition st32 (p : ptr) (v : Z) : R unit :=
  match p with
  | PW r => rmod (put_D r v)
  | PM off => st_mem 4 off v
  | PNull => mfault 0
  | _ => wild
  end.

(** ** Memory *)

Definition RME_Int_GetPtr (Seg Ofs : Z) : R ptr := fun s =>
  let addr := u32 (u16 Seg * 16 + u16 Ofs) in
  if 1 <=? addr / RME_BLOCK_SIZE then Fault addr
  else if Memory0 s =? 0 then Ret (Rc RME_ERR_BADMEM, s)
  else Ret (Go (PM (addr mod RME_BLOCK_SIZE)), s).

Definition RME_Int_Read8 (Seg Ofs : Z) : R Z := p <~ RME_Int_GetPtr Seg Ofs ;; ld8 p.
Definition RME_Int_Read16 (Seg Ofs : Z) : R Z := p <~ RME_Int_GetPtr Seg Ofs ;; ld16 p.
Definition RME_Int_Read32 (Seg Ofs : Z) : R Z := p <~ RME_Int_GetPtr Seg Ofs ;; ld32 p.
Definition RME_Int_Write8 (Seg Ofs Val : Z) : R unit := p <~ RME_Int_GetPtr Seg Ofs ;; st8 p Val.
Definition RME_Int_Write16 (Seg Ofs Val : Z) : R unit := p <~ RME_Int_GetPtr Seg Ofs ;; st16 p Val.
Definition RME_Int_Write32 (Seg Ofs Val : Z) : R unit := p <~ RME_Int_GetPtr Seg Ofs ;; st32 p Val.

(** The stack.  The value pushed is read before SP moves. *)
Definition PUSH (v : Z) : R unit :=
  rmod (fun s => put_W SP (rW SP s - 2) s) ;~
  ss <~ rgets (sg SREG_SS) ;; sp <~ rgets (rW SP) ;;
  RME_Int_Write16 ss sp v.
Definition POP : R Z :=
  ss <~ rgets (sg SREG_SS) ;; sp <~ rgets (rW SP) ;;
  v <~ RME_Int_Read16 ss sp ;;
  rmod (fun s => put_W SP (rW SP s + 2) s) ;~
  rret v.

(** The instruction stream. *)
Definition read_instr (n : Z) (rd : Z -> Z -> R Z) : R Z :=
  cs <~ rgets (sg SREG_CS) ;; o <~ rgets (fun s => IP s + IPOffset s) ;;
  v <~ rd cs o ;;
  rmod (fun s => set_IPOffset (IPOffset s + n) s) ;~
  rret v.
Definition READ_INSTR8 : R Z := read_instr 1 RME_Int_Read8.
Definition READ_INSTR16 : R Z := read_instr 2 RME_Int_Read16.
Definition READ_INSTR32 : R Z := read_instr 4 RME_Int_Read32.

(** A byte as a signed number. *)
Definition s8 (x : Z) : Z := if u8 x <? 2 ^ 7 then u8 x else u8 x - 2 ^ 8.
Definition s16 (x : Z) : Z := if u16 x <? 2 ^ 15 then u16 x else u16 x - 2 ^ 16.
Definition READ_INSTR8S : R Z := v <~ READ_INSTR8 ;; rret (s8 v).

(** [READ_INSTR8( byte2 ); IPOffset --;] *)
Definition peek_instr8 : R Z :=
  v <~ READ_INSTR8 ;; rmod (fun s => set_IPOffset (IPOffset s - 1) s) ;~ rret v.

(** ** Flags *)

Definition has_flag (fl f : Z) : bool := negb (Z.land fl f =? 0).
Definition clr (fl f : Z) : Z := Z.ldiff fl f.
Definition set_if (b : bool) (f fl : Z) : Z := if b then Z.lor fl f else fl.

(** The exclusive or of the lowest [n] bits. *)
Fixpoint pairity (n : nat) (v : Z) : bool :=
  match n with O => false | S n' => xorb (Z.testbit v (Z.of_nat n')) (pairity n' v) end.
Definition SET_PF (v w fl : Z) : Z := set_if (negb (pairity (Z.to_nat w) v)) FLAG_PF fl.
Definition SET_COMM_FLAGS (v w fl : Z) : Z :=
  let fl := clr fl (Z.lor FLAG_ZF (Z.lor FLAG_SF FLAG_CF)) in
  let fl := set_if (v =? 0) FLAG_ZF fl in
  let fl := set_if (negb (Z.shiftr v (w - 1) =? 0)) FLAG_SF fl in
  SET_PF v w fl.

Definition ARITH_FLAGS : Z := Z.lor FLAG_PF (Z.lor FLAG_ZF (Z.lor FLAG_SF (Z.lor FLAG_OF FLAG_CF))).
Definition INC_FLAGS : Z := Z.lor FLAG_OF (Z.lor FLAG_ZF (Z.lor FLAG_SF FLAG_PF)).

(** The value of an expression of type [uintw_t] and of type [int]. *)
Definition uw (w v : Z) : Z := v mod 2 ^ w.

(** ** Arithmetic: new value and flags *)

Definition RME_Int_DoAdd (w to from fl : Z) : Z * Z :=
  let to := uw w (to + from) in
  (to, set_if (to <? from) (Z.lor FLAG_OF FLAG_CF) (SET_COMM_FLAGS to w (clr fl ARITH_FLAGS))).
Definition RME_Int_DoOr (w to from fl : Z) : Z * Z :=
  let to := Z.lor to from in (to, SET_COMM_FLAGS to w (clr fl ARITH_FLAGS)).
Definition RME_Int_DoAdc (w to from fl : Z) : Z * Z :=
  let to := uw w (to + (from + (if has_flag fl FLAG_CF then 1 else 0))) in
  (to, set_if (to <? from) (Z.lor FLAG_OF FLAG_CF) (SET_COMM_FLAGS to w (clr fl ARITH_FLAGS))).
Definition sub_overflows (w to from v : Z) : bool :=
  Z.testbit (Z.land (Z.lxor to from) (Z.lxor to v)) (w - 1).
Definition RME_Int_DoSbb (w to from fl : Z) : Z * Z :=
  let v := s32 (to - from + (if has_flag fl FLAG_CF then 1 else 0)) in
  let fl := SET_COMM_FLAGS to w (clr fl ARITH_FLAGS) in
  let fl := set_if ((to <? from) || (from =? Z.lor (2 ^ (w - 2)) (2 ^ (w - 1)))) FLAG_CF fl in
  (uw w v, set_if (sub_overflows w to from v) FLAG_OF fl).
Definition RME_Int_DoAnd (w to from fl : Z) : Z * Z :=
  let to := Z.land to from in (to, SET_COMM_FLAGS to w (clr fl ARITH_FLAGS)).
Definition RME_Int_DoSub (w to from fl : Z) : Z * Z :=
  let v := s32 (to - from) in
  let fl := SET_COMM_FLAGS to w (clr fl ARITH_FLAGS) in
  let fl := set_if (to <? from) FLAG_CF fl in
  (uw w v, set_if (sub_overflows w to from v) FLAG_OF fl).
Definition RME_Int_DoXor (w to from fl : Z) : Z * Z :=
  let to := Z.lxor to from in (to, SET_COMM_FLAGS to w (clr fl ARITH_FLAGS)).
Definition RME_Int_DoCmp (w to from fl : Z) : Z :=
  let v := s32 (to - from) in
  let fl := SET_COMM_FLAGS v w (clr fl ARITH_FLAGS) in
  let fl := set_if (to <? from) FLAG_CF fl in
  set_if (sub_overflows w to from v) FLAG_OF fl.
Definition RME_Int_DoTest (w to from fl : Z) : Z :=
  SET_COMM_FLAGS (s32 (Z.land to from)) w (clr fl ARITH_FLAGS).

(** [RME_Int_DoArithOp]: the new value, or [None] when nothing is stored, and
    the flags; [None] for a number the switch does not have. *)
Definition RME_Int_DoArithOp (num w to from fl : Z) : option (option Z * Z) :=
  let stored (r : Z * Z) := Some (Some r.1, r.2) in
  if num =? 0 then stored (RME_Int_DoAdd w to from fl)
  else if num =? 1 then stored (RME_Int_DoOr w to from fl)
  else if num =? 2 then stored (RME_Int_DoAdc w to from fl)
  else if num =? 3 then stored (RME_Int_DoSbb w to from fl)
  else if num =? 4 then stored (RME_Int_DoAnd w to from fl)
  else if num =? 5 then stored (RME_Int_DoSub w to from fl)
  else if num =? 6 then stored (RME_Int_DoXor w to from fl)
  else if num =? 7 then Some (None, RME_Int_DoCmp w to from fl)
  else None.

(** Shifts.  In [to >> n | to << (w - n)] and [to << n] the operands are
    promoted to 32 bits. *)
Definition RME_Int_DoRor (w to from fl : Z) : Z * Z :=
  let to := uw w (Z.lor (Z.shiftr to (from mod 32)) (Z.shiftl to ((w - from) mod 32))) in
  (to, set_if (negb (Z.shiftr to (w - 1) =? 0)) FLAG_CF (SET_COMM_FLAGS to w (clr fl ARITH_FLAGS))).
Definition RME_Int_DoShl (w to from fl : Z) : Z * Z :=
  let to := uw w (Z.shiftl to (from mod 32)) in
  (to, set_if (negb (Z.shiftr to (w - 1) =? 0)) FLAG_CF (SET_COMM_FLAGS to w (clr fl ARITH_FLAGS))).
Definition RME_Int_DoShr (w to from fl : Z) : Z * Z :=
  let to := Z.shiftr to (from mod 32) in
  (to, set_if (Z.testbit to 0) FLAG_CF (SET_COMM_FLAGS to w (clr fl ARITH_FLAGS))).
Definition RME_Int_DoLogicOp (num w to from fl : Z) : option (Z * Z) :=
  if num =? 1 then Some (RME_Int_DoRor w to from fl)
  else if num =? 4 then Some (RME_Int_DoShl w to from fl)
  else if num =? 5 then Some (RME_Int_DoShr w to from fl)
  else None.

(** ** Registers and ModR/M *)

Definition RegB (num : Z) : ptr := PB (Z.to_nat (num mod 4)) (4 <=? num).
Definition RegW (num : Z) : ptr := PW (Z.to_nat num).
Definition Seg (code : Z) : ptr := if code <? 4 then PS (Z.to_nat code) else PNull.

(** [GET_SEGMENT] *)
Definition GET_SEGMENT (def : nat) : R ptr :=
  rgets (fun s => Seg (if OverrideSegment s =? -1 then Z.of_nat def else OverrideSegment s)).

(** [DoFunc]; [mmm] is -1 for an address in the instruction. *)
Definition DoFunc (mmm disp : Z) : R ptr :=
  let def := if (mmm =? 2) || (mmm =? 3) || (mmm =? 6) then SREG_SS else SREG_DS in
  segp <~ GET_SEGMENT def ;;
  seg <~ ld16 segp ;;
  addr <~ (if mmm =? -1 then READ_INSTR16
           else rgets (fun s =>
             if mmm =? 0 then rW BX s + rW SI s + disp
             else if mmm =? 1 then rW BX s + rW DI s + disp
             else if mmm =? 2 then rW BP s + rW SI s + disp
             else if mmm =? 3 then rW BP s + rW DI s + disp
             else if mmm =? 4 then rW SI s + disp
             else if mmm =? 5 then rW DI s + disp
             else if mmm =? 6 then rW BP s + disp
             else rW BX s + disp)) ;;
  RME_Int_GetPtr seg addr.

(** The two fields of the ModR/M byte: [reg] gives the pointer for the
    register field, the other pointer is that of the R/M field. *)
Definition parse_modrm (reg : Z -> ptr) : R (ptr * ptr) :=
  d <~ READ_INSTR8 ;;
  let m := Z.land d 7 in
  let to := reg (Z.land (Z.shiftr d 3) 7) in
  let mode := Z.shiftr d 6 in
  if mode =? 0 then p <~ (if m =? 6 then DoFunc (-1) 0 else DoFunc m 0) ;; rret (to, p)
  else if mode =? 1 then ofs <~ READ_INSTR8S ;; p <~ DoFunc m ofs ;; rret (to, p)
  else if mode =? 2 then ofs <~ READ_INSTR16 ;; p <~ DoFunc m (s16 ofs) ;; rret (to, p)
  else rret (to, reg m).
Definition RME_Int_ParseModRM : R (ptr * ptr) := parse_modrm RegB.
Definition RME_Int_ParseModRMX : R (ptr * ptr) := parse_modrm RegW.

(** ** Operations on operands *)

(** The operand of a word instruction is a double word with the prefix 0x66. *)
Definition wide : R bool := rgets bOverrideOperand.
Definition ldx (p : ptr) : R Z := w <~ wide ;; if (w : bool) then ld32 p else ld16 p.
Definition stx (p : ptr) (v : Z) : R unit := w <~ wide ;; if (w : bool) then st32 p v else st16 p v.
Definition READ_INSTRX : R Z := w <~ wide ;; if (w : bool) then READ_INSTR32 else READ_INSTR16.
Definition width : R Z := w <~ wide ;; rret (if (w : bool) then 32 else 16).

Definition arith (num w : Z) (ld : ptr -> R Z) (st : ptr -> Z -> R unit) (to : ptr) (src : Z) : R unit :=
  v <~ ld to ;; fl <~ rgets Flags ;;
  match RME_Int_DoArithOp num w v src fl with
  | None => rfail RME_ERR_BUG
  | Some (r, fl') =>
      match r with Some v' => st to v' | None => rret tt end ;~
      rmod (set_Flags fl')
  end.
Definition RME_Int_DoArithOp8 (num : Z) (to : ptr) (src : Z) : R unit := arith num 8 ld8 st8 to (u8 src).
(** [RME_Int_DoArithOp16] or [RME_Int_DoArithOp32] *)
Definition RME_Int_DoArithOpX (num : Z) (to : ptr) (src : Z) : R unit :=
  w <~ width ;; arith num w ldx stx to (uw w src).

Definition logic (num w : Z) (ld : ptr -> R Z) (st : ptr -> Z -> R unit) (to : ptr) (n : Z) : R unit :=
  v <~ ld to ;; fl <~ rgets Flags ;;
  match RME_Int_DoLogicOp num w v n fl with
  | None => rfail RME_ERR_UNDEFOPCODE
  | Some (v', fl') => st to v' ;~ rmod (set_Flags fl')
  end.
Definition logic8 (num : Z) (to : ptr) (n : Z) : R unit := logic num 8 ld8 st8 to n.
Definition logicx (num : Z) (to : ptr) (n : Z) : R unit := w <~ width ;; logic num w ldx stx to n.

Definition test (w to from : Z) : R unit := rmod (fun s => set_Flags (RME_Int_DoTest w to from (Flags s)) s).

(** How a case of the switch is left: with [break], with [break] after
    clearing [repType], or with [goto ret]. *)
Inductive ctl := Brk | BrkRep | GoRet.

Definition brk (c : R unit) : R ctl := c ;~ rret Brk.
Definition undef {A} : R A := rfail RME_ERR_UNDEFOPCODE.

(** ** The instructions *)

(** 0x00 to 0x3D: the low three bits select the operands. *)
Definition op_arith (opcode : Z) : R ctl :=
  let num := Z.shiftr opcode 3 in
  let form := Z.land opcode 7 in
  if form =? 0 then rm <~ RME_Int_ParseModRM ;; v <~ ld8 rm.1 ;; brk (RME_Int_DoArithOp8 num rm.2 v)
  else if form =? 1 then rm <~ RME_Int_ParseModRMX ;; v <~ ldx rm.1 ;; brk (RME_Int_DoArithOpX num rm.2 v)
  else if form =? 2 then rm <~ RME_Int_ParseModRM ;; v <~ ld8 rm.2 ;; brk (RME_Int_DoArithOp8 num rm.1 v)
  else if form =? 3 then rm <~ RME_Int_ParseModRMX ;; v <~ ldx rm.2 ;; brk (RME_Int_DoArithOpX num rm.1 v)
  else if form =? 4 then v <~ READ_INSTR8 ;; brk (RME_Int_DoArithOp8 num (PB AX false) v)
  else v <~ READ_INSTRX ;; brk (RME_Int_DoArithOpX num (PW AX) v).

Definition op_80 : R ctl :=
  b <~ peek_instr8 ;; rm <~ RME_Int_ParseModRM ;;
  v <~ READ_INSTR8 ;; brk (RME_Int_DoArithOp8 (Z.land (Z.shiftr b 3) 7) rm.2 v).
Definition op_81 : R ctl :=
  b <~ peek_instr8 ;; rm <~ RME_Int_ParseModRMX ;;
  v <~ READ_INSTRX ;; brk (RME_Int_DoArithOpX (Z.land (Z.shiftr b 3) 7) rm.2 v).
Definition op_83 : R ctl :=
  b <~ peek_instr8 ;; rm <~ RME_Int_ParseModRMX ;;
  v <~ READ_INSTR8S ;; brk (RME_Int_DoArithOpX (Z.land (Z.shiftr b 3) 7) rm.2 v).

(** Shifts: 0xC0 and 0xC1 by a byte, 0xD0 and 0xD1 by one, 0xD2 and 0xD3 by CL. *)
Definition op_C0 : R ctl :=
  b <~ peek_instr8 ;; rm <~ RME_Int_ParseModRM ;;
  n <~ READ_INSTR8 ;; brk (logic8 (Z.land (Z.shiftr b 3) 7) rm.2 n).
Definition op_C1 : R ctl :=
  b <~ peek_instr8 ;; rm <~ RME_Int_ParseModRMX ;;
  n <~ READ_INSTR8 ;; brk (logicx (Z.land (Z.shiftr b 3) 7) rm.2 n).
Definition op_D0 : R ctl :=
  b <~ peek_instr8 ;; rm <~ RME_Int_ParseModRM ;; brk (logic8 (Z.land (Z.shiftr b 3) 7) rm.2 1).
Definition op_D1 : R ctl :=
  b <~ peek_instr8 ;; rm <~ RME_Int_ParseModRMX ;; brk (logicx (Z.land (Z.shiftr b 3) 7) rm.2 1).
Definition op_D2 : R ctl :=
  b <~ peek_instr8 ;; rm <~ RME_Int_ParseModRM ;;
  n <~ rgets (rL CX) ;; brk (logic8 (Z.land (Z.shiftr b 3) 7) rm.2 n).
Definition op_D3 : R ctl :=
  b <~ peek_instr8 ;; rm <~ RME_Int_ParseModRMX ;;
  n <~ rgets (rL CX) ;; brk (logicx (Z.land (Z.shiftr b 3) 7) rm.2 n).

(** The flags of NEG, of INC and of DEC for the new value. *)
Definition neg_flags (w v fl : Z) : Z := SET_COMM_FLAGS v w (set_if (v =? 0) FLAG_CF (clr fl FLAG_OF)).
Definition inc_flags (w v fl : Z) : Z :=
  let fl := SET_COMM_FLAGS v w (clr fl INC_FLAGS) in set_if (has_flag fl FLAG_ZF) FLAG_OF fl.
Definition dec_flags (w v fl : Z) : Z :=
  set_if (v =? 2 ^ w - 1) FLAG_OF (SET_COMM_FLAGS v w (clr fl INC_FLAGS)).

Definition op_F6 : R ctl :=
  b <~ peek_instr8 ;;
  let sub := Z.land (Z.shiftr b 3) 7 in
  if sub =? 0 then rm <~ RME_Int_ParseModRM ;; n <~ READ_INSTR8 ;; v <~ ld8 rm.2 ;; brk (test 8 v n)
  else if sub =? 1 then undef
  else if sub =? 2 then rm <~ RME_Int_ParseModRM ;; v <~ ld8 rm.2 ;; brk (st8 rm.2 (Z.lnot v))
  else if sub =? 3 then
    rm <~ RME_Int_ParseModRM ;; v <~ ld8 rm.2 ;; st8 rm.2 (- v) ;~
    brk (rmod (fun s => set_Flags (neg_flags 8 (u8 (- v)) (Flags s)) s))
  else if sub =? 4 then
    rm <~ RME_Int_ParseModRM ;; v <~ ld8 rm.2 ;; brk (rmod (fun s => put_W AX (rL AX s * v) s))
  else if sub =? 5 then
    rm <~ RME_Int_ParseModRM ;; v <~ ld8 rm.2 ;; brk (rmod (fun s => put_W AX (s8 (rL AX s) * s8 v) s))
  else if sub =? 6 then
    rm <~ RME_Int_ParseModRM ;; v <~ ld8 rm.2 ;;
    if v =? 0 then rfail RME_ERR_DIVERR
    else
      ax <~ rgets (rW AX) ;;
      let q := ax / v in
      if 0xFF <? q then rfail RME_ERR_DIVERR
      else brk (rmod (put_W AX (Z.lor q (Z.shiftl (ax - q * v) 8))))
  else undef.

(** NOT and NEG of a word: the test after the decoding is the wrong way
    round, the instruction is left at once when the operand was found; else
    the operand is an unset pointer. *)
Definition not_neg_word (op : R unit) : R ctl :=
  fun s =>
    match RME_Int_ParseModRMX s with
    | Ret (Go _, s') => Ret (Rc 0, s')
    | Ret (Rc _, s') => brk op s'
    | Fault a => Fault a
    | Fatal e => Fatal e
    | Deadlock => Deadlock
    | NoFuel => NoFuel
    end.

Definition op_F7 : R ctl :=
  b <~ peek_instr8 ;;
  let sub := Z.land (Z.shiftr b 3) 7 in
  if sub =? 0 then
    rm <~ RME_Int_ParseModRMX ;; n <~ READ_INSTRX ;; v <~ ldx rm.2 ;; w <~ width ;; brk (test w v n)
  else if sub =? 1 then undef
  else if sub =? 2 then not_neg_word (v <~ ldx PUnset ;; stx PUnset (Z.lnot v))
  else if sub =? 3 then
    not_neg_word (v <~ ldx PUnset ;; stx PUnset (- v) ;~ w <~ width ;;
                  rmod (fun s => set_Flags (neg_flags w (uw w (- v)) (Flags s)) s))
  else if sub =? 4 then
    w <~ wide ;;
    if (w : bool) then undef
    else
      rm <~ RME_Int_ParseModRMX ;; v <~ ld16 rm.2 ;; ax <~ rgets (rW AX) ;;
      let dword := u32 (ax * v) in
      let cf := Z.lor FLAG_CF FLAG_OF in
      rmod (fun s => set_Flags (if dword =? ax then clr (Flags s) cf else Z.lor (Flags s) cf) s) ;~
      rmod (put_W DX (Z.shiftr dword 16)) ;~
      brk (rmod (put_W AX dword))
  else if sub =? 5 then
    w <~ wide ;;
    if (w : bool) then undef
    else
      rm <~ RME_Int_ParseModRMX ;; v <~ ld16 rm.2 ;; ax <~ rgets (rW AX) ;;
      let dword := u32 (s16 ax * s16 v) in
      let cf := Z.lor FLAG_CF FLAG_OF in
      rmod (fun s => set_Flags (if s32 dword =? s16 ax then clr (Flags s) cf else Z.lor (Flags s) cf) s) ;~
      rmod (put_W DX (Z.shiftr dword 16)) ;~
      brk (rmod (put_W AX dword))
  else if sub =? 6 then
    rm <~ RME_Int_ParseModRMX ;; w <~ wide ;;
    v <~ ldx rm.2 ;;
    if v =? 0 then rfail RME_ERR_DIVERR
    else if (w : bool) then
      qword <~ rgets (fun s => rD DX s * 2 ^ 32 + rD AX s) ;;
      let q := qword / v in
      if 0xFFFFFFFF <? q then rfail RME_ERR_DIVERR
      else rmod (put_D AX q) ;~ v' <~ ldx rm.2 ;; brk (rmod (put_D DX (qword - q * v')))
    else
      dword <~ rgets (fun s => rW DX s * 2 ^ 16 + rW AX s) ;;
      let q := dword / v in
      if 0xFFFF <? q then rfail RME_ERR_DIVERR
      else rmod (put_W AX q) ;~ v' <~ ldx rm.2 ;; brk (rmod (put_W DX (dword - q * v')))
  else undef.

(** INC and DEC of an operand. *)
Definition step_op (w : Z) (ld : ptr -> R Z) (st : ptr -> Z -> R unit) (p : ptr) (d : Z) : R unit :=
  v <~ ld p ;; let v' := uw w (v + d) in
  st p v' ;~
  rmod (fun s => set_Flags ((if d =? 1 then inc_flags else dec_flags) w v' (Flags s)) s).
Definition step_x (p : ptr) (d : Z) : R unit := w <~ width ;; step_op w ldx stx p d.

Definition op_FE : R ctl :=
  b <~ peek_instr8 ;;
  let sub := Z.land (Z.shiftr b 3) 7 in
  if sub =? 0 then rm <~ RME_Int_ParseModRM ;; brk (step_op 8 ld8 st8 rm.2 1)
  else if sub =? 1 then rm <~ RME_Int_ParseModRM ;; brk (step_op 8 ld8 st8 rm.2 (-1))
  else undef.

Definition op_FF : R ctl :=
  b <~ peek_instr8 ;;
  let sub := Z.land (Z.shiftr b 3) 7 in
  if sub =? 0 then rm <~ RME_Int_ParseModRMX ;; brk (step_x rm.2 1)
  else if sub =? 1 then rm <~ RME_Int_ParseModRMX ;; brk (step_x rm.2 (-1))
  else if sub =? 2 then
    rm <~ RME_Int_ParseModRMX ;;
    ret <~ rgets (fun s => IP s + IPOffset s) ;; PUSH ret ;~
    v <~ ld16 rm.2 ;; rmod (set_IP v) ;~ rret GoRet
  else if sub =? 4 then
    rm <~ RME_Int_ParseModRMX ;; v <~ ld16 rm.2 ;; rmod (set_IP v) ;~ rret GoRet
  else if sub =? 6 then rm <~ RME_Int_ParseModRMX ;; v <~ ld16 rm.2 ;; brk (PUSH v)
  else undef.

Definition op_test (opcode : Z) : R ctl :=
  if opcode =? 0x84 then rm <~ RME_Int_ParseModRM ;; a <~ ld8 rm.1 ;; b <~ ld8 rm.2 ;; brk (test 8 a b)
  else if opcode =? 0x85 then
    rm <~ RME_Int_ParseModRMX ;; a <~ ldx rm.1 ;; b <~ ldx rm.2 ;; w <~ width ;; brk (test w a b)
  else if opcode =? 0xA8 then n <~ READ_INSTR8 ;; a <~ rgets (rL AX) ;; brk (test 8 a n)
  else n <~ READ_INSTRX ;; a <~ ldx (PW AX) ;; w <~ width ;; brk (test w a n).

Definition op_flag (opcode : Z) : R ctl :=
  brk (rmod (fun s => set_Flags
    (if opcode =? 0xF8 then clr (Flags s) FLAG_CF
     else if opcode =? 0xF9 then Z.lor (Flags s) FLAG_CF
     else if opcode =? 0xFA then clr (Flags s) FLAG_IF
     else if opcode =? 0xFB then Z.lor (Flags s) FLAG_IF
     else if opcode =? 0xFC then clr (Flags s) FLAG_DF
     else Z.lor (Flags s) FLAG_DF) s)).

Definition op_inc (opcode : Z) : R ctl := brk (step_x (RegW (Z.land opcode 7)) 1).
Definition op_dec (opcode : Z) : R ctl := brk (step_x (RegW (Z.land opcode 7)) (-1)).

Section machine.
(** What a port answers, given what happened at the ports before; and the
    handlers a client may install for software interrupts. *)
Variable hw : list io_event -> Z -> Z -> Z.
Variable HLECallbacks : Z -> option (tRME_State -> tRME_State).

(** [in{b,w,l}(port)] *)
Definition port_in (w port : Z) : R Z := fun s =>
  let v := uw (8 * w) (hw (io s) w port) in Ret (Go v, set_io (io s ++ [In w port v]) s).
(** [out{b,w,l}(v, port)]: the kernel's functions take the value first. *)
Definition port_out (w v port : Z) : R unit :=
  rmod (fun s => set_io (io s ++ [Out w (u16 port) (uw (8 * w) v)]) s).
(** The emulator's macros: [outb(port, val)]. *)
Definition outX (w port val : Z) : R unit := port_out w port val.

(** 0xE4 to 0xE7 with the port in the instruction, 0xEC to 0xEF in DX. *)
Definition op_io (opcode : Z) : R ctl :=
  port <~ (if Z.land opcode 8 =? 0 then READ_INSTR8 else rgets (rW DX)) ;;
  w <~ wide ;;
  let form := Z.land opcode 3 in
  if form =? 0 then v <~ port_in 1 port ;; brk (rmod (put_L AX v))
  else if form =? 1 then
    if (w : bool) then v <~ port_in 4 port ;; brk (rmod (put_D AX v))
    else v <~ port_in 2 port ;; brk (rmod (put_W AX v))
  else if form =? 2 then v <~ rgets (rL AX) ;; brk (outX 1 port v)
  else if (w : bool) then v <~ rgets (rD AX) ;; brk (outX 4 port v)
  else v <~ rgets (rW AX) ;; brk (outX 2 port v).

(** The emulated part of a software interrupt; [check]: refuse a vector 0:0. *)
Definition enter_int (check : bool) (num : Z) : R ctl :=
  pt1 <~ RME_Int_Read16 0 (num * 4) ;; pt2 <~ RME_Int_Read16 0 (num * 4 + 2) ;;
  if check && (pt1 =? 0) && (pt2 =? 0) then rfail RME_ERR_BADMEM
  else
    fl <~ rgets Flags ;; PUSH fl ;~
    cs <~ rgets (sg SREG_CS) ;; PUSH cs ;~
    ip <~ rgets IP ;; PUSH ip ;~
    rmod (set_IP pt1) ;~ rmod (put_sg SREG_CS pt2) ;~ rret GoRet.
Definition op_int (check : bool) (num : Z) : R ctl :=
  match HLECallbacks num with
  | Some f => brk (rmod f)
  | None => enter_int check num
  end.
Definition op_iret : R ctl :=
  ip <~ POP ;; rmod (set_IP ip) ;~
  cs <~ POP ;; rmod (put_sg SREG_CS cs) ;~
  fl <~ POP ;; rmod (set_Flags fl) ;~ rret GoRet.

(** 0xA0 to 0xA3: the accumulator and an address in the instruction.  0xA1
    reads from DS whatever the prefix says. *)
Definition op_mov_mo (opcode : Z) : R ctl :=
  segp <~ GET_SEGMENT SREG_DS ;; seg <~ ld16 segp ;; ofs <~ READ_INSTR16 ;; w <~ wide ;;
  if opcode =? 0xA2 then v <~ rgets (rW AX) ;; brk (RME_Int_Write8 seg ofs (Z.land v 0xFF))
  else if opcode =? 0xA3 then
    if (w : bool) then v <~ rgets (rD AX) ;; brk (RME_Int_Write32 seg ofs v)
    else v <~ rgets (rW AX) ;; brk (RME_Int_Write16 seg ofs v)
  else if opcode =? 0xA0 then v <~ RME_Int_Read8 seg ofs ;; brk (rmod (put_L AX v))
  else
    ds <~ rgets (sg SREG_DS) ;;
    if (w : bool) then v <~ RME_Int_Read32 ds ofs ;; brk (rmod (put_D AX v))
    else v <~ RME_Int_Read16 ds ofs ;; brk (rmod (put_W AX v)).

Definition op_mov (opcode : Z) : R ctl :=
  if opcode =? 0xC6 then rm <~ RME_Int_ParseModRM ;; v <~ READ_INSTR8 ;; brk (st8 rm.2 v)
  else if opcode =? 0xC7 then rm <~ RME_Int_ParseModRMX ;; v <~ READ_INSTRX ;; brk (stx rm.2 v)
  else if opcode =? 0x8A then rm <~ RME_Int_ParseModRM ;; v <~ ld8 rm.2 ;; brk (st8 rm.1 v)
  else if opcode =? 0x8B then rm <~ RME_Int_ParseModRMX ;; v <~ ldx rm.2 ;; brk (stx rm.1 v)
  else if opcode =? 0x88 then rm <~ RME_Int_ParseModRM ;; v <~ ld8 rm.1 ;; brk (st8 rm.2 v)
  else rm <~ RME_Int_ParseModRMX ;; v <~ ldx rm.1 ;; brk (stx rm.2 v).

(** 0xB0 to 0xBF.  With the prefix 0x66 the immediate is still a word. *)
Definition op_mov_ri (opcode : Z) : R ctl :=
  if opcode <? 0xB8 then v <~ READ_INSTR8 ;; brk (st8 (RegB (Z.land opcode 7)) v)
  else v <~ READ_INSTR16 ;; brk (stx (RegW (Z.land opcode 7)) v).

(** 0x8C stores a segment register, 0x8E loads one. *)
Definition op_mov_rs : R ctl :=
  b <~ peek_instr8 ;; let from := Seg (Z.land (Z.shiftr b 3) 7) in
  rm <~ RME_Int_ParseModRMX ;; v <~ ld16 from ;; brk (st16 rm.2 v).
Definition op_mov_sr : R ctl :=
  b <~ peek_instr8 ;; let to := Seg (Z.land (Z.shiftr b 3) 7) in
  rm <~ RME_Int_ParseModRMX ;; v <~ ld16 rm.2 ;; brk (st16 to v).

Definition jump_by (v : Z) : R unit := rmod (fun s => set_IP (IP s + v) s).
Definition op_jmp (opcode : Z) : R ctl :=
  if opcode =? 0xEB then v <~ READ_INSTR8S ;; brk (jump_by v)
  else if opcode =? 0xE9 then v <~ READ_INSTR16 ;; brk (jump_by v)
  else
    pt1 <~ READ_INSTR16 ;; pt2 <~ READ_INSTR16 ;;
    rmod (put_sg SREG_CS pt2) ;~ rmod (set_IP pt1) ;~ rret GoRet.

(** [XCHG] *)
Definition xchg (a b : ptr) : R unit :=
  t <~ ldx a ;; v <~ ldx b ;; stx a v ;~ stx b t.
Definition op_xchg (opcode : Z) : R ctl :=
  if opcode =? 0x90 then rret Brk
  else if opcode =? 0x86 then rm <~ RME_Int_ParseModRMX ;; brk (xchg rm.1 rm.2)
  else brk (xchg (PW AX) (RegW (Z.land opcode 7))).

Definition push_reg (r : nat) : R unit := v <~ rgets (rW r) ;; PUSH v.
Definition push_seg (k : nat) : R unit := v <~ rgets (sg k) ;; PUSH v.
Definition op_push (opcode : Z) : R ctl :=
  if opcode =? 0x9C then v <~ rgets Flags ;; brk (PUSH v)
  else if opcode =? 0x60 then
    pt2 <~ rgets (rW SP) ;;
    push_reg AX ;~ push_reg CX ;~ push_reg DX ;~ push_reg BX ;~
    PUSH pt2 ;~ push_reg BP ;~ push_reg SI ;~ brk (push_reg DI)
  else if opcode =? 0x06 then brk (push_seg SREG_ES)
  else if opcode =? 0x0E then brk (push_seg SREG_CS)
  else if opcode =? 0x16 then brk (push_seg SREG_SS)
  else if opcode =? 0x1E then brk (push_seg SREG_DS)
  else if opcode =? 0x6A then v <~ READ_INSTR8 ;; brk (PUSH v)
  else if opcode =? 0x68 then v <~ READ_INSTR16 ;; brk (PUSH v)
  else brk (push_reg (Z.to_nat (Z.land opcode 7))).

Definition pop_reg (r : nat) : R unit := v <~ POP ;; rmod (put_W r v).
Definition pop_seg (k : nat) : R unit := v <~ POP ;; rmod (put_sg k v).
Definition op_pop (opcode : Z) : R ctl :=
  if opcode =? 0x9D then v <~ POP ;; brk (rmod (set_Flags v))
  else if opcode =? 0x61 then
    pop_reg DI ;~ pop_reg SI ;~ pop_reg BP ;~ rmod (fun s => put_W SP (rW SP s + 2) s) ;~
    pop_reg BX ;~ pop_reg DX ;~ pop_reg CX ;~ brk (pop_reg AX)
  else if opcode =? 0x07 then brk (pop_seg SREG_ES)
  else if opcode =? 0x17 then brk (pop_seg SREG_SS)
  else if opcode =? 0x1F then brk (pop_seg SREG_DS)
  else if opcode =? 0x8F then rm <~ RME_Int_ParseModRMX ;; v <~ POP ;; brk (st16 rm.2 v)
  else brk (pop_reg (Z.to_nat (Z.land opcode 7))).

Definition op_call (opcode : Z) : R ctl :=
  if opcode =? 0xE8 then
    pt2 <~ READ_INSTR16 ;;
    rmod (fun s => set_IP (IP s + IPOffset s) s) ;~
    ip <~ rgets IP ;; PUSH ip ;~ jump_by pt2 ;~ rret GoRet
  else if opcode =? 0x9A then
    pt1 <~ READ_INSTR16 ;; pt2 <~ READ_INSTR16 ;;
    push_seg SREG_CS ;~
    ret <~ rgets (fun s => IP s + IPOffset s) ;; PUSH ret ;~
    rmod (put_sg SREG_CS pt2) ;~ rmod (set_IP pt1) ;~ rret GoRet
  else if opcode =? 0xC3 then ip <~ POP ;; rmod (set_IP ip) ;~ rret GoRet
  else ip <~ POP ;; rmod (set_IP ip) ;~ pop_seg SREG_CS ;~ rret GoRet.

(** ** String instructions *)

Definition REPNZ : Z := 0xF2.
Definition REP : Z := 0xF3.

(** [do body while(again && --CX);] where [body] answers whether it breaks
    out.  CX starts at [(CX - 1) mod 2^16 + 1] turns. *)
Fixpoint rep_loop (fuel : nat) (again : bool) (body : R bool) : R unit :=
  match fuel with
  | O => mnofuel
  | S f =>
      stop <~ body ;;
      if (stop : bool) then rret tt
      else if again then
        rmod (fun s => put_W CX (rW CX s - 1) s) ;~
        cx <~ rgets (rW CX) ;;
        if cx =? 0 then rret tt else rep_loop f again body
      else rret tt
  end.
Definition turns (s : tRME_State) : nat := S (Z.to_nat (u16 (rW CX s - 1))).
Definition repeat (again : bool) (body : R bool) : R unit := fun s => rep_loop (turns s) again body s.

(** [State->Flags & FLAG_DF] turns the direction. *)
Definition advance (r : nat) (n : Z) : R unit :=
  rmod (fun s => put_W r (rW r s + (if has_flag (Flags s) FLAG_DF then - n else n)) s).
Definition go_on : R bool := rret false.

Definition movs (n : Z) (rd : Z -> Z -> R Z) (wr : Z -> Z -> Z -> R unit) : R bool :=
  ds <~ rgets (sg SREG_DS) ;; si <~ rgets (rW SI) ;; tmp <~ rd ds si ;;
  es <~ rgets (sg SREG_ES) ;; di <~ rgets (rW DI) ;; wr es di tmp ;~
  advance DI n ;~ advance SI n ;~ go_on.
Definition stos (n : Z) (get : tRME_State -> Z) (wr : Z -> Z -> Z -> R unit) : R bool :=
  es <~ rgets (sg SREG_ES) ;; di <~ rgets (rW DI) ;; v <~ rgets get ;; wr es di v ;~
  advance DI n ;~ go_on.
Definition lods (n : Z) (put : Z -> tRME_State -> tRME_State) (rd : Z -> Z -> R Z) : R bool :=
  ds <~ rgets (sg SREG_DS) ;; si <~ rgets (rW SI) ;; v <~ rd ds si ;; rmod (put v) ;~
  advance SI n ;~ go_on.
Definition cmpsb (rep : Z) : R bool :=
  ds <~ rgets (sg SREG_DS) ;; si <~ rgets (rW SI) ;; b1 <~ RME_Int_Read8 ds si ;;
  es <~ rgets (sg SREG_ES) ;; di <~ rgets (rW DI) ;; b2 <~ RME_Int_Read8 es di ;;
  advance SI 1 ;~ advance DI 1 ;~
  let v := b1 - b2 in
  rmod (fun s => set_Flags (set_if (v <? 0) (Z.lor FLAG_OF FLAG_CF) (SET_COMM_FLAGS v 8 (clr (Flags s) ARITH_FLAGS))) s) ;~
  fl <~ rgets Flags ;;
  rret ((rep =? REP) && negb (has_flag fl FLAG_ZF) || (rep =? REPNZ) && has_flag fl FLAG_ZF).

(** With [guard] set an initial CX of zero means no turn at all. *)
Definition string_op (guard again : bool) (body : R bool) : R ctl :=
  cx <~ rgets (rW CX) ;;
  if guard && (cx =? 0) then rret BrkRep else repeat again body ;~ rret BrkRep.

Definition op_string (rep opcode : Z) : R ctl :=
  let any := negb (rep =? 0) in
  let only := rep =? REP in
  w <~ wide ;;
  if opcode =? 0xA4 then string_op only any (movs 1 RME_Int_Read8 RME_Int_Write8)
  else if opcode =? 0xA5 then
    if (w : bool) then string_op only only (movs 4 RME_Int_Read32 RME_Int_Write32)
    else string_op only any (movs 2 RME_Int_Read16 RME_Int_Write16)
  else if opcode =? 0xA6 then string_op any any (cmpsb rep)
  else if opcode =? 0xA7 then undef
  else if opcode =? 0xAA then string_op only only (stos 1 (rL AX) RME_Int_Write8)
  else if opcode =? 0xAB then
    if (w : bool) then string_op only only (stos 4 (rD AX) RME_Int_Write32)
    else string_op only only (stos 2 (rW AX) RME_Int_Write16)
  else if opcode =? 0xAC then string_op only only (lods 1 (put_L AX) RME_Int_Read8)
  else
    if (w : bool) then string_op only only (lods 4 (put_D AX) RME_Int_Read32)
    else string_op only only (lods 2 (put_W AX) RME_Int_Read16).

(** LES and LDS: the segment is read first, the offset behind it. *)
Definition ptr_behind (p : ptr) : ptr :=
  match p with PM off => PM (off + 2) | PW r => PUp r | _ => PUnset end.
Definition op_load_far (k : nat) : R ctl :=
  rm <~ RME_Int_ParseModRMX ;;
  v <~ ld16 rm.2 ;; rmod (put_sg k v) ;~
  o <~ ldx (ptr_behind rm.2) ;; brk (stx rm.1 o).

Definition op_lea : R ctl :=
  b <~ READ_INSTR8 ;;
  let mode := Z.shiftr b 6 in
  let m := Z.land b 7 in
  if mode =? 3 then undef
  else
    pt1 <~ (if mode =? 0 then rret 0 else if mode =? 1 then READ_INSTR8S else READ_INSTR16) ;;
    ea <~ (if m =? 0 then rgets (fun s => pt1 + rW BX s + rW SI s)
           else if m =? 1 then rgets (fun s => pt1 + rW BX s + rW DI s)
           else if m =? 2 then rgets (fun s => pt1 + rW BP s + rW SI s)
           else if m =? 3 then rgets (fun s => pt1 + rW BP s + rW DI s)
           else if m =? 4 then rgets (fun s => pt1 + rW SI s)
           else if m =? 5 then rgets (fun s => pt1 + rW DI s)
           else if m =? 6 then if mode =? 0 then READ_INSTR16 else rgets (fun s => pt1 + rW BP s)
           else rgets (fun s => pt1 + rW BX s)) ;;
    brk (st16 (RegW (Z.land (Z.shiftr b 3) 7)) ea).

Definition op_loop (opcode : Z) : R ctl :=
  pt2 <~ READ_INSTR8S ;;
  rmod (fun s => put_W CX (rW CX s - 1) s) ;~
  cx <~ rgets (rW CX) ;; fl <~ rgets Flags ;;
  let zf := has_flag fl FLAG_ZF in
  let cond := if opcode =? 0xE2 then true else if opcode =? 0xE0 then negb zf else zf in
  if negb (cx =? 0) && cond then brk (jump_by pt2) else rret Brk.

(** The condition [type] of a jump. *)
Definition cond_holds (type fl : Z) : bool :=
  let cf := has_flag fl FLAG_CF in
  let zf := has_flag fl FLAG_ZF in
  let sf := has_flag fl FLAG_SF in
  let ov := has_flag fl FLAG_OF in
  let pf := has_flag fl FLAG_PF in
  if type =? 0 then ov
  else if type =? 1 then negb ov
  else if type =? 2 then cf
  else if type =? 3 then negb cf
  else if type =? 4 then zf
  else if type =? 5 then negb zf
  else if type =? 6 then cf || zf
  else if type =? 7 then negb cf && negb zf
  else if type =? 8 then sf
  else if type =? 9 then negb sf
  else if type =? 0xA then pf
  else if type =? 0xB then negb pf
  else if type =? 0xC then xorb sf ov
  else if type =? 0xD then negb (xorb sf ov)
  else if type =? 0xE then zf || xorb sf ov
  else negb zf || negb (xorb sf ov).
Definition RME_Int_DoCondJMP (type offset : Z) : R unit :=
  fl <~ rgets Flags ;; if cond_holds type fl then jump_by offset else rret tt.

Definition op_jcc (opcode : Z) : R ctl :=
  v <~ READ_INSTR8S ;; brk (RME_Int_DoCondJMP (Z.land opcode 0xF) v).
Definition op_0F : R ctl :=
  b <~ READ_INSTR8 ;;
  if (0x80 <=? b) && (b <? 0x90) then v <~ READ_INSTR16 ;; brk (RME_Int_DoCondJMP (Z.land b 0xF) v)
  else undef.

(** ** Decoding *)

Definition between (a x b : Z) : bool := (a <=? x) && (x <=? b).

(** The switch, prefixes aside. *)
Definition exec (rep opcode : Z) : R ctl :=
  if (opcode <? 0x40) && (Z.land opcode 7 <? 6) then op_arith opcode
  else if opcode =? 0x80 then op_80
  else if opcode =? 0x81 then op_81
  else if opcode =? 0x83 then op_83
  else if opcode =? 0xC0 then op_C0
  else if opcode =? 0xC1 then op_C1
  else if opcode =? 0xD0 then op_D0
  else if opcode =? 0xD1 then op_D1
  else if opcode =? 0xD2 then op_D2
  else if opcode =? 0xD3 then op_D3
  else if opcode =? 0xF6 then op_F6
  else if opcode =? 0xF7 then op_F7
  else if opcode =? 0xFE then op_FE
  else if opcode =? 0xFF then op_FF
  else if between 0x84 opcode 0x85 || between 0xA8 opcode 0xA9 then op_test opcode
  else if between 0xF8 opcode 0xFD then op_flag opcode
  else if between 0x40 opcode 0x47 then op_inc opcode
  else if between 0x48 opcode 0x4F then op_dec opcode
  else if between 0xE4 opcode 0xE7 || between 0xEC opcode 0xEF then op_io opcode
  else if opcode =? 0xCC then op_int false 3
  else if opcode =? 0xCD then num <~ READ_INSTR8 ;; op_int true num
  else if opcode =? 0xCF then op_iret
  else if between 0xA0 opcode 0xA3 then op_mov_mo opcode
  else if between 0xC6 opcode 0xC7 || between 0x88 opcode 0x8B then op_mov opcode
  else if between 0xB0 opcode 0xBF then op_mov_ri opcode
  else if opcode =? 0x8C then op_mov_rs
  else if opcode =? 0x8E then op_mov_sr
  else if between 0xE9 opcode 0xEB then op_jmp opcode
  else if between 0x90 opcode 0x97 || (opcode =? 0x86) then op_xchg opcode
  else if (opcode =? 0x9C) || (opcode =? 0x60) || between 0x50 opcode 0x57 || (opcode =? 0x06) || (opcode =? 0x0E)
          || (opcode =? 0x16) || (opcode =? 0x1E) || (opcode =? 0x6A) || (opcode =? 0x68) then op_push opcode
  else if (opcode =? 0x9D) || (opcode =? 0x61) || between 0x58 opcode 0x5F || (opcode =? 0x07)
          || (opcode =? 0x17) || (opcode =? 0x1F) || (opcode =? 0x8F) then op_pop opcode
  else if (opcode =? 0xE8) || (opcode =? 0x9A) || (opcode =? 0xC3) || (opcode =? 0xCB) then op_call opcode
  else if between 0xA4 opcode 0xA7 || between 0xAA opcode 0xAD then op_string rep opcode
  else if opcode =? 0xC4 then op_load_far SREG_ES
  else if opcode =? 0xC5 then op_load_far SREG_DS
  else if opcode =? 0x8D then op_lea
  else if between 0xE0 opcode 0xE2 then op_loop opcode
  else if between 0x70 opcode 0x7F then op_jcc opcode
  else if opcode =? 0x0F then op_0F
  else undef.

(** The segment a prefix names. *)
Definition prefix_segment (opcode : Z) : option Z :=
  if opcode =? 0x2E then Some 1 else if opcode =? 0x36 then Some 2
  else if opcode =? 0x3E then Some 3 else if opcode =? 0x26 then Some 0 else None.

Definition over_segment (k : Z) (s : tRME_State) : tRME_State :=
  set_decoder (InstrNum s) k (bOverrideOperand s) (bOverrideAddress s) (IPOffset s) s.
Definition over_operand (s : tRME_State) : tRME_State :=
  set_decoder (InstrNum s) (OverrideSegment s) true (bOverrideAddress s) (IPOffset s) s.
Definition over_address (s : tRME_State) : tRME_State :=
  set_decoder (InstrNum s) (OverrideSegment s) (bOverrideOperand s) true (IPOffset s) s.

(** From the label [decode] on; one unit of fuel per prefix. *)
Fixpoint decode (fuel : nat) (rep : Z) : R unit :=
  match fuel with
  | O => mnofuel
  | S f =>
      opcode <~ READ_INSTR8 ;;
      match prefix_segment opcode with
      | Some k => rmod (over_segment k) ;~ decode f rep
      | None =>
          if opcode =? 0x66 then rmod over_operand ;~ decode f rep
          else if opcode =? 0x67 then rmod over_address ;~ undef
          else if opcode =? REP then decode f REP
          else if opcode =? REPNZ then decode f REPNZ
          else
            c <~ exec rep opcode ;;
            match c with
            | GoRet => rret tt
            | Brk => if negb (rep =? 0) then undef else rmod (fun s => set_IP (IP s + IPOffset s) s)
            | BrkRep => rmod (fun s => set_IP (IP s + IPOffset s) s)
            end
      end
  end.

Definition RME_Int_DoOpcode (fuel : nat) : M tRME_State Z :=
  mmodify (fun s => set_decoder (s32 (InstrNum s + 1)) (-1) false false 0 s) ;;;
  r <- decode fuel 0 ;;
  mreturn (match r with Go _ => RME_ERR_OK | Rc e => e end).

(** One unit of [n] per instruction. *)
Fixpoint RME_Call (fuel n : nat) : M tRME_State Z := fun s =>
  if (IP s =? RME_MAGIC_IP) && (sg SREG_CS s =? RME_MAGIC_CS) then Ret (RME_ERR_OK, s)
  else
    match n with
    | O => NoFuel
    | S n' =>
        (ret <- RME_Int_DoOpcode fuel ;;
         if negb (ret =? 0) then mreturn ret else RME_Call fuel n') s
    end.

Definition RME_CallInt (fuel n : nat) (Num : Z) : M tRME_State Z :=
  if (Num <? 0) || (0xFF <? Num) then mreturn RME_ERR_INVAL
  else
    r <- (ip <~ RME_Int_Read16 0 (Num * 4) ;; rmod (set_IP ip) ;~
          cs <~ RME_Int_Read16 0 (Num * 4 + 2) ;; rmod (put_sg SREG_CS cs) ;~
          fl <~ rgets Flags ;; PUSH fl ;~ PUSH RME_MAGIC_CS ;~ PUSH RME_MAGIC_IP) ;;
    match r with Rc e => mreturn e | Go _ => RME_Call fuel n end.
End machine.

Definition RME_CreateState : tRME_State :=
  RmeState (replicate 8 0) [0; 0xF000; 0; 0] 0xFFF0 FLAG_DEFAULT 0 ∅ 0 0 false false 0 [].
