(* ===== verification/RmeSpec.v ===== *)
(** * The real mode emulator: well-typed runs

    Registers keep their widths, every access stays inside the window of low
    memory, and an instruction ends with one of the documented codes. *)

From S2P Require Import Prelude.
From S2P Require Import Rme.

(** ** Well-formed states *)

Definition in_w (w v : Z) : Prop := 0 <= v < 2 ^ w.

Record rme_ok (s : tRME_State) : Prop := {
  ok_gpr : length (gpr s) = 8%nat /\ Forall (in_w 32) (gpr s);
  ok_sreg : length (sreg s) = 4%nat /\ Forall (in_w 16) (sreg s);
  ok_IP : in_w 16 (IP s);
  ok_Flags : in_w 16 (Flags s);
  ok_mem : Memory0 s <> 0;
  ok_bytes : map_Forall (fun _ b => in_w 8 b) (wmem s);
  ok_over : -1 <= OverrideSegment s < 4;
}.

#[global] Instance in_w_dec w v : Decision (in_w w v).
Proof. unfold in_w. apply _. Defined.

(** The invariant as a test. *)
Definition rme_okb (s : tRME_State) : bool :=
  bool_decide (length (gpr s) = 8%nat /\ Forall (in_w 32) (gpr s)) && bool_decide (length (sreg s) = 4%nat /\ Forall (in_w 16) (sreg s)) &&
  bool_decide (in_w 16 (IP s)) && bool_decide (in_w 16 (Flags s)) && bool_decide (Memory0 s <> 0) &&
  bool_decide (map_Forall (fun _ b => in_w 8 b) (wmem s)) && bool_decide (-1 <= OverrideSegment s < 4).
Lemma rme_okb_ok s : rme_okb s = true -> rme_ok s.
Proof. unfold rme_okb. rewrite !andb_true_iff, !bool_decide_eq_true. intros ((((((? & ?) & ?) & ?) & ?) & ?) & ?). by constructor. Qed.

Lemma rD_range r s : rme_ok s -> in_w 32 (rD r s).
Proof.
  intros []. unfold rD. destruct (gpr s !! r) eqn:E; [|by unfold in_w].
  destruct ok_gpr0 as [_ H]. by eapply Forall_lookup in E.
Qed.
Lemma sg_range k s : rme_ok s -> in_w 16 (sg k s).
Proof.
  intros []. unfold sg. destruct (sreg s !! k) eqn:E; [|by unfold in_w].
  destruct ok_sreg0 as [_ H]. by eapply Forall_lookup in E.
Qed.
Lemma u16_in v : in_w 16 (u16 v).
Proof. unfold in_w, u16. dlia. Qed.
Lemma u8_in v : in_w 8 (u8 v).
Proof. unfold in_w, u8. dlia. Qed.
Lemma uw_in w v : 0 <= w -> in_w w (uw w v).
Proof. intros. apply Z.mod_pos_bound. lia. Qed.

Lemma set_gpr_ok r v s : rme_ok s -> in_w 32 v -> rme_ok (set_gpr (<[r := v]> (gpr s)) s).
Proof.
  intros [[] ? ? ? ? ? ?] Hv. constructor; try done. simpl. rewrite length_insert. split; [done|]. by apply Forall_insert.
Qed.
Lemma put_D_ok r v s : rme_ok s -> rme_ok (put_D r v s).
Proof. intros H. apply set_gpr_ok; [done|]. unfold in_w, u32. dlia. Qed.
Lemma put_W_ok r v s : rme_ok s -> rme_ok (put_W r v s).
Proof. intros H. apply set_gpr_ok; [done|]. pose proof (rD_range r s H). unfold in_w, rW, u16 in *. dlia. Qed.
Lemma put_L_ok r v s : rme_ok s -> rme_ok (put_L r v s).
Proof. intros H. apply set_gpr_ok; [done|]. pose proof (rD_range r s H). unfold in_w, rL, u8 in *. dlia. Qed.
Lemma put_H_ok r v s : rme_ok s -> rme_ok (put_H r v s).
Proof. intros H. apply set_gpr_ok; [done|]. pose proof (rD_range r s H). unfold in_w, rH, u8 in *. dlia. Qed.
Lemma put_sg_ok k v s : rme_ok s -> rme_ok (put_sg k v s).
Proof.
  intros [? [] ? ? ? ? ?]. constructor; try done. simpl. rewrite length_insert. split; [done|].
  apply Forall_insert; [done|apply u16_in].
Qed.
Lemma set_IP_ok v s : rme_ok s -> rme_ok (set_IP v s).
Proof. intros []. constructor; try done. apply u16_in. Qed.
Lemma set_Flags_ok v s : rme_ok s -> rme_ok (set_Flags v s).
Proof. intros []. constructor; try done. apply u16_in. Qed.
Lemma set_decoder_ok n k a b o s : rme_ok s -> -1 <= k < 4 -> rme_ok (set_decoder n k a b o s).
Proof. intros []. by constructor. Qed.
Lemma set_IPOffset_ok o s : rme_ok s -> rme_ok (set_IPOffset o s).
Proof. intros H. apply set_decoder_ok; [done|apply H]. Qed.
Lemma set_io_ok l s : rme_ok s -> rme_ok (set_io l s).
Proof. intros []. by constructor. Qed.

Lemma poke_ok n : forall off v m, map_Forall (fun _ b => in_w 8 b) m -> map_Forall (fun _ b => in_w 8 b) (poke n off v m).
Proof.
  induction n as [|n IH]; intros off v m Hm; [done|]. cbn [poke]. apply IH. apply map_Forall_insert_2; [apply u8_in|done].
Qed.
Lemma set_wmem_ok n off v s : rme_ok s -> rme_ok (set_wmem (poke n off v (wmem s)) s).
Proof. intros []. constructor; try done. by apply poke_ok. Qed.

Lemma peek_range n : forall off m, map_Forall (fun _ b => in_w 8 b) m -> in_w (8 * Z.of_nat n) (peek n off m).
Proof.
  induction n as [|n IH]; intros off m Hm; [by unfold in_w; simpl|]. cbn [peek].
  assert (in_w 8 (default 0 (m !! off))) as Hb.
  { destruct (m !! off) eqn:E; [by eapply Hm|by unfold in_w]. }
  specialize (IH (off + 1) m Hm). unfold in_w in *.
  replace (8 * Z.of_nat (S n)) with (8 + 8 * Z.of_nat n) by lia. rewrite Z.pow_add_r by lia.
  set (k := 2 ^ (8 * Z.of_nat n)) in *. change (2 ^ 8) with 256 in *. lia.
Qed.

(** ** Typed handlers *)

(** The error codes a handler may end with, and whether it may read through
    NULL. *)
Record errs := Errs { code_ok : Z -> Prop; null_ok : Prop }.

(** [typed E c Q]: from a well-formed state, [c] ends in a well-formed state,
    with a result in [Q] or with an error in [E]; it never runs out of fuel. *)
Definition typed {A} (E : errs) (c : R A) (Q : A -> Prop) : Prop :=
  forall s, rme_ok s ->
    match c s with
    | Ret (Go a, s') => rme_ok s' /\ Q a
    | Ret (Rc e, s') => rme_ok s' /\ code_ok E e
    | Fault a => a = 0 /\ null_ok E
    | _ => False
    end.

Definition known_code (e : Z) : Prop :=
  e = RME_ERR_OK \/ e = RME_ERR_BADMEM \/ e = RME_ERR_UNDEFOPCODE \/ e = RME_ERR_DIVERR.
Definition known : errs := Errs known_code False.
Definition known_null : errs := Errs known_code True.
Definition any {A} (_ : A) : Prop := True.

Section rules.
Context {A B : Type} (E : errs).

Lemma typed_ret (a : A) (Q : A -> Prop) : Q a -> typed E (rret a) Q.
Proof. by intros H s Hs. Qed.
Lemma typed_fail e (Q : A -> Prop) : code_ok E e -> typed E (rfail e) Q.
Proof. by intros H s Hs. Qed.
Lemma typed_gets (f : tRME_State -> A) (Q : A -> Prop) : (forall s, rme_ok s -> Q (f s)) -> typed E (rgets f) Q.
Proof. intros H s Hs. by split; [|apply H]. Qed.
Lemma typed_mod (f : tRME_State -> tRME_State) Q : (forall s, rme_ok s -> rme_ok (f s)) -> Q tt -> typed E (rmod f) Q.
Proof. intros H Hq s Hs. by split; [apply H|]. Qed.
Lemma typed_bind (c : R A) (k : A -> R B) Q Q' :
  typed E c Q -> (forall a, Q a -> typed E (k a) Q') -> typed E (rbind c k) Q'.
Proof.
  intros Hc Hk s Hs. unfold rbind, mseq. specialize (Hc s Hs).
  destruct (c s) as [[[a|e] s']| | | |]; try done. destruct Hc as [Hs' Ha]. by apply Hk.
Qed.
Lemma typed_weaken (c : R A) (E' : errs) (Q Q' : A -> Prop) :
  typed E' c Q -> (forall e, code_ok E' e -> code_ok E e) -> (null_ok E' -> null_ok E) -> (forall a, Q a -> Q' a) ->
  typed E c Q'.
Proof.
  intros Hc He Hn Hq s Hs. specialize (Hc s Hs). destruct (c s) as [[[a|e] s']| | | |]; try done; destruct Hc; split; auto.
Qed.
Lemma typed_null (Q : A -> Prop) : null_ok E -> typed E (mfault 0) Q.
Proof. by intros ? s Hs. Qed.
End rules.

(** Pointers to one byte, to a word operand, and to a segment register. *)
Definition in_mem (off : Z) : Prop := 0 <= off <= RM_VSZ - 6.
Definition p8 (p : ptr) : Prop := match p with PB r _ => True | PM off => in_mem off | _ => False end.
Definition px (p : ptr) : Prop := match p with PW r => True | PM off => in_mem off | _ => False end.
Definition pseg (p : ptr) : Prop := match p with PS _ => True | _ => False end.
Definition pback (p : ptr) : Prop := match p with PUp r => True | PM off => 0 <= off <= RM_VSZ - 4 | _ => False end.
Definition operands (ok : ptr -> Prop) (rm : ptr * ptr) : Prop := ok rm.1 /\ ok rm.2.

Section access.
Context (E : errs).

Lemma typed_ld_mem n off : 0 <= off -> off + Z.of_nat n <= RM_VSZ -> typed E (ld_mem n off) (in_w (8 * Z.of_nat n)).
Proof.
  intros H1 H2 s Hs. unfold ld_mem, in_window. rewrite (proj2 (Z.leb_le _ _) H1), (proj2 (Z.leb_le _ _) H2).
  split; [done|]. apply peek_range, Hs.
Qed.
Lemma typed_st_mem n off v : 0 <= off -> off + Z.of_nat n <= RM_VSZ -> typed E (st_mem n off v) any.
Proof.
  intros H1 H2 s Hs. unfold st_mem, in_window. rewrite (proj2 (Z.leb_le _ _) H1), (proj2 (Z.leb_le _ _) H2).
  split; [by apply set_wmem_ok|done].
Qed.

Lemma typed_ld8 p : p8 p -> typed E (ld8 p) (in_w 8).
Proof.
  destruct p as [r []|r|r|k|off| |]; try done; intros Hp; cbn [ld8].
  - apply typed_gets. intros. apply u8_in.
  - apply typed_gets. intros. apply u8_in.
  - apply (typed_ld_mem 1); unfold p8, in_mem in Hp; lia.
Qed.
Lemma typed_ld16 p : px p \/ pseg p \/ pback p -> typed E (ld16 p) (in_w 16).
Proof.
  destruct p as [r h|r|r|k|off| |]; intros Hp; cbn [ld16]; try (by destruct Hp as [?|[?|?]]).
  - apply typed_gets. intros. apply u16_in.
  - apply typed_gets. intros s Hs. pose proof (rD_range r s Hs). unfold in_w in *. dlia.
  - apply typed_gets. intros. by apply sg_range.
  - apply (typed_ld_mem 2); destruct Hp as [Hp|[Hp|Hp]]; unfold px, in_mem, pback, pseg in Hp; (done || lia).
Qed.
Lemma typed_ld32 p : px p \/ pback p -> typed E (ld32 p) (in_w 32).
Proof.
  destruct p as [r h|r|r|k|off| |]; intros Hp; cbn [ld32]; try (by destruct Hp as [?|?]).
  - apply typed_gets. intros. by apply rD_range.
  - apply typed_gets. intros s Hs. pose proof (rD_range r s Hs). pose proof (sg_range SREG_SS s Hs).
    pose proof (u16_in (rD (S r) s)). unfold rW, in_w in *. destruct (decide _); dlia.
  - apply (typed_ld_mem 4); destruct Hp as [Hp|Hp]; unfold px, in_mem, pback in Hp; lia.
Qed.
Lemma typed_st8 p v : p8 p -> typed E (st8 p v) any.
Proof.
  destruct p as [r []|r|r|k|off| |]; try done; intros Hp; cbn [st8].
  - apply typed_mod; [apply put_H_ok|done].
  - apply typed_mod; [apply put_L_ok|done].
  - apply (typed_st_mem 1); unfold p8, in_mem in Hp; lia.
Qed.
Lemma typed_st16 p v : px p \/ pseg p -> typed E (st16 p v) any.
Proof.
  destruct p as [r h|r|r|k|off| |]; intros Hp; cbn [st16]; try (by destruct Hp as [?|?]).
  - apply typed_mod; [apply put_W_ok|done].
  - apply typed_mod; [apply put_sg_ok|done].
  - apply (typed_st_mem 2); destruct Hp as [Hp|Hp]; unfold px, in_mem, pseg in Hp; (done || lia).
Qed.
Lemma typed_st32 p v : px p -> typed E (st32 p v) any.
Proof.
  destruct p as [r h|r|r|k|off| |]; try done; intros Hp; cbn [st32].
  - apply typed_mod; [apply put_D_ok|done].
  - apply (typed_st_mem 4); unfold px, in_mem in Hp; lia.
Qed.

(** The highest address is 0xFFFF0 + 0xFFFF: every pointer is in the block. *)
Lemma typed_GetPtr a b : typed E (RME_Int_GetPtr a b) (fun p => exists off, p = PM off /\ in_mem off).
Proof.
  intros s Hs. unfold RME_Int_GetPtr. pose proof (u16_in a). pose proof (u16_in b).
  unfold in_w in *. rewrite u32_small by lia. unfold RME_BLOCK_SIZE, RM_VSZ in *.
  destruct (Z.leb_spec 1 ((u16 a * 16 + u16 b) / 0x110000)); [dlia|].
  destruct (Z.eqb_spec (Memory0 s) 0) as [Hz|_]; [by destruct (ok_mem _ Hs)|].
  split; [done|]. eexists. split; [done|]. unfold in_mem, RM_VSZ. dlia.
Qed.
Lemma typed_Read8 a b : typed E (RME_Int_Read8 a b) (in_w 8).
Proof. eapply typed_bind; [apply typed_GetPtr|]. intros p (o & -> & ?). by apply typed_ld8. Qed.
Lemma typed_Read16 a b : typed E (RME_Int_Read16 a b) (in_w 16).
Proof. eapply typed_bind; [apply typed_GetPtr|]. intros p (o & -> & ?). apply typed_ld16. by left. Qed.
Lemma typed_Read32 a b : typed E (RME_Int_Read32 a b) (in_w 32).
Proof. eapply typed_bind; [apply typed_GetPtr|]. intros p (o & -> & ?). apply typed_ld32. by left. Qed.
Lemma typed_Write8 a b v : typed E (RME_Int_Write8 a b v) any.
Proof. eapply typed_bind; [apply typed_GetPtr|]. intros p (o & -> & ?). by apply typed_st8. Qed.
Lemma typed_Write16 a b v : typed E (RME_Int_Write16 a b v) any.
Proof. eapply typed_bind; [apply typed_GetPtr|]. intros p (o & -> & ?). apply typed_st16. by left. Qed.
Lemma typed_Write32 a b v : typed E (RME_Int_Write32 a b v) any.
Proof. eapply typed_bind; [apply typed_GetPtr|]. intros p (o & -> & ?). by apply typed_st32. Qed.
End access.

(** The rules, for proof search: results are forgotten where no rule needs them. *)
Create HintDb rme.
Ltac one_of := first [assumption|left; exact I|left; assumption|right; assumption|right; left; assumption|right; right; assumption].
#[export] Hint Resolve typed_ret typed_Write8 typed_Write16 typed_Write32 typed_ld8 typed_st8 typed_st16 typed_st32
  put_D_ok put_W_ok put_L_ok put_H_ok put_sg_ok set_IP_ok set_Flags_ok set_IPOffset_ok set_io_ok : rme.
#[export] Hint Extern 1 (typed _ (rmod _) _) => (apply (typed_mod _ _ any); [intros; cbv beta; eauto 6 with rme|exact I]) : rme.
#[export] Hint Extern 4 (any _) => exact I : rme.

Lemma typed_any {A} (E : errs) (c : R A) Q : typed E c Q -> typed E c any.
Proof. intros H. by eapply typed_weaken; [apply H|auto|auto|]. Qed.
Lemma typed_gets_any {A} (E : errs) (f : tRME_State -> A) : typed E (rgets f) any.
Proof. by apply typed_gets. Qed.
#[export] Hint Resolve typed_gets_any : rme.
#[export] Hint Extern 3 (typed _ (ld16 _) _) => (eapply typed_ld16; one_of) : rme.
#[export] Hint Extern 3 (typed _ (ld32 _) _) => (eapply typed_ld32; one_of) : rme.
#[export] Hint Extern 2 (typed _ (RME_Int_Read8 _ _) _) => (eapply typed_Read8) : rme.
#[export] Hint Extern 2 (typed _ (RME_Int_Read16 _ _) _) => (eapply typed_Read16) : rme.
#[export] Hint Extern 2 (typed _ (RME_Int_Read32 _ _) _) => (eapply typed_Read32) : rme.

(** One step of a typing proof. *)
Ltac tstep :=
  match goal with
  | |- forall _, _ => intro
  | H : operands _ _ |- _ => destruct H
  | |- typed _ (if ?b then _ else _) _ => destruct b
  | |- typed _ (brk _) _ => unfold brk
  | |- typed _ (rbind (if _ then _ else _) _) _ => eapply (typed_bind _ _ _ any); [|intros ? _]
  | |- typed _ (rbind _ _) _ => eapply typed_bind; [|intros ? ?]
  | |- typed _ (match ?x with _ => _ end) _ => destruct x
  | |- typed _ (let _ := _ in _) _ => cbv zeta
  | |- typed _ undef _ => apply typed_fail; cbn; unfold known_code; tauto
  | |- typed _ (rfail _) _ => apply typed_fail; cbn; unfold known_code; tauto
  | |- typed _ _ _ => solve [eauto with rme|eapply typed_any; eauto with rme]
  end.
Ltac typing := repeat tstep.

Section fetching.
Context (E : errs).

Lemma typed_PUSH v : typed E (PUSH v) any.
Proof. unfold PUSH. typing. Qed.
Lemma typed_POP : typed E POP (in_w 16).
Proof. unfold POP. typing. Qed.
Lemma typed_read_instr n rd Q : (forall a b, typed E (rd a b) Q) -> typed E (read_instr n rd) Q.
Proof.
  intros Hrd. unfold read_instr. do 2 (eapply typed_bind; [apply typed_gets_any|intros ? _]).
  eapply typed_bind; [apply Hrd|]. typing.
Qed.
Lemma typed_READ_INSTR8 : typed E READ_INSTR8 (in_w 8).
Proof. apply typed_read_instr. intros. apply typed_Read8. Qed.
Lemma typed_READ_INSTR16 : typed E READ_INSTR16 (in_w 16).
Proof. apply typed_read_instr. intros. apply typed_Read16. Qed.
Lemma typed_READ_INSTR32 : typed E READ_INSTR32 (in_w 32).
Proof. apply typed_read_instr. intros. apply typed_Read32. Qed.
Lemma typed_READ_INSTR8S : typed E READ_INSTR8S any.
Proof. eapply typed_bind; [apply typed_READ_INSTR8|]. typing. Qed.
Lemma typed_peek_instr8 : typed E peek_instr8 (in_w 8).
Proof. eapply typed_bind; [apply typed_READ_INSTR8|]. typing. Qed.
Lemma typed_GET_SEGMENT def : (def < 4)%nat -> typed E (GET_SEGMENT def) pseg.
Proof.
  intros Hd. apply typed_gets. intros s Hs. pose proof (ok_over _ Hs). unfold Seg.
  destruct (OverrideSegment s =? -1); rewrite (proj2 (Z.ltb_lt _ _)) by lia; done.
Qed.
Lemma typed_DoFunc mmm disp : typed E (DoFunc mmm disp) (fun p => exists off, p = PM off /\ in_mem off).
Proof.
  unfold DoFunc. eapply typed_bind; [apply typed_GET_SEGMENT; destruct (_ || _); unfold SREG_SS, SREG_DS; lia|].
  intros p Hp. eapply typed_bind; [apply typed_ld16; tauto|]. intros seg _.
  eapply typed_bind; [|intros; apply typed_GetPtr].
  destruct (mmm =? -1); [eapply typed_any, typed_READ_INSTR16|apply typed_gets_any].
Qed.

Lemma typed_parse_modrm (reg : Z -> ptr) (ok : ptr -> Prop) :
  (forall n, ok (reg n)) -> (forall off, in_mem off -> ok (PM off)) ->
  typed E (parse_modrm reg) (operands ok).
Proof.
  intros Hreg Hmem. unfold parse_modrm. eapply typed_bind; [apply typed_READ_INSTR8|]. intros d _. cbv zeta.
  assert (forall m disp, typed E (p <~ DoFunc m disp ;; rret (reg (Z.land (Z.shiftr d 3) 7), p)) (operands ok)).
  { intros. eapply typed_bind; [apply typed_DoFunc|]. intros p (off & -> & Ho). apply typed_ret. split; simpl; auto. }
  destruct (_ =? 0); [destruct (_ =? 6); apply H|].
  destruct (_ =? 1); [eapply typed_bind; [apply typed_READ_INSTR8S|intros; apply H]|].
  destruct (_ =? 2); [eapply typed_bind; [apply typed_READ_INSTR16|intros; apply H]|].
  apply typed_ret. split; apply Hreg.
Qed.
Lemma typed_ParseModRM : typed E RME_Int_ParseModRM (operands p8).
Proof. by apply typed_parse_modrm. Qed.
Lemma typed_ParseModRMX : typed E RME_Int_ParseModRMX (operands px).
Proof. by apply typed_parse_modrm. Qed.

Lemma typed_wide : typed E wide any.
Proof. apply typed_gets_any. Qed.
Lemma typed_ldx p : px p \/ pback p -> typed E (ldx p) any.
Proof. intros Hp. unfold ldx. eapply typed_bind; [apply typed_wide|]. intros [] _; eapply typed_any; [by apply typed_ld32|apply typed_ld16; destruct Hp; one_of]. Qed.
Lemma typed_stx p v : px p -> typed E (stx p v) any.
Proof. intros Hp. unfold stx. eapply typed_bind; [apply typed_wide|]. intros [] _; eauto with rme. Qed.
Lemma typed_READ_INSTRX : typed E READ_INSTRX any.
Proof.
  unfold READ_INSTRX. eapply typed_bind; [apply typed_wide|].
  intros [] _; eapply typed_any; [apply typed_READ_INSTR32|apply typed_READ_INSTR16].
Qed.
Lemma typed_width : typed E width any.
Proof. unfold width. eapply typed_bind; [apply typed_wide|]. typing. Qed.
End fetching.
#[export] Hint Resolve typed_PUSH typed_POP typed_READ_INSTR8 typed_READ_INSTR16 typed_READ_INSTR32 typed_READ_INSTR8S
  typed_peek_instr8 typed_ParseModRM typed_ParseModRMX typed_wide typed_stx typed_READ_INSTRX typed_width : rme.
#[export] Hint Extern 3 (typed _ (ldx _) _) => (eapply typed_ldx; one_of) : rme.

(** ** Every instruction is typed *)

Lemma field_range b k : 0 <= b -> 0 <= Z.land (Z.shiftr b k) 7 <= 7.
Proof. intros. rewrite (Z.land_ones (Z.shiftr b k) 3 ltac:(lia) : Z.land _ 7 = _ mod 8). dlia. Qed.

Lemma DoArithOp_some num w a b fl : 0 <= num <= 7 -> exists r, RME_Int_DoArithOp num w a b fl = Some r.
Proof.
  intros Hn. unfold RME_Int_DoArithOp. cbv zeta.
  repeat match goal with |- context [?x =? ?y] => destruct (Z.eqb_spec x y); [by eexists|] end. lia.
Qed.

Lemma typed_arith num w ld st to src :
  0 <= num <= 7 -> typed known (ld to) any -> (forall v, typed known (st to v) any) -> typed known (arith num w ld st to src) any.
Proof.
  intros Hn Hld Hst. unfold arith. eapply typed_bind; [done|]. intros v _.
  eapply typed_bind; [apply typed_gets_any|]. intros fl _.
  destruct (DoArithOp_some num w v src fl Hn) as [[[v'|] fl'] ->];
    (eapply typed_bind; [|intros; eauto with rme]); [apply Hst|by apply (typed_ret _ tt any)].
Qed.
Lemma typed_arith8 num to src : 0 <= num <= 7 -> p8 to -> typed known (RME_Int_DoArithOp8 num to src) any.
Proof. intros. apply typed_arith; [done|eapply typed_any; eauto with rme|eauto with rme]. Qed.
Lemma typed_arithx num to src : 0 <= num <= 7 -> px to -> typed known (RME_Int_DoArithOpX num to src) any.
Proof.
  intros. eapply typed_bind; [apply typed_width|]. intros w _. apply typed_arith; eauto with rme.
Qed.
Lemma typed_logic num w ld st to n :
  typed known (ld to) any -> (forall v, typed known (st to v) any) -> typed known (logic num w ld st to n) any.
Proof.
  intros Hld Hst. unfold logic. eapply typed_bind; [done|]. intros v _.
  eapply typed_bind; [apply typed_gets_any|]. intros fl _.
  destruct (RME_Int_DoLogicOp num w v n fl) as [[v' fl']|]; [eapply typed_bind; [apply Hst|]|]; typing.
Qed.
Lemma typed_logic8 num to n : p8 to -> typed known (logic8 num to n) any.
Proof. intros. apply typed_logic; [eapply typed_any; eauto with rme|eauto with rme]. Qed.
Lemma typed_logicx num to n : px to -> typed known (logicx num to n) any.
Proof. intros. eapply typed_bind; [apply typed_width|]. intros w _. apply typed_logic; eauto with rme. Qed.
Lemma typed_step_op w ld st p d :
  typed known (ld p) any -> (forall v, typed known (st p v) any) -> typed known (step_op w ld st p d) any.
Proof. intros Hld Hst. unfold step_op. eapply typed_bind; [done|]. typing. Qed.
Lemma typed_step8 p d : p8 p -> typed known (step_op 8 ld8 st8 p d) any.
Proof. intros. apply typed_step_op; [eapply typed_any; eauto with rme|eauto with rme]. Qed.
Lemma typed_step_x p d : px p -> typed known (step_x p d) any.
Proof. intros. eapply typed_bind; [apply typed_width|]. intros w _. apply typed_step_op; eauto with rme. Qed.
Lemma typed_test w a b : typed known (test w a b) any.
Proof. unfold test. typing. Qed.
Lemma typed_push_reg r : typed known (push_reg r) any.
Proof. unfold push_reg. typing. Qed.
Lemma typed_push_seg k : typed known (push_seg k) any.
Proof. unfold push_seg. typing. Qed.
Lemma typed_pop_reg r : typed known (pop_reg r) any.
Proof. unfold pop_reg. typing. Qed.
Lemma typed_pop_seg k : typed known (pop_seg k) any.
Proof. unfold pop_seg. typing. Qed.
Lemma typed_jump_by v : typed known (jump_by v) any.
Proof. unfold jump_by. typing. Qed.
Lemma typed_DoCondJMP type v : typed known (RME_Int_DoCondJMP type v) any.
Proof. unfold RME_Int_DoCondJMP, jump_by. typing. Qed.
#[export] Hint Resolve typed_arith8 typed_arithx typed_logic8 typed_logicx typed_step8 typed_step_x typed_test typed_push_reg
  typed_push_seg typed_pop_reg typed_pop_seg typed_jump_by typed_DoCondJMP : rme.
#[export] Hint Extern 2 (0 <= Z.land (Z.shiftr _ _) 7 <= 7) => (apply field_range; eapply proj1; eassumption) : rme.
#[export] Hint Extern 2 (p8 (RegB _)) => exact I : rme.
#[export] Hint Extern 2 (p8 (PB _ _)) => exact I : rme.
#[export] Hint Extern 2 (px (RegW _)) => exact I : rme.
#[export] Hint Extern 2 (px (PW _)) => exact I : rme.

Lemma typed_op_arith opcode : 0 <= opcode < 0x40 -> typed known (op_arith opcode) any.
Proof.
  intros Ho. assert (0 <= Z.shiftr opcode 3 <= 7) by (rewrite Z.shiftr_div_pow2 by lia; change (2 ^ 3) with 8; dlia). unfold op_arith. typing.
Qed.
Lemma typed_op_80 : typed known op_80 any.
Proof. unfold op_80. typing. Qed.
Lemma typed_op_81 : typed known op_81 any.
Proof. unfold op_81. typing. Qed.
Lemma typed_op_83 : typed known op_83 any.
Proof. unfold op_83. typing. Qed.
Lemma typed_op_C0 : typed known op_C0 any.
Proof. unfold op_C0. typing. Qed.
Lemma typed_op_C1 : typed known op_C1 any.
Proof. unfold op_C1. typing. Qed.
Lemma typed_op_D0 : typed known op_D0 any.
Proof. unfold op_D0. typing. Qed.
Lemma typed_op_D1 : typed known op_D1 any.
Proof. unfold op_D1. typing. Qed.
Lemma typed_op_D2 : typed known op_D2 any.
Proof. unfold op_D2. typing. Qed.
Lemma typed_op_D3 : typed known op_D3 any.
Proof. unfold op_D3. typing. Qed.
Lemma typed_op_F6 : typed known op_F6 any.
Proof. unfold op_F6. typing. Qed.

(** The operand of a word is always found. *)
Lemma typed_not_neg_word op : typed known (not_neg_word op) any.
Proof.
  intros s Hs. unfold not_neg_word. pose proof (typed_ParseModRMX (Errs (fun _ => False) False) s Hs) as H.
  destruct (RME_Int_ParseModRMX s) as [[[rm|e] s']|a| | |]; cbn in H; try tauto. split; [tauto|by left].
Qed.
#[export] Hint Resolve typed_not_neg_word : rme.
Lemma typed_op_F7 : typed known op_F7 any.
Proof. unfold op_F7. typing. Qed.
Lemma typed_op_FE : typed known op_FE any.
Proof. unfold op_FE. typing. Qed.
Lemma typed_op_FF : typed known op_FF any.
Proof. unfold op_FF. typing. Qed.
Lemma typed_op_test opcode : typed known (op_test opcode) any.
Proof. unfold op_test. typing. Qed.
Lemma typed_op_flag opcode : typed known (op_flag opcode) any.
Proof. unfold op_flag. typing. Qed.
Lemma typed_op_inc opcode : typed known (op_inc opcode) any.
Proof. unfold op_inc. typing. Qed.
Lemma typed_op_dec opcode : typed known (op_dec opcode) any.
Proof. unfold op_dec. typing. Qed.
Lemma typed_op_iret : typed known op_iret any.
Proof. unfold op_iret. typing. Qed.
Lemma typed_op_mov_mo opcode : typed known (op_mov_mo opcode) any.
Proof.
  unfold op_mov_mo. eapply typed_bind; [apply typed_GET_SEGMENT; unfold SREG_DS; lia|]. typing.
Qed.
Lemma typed_op_mov opcode : typed known (op_mov opcode) any.
Proof. unfold op_mov. typing. Qed.
Lemma typed_op_mov_ri opcode : typed known (op_mov_ri opcode) any.
Proof. unfold op_mov_ri. typing. Qed.
Lemma typed_op_jmp opcode : typed known (op_jmp opcode) any.
Proof. unfold op_jmp. typing. Qed.
Lemma typed_op_xchg opcode : typed known (op_xchg opcode) any.
Proof. unfold op_xchg, xchg. typing. Qed.
Lemma typed_op_push opcode : typed known (op_push opcode) any.
Proof. unfold op_push. typing. Qed.
Lemma typed_op_pop opcode : typed known (op_pop opcode) any.
Proof. unfold op_pop. typing. Qed.
Lemma typed_op_call opcode : typed known (op_call opcode) any.
Proof. unfold op_call. typing. Qed.
Lemma typed_op_lea : typed known op_lea any.
Proof. unfold op_lea. typing. Qed.
Lemma typed_op_loop opcode : typed known (op_loop opcode) any.
Proof. unfold op_loop. typing. Qed.
Lemma typed_op_jcc opcode : typed known (op_jcc opcode) any.
Proof. unfold op_jcc. typing. Qed.
Lemma typed_op_0F : typed known op_0F any.
Proof. unfold op_0F. typing. Qed.

(** A segment register with a code the processor does not have is NULL. *)
Lemma typed_known_null {A} (c : R A) Q : typed known c Q -> typed known_null c Q.
Proof. intros H. eapply typed_weaken; [apply H|auto|done|auto]. Qed.
Lemma typed_ld_Seg code : typed known_null (ld16 (Seg code)) any.
Proof.
  unfold Seg. destruct (code <? 4); [eapply typed_any; apply typed_ld16; by right; left|by apply typed_null].
Qed.
Lemma typed_st_Seg code v : typed known_null (st16 (Seg code) v) any.
Proof. unfold Seg. destruct (code <? 4); [apply typed_st16; by right|by apply typed_null]. Qed.
#[export] Hint Resolve typed_ld_Seg typed_st_Seg : rme.
Lemma typed_op_mov_rs : typed known_null op_mov_rs any.
Proof. unfold op_mov_rs. typing. Qed.
Lemma typed_op_mov_sr : typed known_null op_mov_sr any.
Proof. unfold op_mov_sr. typing. Qed.
Lemma px_behind p : px p -> pback (ptr_behind p).
Proof. destruct p; try done. cbn. unfold in_mem. lia. Qed.
Lemma typed_op_load_far k : typed known (op_load_far k) any.
Proof.
  unfold op_load_far. eapply typed_bind; [apply typed_ParseModRMX|]. intros rm [H1 H2]. pose proof (px_behind _ H2). typing.
Qed.

(** ** String instructions end *)

(** Code that leaves a part of the state alone. *)
Definition keeps {X A} (part : tRME_State -> X) (c : R A) : Prop :=
  forall s, match c s with Ret (_, s') => part s' = part s | _ => True end.

Section keeps.
Context {X : Type} (part : tRME_State -> X).

Lemma keeps_bind {A B} (c : R A) (k : A -> R B) : keeps part c -> (forall a, keeps part (k a)) -> keeps part (rbind c k).
Proof.
  intros Hc Hk s. unfold rbind, mseq. specialize (Hc s). destruct (c s) as [[[a|e] s']| | | |]; try done.
  specialize (Hk a s'). destruct (k a s') as [[r s'']| | | |]; try done. congruence.
Qed.
Lemma keeps_gets {A} (f : tRME_State -> A) : keeps part (rgets f).
Proof. done. Qed.
Lemma keeps_ret {A} (a : A) : keeps part (rret a).
Proof. done. Qed.
Lemma keeps_mod f : (forall s, part (f s) = part s) -> keeps part (rmod f).
Proof. intros H s. apply H. Qed.
Lemma keeps_ld_mem n off : keeps part (ld_mem n off).
Proof. intros s. unfold ld_mem. by destruct (in_window n off). Qed.
Lemma keeps_GetPtr a b : keeps part (RME_Int_GetPtr a b).
Proof. intros s. unfold RME_Int_GetPtr. cbv zeta. destruct (1 <=? _); [done|]. by destruct (Memory0 s =? 0). Qed.
Lemma keeps_at {A} a b (k : ptr -> R A) : (forall off, keeps part (k (PM off))) -> keeps part (rbind (RME_Int_GetPtr a b) k).
Proof.
  intros Hk s. unfold rbind, mseq, RME_Int_GetPtr. cbv zeta.
  destruct (1 <=? _); [done|]. destruct (Memory0 s =? 0); [done|]. apply Hk.
Qed.
Lemma keeps_Read8 a b : keeps part (RME_Int_Read8 a b).
Proof. apply keeps_at. intros. apply keeps_ld_mem. Qed.
Lemma keeps_Read16 a b : keeps part (RME_Int_Read16 a b).
Proof. apply keeps_at. intros. apply keeps_ld_mem. Qed.
Lemma keeps_Read32 a b : keeps part (RME_Int_Read32 a b).
Proof. apply keeps_at. intros. apply keeps_ld_mem. Qed.
End keeps.

(** The string instructions leave CX to the loop. *)
Lemma keeps_st_mem n off v : keeps (rW CX) (st_mem n off v).
Proof. intros s. unfold st_mem. by destruct (in_window n off). Qed.
Lemma keeps_rD r g s : r <> CX -> rW CX (set_gpr (<[r := g]> (gpr s)) s) = rW CX s.
Proof. intros. unfold rW, rD. cbn [gpr set_gpr]. by rewrite list_lookup_insert_ne. Qed.
Lemma keeps_advance r n : r <> CX -> keeps (rW CX) (advance r n).
Proof. intros. apply keeps_mod. intros. by apply keeps_rD. Qed.

#[export] Hint Resolve keeps_gets keeps_ret keeps_ld_mem keeps_GetPtr keeps_Read8 keeps_Read16 keeps_Read32 keeps_st_mem keeps_advance : rme.
#[export] Hint Extern 1 (_ <> CX) => discriminate : rme.
#[export] Hint Extern 2 (keeps (rW CX) (RME_Int_Write8 _ _ _)) => (apply keeps_at; intros; apply keeps_st_mem) : rme.
#[export] Hint Extern 2 (keeps (rW CX) (RME_Int_Write16 _ _ _)) => (apply keeps_at; intros; apply keeps_st_mem) : rme.
#[export] Hint Extern 2 (keeps (rW CX) (RME_Int_Write32 _ _ _)) => (apply keeps_at; intros; apply keeps_st_mem) : rme.
Ltac keeping := repeat match goal with |- keeps _ (rbind _ _) => apply keeps_bind; [|intros] end; eauto with rme.

(** A turn of [repeat] takes one from CX, so the turns run out. *)
Lemma put_CX s : rme_ok s -> forall v, rW CX (put_W CX v s) = u16 v.
Proof.
  intros Hs v. unfold put_W, rW, rD at 1. cbn [gpr set_gpr].
  rewrite list_lookup_insert_eq by (rewrite (proj1 (ok_gpr _ Hs)); unfold CX; lia). cbn. unfold u16. dlia.
Qed.
Lemma typed_rep_loop E again body : typed E body any -> keeps (rW CX) body -> forall fuel s, rme_ok s -> (turns s <= fuel)%nat ->
  match rep_loop fuel again body s with
  | Ret (Go _, s') => rme_ok s'
  | Ret (Rc e, s') => rme_ok s' /\ code_ok E e
  | Fault a => a = 0 /\ null_ok E
  | _ => False
  end.
Proof.
  intros Hb Hk. induction fuel as [|f IH]; intros s Hs Hf; [unfold turns in Hf; lia|].
  cbn [rep_loop]. unfold rbind at 1, mseq. specialize (Hb s Hs). specialize (Hk s).
  destruct (body s) as [[[stop|e] s1]| | | |]; try done. destruct Hb as [Hs1 _].
  destruct stop; [done|]. destruct again; [|done]. cbn.
  set (s2 := put_W CX (rW CX s1 - 1) s1). assert (rme_ok s2) by by apply put_W_ok.
  destruct (Z.eqb_spec (rW CX s2) 0) as [|Hnz]; [done|]. apply IH; [done|].
  unfold s2 in *. unfold turns in *. rewrite put_CX in * by done. rewrite Hk in *.
  pose proof (u16_in (rD CX s)) as Hr. change (u16 (rD CX s)) with (rW CX s) in Hr. unfold in_w, u16 in *. dlia.
Qed.
Lemma typed_string_op guard again body : typed known body any -> keeps (rW CX) body -> typed known (string_op guard again body) any.
Proof.
  intros Hb Hk. unfold string_op. eapply typed_bind; [apply typed_gets_any|]. intros cx _.
  destruct (guard && _); [typing|]. eapply (typed_bind _ _ _ any); [|typing].
  intros s Hs. unfold repeat. pose proof (typed_rep_loop known again body Hb Hk (turns s) s Hs (le_n _)) as H.
  destruct (rep_loop _ _ _ s) as [[[u|e] s']| | | |]; unfold any; cbn in *; tauto.
Qed.
Lemma typed_movs n rd wr :
  (forall a b, typed known (rd a b) any) -> (forall a b v, typed known (wr a b v) any) -> typed known (movs n rd wr) any.
Proof. intros Hrd Hwr. unfold movs, advance, go_on. typing. Qed.
Lemma typed_stos n get wr : (forall a b v, typed known (wr a b v) any) -> typed known (stos n get wr) any.
Proof. intros Hwr. unfold stos, advance, go_on. typing. Qed.
Lemma typed_lods n put rd :
  (forall v s, rme_ok s -> rme_ok (put v s)) -> (forall a b, typed known (rd a b) any) -> typed known (lods n put rd) any.
Proof. intros Hput Hrd. unfold lods, advance, go_on. typing. Qed.
Lemma typed_cmpsb rep : typed known (cmpsb rep) any.
Proof. unfold cmpsb, advance. typing. Qed.
#[export] Hint Resolve typed_cmpsb : rme.
#[export] Hint Extern 1 (typed _ (movs _ _ _) _) => (apply typed_movs; intros; eapply typed_any; eauto with rme) : rme.
#[export] Hint Extern 1 (typed _ (stos _ _ _) _) => (apply typed_stos; intros; eapply typed_any; eauto with rme) : rme.
#[export] Hint Extern 1 (typed _ (lods _ _ _) _) =>
  (apply typed_lods; [eauto with rme|intros; eapply typed_any; eauto with rme]) : rme.
#[export] Hint Extern 2 (keeps (rW CX) (rmod _)) => (apply keeps_mod; intros; try (by apply keeps_rD); reflexivity) : rme.
Lemma typed_op_string rep opcode : typed known (op_string rep opcode) any.
Proof.
  unfold op_string. typing; apply typed_string_op; try solve [eauto with rme]; unfold movs, lods, stos, cmpsb, go_on; keeping.
Qed.

(** ** The decoder *)

(** A real mode address is always inside the window. *)
Definition lin (a b : Z) : Z := u16 a * 16 + u16 b.

Lemma lin_range a b : in_mem (lin a b).
Proof. unfold in_mem, lin, RM_VSZ. pose proof (u16_in a). pose proof (u16_in b). unfold in_w in *. lia. Qed.
Lemma GetPtr_eq a b s : rme_ok s -> RME_Int_GetPtr a b s = Ret (Go (PM (lin a b)), s).
Proof.
  intros Hs. unfold RME_Int_GetPtr. fold (lin a b). pose proof (lin_range a b) as H. unfold in_mem, RM_VSZ in H.
  rewrite u32_small by lia. unfold RME_BLOCK_SIZE, RM_VSZ. rewrite Z.div_small, Z.mod_small by lia. cbn.
  by rewrite (proj2 (Z.eqb_neq _ _) (ok_mem _ Hs)).
Qed.
Lemma in_window_lin n a b : (n <= 4)%nat -> in_window n (lin a b) = true.
Proof. intros. pose proof (lin_range a b). unfold in_mem in *. apply andb_true_intro; split; apply Z.leb_le; lia. Qed.
Lemma Read8_eq a b s : rme_ok s -> RME_Int_Read8 a b s = Ret (Go (peek 1 (lin a b) (wmem s)), s).
Proof. intros. unfold RME_Int_Read8, rbind, mseq. rewrite GetPtr_eq by done. cbn [ld8]. unfold ld_mem. by rewrite in_window_lin by lia. Qed.
Lemma Read16_eq a b s : rme_ok s -> RME_Int_Read16 a b s = Ret (Go (peek 2 (lin a b) (wmem s)), s).
Proof. intros. unfold RME_Int_Read16, rbind, mseq. rewrite GetPtr_eq by done. cbn [ld16]. unfold ld_mem. by rewrite in_window_lin by lia. Qed.
Lemma Write8_eq a b v s : rme_ok s -> RME_Int_Write8 a b v s = Ret (Go tt, set_wmem (poke 1 (lin a b) v (wmem s)) s).
Proof. intros. unfold RME_Int_Write8, rbind, mseq. rewrite GetPtr_eq by done. cbn [st8]. unfold st_mem. by rewrite in_window_lin by lia. Qed.
Lemma Write16_eq a b v s : rme_ok s -> RME_Int_Write16 a b v s = Ret (Go tt, set_wmem (poke 2 (lin a b) v (wmem s)) s).
Proof. intros. unfold RME_Int_Write16, rbind, mseq. rewrite GetPtr_eq by done. cbn [st16]. unfold st_mem. by rewrite in_window_lin by lia. Qed.

(** Byte [k] of the instruction at CS:IP. *)
Definition code_byte (s : tRME_State) (k : Z) : Z := default 0 (wmem s !! lin (sg SREG_CS s) (IP s + k)).
Definition is_prefix (b : Z) : bool := bool_decide (b ∈ [0x26; 0x2E; 0x36; 0x3E; 0x66; 0xF2; 0xF3]).
(** The opcode is behind [k] prefixes. *)
Definition opcode_at (s : tRME_State) (k : Z) : Prop :=
  0 <= k /\ (forall i, 0 <= i < k -> is_prefix (code_byte s i) = true) /\ is_prefix (code_byte s k) = false.

Lemma READ_INSTR8_eq s : rme_ok s -> READ_INSTR8 s = Ret (Go (code_byte s (IPOffset s)), set_IPOffset (IPOffset s + 1) s).
Proof.
  intros Hs. unfold READ_INSTR8, read_instr, rbind, mseq. cbn. rewrite Read8_eq by done. cbn [peek]. rewrite Z.mul_0_r, Z.add_0_r. done.
Qed.
Lemma code_byte_range s k : rme_ok s -> in_w 8 (code_byte s k).
Proof.
  intros Hs. unfold code_byte. destruct (wmem s !! _) eqn:E; [by eapply (ok_bytes _ Hs)|by unfold in_w].
Qed.

Section machine.
Context (hw : list io_event -> Z -> Z -> Z) (HLE : Z -> option (tRME_State -> tRME_State)).
Context (HLE_ok : forall n f s, HLE n = Some f -> rme_ok s -> rme_ok (f s)).

Lemma typed_port_in E w port : typed E (port_in hw w port) any.
Proof. intros s Hs. split; [by apply set_io_ok|done]. Qed.
Lemma typed_op_io opcode : typed known (op_io hw opcode) any.
Proof. pose proof typed_port_in. unfold op_io, outX, port_out. typing. Qed.
Lemma typed_enter_int check num : typed known (enter_int check num) any.
Proof. unfold enter_int. typing. Qed.
Lemma typed_op_int check num : typed known (op_int HLE check num) any.
Proof.
  unfold op_int. destruct (HLE num) as [f|] eqn:Hf; [|apply typed_enter_int].
  eapply typed_bind; [apply (typed_mod _ _ any); [|done]|typing]. intros s Hs. by eapply HLE_ok.
Qed.
Lemma typed_op_int_byte : typed known (num <~ READ_INSTR8 ;; op_int HLE true num) any.
Proof. eapply typed_bind; [apply typed_READ_INSTR8|]. intros. apply typed_op_int. Qed.

#[local] Hint Resolve typed_op_80 typed_op_81 typed_op_83 typed_op_C0 typed_op_C1 typed_op_D0 typed_op_D1 typed_op_D2
  typed_op_D3 typed_op_F6 typed_op_F7 typed_op_FE typed_op_FF typed_op_test typed_op_flag typed_op_inc typed_op_dec
  typed_op_iret typed_op_mov_mo typed_op_mov typed_op_mov_ri typed_op_jmp typed_op_xchg typed_op_push typed_op_pop
  typed_op_call typed_op_lea typed_op_loop typed_op_jcc typed_op_0F typed_op_load_far typed_op_string typed_op_io
  typed_op_int typed_op_int_byte : rme.

(** Only the moves of segment registers may read through NULL. *)
Lemma typed_exec rep opcode :
  0 <= opcode -> opcode <> 0x8C -> opcode <> 0x8E -> typed known (exec hw HLE rep opcode) any.
Proof.
  intros H0 Hc He. unfold exec.
  destruct (Z.ltb_spec opcode 0x40); [destruct (Z.land opcode 7 <? 6); [apply typed_op_arith; lia|]|];
    rewrite ?andb_false_l; cbn [andb];
    repeat match goal with
    | |- typed _ (if opcode =? 0x8C then _ else _) _ => rewrite (proj2 (Z.eqb_neq _ _) Hc)
    | |- typed _ (if opcode =? 0x8E then _ else _) _ => rewrite (proj2 (Z.eqb_neq _ _) He)
    | |- typed _ (if ?b then _ else _) _ => destruct b; [solve [eauto with rme]|]
    end; apply typed_fail; cbn; unfold known_code; tauto.
Qed.
Lemma typed_exec_null rep opcode : 0 <= opcode -> typed known_null (exec hw HLE rep opcode) any.
Proof.
  intros H0. destruct (decide (opcode = 0x8C)) as [->|?]; [exact typed_op_mov_rs|].
  destruct (decide (opcode = 0x8E)) as [->|?]; [exact typed_op_mov_sr|]. by apply typed_known_null, typed_exec.
Qed.

(** Where the opcode is, and what may go wrong there. *)
Definition decoded (s : tRME_State) (b : Z) (o : outcome (step unit * tRME_State)) : Prop :=
  match o with
  | Ret (Go _, s') => rme_ok s'
  | Ret (Rc e, s') => rme_ok s' /\ known_code e
  | Fault a => a = 0 /\ (b = 0x8C \/ b = 0x8E)
  | _ => False
  end.

Lemma is_prefix_false b : is_prefix b = false ->
  prefix_segment b = None /\ (b =? 0x66) = false /\ (b =? REP) = false /\ (b =? REPNZ) = false.
Proof.
  unfold is_prefix. rewrite bool_decide_eq_false, !not_elem_of_cons. intros (H1&H2&H3&H4&H5&H6&H7&_).
  unfold prefix_segment, REP, REPNZ.
  by rewrite (proj2 (Z.eqb_neq _ _) H1), (proj2 (Z.eqb_neq _ _) H2), (proj2 (Z.eqb_neq _ _) H3), (proj2 (Z.eqb_neq _ _) H4),
    (proj2 (Z.eqb_neq _ _) H5), (proj2 (Z.eqb_neq _ _) H6), (proj2 (Z.eqb_neq _ _) H7).
Qed.

(** A prefix only changes the decoder. *)
Lemma decode_prefix f rep s : rme_ok s -> is_prefix (code_byte s (IPOffset s)) = true ->
  exists rep' s', decode hw HLE (S f) rep s = decode hw HLE f rep' s' /\ rme_ok s' /\
    IPOffset s' = IPOffset s + 1 /\ forall k, code_byte s' k = code_byte s k.
Proof.
  intros Hs Hp. cbn [decode]. unfold rbind at 1, mseq. rewrite READ_INSTR8_eq by done.
  set (s1 := set_IPOffset _ s). assert (rme_ok s1) as Hs1 by by apply set_IPOffset_ok.
  apply bool_decide_eq_true in Hp. rewrite !elem_of_cons in Hp.
  destruct Hp as [Hb|[Hb|[Hb|[Hb|[Hb|[Hb|[Hb|Hb]]]]]]]; [rewrite Hb; cbn..|by apply elem_of_nil in Hb];
    match goal with |- exists rep' s', decode _ _ f ?r ?t = _ /\ _ => exists r, t end;
    (split; [done|]); (split; [|by split]); try done; by apply set_decoder_ok; [|try apply ok_over].
Qed.
Lemma decode_opcode f rep s : rme_ok s -> is_prefix (code_byte s (IPOffset s)) = false ->
  decoded s (code_byte s (IPOffset s)) (decode hw HLE (S f) rep s).
Proof.
  intros Hs Hp. cbn [decode]. unfold rbind at 1, mseq. rewrite READ_INSTR8_eq by done.
  pose proof (code_byte_range s (IPOffset s) Hs) as Hb. set (b := code_byte s (IPOffset s)) in *.
  set (s1 := set_IPOffset _ s). assert (rme_ok s1) as Hs1 by by apply set_IPOffset_ok.
  destruct (is_prefix_false b Hp) as (-> & -> & -> & ->).
  destruct (b =? 0x67). { cbn. split; [by apply set_decoder_ok; [|apply ok_over]|right; right; by left]. }
  assert (typed (Errs known_code (b = 0x8C \/ b = 0x8E)) (exec hw HLE rep b) any) as Ht.
  { destruct (decide (b = 0x8C)) as [->|?]; [by eapply typed_weaken; [exact typed_op_mov_rs|done|intros _; left|done]|].
    destruct (decide (b = 0x8E)) as [->|?]; [by eapply typed_weaken; [exact typed_op_mov_sr|done|intros _; right|done]|].
    eapply typed_weaken; [apply typed_exec; [apply Hb|done..]|auto|done|auto]. }
  specialize (Ht s1 Hs1). unfold rbind, mseq. destruct (exec hw HLE rep b s1) as [[[c|e] s2]|a| | |]; try done.
  destruct Ht as [Hs2 _]. destruct c; cbn; [|by apply set_IP_ok|done].
  destruct (negb _); [split; [done|right; right; by left]|by apply set_IP_ok].
Qed.

Lemma decode_typed : forall k f rep s, rme_ok s -> 0 <= k < Z.of_nat f ->
  (forall i, 0 <= i < k -> is_prefix (code_byte s (IPOffset s + i)) = true) ->
  is_prefix (code_byte s (IPOffset s + k)) = false ->
  decoded s (code_byte s (IPOffset s + k)) (decode hw HLE f rep s).
Proof.
  intros k f. revert k. induction f as [|f IH]; intros k rep s Hs Hk Hpre Hop; [lia|].
  destruct (decide (k = 0)) as [->|Hnz]; [rewrite Z.add_0_r in *; by apply decode_opcode|].
  destruct (decode_prefix f rep s Hs) as (rep' & s' & -> & Hs' & Hoff & Hcode); [specialize (Hpre 0); rewrite Z.add_0_r in Hpre; apply Hpre; lia|].
  assert (forall i, code_byte s (IPOffset s + i) = code_byte s' (IPOffset s' + (i - 1))) as Heq.
  { intros i. rewrite Hcode, Hoff. f_equal. lia. }
  specialize (IH (k - 1) rep' s' Hs'). rewrite <- (Heq k) in IH. apply IH; [lia| |done].
  intros i Hi. replace i with (i + 1 - 1) by lia. rewrite <- Heq. apply Hpre. lia.
Qed.

(** C12: An instruction of the emulator is well typed.  From a well-formed
    state (registers within their widths, bytes in the window, a window
    mapped) whose opcode is behind [k] prefixes, RME_Int_DoOpcode ends (string
    loops included) in a well-formed state with RME_ERR_OK, BADMEM,
    UNDEFOPCODE or DIVERR; every access to memory lies inside the window of
    low memory.  The only other end is a read through NULL, which only the
    moves of segment registers (0x8C, 0x8E) can make. *)
Theorem RME_Int_DoOpcode_typed fuel s k : rme_ok s -> opcode_at s k -> k < Z.of_nat fuel ->
  match RME_Int_DoOpcode hw HLE fuel s with
  | Ret (e, s') => rme_ok s' /\ known_code e
  | Fault a => a = 0 /\ (code_byte s k = 0x8C \/ code_byte s k = 0x8E)
  | _ => False
  end.
Proof.
  intros Hs (Hk & Hpre & Hop) Hf. unfold RME_Int_DoOpcode, mseq, mmodify. cbn.
  set (s0 := set_decoder _ _ _ _ _ s). assert (rme_ok s0) as Hs0 by by apply set_decoder_ok.
  pose proof (decode_typed k fuel 0 s0 Hs0 ltac:(lia) Hpre Hop) as H. unfold decoded in H.
  destruct (decode hw HLE fuel 0 s0) as [[[u|e] s']| | | |]; try done. split; [done|by left].
Qed.
End machine.

Module RmeSpecDemo.
Definition no_ports (_ : list io_event) (_ _ : Z) : Z := 0.
Definition no_HLE (_ : Z) : option (tRME_State -> tRME_State) := None.
Lemma no_HLE_ok n f s : no_HLE n = Some f -> rme_ok s -> rme_ok (f s).
Proof. done. Defined.

(** [code] at 1000:0000, with [v] in ECX and [v] as the vector of interrupt 0. *)
Definition demo_cpu (v : Z) (code : list Z) : tRME_State :=
  RmeState [0; v; 0; 0; 0x100; 0; 0x10; 0] [0x3000; 0x1000; 0x2000; 0x3000] 0 FLAG_DEFAULT 1
    (poke 4 0 (v * 0x1000) (list_to_map (imap (fun i b => (0x10000 + Z.of_nat i, b)) code))) 0 (-1) false false 0 [].

(** A prefix and a NOP. *)
Lemma RME_Int_DoOpcode_typed_witness :
  match RME_Int_DoOpcode no_ports no_HLE 2 (demo_cpu 0 [0x26; 0x90]) with
  | Ret (e, s') => rme_ok s' /\ known_code e
  | Fault a => a = 0 /\ (code_byte (demo_cpu 0 [0x26; 0x90]) 1 = 0x8C \/ code_byte (demo_cpu 0 [0x26; 0x90]) 1 = 0x8E)
  | _ => False
  end.
Proof.
  apply (RME_Int_DoOpcode_typed no_ports no_HLE no_HLE_ok 2 (demo_cpu 0 [0x26; 0x90]) 1).
  - apply rme_okb_ok. vm_compute. reflexivity.
  - split; [lia|]. split; [|vm_compute; reflexivity]. intros i Hi. assert (i = 0) as -> by lia. vm_compute. reflexivity.
  - lia.
Defined.
End RmeSpecDemo.
