(* ===== verification/RmeAlu.v ===== *)
(** * The real mode emulator: arithmetic against the processor's manual

    The values and the flags of the macros of rme.c, compared with the
    operations on [w]-bit numbers they emulate: which results agree, and
    exactly where the others part. *)

From S2P Require Import Prelude.
From S2P Require Import Rme.
From S2P Require Import RmeSpec.

(** ** Flags, bit by bit *)

Lemma has_flag_bit fl i : 0 <= i -> has_flag fl (2 ^ i) = Z.testbit fl i.
Proof.
  intros Hi. unfold has_flag. destruct (Z.testbit fl i) eqn:E; destruct (Z.eqb_spec (Z.land fl (2 ^ i)) 0) as [H|H]; try done.
  - apply (f_equal (fun x => Z.testbit x i)) in H. rewrite Z.land_spec, Z.bits_0, E, Z.pow2_bits_true in H by lia. done.
  - destruct H. apply Z.bits_inj_0. intros j. rewrite Z.land_spec.
    destruct (decide (i = j)) as [->|]; [by rewrite E|]. rewrite (Z.pow2_bits_false i j) by lia. apply andb_false_r.
Qed.
Lemma testbit_set_if b f fl i : Z.testbit (set_if b f fl) i = b && Z.testbit f i || Z.testbit fl i.
Proof. destruct b; cbn [set_if andb orb]; [|done]. rewrite Z.lor_spec. apply orb_comm. Qed.
Lemma testbit_clr fl f i : Z.testbit (clr fl f) i = Z.testbit fl i && negb (Z.testbit f i).
Proof. apply Z.ldiff_spec. Qed.

Definition CF_bit : Z := 0.
Definition ZF_bit : Z := 6.
Definition SF_bit : Z := 7.
Definition OF_bit : Z := 11.

Lemma has_CF fl : has_flag fl FLAG_CF = Z.testbit fl CF_bit.
Proof. by apply (has_flag_bit fl 0). Qed.
Lemma has_ZF fl : has_flag fl FLAG_ZF = Z.testbit fl ZF_bit.
Proof. by apply (has_flag_bit fl 6). Qed.
Lemma has_SF fl : has_flag fl FLAG_SF = Z.testbit fl SF_bit.
Proof. by apply (has_flag_bit fl 7). Qed.
Lemma has_OF fl : has_flag fl FLAG_OF = Z.testbit fl OF_bit.
Proof. by apply (has_flag_bit fl 11). Qed.

(** Evaluate the bits of constants. *)
Ltac closed_bits :=
  repeat match goal with |- context [Z.testbit ?f ?k] =>
    let r := eval vm_compute in (Z.testbit f k) in
    match r with true => idtac | false => idtac end; change (Z.testbit f k) with r
  end; cbn [andb orb negb]; rewrite ?andb_true_r, ?andb_false_r, ?orb_false_r, ?orb_true_r.

(** What SET_COMM_FLAGS leaves in each of the four flags. *)
Lemma comm_flags v w fl :
  let fl' := SET_COMM_FLAGS v w (clr fl ARITH_FLAGS) in
  Z.testbit fl' CF_bit = false /\ Z.testbit fl' ZF_bit = (v =? 0) /\
  Z.testbit fl' SF_bit = negb (Z.shiftr v (w - 1) =? 0) /\ Z.testbit fl' OF_bit = false.
Proof.
  cbv zeta. unfold SET_COMM_FLAGS, SET_PF. rewrite !testbit_set_if, !testbit_clr. closed_bits. by rewrite ?andb_false_r.
Qed.

(** ** Widths *)

Definition is_width (w : Z) : Prop := w = 8 \/ w = 16 \/ w = 32.
Ltac widths := match goal with H : is_width _ |- _ => destruct H as [->|[->| ->]] end.

(** Case analysis on every comparison of a goal. *)
Ltac cases_lt :=
  repeat match goal with
  | |- context [?x <? ?y] => destruct (Z.ltb_spec x y); try lia
  | |- context [decide ?P] => destruct (decide P); try lia
  end.

(** A [w]-bit number in two's complement. *)
Definition sw (w v : Z) : Z := if v <? 2 ^ (w - 1) then v else v - 2 ^ w.

Lemma top_bit_mod w x : is_width w -> Z.testbit x (w - 1) = (2 ^ (w - 1) <=? x mod 2 ^ w).
Proof.
  intros Hw. assert (0 <= w - 1) as Hp by (widths; lia). pose proof (Z.testbit_spec' x (w - 1) Hp) as H.
  destruct (Z.testbit x (w - 1)), (Z.leb_spec (2 ^ (w - 1)) (x mod 2 ^ w)) as [Hl|Hl]; try done; exfalso; cbn [Z.b2z] in H; widths;
    cbn in H, Hl; dlia.
Qed.
Lemma top_bit w x : is_width w -> in_w w x -> Z.testbit x (w - 1) = (2 ^ (w - 1) <=? x).
Proof. intros Hw Hx. rewrite top_bit_mod by done. by rewrite Z.mod_small. Qed.
Lemma sign_shift w v : is_width w -> in_w w v -> negb (Z.shiftr v (w - 1) =? 0) = (2 ^ (w - 1) <=? v).
Proof.
  intros Hw Hv. rewrite Z.shiftr_div_pow2 by (widths; lia). unfold in_w in Hv.
  destruct (Z.eqb_spec (v / 2 ^ (w - 1)) 0), (Z.leb_spec (2 ^ (w - 1)) v); try done; exfalso; widths; cbn in *; dlia.
Qed.
Lemma s32_mod w x : is_width w -> s32 x mod 2 ^ w = x mod 2 ^ w.
Proof. intros Hw. unfold s32, u32. destruct (decide _); widths; cbn; dlia. Qed.
Lemma uw_s32 w x : is_width w -> uw w (s32 x) = uw w x.
Proof. apply s32_mod. Qed.

(** The residue of a difference. *)
Lemma mod_diff w x : 0 <= w -> - 2 ^ w <= x < 2 ^ w -> x mod 2 ^ w = if x <? 0 then x + 2 ^ w else x.
Proof.
  intros Hw Hx. destruct (Z.ltb_spec x 0); [|apply Z.mod_small; lia].
  symmetry. apply (Z.mod_unique_pos x (2 ^ w) (-1)); lia.
Qed.
Lemma s32_diff x : - 2 ^ 32 <= x < 2 ^ 32 ->
  s32 x = if x <? - 2 ^ 31 then x + 2 ^ 32 else if x <? 2 ^ 31 then x else x - 2 ^ 32.
Proof.
  intros Hx. unfold s32, u32. rewrite mod_diff by lia. change (2 ^ 32) with 4294967296 in *. change (2 ^ 31) with 2147483648 in *.
  cases_lt; lia.
Qed.
Lemma width_le w : is_width w -> 2 ^ w <= 2 ^ 32.
Proof. intros. by widths. Qed.

(** Overflow of a subtraction: the signed difference is out of range. *)
Lemma sub_overflows_spec w a b : is_width w -> in_w w a -> in_w w b ->
  sub_overflows w a b (s32 (a - b)) = negb (sw w (uw w (a - b)) =? sw w a - sw w b).
Proof.
  intros Hw Ha Hb. unfold sub_overflows. rewrite Z.land_spec, !Z.lxor_spec, (top_bit w a), (top_bit w b), (top_bit_mod w (s32 _)) by done.
  rewrite s32_mod by done. fold (uw w (a - b)). unfold sw, in_w, uw in *.
  destruct (Z.leb_spec (2 ^ (w - 1)) a), (Z.leb_spec (2 ^ (w - 1)) b), (Z.leb_spec (2 ^ (w - 1)) ((a - b) mod 2 ^ w)),
    (Z.ltb_spec a (2 ^ (w - 1))), (Z.ltb_spec b (2 ^ (w - 1))), (Z.ltb_spec ((a - b) mod 2 ^ w) (2 ^ (w - 1))); try lia;
    cbn [xorb andb]; symmetry;
    first [apply negb_true_iff, Z.eqb_neq|apply negb_false_iff, Z.eqb_eq]; widths; cbn in *; dlia.
Qed.

(** ** Comparisons and the jumps behind them *)

(** The flags a comparison leaves. *)
Lemma cmp_flags w a b fl : is_width w -> in_w w a -> in_w w b ->
  let fl' := RME_Int_DoCmp w a b fl in
  has_flag fl' FLAG_CF = (a <? b) /\ has_flag fl' FLAG_ZF = (a =? b) /\
  has_flag fl' FLAG_SF = negb (Z.shiftr (s32 (a - b)) (w - 1) =? 0) /\
  has_flag fl' FLAG_OF = negb (sw w (uw w (a - b)) =? sw w a - sw w b).
Proof.
  intros Hw Ha Hb. cbv zeta. rewrite has_CF, has_ZF, has_SF, has_OF. unfold RME_Int_DoCmp.
  destruct (comm_flags (s32 (a - b)) w fl) as (Hc & Hz & Hs & Ho).
  generalize dependent (SET_COMM_FLAGS (s32 (a - b)) w (clr fl ARITH_FLAGS)). intros base Hc Hz Hs Ho.
  rewrite !testbit_set_if. closed_bits.
  rewrite Hc, Hz, Hs, Ho, ?orb_false_r, sub_overflows_spec by done. split_and!; try done.
  assert (s32 (a - b) = 0 <-> a = b) 
    by (pose proof (width_le w Hw); unfold in_w in *; rewrite s32_diff by lia;
        change (2 ^ 32) with 4294967296 in *; change (2 ^ 31) with 2147483648; cases_lt).
  destruct (Z.eqb_spec (s32 (a - b)) 0), (Z.eqb_spec a b); tauto.
Qed.

(** C24: The unsigned conditional jumps after CMP decide the order of the
    operands: JB, JAE, JE, JNE, JBE and JA jump exactly when the first operand
    is below, not below, equal to, different from, not above and above the
    second, for bytes, words and double words. *)
Theorem cmp_unsigned_jumps w a b fl : is_width w -> in_w w a -> in_w w b ->
  let holds type := cond_holds type (RME_Int_DoCmp w a b fl) in
  holds 2 = (a <? b) /\ holds 3 = (b <=? a) /\ holds 4 = (a =? b) /\ holds 5 = negb (a =? b) /\
  holds 6 = (a <=? b) /\ holds 7 = (b <? a).
Proof.
  intros Hw Ha Hb. cbv zeta. destruct (cmp_flags w a b fl Hw Ha Hb) as (Hc & Hz & _). unfold cond_holds.
  cbn [Z.eqb Pos.eqb]. rewrite Hc, Hz. split_and!; lia.
Qed.

(** The signed ones: SF is that of the difference before it is cut to [w]
    bits, so for bytes and words a difference below [- 2 ^ (w - 1)] of the
    unsigned operands looks negative. *)
Lemma cmp_sign_flag w a b : is_width w -> in_w w a -> in_w w b ->
  negb (Z.shiftr (s32 (a - b)) (w - 1) =? 0) = (2 ^ (w - 1) <=? uw w (a - b)) || (negb (w =? 32) && (a - b <? - 2 ^ (w - 1))).
Proof.
  intros Hw Ha Hb. rewrite Z.shiftr_div_pow2 by (widths; lia). unfold uw, in_w in *.
  pose proof (width_le w Hw). rewrite s32_diff, mod_diff by (widths; lia).
  widths; cbn in *;
    cases_lt;
    match goal with |- negb (?x =? 0) = (?y <=? ?z) || _ => destruct (Z.eqb_spec x 0), (Z.leb_spec y z) end; try done; exfalso; dlia.
Qed.

Lemma sign_xor_overflow w a b : is_width w -> in_w w a -> in_w w b ->
  xorb (2 ^ (w - 1) <=? uw w (a - b)) (negb (sw w (uw w (a - b)) =? sw w a - sw w b)) = (sw w a <? sw w b).
Proof.
  intros Hw Ha Hb. unfold uw, sw, in_w in *. rewrite mod_diff by (widths; lia).
  widths; cbn in *; cases_lt;
    match goal with |- xorb (?x <=? ?y) (negb (?u =? ?v)) = _ => destruct (Z.leb_spec x y), (Z.eqb_spec u v) end; try done; lia.
Qed.

(** What the signed jumps after CMP decide.  JL and JGE decide the signed
    order of double words; of bytes and words except where the unsigned
    difference is below [- 2 ^ (w - 1)] (a positive number against a negative
    one far enough away), where they decide the opposite.  JG always jumps:
    its condition is a disjunction. *)
Theorem cmp_signed_jumps w a b fl : is_width w -> in_w w a -> in_w w b ->
  let holds type := cond_holds type (RME_Int_DoCmp w a b fl) in
  let astray := negb (w =? 32) && (a - b <? - 2 ^ (w - 1)) in
  holds 0xC = xorb astray (sw w a <? sw w b) /\ holds 0xD = negb (holds 0xC) /\ holds 0xF = true.
Proof.
  intros Hw Ha Hb. cbv zeta. destruct (cmp_flags w a b fl Hw Ha Hb) as (_ & Hz & Hs & Ho). unfold cond_holds.
  cbn [Z.eqb Pos.eqb]. rewrite Hz, Hs, Ho, cmp_sign_flag by done. pose proof (sign_xor_overflow w a b Hw Ha Hb) as Hx.
  unfold sw, uw, in_w in *. rewrite mod_diff in * by (widths; lia).
  split; [|split; [done|]].
  - rewrite <- Hx. clear Hx Hz Hs Ho. widths; cbn in *; cases_lt;
      match goal with |- context [?u <=? ?v] => destruct (Z.leb_spec u v); try lia end; by rewrite ?xorb_false_l, ?orb_false_r.
  - destruct (Z.eqb_spec a b) as [->|]; [|done]. clear Hx Hz Hs Ho. rewrite Z.sub_diag. widths; cbn in *; cases_lt; cbn;
      rewrite ?Z.sub_diag; done.
Qed.

(** ** Arithmetic *)

(** The manual's result and carry of ADD, OR, ADC, SBB, AND, SUB and XOR. *)
Definition alu_ref (num w a b : Z) (c : bool) : Z * bool :=
  if num =? 0 then (uw w (a + b), 2 ^ w <=? a + b)
  else if num =? 1 then (Z.lor a b, false)
  else if num =? 2 then (uw w (a + b + Z.b2z c), 2 ^ w <=? a + b + Z.b2z c)
  else if num =? 3 then (uw w (a - b - Z.b2z c), a <? b + Z.b2z c)
  else if num =? 4 then (Z.land a b, false)
  else if num =? 5 then (uw w (a - b), a <? b)
  else (Z.lxor a b, false).

Lemma bits_in_w w v : 0 <= w -> 0 <= v -> (forall i, w <= i -> Z.testbit v i = false) -> in_w w v.
Proof.
  intros Hw Hv Hb. split; [done|]. destruct (decide (v = 0)) as [->|]; [lia|]. apply Z.log2_lt_pow2; [lia|].
  destruct (decide (Z.log2 v < w)); [done|]. specialize (Hb (Z.log2 v) ltac:(lia)). rewrite Z.bit_log2 in Hb by lia. done.
Qed.
Lemma in_w_bits w v i : in_w w v -> 0 <= w <= i -> Z.testbit v i = false.
Proof.
  intros [H0 H] Hi. destruct (decide (v = 0)) as [->|]; [apply Z.bits_0|]. apply Z.bits_above_log2; [done|].
  apply Z.log2_lt_pow2 in H; lia.
Qed.
Lemma bitwise_in_w w a b : 0 <= w -> in_w w a -> in_w w b -> in_w w (Z.lor a b) /\ in_w w (Z.land a b) /\ in_w w (Z.lxor a b).
Proof.
  intros Hw Ha Hb. split_and!; apply bits_in_w; try done.
  1: by apply Z.lor_nonneg; split; [apply Ha|apply Hb]. 2: by apply Z.land_nonneg; left; apply Ha.
  3: by apply Z.lxor_nonneg; split; intros; [apply Hb|apply Ha].
  all: intros i Hi; rewrite ?Z.lor_spec, ?Z.land_spec, ?Z.lxor_spec, (in_w_bits w a i), (in_w_bits w b i); done || lia.
Qed.

(** The flags behind SET_COMM_FLAGS of a [w]-bit value and a carry. *)
Lemma carry_flags w v c fl : is_width w -> in_w w v -> forall f, f = Z.lor FLAG_OF FLAG_CF \/ f = FLAG_CF ->
  let fl' := set_if c f (SET_COMM_FLAGS v w (clr fl ARITH_FLAGS)) in
  has_flag fl' FLAG_CF = c /\ has_flag fl' FLAG_ZF = (v =? 0) /\ has_flag fl' FLAG_SF = (2 ^ (w - 1) <=? v).
Proof.
  intros Hw Hv f Hf. cbv zeta. rewrite has_CF, has_ZF, has_SF. destruct (comm_flags v w fl) as (Hc & Hz & Hs & _).
  generalize dependent (SET_COMM_FLAGS v w (clr fl ARITH_FLAGS)). intros base Hc Hz Hs.
  rewrite !testbit_set_if, Hc, Hz, Hs, sign_shift by done. destruct Hf as [-> | ->]; closed_bits; done.
Qed.

(** The comparison the code takes the carry from misses one: that of a carry
    into an operand of all ones, where the sum is the other operand. *)
Definition carry_lost (w a : Z) (c : bool) : bool := c && (a =? 2 ^ w - 1).

Lemma add_carry w a b c : 0 <= w -> in_w w a -> in_w w b ->
  (uw w (a + b + Z.b2z c) <? b) = (2 ^ w <=? a + b + Z.b2z c) && negb (carry_lost w a c).
Proof.
  intros Hw [] [] . unfold uw, carry_lost. destruct (c && (a =? 2 ^ w - 1)) eqn:El.
  { apply andb_true_iff in El as [-> ->%Z.eqb_eq]. cbn [Z.b2z negb]. rewrite andb_false_r.
    replace (2 ^ w - 1 + b + 1) with (b + 1 * 2 ^ w) by lia. rewrite Z.mod_add, Z.mod_small by lia. apply Z.ltb_irrefl. }
  assert (c = true -> a <> 2 ^ w - 1) as Hc by (intros -> ->; by rewrite Z.eqb_refl in El). cbn [negb]. rewrite andb_true_r. clear El. assert (0 <= Z.b2z c <= 1) by (destruct c; cbn; lia).
  assert (a + Z.b2z c < 2 ^ w) by (destruct c; cbn in *; [specialize (Hc eq_refl)|]; lia).
  destruct (Z.leb_spec (2 ^ w) (a + b + Z.b2z c)).
  - rewrite (Z.mod_eq _ (2 ^ w)) by lia. replace ((a + b + Z.b2z c) / 2 ^ w) with 1; [lia|].
    apply (Z.div_unique _ _ _ (a + b + Z.b2z c - 2 ^ w)); lia.
  - rewrite Z.mod_small by lia. lia.
Qed.

(** Result, carry, and whether zero and sign are those of the result. *)
Definition alu_ok (w : Z) (full : bool) (v : Z) (carry : bool) (r : Z * Z) : Prop :=
  r.1 = v /\ has_flag r.2 FLAG_CF = carry /\
  (full = true -> has_flag r.2 FLAG_ZF = (v =? 0) /\ has_flag r.2 FLAG_SF = (2 ^ (w - 1) <=? v)).

Lemma w_pos w : is_width w -> 0 <= w.
Proof. intros. widths; lia. Qed.

Section operands.
Context (w a b fl : Z) (Hw : is_width w) (Ha : in_w w a) (Hb : in_w w b).
Lemma alu_comm v c f : in_w w v -> f = Z.lor FLAG_OF FLAG_CF \/ f = FLAG_CF ->
  alu_ok w true v c (v, set_if c f (SET_COMM_FLAGS v w (clr fl ARITH_FLAGS))).
Proof.
  intros Hv Hf. destruct (carry_flags w v c fl Hw Hv f Hf) as (? & ? & ?). by repeat split.
Qed.
Lemma alu_bitwise v : in_w w v -> alu_ok w true v false (v, SET_COMM_FLAGS v w (clr fl ARITH_FLAGS)).
Proof. intros Hv. apply (alu_comm v false FLAG_CF); auto. Qed.
Lemma alu_add : alu_ok w true (uw w (a + b)) (2 ^ w <=? a + b) (RME_Int_DoAdd w a b fl).
Proof.
  pose proof (add_carry w a b false (w_pos w Hw) Ha Hb) as Hc. cbn [Z.b2z carry_lost andb negb] in Hc. rewrite Z.add_0_r, andb_true_r in Hc. rewrite <- Hc.
  apply alu_comm; [by apply uw_in, w_pos|auto].
Qed.
Lemma alu_adc : let c := has_flag fl FLAG_CF in
  alu_ok w true (uw w (a + b + Z.b2z c)) ((2 ^ w <=? a + b + Z.b2z c) && negb (carry_lost w a c)) (RME_Int_DoAdc w a b fl).
Proof.
  intros c. rewrite <- (add_carry w a b c (w_pos w Hw) Ha Hb). unfold RME_Int_DoAdc. fold c.
  replace (a + (b + (if c then 1 else 0))) with (a + b + Z.b2z c) by (destruct c; cbn; lia).
  apply alu_comm; [by apply uw_in, w_pos|auto].
Qed.
Lemma alu_sub : alu_ok w false (uw w (a - b)) (a <? b) (RME_Int_DoSub w a b fl).
Proof.
  unfold RME_Int_DoSub. split; [by apply uw_s32|]. split; [|done]. cbn [snd]. rewrite has_CF.
  destruct (comm_flags a w fl) as (Hc & _). generalize dependent (SET_COMM_FLAGS a w (clr fl ARITH_FLAGS)). intros base Hc.
  rewrite !testbit_set_if, Hc. by closed_bits.
Qed.
End operands.

(** C23: ADD, OR, ADC, AND, SUB and XOR store the [w]-bit result the manual
    gives, for all operands of bytes, words and double words, and set the
    carry flag as the manual says with one exception: ADC with the carry set
    and a first operand of all ones leaves it clear, where the manual sets it.
    All but SUB also set the zero flag and the sign flag by the result. *)
Theorem RME_Int_DoArithOp_ref num w a b fl :
  is_width w -> in_w w a -> in_w w b -> num ∈ [0; 1; 2; 4; 5; 6] ->
  let c := has_flag fl FLAG_CF in
  let lost := (num =? 2) && c && (a =? 2 ^ w - 1) in
  let (v, carry) := alu_ref num w a b c in
  exists fl', RME_Int_DoArithOp num w a b fl = Some (Some v, fl') /\
    has_flag fl' FLAG_CF = carry && negb lost /\ (lost = true -> carry = true) /\
    (num <> 5 -> has_flag fl' FLAG_ZF = (v =? 0) /\ has_flag fl' FLAG_SF = (2 ^ (w - 1) <=? v)).
Proof.
  intros Hw Ha Hb Hn c lost. pose proof (bitwise_in_w w a b (w_pos w Hw) Ha Hb) as (Hlor & Hland & Hlxor).
  assert (forall full v carry r, alu_ok w full v (carry && negb lost) r -> (num <> 5 -> full = true) -> (lost = true -> carry = true) ->
    exists fl', Some (Some r.1, r.2) = Some (Some v, fl') /\ has_flag fl' FLAG_CF = carry && negb lost /\ (lost = true -> carry = true) /\
      (num <> 5 -> has_flag fl' FLAG_ZF = (v =? 0) /\ has_flag fl' FLAG_SF = (2 ^ (w - 1) <=? v))) as Hok.
  { intros full v carry r (<- & Hc & Hf) Hn5 Hl. eexists. split; [done|]. split; [done|auto]. }
  rewrite !elem_of_cons in Hn. destruct Hn as [->|[->|[->|[->|[->|[->|Hn]]]]]]; [..|by apply elem_of_nil in Hn]; cbn [alu_ref Z.eqb Pos.eqb].
  - apply (Hok true); [rewrite andb_true_r; apply alu_add; auto|done..].
  - apply (Hok true); [apply alu_bitwise; auto|done..].
  - apply (Hok true); [apply alu_adc; auto|done|]. unfold lost. cbn [Z.eqb Pos.eqb andb]. destruct c; [|done]. intros ->%Z.eqb_eq. apply Z.leb_le.
    cbn [Z.b2z]. unfold in_w in Hb. lia.
  - apply (Hok true); [apply alu_bitwise; auto|done..].
  - apply (Hok false); [rewrite andb_true_r; apply alu_sub; auto|done..].
  - apply (Hok true); [apply alu_bitwise; auto|done..].
Qed.

(** SUB and SBB take the zero, sign and parity flags from the operand before
    the subtraction, and SBB adds the borrow. *)
Lemma sub_flags_stale w a b fl : has_flag (RME_Int_DoSub w a b fl).2 FLAG_ZF = (a =? 0).
Proof.
  unfold RME_Int_DoSub. cbn [snd]. rewrite has_ZF. destruct (comm_flags a w fl) as (_ & Hz & _).
  generalize dependent (SET_COMM_FLAGS a w (clr fl ARITH_FLAGS)). intros base Hz. rewrite !testbit_set_if, Hz. by closed_bits.
Qed.
Lemma sbb_adds_borrow w a b fl : is_width w -> (RME_Int_DoSbb w a b fl).1 = uw w (a - b + Z.b2z (has_flag fl FLAG_CF)).
Proof. intros Hw. cbn [RME_Int_DoSbb fst]. rewrite uw_s32 by done. by destruct (has_flag fl FLAG_CF). Qed.

Module RmeAluDemo.
Lemma cmp_unsigned_jumps_witness :
  cond_holds 2 (RME_Int_DoCmp 8 3 200 FLAG_DEFAULT) = true /\ cond_holds 7 (RME_Int_DoCmp 8 3 200 FLAG_DEFAULT) = false.
Proof.
  destruct (cmp_unsigned_jumps 8 3 200 FLAG_DEFAULT (or_introl eq_refl) ltac:(by unfold in_w) ltac:(by unfold in_w))
    as (Hb & _ & _ & _ & _ & Ha). exact (conj Hb Ha).
Defined.
(** 1 against 255, that is -1: JL jumps. *)
Lemma cmp_signed_jumps_witness : cond_holds 0xC (RME_Int_DoCmp 8 1 255 FLAG_DEFAULT) = true.
Proof.
  destruct (cmp_signed_jumps 8 1 255 FLAG_DEFAULT (or_introl eq_refl) ltac:(by unfold in_w) ltac:(by unfold in_w)) as [H _].
  exact H.
Defined.
(** 255 + 0 + 1 is 256: the carry is lost. *)
Theorem adc_carry_lost :
  let r := RME_Int_DoAdc 8 255 0 (Z.lor FLAG_DEFAULT FLAG_CF) in
  r.1 = 0 /\ has_flag r.2 FLAG_CF = false /\ alu_ref 2 8 255 0 true = (0, true).
Proof. by vm_compute. Qed.

Lemma RME_Int_DoArithOp_ref_witness :
  exists fl', RME_Int_DoArithOp 0 8 200 100 FLAG_DEFAULT = Some (Some 44, fl') /\ has_flag fl' FLAG_CF = true.
Proof.
  destruct (RME_Int_DoArithOp_ref 0 8 200 100 FLAG_DEFAULT (or_introl eq_refl) ltac:(by unfold in_w) ltac:(by unfold in_w)
    ltac:(by left)) as (fl' & H & Hc & _). exists fl'. exact (conj H Hc).
Defined.
End RmeAluDemo.
