(* ===== verification/RmeRun.v ===== *)
(** * The real mode emulator: runs

    Instructions as steps of a machine: what holds after any number of them,
    calls and interrupts that return, string copies, and the instructions
    that never let a run end. *)

From S2P Require Import Prelude.
From S2P Require Import Rme.
From S2P Require Import RmeSpec.

(** ** The stack *)

Lemma poke_ne n : forall off v m k, k < off \/ off + Z.of_nat n <= k -> poke n off v m !! k = m !! k.
Proof.
  induction n as [|n IH]; intros off v m k Hk; [done|]. cbn [poke]. rewrite IH by lia. apply lookup_insert_ne. lia.
Qed.
Lemma peek_ext n : forall off m m', (forall k, off <= k < off + Z.of_nat n -> m !! k = m' !! k) -> peek n off m = peek n off m'.
Proof.
  induction n as [|n IH]; intros off m m' H; [done|]. cbn [peek]. rewrite (H off) by lia. f_equal. f_equal. apply IH. intros. apply H. lia.
Qed.
Lemma peek_poke_ne n k off off' v m : off' + Z.of_nat k <= off \/ off + Z.of_nat n <= off' -> peek k off' (poke n off v m) = peek k off' m.
Proof. intros H. apply peek_ext. intros i Hi. apply poke_ne. lia. Qed.
Lemma peek_poke n : forall off v m, peek n off (poke n off v m) = v mod 2 ^ (8 * Z.of_nat n).
Proof.
  induction n as [|n IH]; intros off v m; [cbn; by rewrite Z.mod_1_r|]. cbn [poke peek].
  rewrite poke_ne, lookup_insert_eq, IH by lia. cbn [default from_option]. unfold u8, id.
  replace (8 * Z.of_nat (S n)) with (8 + 8 * Z.of_nat n) by lia. rewrite Z.pow_add_r by lia.
  by rewrite Z.rem_mul_r by lia.
Qed.

Lemma u16_u16 x : u16 (u16 x) = u16 x.
Proof. unfold u16. by rewrite Z.mod_mod. Qed.
Lemma lin_u16 a b : lin a (u16 b) = lin a b.
Proof. unfold lin. by rewrite u16_u16. Qed.
Lemma rW_range r s : in_w 16 (rW r s).
Proof. apply u16_in. Qed.
Lemma rW_put_W r v s : rme_ok s -> (r < 8)%nat -> rW r (put_W r v s) = u16 v.
Proof.
  intros Hs Hr. unfold put_W, rW, rD at 1. cbn [gpr set_gpr]. rewrite list_lookup_insert_eq by (rewrite (proj1 (ok_gpr _ Hs)); lia).
  cbn. unfold u16. dlia.
Qed.
(** Moving SP down and up again restores the register. *)
Lemma put_W_put_W r v v' s : (r < 8)%nat -> rme_ok s -> put_W r v' (put_W r v s) = put_W r v' s.
Proof.
  intros Hr Hs. pose proof (rW_put_W r v s Hs Hr) as Hw. unfold put_W at 1. rewrite Hw.
  unfold rD. cbn [gpr set_gpr put_W]. rewrite list_lookup_insert_eq by (rewrite (proj1 (ok_gpr _ Hs)); lia).
  unfold set_gpr, put_W, set_gpr. cbn. f_equal. rewrite list_insert_insert_eq. f_equal. lia.
Qed.
Lemma put_W_same r v s : u16 v = rW r s -> put_W r v s = s.
Proof.
  intros Hv. unfold put_W. rewrite Hv. replace (rD r s - rW r s + rW r s) with (rD r s) by lia.
  unfold rD. destruct s as [g]. unfold set_gpr. cbn. f_equal. destruct (g !! r) eqn:E; [by apply list_insert_id|].
  apply list_insert_ge. by apply lookup_ge_None.
Qed.

(** The address of the word at SP + [d]. *)
Definition slot (s : tRME_State) (d : Z) : Z := lin (sg SREG_SS s) (rW SP s + d).

Lemma PUSH_eq v s : rme_ok s ->
  PUSH v s = Ret (Go tt, set_wmem (poke 2 (slot s (-2)) v (wmem s)) (put_W SP (rW SP s - 2) s)).
Proof.
  intros Hs. unfold PUSH, rbind, mseq. cbn. rewrite Write16_eq by by apply put_W_ok.
  rewrite rW_put_W by (done || unfold SP; lia). by rewrite lin_u16.
Qed.
Lemma POP_eq s : rme_ok s -> POP s = Ret (Go (peek 2 (slot s 0) (wmem s)), put_W SP (rW SP s + 2) s).
Proof.
  intros Hs. unfold POP, rbind, mseq. cbn. rewrite Read16_eq by done. unfold slot. by rewrite Z.add_0_r.
Qed.
Lemma READ_INSTR16_eq s : rme_ok s ->
  READ_INSTR16 s = Ret (Go (peek 2 (lin (sg SREG_CS s) (IP s + IPOffset s)) (wmem s)), set_IPOffset (IPOffset s + 2) s).
Proof. intros Hs. unfold READ_INSTR16, read_instr, rbind, mseq. cbn. by rewrite Read16_eq. Qed.

(** ** Steps *)

Definition at_magic (s : tRME_State) : bool := (IP s =? RME_MAGIC_IP) && (sg SREG_CS s =? RME_MAGIC_CS).

(** The state once the opcode is read. *)
Definition fetched (s : tRME_State) : tRME_State := set_decoder (s32 (InstrNum s + 1)) (-1) false false 1 s.

Lemma fetched_ok s : rme_ok s -> rme_ok (fetched s).
Proof. intros. by apply set_decoder_ok. Qed.

(** ** String copies *)

Lemma rD_put_ne r r' v s : r <> r' -> rD r (put_W r' v s) = rD r s.
Proof. intros Hr. unfold rD. cbn [put_W set_gpr gpr]. by rewrite list_lookup_insert_ne. Qed.
Lemma rW_put_ne r r' v s : r <> r' -> rW r (put_W r' v s) = rW r s.
Proof. intros Hr. unfold rW. by rewrite rD_put_ne. Qed.

Definition byte_at (s : tRME_State) (a : Z) : Z := default 0 (wmem s !! a).
Definition src (s : tRME_State) : Z := lin (sg SREG_DS s) (rW SI s).
Definition dst (s : tRME_State) : Z := lin (sg SREG_ES s) (rW DI s).

(** The state after [n] turns of MOVSB upwards. *)
Record copied (n : Z) (s s' : tRME_State) : Prop := {
  cp_mem : forall a, byte_at s' a = if decide (dst s <= a < dst s + n) then byte_at s (src s + (a - dst s)) else byte_at s a;
  cp_SI : rW SI s' = u16 (rW SI s + n);
  cp_DI : rW DI s' = u16 (rW DI s + n);
  cp_CX : rW CX s' = u16 (rW CX s - n);
  cp_rest : forall r, r <> SI -> r <> DI -> r <> CX -> rD r s' = rD r s;
  cp_cpu : sreg s' = sreg s /\ Flags s' = Flags s;
}.
Definition same_code (s s' : tRME_State) : Prop := IP s' = IP s /\ IPOffset s' = IPOffset s.

Definition movsb : R bool := movs 1 RME_Int_Read8 RME_Int_Write8.

Lemma movsb_turn s : rme_ok s -> has_flag (Flags s) FLAG_DF = false ->
  exists s1, movsb s = Ret (Go false, s1) /\ rme_ok (put_W CX (rW CX s1 - 1) s1) /\ copied 1 s (put_W CX (rW CX s1 - 1) s1) /\
    same_code s (put_W CX (rW CX s1 - 1) s1).
Proof.
  intros Hs Hdf. unfold movsb, movs, rbind, mseq. cbn [rgets]. rewrite Read8_eq by done. cbn [rgets]. rewrite Write8_eq by done.
  set (s0 := set_wmem _ s). assert (rme_ok s0) as Hs0 by by apply set_wmem_ok.
  cbn [advance rmod]. set (s1 := put_W DI _ s0). assert (rme_ok s1) as Hs1 by by apply put_W_ok.
  set (s2 := put_W SI _ s1). assert (rme_ok s2) as Hs2 by by apply put_W_ok.
  exists s2. split; [done|]. split; [by apply put_W_ok|].
  assert (CX <> SI /\ CX <> DI /\ SI <> DI) as (? & ? & ?) by done.
  split; [|done]. constructor; try done.
  - intros a. change (byte_at (put_W CX _ s2) a) with (byte_at s0 a). unfold byte_at, s0. cbn [wmem set_wmem poke peek].
    fold (dst s). fold (src s). destruct (decide (dst s <= a < dst s + 1)).
    + assert (a = dst s) as -> by lia. rewrite lookup_insert_eq, Z.mul_0_r, Z.add_0_r, Z.sub_diag, Z.add_0_r. cbn.
      destruct (wmem s !! src s) eqn:E; [|done]. by apply Z.mod_small, (ok_bytes _ Hs _ _ E).
    + by rewrite lookup_insert_ne by lia.
  - rewrite rW_put_ne by done. unfold s2. rewrite rW_put_W by (done || unfold SI; lia). unfold s1. rewrite rW_put_ne by done.
    change (Flags (put_W DI _ s0)) with (Flags s). by rewrite Hdf.
  - rewrite rW_put_ne by done. unfold s2. rewrite rW_put_ne by done. unfold s1.
    change (Flags s0) with (Flags s). rewrite Hdf. apply rW_put_W; [done|unfold DI; lia].
  - rewrite rW_put_W by (done || unfold CX; lia). unfold s2, s1. by rewrite !rW_put_ne.
  - intros r ? ? ?. unfold s2, s1. by rewrite !rD_put_ne.
Qed.

(** Turns add up as long as the offsets do not wrap and the source is read
    before it is written. *)
Lemma copied_next s s1 : copied 1 s s1 -> rW SI s + 1 < 2 ^ 16 -> rW DI s + 1 < 2 ^ 16 ->
  rW SI s1 = rW SI s + 1 /\ rW DI s1 = rW DI s + 1 /\ src s1 = src s + 1 /\ dst s1 = dst s + 1.
Proof.
  intros C Hsi Hdi. pose proof (rW_range SI s). pose proof (rW_range DI s). unfold in_w in *.
  assert (rW SI s1 = rW SI s + 1) as H1 by (rewrite (cp_SI _ _ _ C); apply Z.mod_small; lia).
  assert (rW DI s1 = rW DI s + 1) as H2 by (rewrite (cp_DI _ _ _ C); apply Z.mod_small; lia).
  assert (forall k, sg k s1 = sg k s) as Hsg by (intros; unfold sg; by rewrite (proj1 (cp_cpu _ _ _ C))).
  unfold src, dst, lin. rewrite !Hsg, H1, H2. unfold u16. rewrite !(Z.mod_small (rW _ _ + 1)), !(Z.mod_small (rW _ _)) by lia. lia.
Qed.
Lemma copied_trans n s s1 s2 : 1 <= n -> copied 1 s s1 -> copied n s1 s2 -> rW SI s + 1 + n <= 2 ^ 16 -> rW DI s + 1 + n <= 2 ^ 16 ->
  (dst s <= src s \/ src s + 1 + n <= dst s) -> copied (1 + n) s s2.
Proof.
  intros Hn C1 C2 Hsi Hdi Hov. destruct (copied_next s s1 C1) as (E1 & E2 & Es & Ed); [lia..|].
  destruct (cp_cpu _ _ _ C1), (cp_cpu _ _ _ C2). constructor; [|..|split; congruence].
  - intros a. rewrite (cp_mem _ _ _ C2), Es, Ed, !(cp_mem _ _ _ C1).
    repeat case_decide; try lia; try done; f_equal; lia.
  - rewrite (cp_SI _ _ _ C2), E1. f_equal. lia.
  - rewrite (cp_DI _ _ _ C2), E2. f_equal. lia.
  - rewrite (cp_CX _ _ _ C2), (cp_CX _ _ _ C1). unfold u16. rewrite Zminus_mod_idemp_l. f_equal. lia.
  - intros r ? ? ?. by rewrite (cp_rest _ _ _ C2), (cp_rest _ _ _ C1).
Qed.

Lemma movsb_loop : forall n f s, rme_ok s -> has_flag (Flags s) FLAG_DF = false -> rW CX s = Z.of_nat (S n) -> (S n <= f)%nat ->
  rW SI s + Z.of_nat (S n) <= 2 ^ 16 -> rW DI s + Z.of_nat (S n) <= 2 ^ 16 ->
  (dst s <= src s \/ src s + Z.of_nat (S n) <= dst s) ->
  exists s', rep_loop f true movsb s = Ret (Go tt, s') /\ copied (Z.of_nat (S n)) s s' /\ same_code s s'.
Proof.
  induction n as [|n IH]; intros f s Hs Hdf Hcx Hf Hsi Hdi Hov; (destruct f as [|f]; [lia|]); cbn [rep_loop];
    destruct (movsb_turn s Hs Hdf) as (s1 & Ht & Hs1 & C1 & Hcode); unfold rbind, mseq; rewrite Ht; cbn [rmod rgets];
    pose proof (cp_CX _ _ _ C1) as Hc1; rewrite Hcx in Hc1; rewrite Hc1.
  - eexists. split; [done|]. by split.
  - assert (u16 (Z.of_nat (S (S n)) - 1) = Z.of_nat (S n)) as Hc by (pose proof (rW_range SI s); unfold in_w in *; unfold u16; rewrite Z.mod_small; lia).
    rewrite Hc in *. rewrite (proj2 (Z.eqb_neq _ _)) by lia. set (s1' := put_W CX _ s1) in *.
    destruct (copied_next s s1' C1) as (E1 & E2 & Es & Ed); [lia..|]. destruct (cp_cpu _ _ _ C1) as (? & Hfl).
    destruct (IH f s1') as (s' & Hr & C2 & Hs' & Ho); [done|by rewrite Hfl|done|lia..|].
    exists s'. split; [done|]. split; [|destruct Hcode; split; congruence].
    replace (Z.of_nat (S (S n))) with (1 + Z.of_nat (S n)) by lia. eapply copied_trans; [|done..| | |]; lia.
Qed.

(** The loop as the handler enters it; with CX = 0 there is no turn. *)
Lemma op_rep_movsb s : rme_ok s -> has_flag (Flags s) FLAG_DF = false ->
  rW SI s + rW CX s <= 2 ^ 16 -> rW DI s + rW CX s <= 2 ^ 16 -> (dst s <= src s \/ src s + rW CX s <= dst s) ->
  exists s', op_string REP 0xA4 s = Ret (Go BrkRep, s') /\ copied (rW CX s) s s' /\ same_code s s'.
Proof.
  intros Hs Hdf Hsi Hdi Hov. change (op_string REP 0xA4 s) with (string_op true true movsb s).
  unfold string_op, rbind, mseq. cbn [rgets andb]. pose proof (rW_range CX s) as Hr. unfold in_w in Hr.
  destruct (Z.eqb_spec (rW CX s) 0) as [Hz|Hnz].
  - exists s. split; [done|]. split; [|done]. rewrite Hz. constructor; try done.
    + intros a. by rewrite decide_False by lia.
    + rewrite Z.add_0_r. symmetry. apply Z.mod_small, rW_range.
    + rewrite Z.add_0_r. symmetry. apply Z.mod_small, rW_range.
    + by rewrite Hz.
  - assert (rW CX s = Z.of_nat (S (Z.to_nat (rW CX s - 1)))) as Hn by lia.
    destruct (movsb_loop (Z.to_nat (rW CX s - 1)) (turns s) s) as (s' & Hl & C & Hc); [done..| |lia|lia|lia|].
    + unfold turns, u16. rewrite Z.mod_small by lia. lia.
    + exists s'. unfold repeat. rewrite Hl, Hn. done.
Qed.

(** ** Code that only reads *)

(** The machine without the decoder and the counter of instructions. *)
Definition cpu (s : tRME_State) := (gpr s, sreg s, IP s, Flags s, Memory0 s, wmem s, io s).

Lemma keeps_read_instr n rd : (forall a b, keeps cpu (rd a b)) -> keeps cpu (read_instr n rd).
Proof. intros Hrd. unfold read_instr. keeping. by apply keeps_mod. Qed.
Lemma keeps_READ_INSTR8S : keeps cpu READ_INSTR8S.
Proof. apply keeps_bind; [apply keeps_read_instr; eauto with rme|eauto with rme]. Qed.
Lemma keeps_ld16 p : pseg p -> keeps cpu (ld16 p).
Proof. by destruct p. Qed.
Lemma keeps_parse reg : keeps cpu (parse_modrm reg).
Proof.
  assert (forall mmm disp, keeps cpu (DoFunc mmm disp)) as Hfunc.
  { intros. unfold DoFunc. cbv zeta. keeping; [unfold ld16; repeat case_match; eauto with rme; by intros ?|].
    destruct (mmm =? -1); [by apply keeps_read_instr; eauto with rme|eauto with rme]. }
  unfold parse_modrm. cbv zeta. apply keeps_bind; [apply keeps_read_instr; eauto with rme|]. intros d.
  repeat case_match; keeping; first [apply keeps_READ_INSTR8S|apply keeps_read_instr; eauto with rme].
Qed.
Lemma peek_instr8_eq s : rme_ok s -> exists s', peek_instr8 s = Ret (Go (code_byte s (IPOffset s)), s') /\ rme_ok s' /\ cpu s' = cpu s.
Proof.
  intros Hs. unfold peek_instr8, rbind, mseq. rewrite READ_INSTR8_eq by done. cbn. eexists. split; [done|]. split; [|done].
  by apply set_IPOffset_ok, set_IPOffset_ok.
Qed.
Lemma cpu_code_byte s s' k : cpu s' = cpu s -> code_byte s' k = code_byte s k.
Proof. intros H. unfold cpu in H. injection H as Hg Hr Hi Hf Hm Hw Ho. unfold code_byte, sg. by rewrite Hr, Hi, Hw. Qed.

Section machine.
Context (hw : list io_event -> Z -> Z -> Z) (HLE : Z -> option (tRME_State -> tRME_State)).
Context (HLE_ok : forall n f s, HLE n = Some f -> rme_ok s -> rme_ok (f s)).
Context (fuel : nat).

(** One turn of the loop of RME_Call that goes on. *)
Inductive rme_step (s s' : tRME_State) : Prop :=
| rme_turn : at_magic s = false -> RME_Int_DoOpcode hw HLE fuel s = Ret (RME_ERR_OK, s') -> rme_step s s'.

Lemma decode_ok : forall f rep s r s', rme_ok s -> decode hw HLE f rep s = Ret (r, s') -> rme_ok s'.
Proof.
  induction f as [|f IH]; intros rep s r s' Hs Hd; [done|].
  destruct (is_prefix (code_byte s (IPOffset s))) eqn:Hp.
  - destruct (decode_prefix hw HLE f rep s Hs Hp) as (rep' & s1 & Heq & Hs1 & _). rewrite Heq in Hd. by eapply IH.
  - pose proof (decode_opcode hw HLE HLE_ok f rep s Hs Hp) as H. rewrite Hd in H. destruct r; [done|]. apply H.
Qed.
Lemma DoOpcode_ok s e s' : rme_ok s -> RME_Int_DoOpcode hw HLE fuel s = Ret (e, s') -> rme_ok s'.
Proof.
  intros Hs. unfold RME_Int_DoOpcode, mseq, mmodify. cbn. set (s0 := set_decoder _ _ _ _ _ s).
  assert (rme_ok s0) as Hs0 by by apply set_decoder_ok.
  destruct (decode hw HLE fuel 0 s0) as [[r s1]| | | |] eqn:Hd; cbn; intros H; try done. injection H as _ <-. by eapply decode_ok.
Qed.

(** Well-formedness is an invariant of runs. *)
Lemma steps_ok n s s' : nsteps rme_step n s s' -> rme_ok s -> rme_ok s'.
Proof. induction 1 as [|n s1 s2 s3 [_ H] _ IH]; intros Hs; [done|]. apply IH. by eapply DoOpcode_ok. Qed.

(** A run of RME_Call is a sequence of steps. *)
Lemma RME_Call_steps m n s s' : nsteps rme_step m s s' -> RME_Call hw HLE fuel (m + n) s = RME_Call hw HLE fuel n s'.
Proof.
  induction 1 as [|m s1 s2 s3 [Hm H] _ IH]; [done|]. cbn [Nat.add RME_Call]. unfold at_magic in Hm. rewrite Hm.
  unfold mseq. by rewrite H.
Qed.
Lemma RME_Call_magic n s : at_magic s = true -> RME_Call hw HLE fuel n s = Ret (RME_ERR_OK, s).
Proof. unfold at_magic. intros H. destruct n; cbn [RME_Call]; by rewrite H. Qed.

(** An instruction without prefixes. *)
Lemma DoOpcode_eq f s b : rme_ok s -> code_byte s 0 = b -> is_prefix b = false -> b <> 0x67 ->
  RME_Int_DoOpcode hw HLE (S f) s =
    match exec hw HLE 0 b (fetched s) with
    | Ret (Go GoRet, s') => Ret (RME_ERR_OK, s')
    | Ret (Go _, s') => Ret (RME_ERR_OK, set_IP (IP s' + IPOffset s') s')
    | Ret (Rc e, s') => Ret (e, s')
    | Fault a => Fault a
    | Fatal e => Fatal e
    | Deadlock => Deadlock
    | NoFuel => NoFuel
    end.
Proof.
  intros Hs Hb Hp H67. unfold RME_Int_DoOpcode, mseq, mmodify. cbn [decode mmodify]. unfold rbind at 1, mseq.
  set (s0 := set_decoder _ _ _ _ _ s). assert (rme_ok s0) as Hs0 by by apply set_decoder_ok.
  rewrite READ_INSTR8_eq by done. change (code_byte s0 (IPOffset s0)) with (code_byte s 0). rewrite Hb.
  destruct (is_prefix_false b Hp) as (-> & -> & -> & ->). rewrite (proj2 (Z.eqb_neq _ _) H67).
  change (set_IPOffset _ s0) with (fetched s). unfold rbind, mseq.
  destruct (exec hw HLE 0 b (fetched s)) as [[[[]|e] s']| | | |]; done.
Qed.

(** What an instruction that ends with [goto ret] leaves: the new code
    address, stack pointer and memory; the rest stays. *)
Record jumped (s s' : tRME_State) (ip cs sp : Z) (m : gmap Z Z) : Prop := {
  jm_IP : IP s' = u16 ip;
  jm_CS : sg SREG_CS s' = u16 cs;
  jm_gpr : gpr s' = gpr (put_W SP sp s);
  jm_sreg : forall k, k <> SREG_CS -> sg k s' = sg k s;
  jm_mem : wmem s' = m;
}.

Lemma sg_put k v s : rme_ok s -> (k < 4)%nat -> sg k (put_sg k v s) = u16 v.
Proof.
  intros Hs Hk. unfold sg. cbn [sreg put_sg set_sreg]. by rewrite list_lookup_insert_eq by (rewrite (proj1 (ok_sreg _ Hs)); lia).
Qed.
Lemma sg_put_ne k k' v s : k <> k' -> sg k (put_sg k' v s) = sg k s.
Proof. intros Hk. unfold sg. cbn [sreg put_sg set_sreg]. by rewrite list_lookup_insert_ne. Qed.
Lemma sg_u16 k s : rme_ok s -> u16 (sg k s) = sg k s.
Proof. intros Hs. apply Z.mod_small, (sg_range k s Hs). Qed.

Lemma call_near f s : rme_ok s -> code_byte s 0 = 0xE8 ->
  exists s', RME_Int_DoOpcode hw HLE (S f) s = Ret (RME_ERR_OK, s') /\
    jumped s s' (IP s + 3 + peek 2 (lin (sg SREG_CS s) (IP s + 1)) (wmem s)) (sg SREG_CS s) (rW SP s - 2)
      (poke 2 (slot s (-2)) (u16 (IP s + 3)) (wmem s)) /\ Flags s' = Flags s.
Proof.
  intros Hs Hb. rewrite (DoOpcode_eq f s _ Hs Hb) by done. pose proof (fetched_ok s Hs) as Hf.
  change (exec hw HLE 0 0xE8) with (op_call 0xE8). unfold op_call. cbn [Z.eqb Pos.eqb]. unfold rbind at 1, mseq.
  rewrite READ_INSTR16_eq by done. unfold rbind, mseq. cbn [rmod rgets].
  rewrite PUSH_eq by by apply set_IP_ok, set_IPOffset_ok. eexists. split; [done|].
  split; [|done]. constructor; try done; [|by rewrite sg_u16]. cbn.
  unfold u16. by rewrite Zplus_mod_idemp_l.
Qed.
Lemma ret_near f s : rme_ok s -> code_byte s 0 = 0xC3 ->
  exists s', RME_Int_DoOpcode hw HLE (S f) s = Ret (RME_ERR_OK, s') /\
    jumped s s' (peek 2 (slot s 0) (wmem s)) (sg SREG_CS s) (rW SP s + 2) (wmem s) /\ Flags s' = Flags s.
Proof.
  intros Hs Hb. rewrite (DoOpcode_eq f s _ Hs Hb) by done. pose proof (fetched_ok s Hs) as Hf.
  change (exec hw HLE 0 0xC3) with (op_call 0xC3). unfold op_call. cbn [Z.eqb Pos.eqb]. unfold rbind, mseq.
  rewrite POP_eq by done. cbn [rmod]. eexists. split; [done|]. split; [|done].
  constructor; try done. by rewrite sg_u16.
Qed.

Lemma jumped_SP s s' ip cs sp m : rme_ok s -> jumped s s' ip cs sp m -> rW SP s' = u16 sp.
Proof.
  intros Hs J. unfold rW, rD. rewrite (jm_gpr _ _ _ _ _ _ J). apply (rW_put_W SP sp s Hs). unfold SP. lia.
Qed.
Lemma jumped_rD s s' ip cs sp m r : jumped s s' ip cs sp m -> r <> SP -> rD r s' = rD r s.
Proof.
  intros J Hr. unfold rD. rewrite (jm_gpr _ _ _ _ _ _ J). cbn [put_W set_gpr gpr]. by rewrite list_lookup_insert_ne.
Qed.
Lemma SP_sub_add s : u16 (u16 (rW SP s - 2) + 2) = rW SP s.
Proof. pose proof (rW_range SP s). unfold in_w, u16 in *. dlia. Qed.
Lemma slot_down s s' d : rW SP s' = u16 (rW SP s + d) -> sg SREG_SS s' = sg SREG_SS s -> forall e, slot s' e = slot s (d + e).
Proof.
  intros Hsp Hss e. unfold slot. rewrite Hsp, Hss, <- (lin_u16 _ (u16 _ + e)), <- (lin_u16 _ (rW SP s + _)). f_equal. unfold u16.
  rewrite Zplus_mod_idemp_l. f_equal. lia.
Qed.

(** C13: CALL and RET match.  After a near CALL, if the code called runs any
    number of instructions and comes to a RET with the stack pointer it was
    entered with and the word on the stack untouched, then RET goes on behind
    the CALL, with the stack pointer from before it and every other register,
    the flags and the memory as the code called left them. *)
Theorem call_returns s s1 s2 m :
  (0 < fuel)%nat -> rme_ok s -> code_byte s 0 = 0xE8 -> rme_step s s1 -> nsteps rme_step m s1 s2 ->
  code_byte s2 0 = 0xC3 -> at_magic s2 = false ->
  rW SP s2 = rW SP s1 -> sg SREG_SS s2 = sg SREG_SS s1 ->
  peek 2 (slot s1 0) (wmem s2) = peek 2 (slot s1 0) (wmem s1) ->
  exists s3, rme_step s2 s3 /\ IP s3 = u16 (IP s + 3) /\ rW SP s3 = rW SP s /\
    (forall r, r <> SP -> rD r s3 = rD r s2) /\ (forall k, sg k s3 = sg k s2) /\
    wmem s3 = wmem s2 /\ Flags s3 = Flags s2.
Proof.
  intros Hf Hs Hcall [_ H1] Hrun Hret Hm Hsp Hss Hstk. assert (exists f, fuel = S f) as [f Ef] by (exists (pred fuel); lia).
  assert (rme_ok s1) as Hs1 by by eapply DoOpcode_ok.
  assert (rme_ok s2) as Hs2 by by eapply steps_ok.
  destruct (call_near f s Hs Hcall) as (s1' & H1' & J1 & _). rewrite <- Ef, H1 in H1'. injection H1' as <-.
  destruct (ret_near f s2 Hs2 Hret) as (s3 & H3 & J3 & Hfl). exists s3.
  pose proof (jumped_SP _ _ _ _ _ _ Hs J1) as Hsp1. pose proof (jumped_SP _ _ _ _ _ _ Hs2 J3) as Hsp3.
  pose proof (slot_down s s1 (-2) Hsp1 (jm_sreg _ _ _ _ _ _ J1 SREG_SS ltac:(done)) 0) as Hslot.
  rewrite <- Ef in H3. split; [by constructor|]. split_and!.
  - rewrite (jm_IP _ _ _ _ _ _ J3). replace (slot s2 0) with (slot s1 0) by (unfold slot; congruence).
    rewrite Hstk, Hslot, (jm_mem _ _ _ _ _ _ J1), peek_poke. change (2 ^ (8 * Z.of_nat 2)) with (2 ^ 16).
    fold (u16 (u16 (IP s + 3))). by rewrite !u16_u16.
  - rewrite Hsp3, Hsp, Hsp1. apply SP_sub_add.
  - intros r Hr. by eapply jumped_rD.
  - intros k. destruct (decide (k = SREG_CS)) as [->|]; [|by apply J3]. rewrite (jm_CS _ _ _ _ _ _ J3). by apply sg_u16.
  - apply J3.
  - done.
Qed.

(** ** Interrupts *)

Lemma slots_apart s a b : 2 <= b - a <= 2 ^ 16 - 2 -> slot s a + 2 <= slot s b \/ slot s b + 2 <= slot s a.
Proof.
  intros H. unfold slot, lin. pose proof (rW_range SP s). unfold in_w, u16 in *. set (x := rW SP s) in *. clearbody x. change (2 ^ 16) with 65536 in *. dlia.
Qed.

Lemma frame_words s a b c : in_w 16 a -> in_w 16 b -> in_w 16 c ->
  let m := poke 2 (slot s (-6)) a (poke 2 (slot s (-4)) b (poke 2 (slot s (-2)) c (wmem s))) in
  peek 2 (slot s (-6)) m = a /\ peek 2 (slot s (-4)) m = b /\ peek 2 (slot s (-2)) m = c.
Proof.
  intros Ha Hb Hc. cbv zeta. pose proof (slots_apart s (-6) (-4) ltac:(lia)). pose proof (slots_apart s (-6) (-2) ltac:(lia)).
  pose proof (slots_apart s (-4) (-2) ltac:(lia)).
  split_and!; rewrite ?peek_poke_ne, peek_poke by lia; by apply Z.mod_small.
Qed.
(** The registers after moving SP twice. *)
Lemma gpr_put_SP s t u v v' : rme_ok s -> gpr t = gpr (put_W SP u s) -> u16 v = u16 v' -> gpr (put_W SP v t) = gpr (put_W SP v' s).
Proof.
  intros Hs Ht Hv. transitivity (gpr (put_W SP v (put_W SP u s))).
  - unfold put_W, rW, rD. cbn [gpr set_gpr]. by rewrite Ht.
  - rewrite put_W_put_W by (done || unfold SP; lia). unfold put_W. by rewrite Hv.
Qed.

Lemma iret f s : rme_ok s -> code_byte s 0 = 0xCF ->
  exists s', RME_Int_DoOpcode hw HLE (S f) s = Ret (RME_ERR_OK, s') /\
    jumped s s' (peek 2 (slot s 0) (wmem s)) (peek 2 (slot s 2) (wmem s)) (rW SP s + 6) (wmem s) /\
    Flags s' = u16 (peek 2 (slot s 4) (wmem s)).
Proof.
  intros Hs Hb. rewrite (DoOpcode_eq f s _ Hs Hb) by done. pose proof (fetched_ok s Hs) as Hf.
  change (exec hw HLE 0 0xCF) with op_iret. unfold op_iret, rbind, mseq. rewrite POP_eq by done. cbn [rmod].
  set (s1 := set_IP _ _). assert (rme_ok s1) as Hs1 by by apply set_IP_ok, put_W_ok.
  rewrite POP_eq by done. set (s2 := put_sg _ _ _). assert (rme_ok s2) as Hs2 by by apply put_sg_ok, put_W_ok.
  rewrite POP_eq by done.
  assert (rW SP s1 = u16 (rW SP s + 2)) as Hsp1 by (apply (rW_put_W SP _ (fetched s) Hf); unfold SP; lia).
  assert (rW SP s2 = u16 (rW SP s + 4)) as Hsp2.
  { etransitivity; [apply (rW_put_W SP _ s1 Hs1); unfold SP; lia|]. rewrite Hsp1. unfold u16. rewrite Zplus_mod_idemp_l. f_equal. lia. }
  pose proof (slot_down s s1 2 Hsp1 eq_refl 0) as Hl1. pose proof (slot_down s s2 4 Hsp2 (sg_put_ne SREG_SS SREG_CS _ _ ltac:(done)) 0) as Hl2.
  assert (gpr s2 = gpr (put_W SP (rW SP s + 4) s)) as Hg2.
  { apply (gpr_put_SP s s1 (rW SP s + 2)); [done..|]. rewrite Hsp1. unfold u16. rewrite Zplus_mod_idemp_l. f_equal. lia. }
  eexists. split; [done|]. split; [constructor|]; try done.
  - change (slot s 2) with (slot s (2 + 0)). rewrite <- Hl1. apply sg_put; [by apply put_W_ok|unfold SREG_CS; lia].
  - apply (gpr_put_SP s s2 (rW SP s + 4)); [done..|]. rewrite Hsp2. unfold u16. rewrite Zplus_mod_idemp_l. f_equal. lia.
  - intros k Hk. exact (sg_put_ne k SREG_CS _ (put_W SP (rW SP s1 + 2) s1) Hk).
  - change (slot s 4) with (slot s (4 + 0)). by rewrite <- Hl2.
Qed.

(** The state in which the handler of interrupt [Num] is entered. *)
Definition int_entry (Num : Z) (s : tRME_State) : tRME_State :=
  set_wmem (poke 2 (slot s (-6)) RME_MAGIC_IP (poke 2 (slot s (-4)) RME_MAGIC_CS (poke 2 (slot s (-2)) (Flags s) (wmem s))))
    (put_W SP (rW SP s - 6)
      (put_sg SREG_CS (peek 2 (lin 0 (Num * 4 + 2)) (wmem s)) (set_IP (peek 2 (lin 0 (Num * 4)) (wmem s)) s))).

Lemma set_mem_ok m s : rme_ok s -> map_Forall (fun _ b => in_w 8 b) m -> rme_ok (set_wmem m s).
Proof. intros [] Hm. by constructor. Qed.
Lemma int_entry_ok Num s : rme_ok s -> rme_ok (int_entry Num s).
Proof.
  intros Hs. apply set_mem_ok; [by apply put_W_ok, put_sg_ok, set_IP_ok|]. apply poke_ok, poke_ok, poke_ok, Hs.
Qed.
(** The frame: return address and flags. *)
Lemma int_entry_frame Num s : rme_ok s ->
  peek 2 (slot s (-6)) (wmem (int_entry Num s)) = RME_MAGIC_IP /\
  peek 2 (slot s (-4)) (wmem (int_entry Num s)) = RME_MAGIC_CS /\
  peek 2 (slot s (-2)) (wmem (int_entry Num s)) = Flags s.
Proof. intros Hs. by apply frame_words; [..|apply Hs]. Qed.

(** Pushing after SP has moved by [d]. *)
Lemma PUSH_at s s0 d m v : rme_ok s0 -> rW SP s0 = rW SP s -> sg SREG_SS s0 = sg SREG_SS s ->
  map_Forall (fun _ b => in_w 8 b) m ->
  PUSH v (set_wmem m (put_W SP (rW SP s + d) s0)) =
    Ret (Go tt, set_wmem (poke 2 (slot s (d - 2)) v m) (put_W SP (rW SP s + (d - 2)) s0)).
Proof.
  intros Hs0 Hsp Hss Hm. assert (rme_ok (put_W SP (rW SP s + d) s0)) as Hp by by apply put_W_ok.
  rewrite PUSH_eq by by apply set_mem_ok.
  set (t := set_wmem m _). assert (rW SP t = u16 (rW SP s + d)) as Ht by (apply (rW_put_W SP); [done|unfold SP; lia]).
  rewrite (slot_down s t d Ht Hss (-2)), Ht. apply (f_equal Ret), (f_equal (pair (Go tt))).
  transitivity (set_wmem (poke 2 (slot s (d - 2)) v m) (put_W SP (u16 (rW SP s + d) - 2) (put_W SP (rW SP s + d) s0))); [done|].
  rewrite put_W_put_W by (done || unfold SP; lia). f_equal. unfold put_W. do 3 f_equal. unfold u16. rewrite Zminus_mod_idemp_l. f_equal. lia.
Qed.
Lemma RME_CallInt_eq n Num s : rme_ok s -> 0 <= Num <= 0xFF ->
  RME_CallInt hw HLE fuel n Num s = RME_Call hw HLE fuel n (int_entry Num s).
Proof.
  intros Hs Hn. unfold RME_CallInt. destruct (Z.ltb_spec Num 0); [lia|]. destruct (Z.ltb_spec 0xFF Num); [lia|]. cbn [orb].
  unfold mseq at 1, rbind, mseq. rewrite Read16_eq by done. cbn [rmod]. rewrite Read16_eq by by apply set_IP_ok. cbn [rgets].
  set (s0 := put_sg _ _ _). assert (rme_ok s0) as Hs0 by by apply put_sg_ok, set_IP_ok.
  assert (sg SREG_SS s0 = sg SREG_SS s) as Hss by (by apply (sg_put_ne SREG_SS SREG_CS _ (set_IP _ s))).
  rewrite PUSH_eq by done. change (slot s0 (-2)) with (lin (sg SREG_SS s0) (rW SP s + -2)). rewrite Hss.
  change (lin (sg SREG_SS s) (rW SP s + -2)) with (slot s (-2)). change (rW SP s0 - 2) with (rW SP s + (-2)).
  rewrite (PUSH_at s s0 (-2)) by (try done; apply poke_ok, Hs). change (-2 - 2) with (-4).
  rewrite (PUSH_at s s0 (-4)) by (try done; apply poke_ok, poke_ok, Hs). done.
Qed.

(** A software interrupt the emulator serves comes back.  If the handler
    RME_CallInt enters runs [m] instructions and comes to an IRET with the
    stack segment and pointer it was entered with and its frame untouched,
    RME_CallInt returns RME_ERR_OK (after one more instruction), with SP and
    the flags of the caller, and every other register but CS, and the memory,
    as the handler left them. *)
Lemma RME_CallInt_returns m n Num s s2 :
  (0 < fuel)%nat -> rme_ok s -> 0 <= Num <= 0xFF ->
  nsteps rme_step m (int_entry Num s) s2 -> (m < n)%nat ->
  code_byte s2 0 = 0xCF -> at_magic s2 = false ->
  rW SP s2 = u16 (rW SP s - 6) -> sg SREG_SS s2 = sg SREG_SS s ->
  (forall d, d ∈ [-6; -4; -2] -> peek 2 (slot s d) (wmem s2) = peek 2 (slot s d) (wmem (int_entry Num s))) ->
  exists s3, RME_CallInt hw HLE fuel n Num s = Ret (RME_ERR_OK, s3) /\
    rW SP s3 = rW SP s /\ Flags s3 = Flags s /\ (forall r, r <> SP -> rD r s3 = rD r s2) /\
    (forall k, k <> SREG_CS -> sg k s3 = sg k s2) /\ wmem s3 = wmem s2.
Proof.
  intros Hf Hs Hn Hrun Hmn Hiret Hm Hsp Hss Hframe. assert (exists f, fuel = S f) as [f Ef] by (exists (pred fuel); lia).
  assert (rme_ok s2) as Hs2 by (eapply steps_ok; [done|by apply int_entry_ok]).
  destruct (int_entry_frame Num s Hs) as (Hip & Hcs & Hfl). rewrite <- !Hframe in * by (repeat constructor).
  destruct (iret f s2 Hs2 Hiret) as (s3 & H3 & J & Hflags). rewrite <- Ef in H3. exists s3.
  pose proof (slot_down s s2 (-6) Hsp Hss) as Hslot. rewrite !Hslot in *.
  change (-6 + 0) with (-6) in J. change (-6 + 2) with (-4) in J. change (-6 + 4) with (-2) in Hflags. rewrite Hip, Hcs in J.
  rewrite Hfl in Hflags. assert (at_magic s3 = true) as Hm3 by (unfold at_magic; by rewrite (jm_IP _ _ _ _ _ _ J), (jm_CS _ _ _ _ _ _ J)).
  split_and!.
  - rewrite RME_CallInt_eq by done. replace n with (S m + (n - S m))%nat by lia.
    rewrite (RME_Call_steps (S m) _ _ s3) by (eapply nsteps_r; [done|by constructor]). by apply RME_Call_magic.
  - rewrite (jumped_SP _ _ _ _ _ _ Hs2 J), Hsp. pose proof (rW_range SP s). unfold in_w, u16 in *. dlia.
  - rewrite Hflags. apply Z.mod_small, Hs.
  - intros r Hr. by eapply jumped_rD.
  - apply J.
  - apply J.
Qed.

(** C25: REP MOVSB upwards is a copy.  With the direction flag clear, neither
    offset wrapping and the destination not inside the source behind its
    start, the instruction moves the CX bytes at DS:SI to ES:DI, leaves every
    other byte, adds CX to SI and DI, clears CX, keeps the other registers and
    the flags, and goes on behind its two bytes; with CX = 0 it moves
    nothing. *)
Theorem rep_movsb_copies f s :
  rme_ok s -> code_byte s 0 = 0xF3 -> code_byte s 1 = 0xA4 -> has_flag (Flags s) FLAG_DF = false ->
  let n := rW CX s in
  rW SI s + n <= 2 ^ 16 -> rW DI s + n <= 2 ^ 16 -> (dst s <= src s \/ src s + n <= dst s) ->
  exists s', RME_Int_DoOpcode hw HLE (S (S f)) s = Ret (RME_ERR_OK, s') /\ copied n s s' /\ IP s' = u16 (IP s + 2).
Proof.
  intros Hs H0 H1 Hdf n Hsi Hdi Hov. unfold RME_Int_DoOpcode, mseq, mmodify.
  set (s0 := set_decoder _ _ _ _ _ s). assert (rme_ok s0) as Hs0 by by apply set_decoder_ok.
  cbn [decode]. unfold rbind at 1, mseq. rewrite READ_INSTR8_eq by done.
  change (code_byte s0 (IPOffset s0)) with (code_byte s 0). rewrite H0. cbn [prefix_segment Z.eqb Pos.eqb REP].
  set (t0 := set_IPOffset _ s0). assert (rme_ok t0) as Ht0 by by apply set_IPOffset_ok.
  unfold rbind at 1, mseq. rewrite READ_INSTR8_eq by done. change (code_byte t0 (IPOffset t0)) with (code_byte s 1). rewrite H1.
  cbn [prefix_segment Z.eqb Pos.eqb REP REPNZ]. set (t := set_IPOffset _ t0). assert (rme_ok t) as Ht by by apply set_IPOffset_ok.
  change (exec hw HLE REP 0xA4) with (op_string REP 0xA4).
  destruct (op_rep_movsb t Ht Hdf Hsi Hdi Hov) as (t' & Hop & [] & Hip & Ho). unfold rbind, mseq. rewrite Hop. eexists.
  split; [done|]. split; [by constructor|]. cbn. rewrite Hip, Ho. done.
Qed.

(** ** Instructions that never let a run end *)

(** NOT and NEG of a word return RME_ERR_OK where they are. *)
Definition at_not_neg_word (s : tRME_State) : Prop :=
  code_byte s 0 = 0xF7 /\ Z.land (Z.shiftr (code_byte s 1) 3) 7 ∈ [2; 3] /\ at_magic s = false.

Lemma not_neg_word_stays f s : rme_ok s -> at_not_neg_word s ->
  exists s', RME_Int_DoOpcode hw HLE (S f) s = Ret (RME_ERR_OK, s') /\ cpu s' = cpu s.
Proof.
  intros Hs (H0 & H1 & _). rewrite (DoOpcode_eq f s _ Hs H0) by done. pose proof (fetched_ok s Hs) as Hf.
  change (exec hw HLE 0 0xF7) with op_F7. unfold op_F7, rbind at 1, mseq.
  destruct (peek_instr8_eq _ Hf) as (s1 & -> & Hs1 & Hc1). change (code_byte (fetched s) (IPOffset (fetched s))) with (code_byte s 1).
  assert (forall op, exists s', not_neg_word op s1 = Ret (Rc RME_ERR_OK, s') /\ cpu s' = cpu s) as Hnn.
  { intros op. unfold not_neg_word. pose proof (typed_ParseModRMX (Errs (fun _ => False) False) s1 Hs1) as Ht.
    pose proof (keeps_parse RegW s1) as Hk. fold RME_Int_ParseModRMX in Hk.
    destruct (RME_Int_ParseModRMX s1) as [[[rm|e] s']| | | |]; cbn in Ht; try tauto. exists s'. split; [done|]. by rewrite Hk, Hc1. }
  rewrite !elem_of_cons in H1. destruct H1 as [->|[->|H]]; [..|by apply elem_of_nil in H]; cbn [Z.eqb Pos.eqb];
    match goal with |- context [not_neg_word ?op s1] => destruct (Hnn op) as (s' & -> & Hc) end; by exists s'.
Qed.
Lemma not_neg_word_spins : (0 < fuel)%nat -> forall n s, rme_ok s -> at_not_neg_word s -> RME_Call hw HLE fuel n s = NoFuel.
Proof.
  intros Hfu. assert (exists f, fuel = S f) as [f Ef] by (exists (pred fuel); lia).
  induction n as [|n IH]; intros s Hs Hat; pose proof Hat as (H0 & H1 & Hm); unfold at_magic in Hm; cbn [RME_Call]; rewrite Hm; [done|].
  destruct (not_neg_word_stays f s Hs Hat) as (s' & Hd & Hc). rewrite <- Ef in Hd. unfold mseq. rewrite Hd. cbn.
  apply IH; [by eapply DoOpcode_ok|]. split_and!; [by rewrite (cpu_code_byte _ _ _ Hc)..|].
  unfold cpu in Hc. injection Hc as Hg Hr Hi Hf Hmm Hw Ho. unfold at_magic, sg. by rewrite Hi, Hr.
Qed.

(** INT3 pushes the address of the INT3: with a handler that returns at once
    the instruction is executed again. *)
Lemma int3 f s : rme_ok s -> code_byte s 0 = 0xCC -> HLE 3 = None ->
  exists s', RME_Int_DoOpcode hw HLE (S f) s = Ret (RME_ERR_OK, s') /\
    jumped s s' (peek 2 (lin 0 12) (wmem s)) (peek 2 (lin 0 14) (wmem s)) (rW SP s - 6)
      (poke 2 (slot s (-6)) (IP s) (poke 2 (slot s (-4)) (sg SREG_CS s) (poke 2 (slot s (-2)) (Flags s) (wmem s)))).
Proof.
  intros Hs Hb Hh. rewrite (DoOpcode_eq f s _ Hs Hb) by done. pose proof (fetched_ok s Hs) as Hf.
  change (exec hw HLE 0 0xCC) with (op_int HLE false 3). unfold op_int. rewrite Hh.
  unfold enter_int, rbind, mseq. rewrite Read16_eq by done. rewrite Read16_eq by done. cbn [andb rgets].
  rewrite PUSH_eq by done. change (rW SP (fetched s) - 2) with (rW SP s + (-2)).
  rewrite (PUSH_at s (fetched s) (-2)) by (try done; apply poke_ok, Hs). change (-2 - 2) with (-4). cbn [rgets].
  rewrite (PUSH_at s (fetched s) (-4)) by (try done; apply poke_ok, poke_ok, Hs). cbn [rmod rret mreturn].
  eexists. split; [done|]. constructor; try done.
  - apply sg_put; [|unfold SREG_CS; lia]. apply set_IP_ok, set_mem_ok; [by apply put_W_ok|]. apply poke_ok, poke_ok, poke_ok, Hs.
  - intros k Hk. etransitivity; [by apply sg_put_ne|done].
Qed.
Lemma int3_again s s1 : (0 < fuel)%nat -> rme_ok s -> code_byte s 0 = 0xCC -> HLE 3 = None ->
  rme_step s s1 -> code_byte s1 0 = 0xCF -> at_magic s1 = false ->
  exists s2, rme_step s1 s2 /\ IP s2 = IP s /\ sg SREG_CS s2 = sg SREG_CS s /\ rW SP s2 = rW SP s /\ Flags s2 = Flags s.
Proof.
  intros Hfu Hs Hcc Hh [_ H1] Hi Hm. assert (exists f, fuel = S f) as [f Ef] by (exists (pred fuel); lia).
  assert (rme_ok s1) as Hs1 by by eapply DoOpcode_ok.
  destruct (int3 f s Hs Hcc Hh) as (s1' & H1' & J1). rewrite <- Ef, H1 in H1'. injection H1' as <-.
  destruct (iret f s1 Hs1 Hi) as (s2 & H2 & J2 & Hfl). rewrite <- Ef in H2. exists s2. split; [by constructor|].
  pose proof (jumped_SP _ _ _ _ _ _ Hs J1) as Hsp1.
  pose proof (slot_down s s1 (-6) Hsp1 (jm_sreg _ _ _ _ _ _ J1 SREG_SS ltac:(done))) as Hslot. rewrite !Hslot in *.
  rewrite (jm_mem _ _ _ _ _ _ J1) in *. change (-6 + 0) with (-6) in J2. change (-6 + 2) with (-4) in J2.
  change (-6 + 4) with (-2) in Hfl.
  destruct (frame_words s (IP s) (sg SREG_CS s) (Flags s)) as (E1 & E2 & E3); [apply Hs|by apply sg_range|apply Hs|].
  rewrite E1, E2 in J2. rewrite E3 in Hfl. split_and!.
  - rewrite (jm_IP _ _ _ _ _ _ J2). apply Z.mod_small, Hs.
  - rewrite (jm_CS _ _ _ _ _ _ J2). by apply sg_u16.
  - rewrite (jumped_SP _ _ _ _ _ _ Hs1 J2), Hsp1. pose proof (rW_range SP s). unfold in_w, u16 in *. dlia.
  - rewrite Hfl. apply Z.mod_small, Hs.
Qed.

(** OUT hands the value of the accumulator to the kernel as the port. *)
Lemma out_swapped f s : rme_ok s -> code_byte s 0 = 0xE6 ->
  exists s', RME_Int_DoOpcode hw HLE (S f) s = Ret (RME_ERR_OK, s') /\ io s' = io s ++ [Out 1 (rL AX s) (code_byte s 1)].
Proof.
  intros Hs Hb. rewrite (DoOpcode_eq f s _ Hs Hb) by done. pose proof (fetched_ok s Hs) as Hf.
  change (exec hw HLE 0 0xE6) with (op_io hw 0xE6). unfold op_io, rbind, mseq. cbn [Z.land Pos.land Z.eqb]. rewrite READ_INSTR8_eq by done.
  cbn. eexists. split; [done|]. cbn. do 3 f_equal; apply Z.mod_small; [pose proof (u8_in (rD AX s)); unfold in_w in *; unfold rL; cbn; lia|].
  by apply code_byte_range.
Qed.

(** A code segment of prefixes only is decoded for ever. *)
Lemma prefixes_spin s : rme_ok s -> (forall k, is_prefix (code_byte s k) = true) -> RME_Int_DoOpcode hw HLE fuel s = NoFuel.
Proof.
  intros Hs Hp. unfold RME_Int_DoOpcode, mseq, mmodify. cbn.
  set (s0 := set_decoder _ _ _ _ _ s). assert (rme_ok s0) as Hs0 by by apply set_decoder_ok.
  change (forall k, is_prefix (code_byte s0 k) = true) in Hp. clearbody s0. clear Hs.
  assert (decode hw HLE fuel 0 s0 = NoFuel) as ->; [|done]. generalize 0 as rep. revert s0 Hs0 Hp.
  induction fuel as [|f IH]; intros t Ht Hp rep; [done|].
  destruct (decode_prefix hw HLE f rep t Ht (Hp _)) as (rep' & t' & -> & Ht' & _ & Hc). apply IH; [done|]. intros k. by rewrite Hc.
Qed.
End machine.

Module RmeRunDemo.
Import RmeSpecDemo.

Definition after (s : tRME_State) : tRME_State :=
  match RME_Int_DoOpcode no_ports no_HLE 4 s with Ret (_, s') => s' | _ => s end.

(** CALL to the RET behind it. *)
Definition call_demo : tRME_State := demo_cpu 0 [0xE8; 0; 0; 0xC3].
Lemma call_returns_witness : exists s3, rme_step no_ports no_HLE 4 (after call_demo) s3 /\ IP s3 = 3 /\ rW SP s3 = 0x100.
Proof.
  destruct (call_returns no_ports no_HLE no_HLE_ok 4 call_demo (after call_demo) (after call_demo) 0) as (s3 & H & Hip & Hsp & _).
  - lia.
  - apply rme_okb_ok. vm_compute. reflexivity.
  - vm_compute. reflexivity.
  - constructor; vm_compute; reflexivity.
  - constructor.
  - vm_compute. reflexivity.
  - vm_compute. reflexivity.
  - reflexivity.
  - reflexivity.
  - reflexivity.
  - exists s3. exact (conj H (conj Hip Hsp)).
Defined.

(** REP MOVSB of three bytes. *)
Definition copy_demo : tRME_State := demo_cpu 3 [0xF3; 0xA4].
Lemma rep_movsb_copies_witness : exists s', RME_Int_DoOpcode no_ports no_HLE 2 copy_demo = Ret (RME_ERR_OK, s') /\ IP s' = 2.
Proof.
  destruct (rep_movsb_copies no_ports no_HLE 0 copy_demo) as (s' & H & _ & Hip).
  - apply rme_okb_ok. vm_compute. reflexivity.
  - vm_compute. reflexivity.
  - vm_compute. reflexivity.
  - vm_compute. reflexivity.
  - vm_compute. discriminate.
  - vm_compute. discriminate.
  - left. vm_compute. discriminate.
  - exists s'. exact (conj H Hip).
Defined.

(** DIV reads its operand again after the quotient is stored: 5 divided by
    itself with DIV AX leaves remainder 4. *)
Theorem div_ax_rereads :
  let s := put_W DX 0 (put_W AX 5 (demo_cpu 0 [0xF7; 0xF0])) in
  ret_val (RME_Int_DoOpcode no_ports no_HLE 2 s) = Some RME_ERR_OK /\
  rW AX (state_of (RME_Int_DoOpcode no_ports no_HLE 2 s) s) = 1 /\ rW DX (state_of (RME_Int_DoOpcode no_ports no_HLE 2 s) s) = 4.
Proof. by vm_compute. Qed.
End RmeRunDemo.
