(* ===== verification/Rm.v ===== *)
(** * Real mode calls: rm.c

    The window of low memory rm_init maps, and rm_int and rm_call on top of
    the emulator.  The state is the caller's register block, the bytes of the
    window and what happened at the ports. *)

From S2P Require Import Prelude.
From S2P Require Import Mem.
From S2P Require Import Heap.
From S2P Require Import Mboot.
From S2P Require Import Rme.
From S2P Require Import RmeSpec.
From S2P Require Import RmeRun.

(** ** The window *)

(** [while(mem)]: the pages of low memory, from the last one down. *)
Fixpoint rm_loop (n : nat) (mem vmem : Z) : list (Z * Z) :=
  match n with
  | O => []
  | S n' => (mem - PAGE_SIZE_4K, vmem - PAGE_SIZE_4K) :: rm_loop n' (mem - PAGE_SIZE_4K) (vmem - PAGE_SIZE_4K)
  end.
Definition rm_init : list (Z * Z) :=
  rm_loop (Z.to_nat (RME_BLOCK_SIZE / PAGE_SIZE_4K)) RME_BLOCK_SIZE (RM_VIRTUAL + RME_BLOCK_SIZE).

Lemma rm_loop_pages n : forall mem vmem p v, (p, v) ∈ rm_loop n mem vmem <->
  exists i, 1 <= i <= Z.of_nat n /\ p = mem - PAGE_SIZE_4K * i /\ v = vmem - PAGE_SIZE_4K * i.
Proof.
  induction n as [|n IH]; intros mem vmem p v; cbn [rm_loop].
  { split; [by intros ?%elem_of_nil|intros (i & Hi & _); lia]. }
  rewrite elem_of_cons, IH. split.
  - intros [[= -> ->]|(i & Hi & -> & ->)]; [exists 1; lia|exists (i + 1); lia].
  - intros (i & Hi & -> & ->). destruct (decide (i = 1)) as [->|]; [left; f_equal; lia|]. right. exists (i - 1). lia.
Qed.

(** The window of real mode memory shows low memory: rm_init maps each of
    the first 0x110 pages to RM_VIRTUAL plus its address, each once inside the
    window, and nothing else. *)
Theorem rm_init_window p v : (p, v) ∈ rm_init <->
  0 <= p < RM_VSZ /\ p mod PAGE_SIZE_4K = 0 /\ v = RM_VIRTUAL + p.
Proof.
  unfold rm_init. rewrite rm_loop_pages.
  assert (E : Z.of_nat (Z.to_nat (RME_BLOCK_SIZE / PAGE_SIZE_4K)) = 272) by (by vm_compute). rewrite E.
  unfold RME_BLOCK_SIZE, RM_VSZ, PAGE_SIZE_4K in *. split.
  - intros (i & Hi & -> & ->). split; [lia|]. split; [dlia|lia].
  - intros (Hp & Hm & ->). exists (272 - p / 4096). dlia.
Qed.

(** ** Calls *)

Record rm_state_t := RmState {
  rm_ax : Z; rm_bx : Z; rm_cx : Z; rm_dx : Z; rm_sp : Z; rm_bp : Z; rm_si : Z; rm_di : Z;
  rm_ss : Z; rm_ds : Z; rm_es : Z; rm_cs : Z; rm_ip : Z; rm_fl : Z }.

Record world := World { rm_regs : rm_state_t; rm_mem : gmap Z Z; rm_io : list io_event }.

(** The emulator's state, zeroed, with the caller's registers and the window. *)
Definition OURS2RME (w : world) : tRME_State :=
  let o := rm_regs w in
  RmeState [rm_ax o; rm_cx o; rm_dx o; rm_bx o; rm_sp o; rm_bp o; rm_si o; rm_di o] [rm_es o; rm_cs o; rm_ss o; rm_ds o]
    (rm_ip o) (rm_fl o) RM_VIRTUAL (rm_mem w) 0 0 false false 0 (rm_io w).
Definition RME2OURS (r : tRME_State) : rm_state_t :=
  RmState (rD AX r) (rD BX r) (rD CX r) (rD DX r) (rD SP r) (rD BP r) (rD SI r) (rD DI r)
    (sg SREG_SS r) (sg SREG_DS r) (sg SREG_ES r) (sg SREG_CS r) (IP r) (Flags r).

(** No handler is installed: the callbacks are zeroed. *)
Definition HLECallbacks (_ : Z) : option (tRME_State -> tRME_State) := None.

Section rm.
Context (hw : list io_event -> Z -> Z -> Z) (fuel n : nat).

(** [RME_DO] *)
Definition RME_DO (run : M tRME_State Z) : M world bool := fun w =>
  match run (OURS2RME w) with
  | Ret (e, r) =>
      let w' := World (if e =? RME_ERR_OK then RME2OURS r else rm_regs w) (wmem r) (io r) in
      Ret (e =? RME_ERR_OK, w')
  | Fatal m => Fatal m
  | Fault a => Fault a
  | Deadlock => Deadlock
  | NoFuel => NoFuel
  end.
Definition rm_int (vec : Z) : M world bool := RME_DO (RME_CallInt hw HLECallbacks fuel n (u8 vec)).
Definition rm_call : M world bool := RME_DO (RME_Call hw HLECallbacks fuel n).
End rm.

(** ** What a caller may rely on *)

(** Registers within their widths, bytes in the window. *)
Record world_ok (w : world) : Prop := {
  wo_gpr : let o := rm_regs w in
    Forall (in_w 32) [rm_ax o; rm_cx o; rm_dx o; rm_bx o; rm_sp o; rm_bp o; rm_si o; rm_di o];
  wo_seg : let o := rm_regs w in Forall (in_w 16) [rm_es o; rm_cs o; rm_ss o; rm_ds o; rm_ip o; rm_fl o];
  wo_mem : map_Forall (fun _ b => in_w 8 b) (rm_mem w);
}.

Lemma HLECallbacks_ok k f s : HLECallbacks k = Some f -> rme_ok s -> rme_ok (f s).
Proof. done. Qed.
Lemma OURS2RME_ok w : world_ok w -> rme_ok (OURS2RME w).
Proof.
  intros [Hg Hs Hm]. rewrite !Forall_cons in Hs. destruct Hs as (? & ? & ? & ? & ? & ? & _).
  constructor; try done. split; [done|]. cbn. by rewrite !Forall_cons.
Qed.
Lemma RME2OURS_ok r : rme_ok r -> world_ok (World (RME2OURS r) (wmem r) (io r)).
Proof.
  intros Hr. constructor; [| |apply Hr]; cbn; rewrite !Forall_cons; split_and!; by (apply rD_range || apply sg_range || apply Hr || apply Forall_nil).
Qed.

Section contract.
Context (hw : list io_event -> Z -> Z -> Z) (fuel : nat).

Lemma RME_Call_ends n : forall s e s', rme_ok s -> RME_Call hw HLECallbacks fuel n s = Ret (e, s') ->
  rme_ok s' /\ (e = RME_ERR_OK -> at_magic s' = true).
Proof.
  induction n as [|n IH]; intros s e s' Hs; cbn [RME_Call]; fold (at_magic s); destruct (at_magic s) eqn:Hm; try (by intros [= <- <-]).
  unfold mseq. destruct (RME_Int_DoOpcode hw HLECallbacks fuel s) as [[e1 s1]| | | |] eqn:Hd; try done.
  pose proof (DoOpcode_ok hw HLECallbacks HLECallbacks_ok fuel s e1 s1 Hs Hd) as Hs1.
  destruct (Z.eqb_spec e1 0) as [->|Hne]; cbn; [by apply IH|]. intros [= <- <-]. done.
Qed.

Lemma RME_DO_ends (run : M tRME_State Z) w b w' : world_ok w ->
  (forall e s', run (OURS2RME w) = Ret (e, s') -> rme_ok s' /\ (e = RME_ERR_OK -> at_magic s' = true)) ->
  RME_DO run w = Ret (b, w') ->
  world_ok w' /\ if b then rm_cs (rm_regs w') = RME_MAGIC_CS /\ rm_ip (rm_regs w') = RME_MAGIC_IP else rm_regs w' = rm_regs w.
Proof.
  intros Hw Hrun. unfold RME_DO. destruct (run (OURS2RME w)) as [[e r]| | | |] eqn:Hr; try done.
  destruct (Hrun e r eq_refl) as [Hok Hmag]. destruct (Z.eqb_spec e RME_ERR_OK) as [->|Hne]; intros [= <- <-].
  - split; [by apply RME2OURS_ok|]. specialize (Hmag eq_refl). unfold at_magic in Hmag.
    rewrite andb_true_iff, !Z.eqb_eq in Hmag. cbn. tauto.
  - destruct Hw. split; [|done]. constructor; try done. apply Hok.
Qed.

(** C26: rm_int and rm_call keep the world well-formed, whatever code they
    emulate: registers within their widths, bytes in the window.  They answer
    true only when the code came to FFFF:FFFF, and on every error the caller's
    register block is left as it was. *)
Theorem rm_calls_contract n vec w b w' : world_ok w ->
  rm_int hw fuel n vec w = Ret (b, w') \/ rm_call hw fuel n w = Ret (b, w') ->
  world_ok w' /\ if b then rm_cs (rm_regs w') = RME_MAGIC_CS /\ rm_ip (rm_regs w') = RME_MAGIC_IP else rm_regs w' = rm_regs w.
Proof.
  intros Hw [H|H]; eapply RME_DO_ends; [done| |exact H|done| |exact H]; intros e s' He.
  - pose proof (u8_in vec). unfold in_w in *. rewrite RME_CallInt_eq in He by (by apply OURS2RME_ok || lia).
    eapply RME_Call_ends; [|exact He]. by apply int_entry_ok, OURS2RME_ok.
  - eapply RME_Call_ends; [|exact He]. by apply OURS2RME_ok.
Qed.

(** C14: A real mode interrupt comes back.  If the handler of [vec] runs [m]
    instructions and comes to an IRET with the stack it was entered with and
    its frame untouched, rm_int answers true after one more instruction: SP
    and the flags are the caller's, the other registers and the window are
    what the handler left. *)
Theorem rm_int_returns m n vec w s2 : let s := OURS2RME w in
  (0 < fuel)%nat -> world_ok w -> in_w 8 vec ->
  nsteps (rme_step hw HLECallbacks fuel) m (int_entry vec s) s2 -> (m < n)%nat ->
  code_byte s2 0 = 0xCF -> at_magic s2 = false ->
  rW SP s2 = u16 (rm_sp (rm_regs w) - 6) -> sg SREG_SS s2 = rm_ss (rm_regs w) ->
  (forall d, d ∈ [-6; -4; -2] -> peek 2 (slot s d) (wmem s2) = peek 2 (slot s d) (wmem (int_entry vec s))) ->
  exists w', rm_int hw fuel n vec w = Ret (true, w') /\
    let o := rm_regs w' in
    u16 (rm_sp o) = u16 (rm_sp (rm_regs w)) /\ rm_fl o = rm_fl (rm_regs w) /\
    [rm_ax o; rm_bx o; rm_cx o; rm_dx o; rm_bp o; rm_si o; rm_di o] = [rD AX s2; rD BX s2; rD CX s2; rD DX s2; rD BP s2; rD SI s2; rD DI s2] /\
    [rm_ss o; rm_ds o; rm_es o] = [sg SREG_SS s2; sg SREG_DS s2; sg SREG_ES s2] /\ rm_mem w' = wmem s2.
Proof.
  intros s Hf Hw Hv Hrun Hmn Hiret Hm Hsp Hss Hframe. unfold in_w in Hv.
  destruct (RME_CallInt_returns hw HLECallbacks HLECallbacks_ok fuel m n vec s s2) as (s3 & H & Hsp3 & Hfl & Hr & Hk & Hmem); try done.
  - by apply OURS2RME_ok.
  - lia.
  - rewrite Hsp. unfold s, rW, u16. by rewrite Zminus_mod_idemp_l.
  - exists (World (RME2OURS s3) (wmem s3) (io s3)). unfold rm_int, RME_DO.
    replace (u8 vec) with vec by (unfold u8; rewrite Z.mod_small; lia). unfold s in H. rewrite H. split; [done|].
    cbn -[rD sg].
    rewrite (Hr AX), (Hr BX), (Hr CX), (Hr DX), (Hr BP), (Hr SI), (Hr DI), (Hk SREG_SS), (Hk SREG_DS), (Hk SREG_ES) by done.
    by split_and!.
Qed.
End contract.

Module RmDemo.
Import RmeSpecDemo.
(** Interrupt 0 at 1000:0000: an IRET. *)
Definition w0 : world :=
  World (RmState 1 2 3 4 0x100 6 7 8 0x2000 10 11 12 13 FLAG_DEFAULT) (<[0x10000 := 0xCF]> (<[3 := 0x10]> ∅)) [].
Lemma w0_ok : world_ok w0.
Proof. constructor; cbv zeta; apply (bool_decide_unpack _); vm_compute; exact I. Qed.
Definition w1 : world := match rm_int no_ports 4 2 0 w0 with Ret (_, w) => w | _ => w0 end.

Lemma rm_calls_contract_witness : rm_cs (rm_regs w1) = RME_MAGIC_CS /\ rm_ip (rm_regs w1) = RME_MAGIC_IP.
Proof. apply (rm_calls_contract no_ports 4 2 0 w0 true w1 w0_ok). left. vm_compute. reflexivity. Defined.
Lemma rm_int_returns_witness : exists w', rm_int no_ports 4 1 0 w0 = Ret (true, w') /\ u16 (rm_sp (rm_regs w')) = 0x100.
Proof.
  destruct (rm_int_returns no_ports 4 0 1 0 w0 (int_entry 0 (OURS2RME w0))) as (w' & H & Hsp & _).
  - lia.
  - exact w0_ok.
  - by unfold in_w.
  - constructor.
  - lia.
  - vm_compute. reflexivity.
  - vm_compute. reflexivity.
  - vm_compute. reflexivity.
  - vm_compute. reflexivity.
  - reflexivity.
  - exists w'. exact (conj H Hsp).
Defined.
End RmDemo.
